(* ===== verification/_CoqProject ===== *)
-Q . S2P
Prelude.v
GoStrings.v
Utf8.v
Params.v
Uri.v
Headers.v
HeadersMap.v
Message.v
Parser.v
Injection.v
Stream.v
Net.v
Transport.v
Reader.v
Resolver.v
Metrics.v
Ids.v
Transaction.v
TxMachines.v
TxInvariants.v
TxGrowth.v
TxOnce.v
TxTimers.v
TxRefinement.v
TxLiveness.v
TxSchedule.v
Proc.v
Dialog.v
Hash.v
Digest.v
Sdp.v
XmlToken.v
Xml.v
XmlRead.v
XmlRoundTrip.v
Ua.v
UaTheorems.v
UaGrowth.v
Proxy.v
ProxyTheorems.v
ProxySteps.v
B2bua.v
B2buaSteps.v
Platform.v
Device.v
Listen.v
Commands.v
GbTheorems.v
GbExchange.v
Registrar.v
TextTheorems.v
TxTheorems.v
