(* ===== verification/Prelude.v ===== *)
(** * Verification of the gb28281 SIP stack

    The repository is a SIP stack (RFC 3261) in Go with the two ends of the GB/T 28181
    surveillance protocol on top of it.  This development models the implementation
    files under src/ as executable functions and proves what makes them correct.

    ** How the program is put together

    Bytes come from a socket of transport.go.  A datagram goes to [ParseMessage]
    (parser.go), a TCP stream first through the [StreamSplitter] of the same file;
    the parser builds on uri.go, params.go, headers.go, headers_map.go and
    message.go.  A message goes to [TxManager.handlePacket] (transaction.go), which
    finds or makes a transaction and hands new requests to the one callback it has.
    That callback is the request handler of a user agent (ua.go, with the dialogs of
    dialog.go) or of a proxy (proxy.go).  A B2BUA (b2bua.go) is the application of two
    user agents; the platform and the device (gb28181/platform.go, gb28181/device.go)
    are each the application of one, with the XML bodies of gb28181/xml.go and the
    media descriptions of gb28181/sdp.go.  resolver.go turns a URI into addresses,
    logging.go counts events.

    ** The files, and the code each one models

    Text layer:
    - Prelude: byte strings, errors.go ([GoError], the monad [result]), shared lemmas.
    - GoStrings, Utf8, Net, Hash, XmlToken: what the source uses of Go's strings, bytes,
      strconv, unicode/utf8, net, crypto/md5, crypto/sha256, crypto/sha512 and of the
      decoder of encoding/xml.
    - Params (params.go), Uri (uri.go), Headers (headers.go), HeadersMap
      (headers_map.go), Message (message.go), Parser and Stream (parser.go).
    - Injection: lemmas on what parsed text can render to.
    Transport and transactions:
    - Transport (addresses, routing, [Send], the connection pool of transport.go with
      accepting, dialling and the janitor), Reader
      (its read loops, from the bytes of a socket to packets),
      Resolver (resolver.go), Metrics (the counters of logging.go), Ids (branches,
      Call-IDs and tags of transaction.go and dialog.go).
    - Transaction (transaction.go): the manager [TxManager], a store of transaction objects
      with the table from keys to pointers, tasks for goroutines and timers, a trace
      of what left the manager; one label of [step] per packet, call and timer.
    - TxMachines (the writes of the manager to an object), TxInvariants, TxGrowth (what
      no step takes back), TxOnce, TxTimers (a transaction that waits has its timer
      running), TxRefinement (the guarded machines of clients and servers, and the
      simulation), TxLiveness (a transaction that waits ends when time passes),
      TxSchedule (when it sends its request again until then).
    User agents and applications:
    - Proc: the monad of computations that change a state and may panic.
    - Dialog (dialog.go), Digest and Ua (ua.go), Proxy (proxy.go), B2bua (b2bua.go).
    - UaGrowth (what an agent never takes back: dialog pointers and sessions), B2buaSteps
      (the moves of a bridge and its two agents as a step relation, with its invariant),
      ProxySteps (the same for a proxy and its transaction manager).
    - Sdp (gb28181/sdp.go), Xml (gb28181/xml.go: the encoder, and the fields of an element
      tree), XmlRead and XmlRoundTrip (what the encoder writes is read back), Platform
      (gb28181/platform.go), Device (gb28181/device.go), Listen (the sockets and
      goroutines of transport.go, on every path of its constructors, and how the
      endpoints start and stop on them), Commands (cmd/sipserv, cmd/gb28181serv).
    Theorems: TextTheorems, TxTheorems, UaTheorems, ProxyTheorems, GbTheorems,
    Registrar (the platform refines an abstract registrar, with a policy for the points
    on which comments and code part) and GbExchange; those of the
    SRV order, of XML bodies, of the B2BUA and of the proxy's dialogs close Resolver,
    XmlRoundTrip, B2buaSteps and ProxySteps.

    Definitions carry the names of the Go functions and methods; a method that would
    clash takes its type as a prefix ([UA_handleRequest], [DM_Add]).

    ** What the theorems show

    - Text: messages, parameters, URIs, typed headers, session descriptions and XML bodies
      read back from their rendering; a stream in pieces of any size yields the messages
      sent, and for arbitrary bytes the pieces make no difference; a parsed message
      respects the limits and renders no line break of its own; the loops return.
    - Headers: canonical names of ASCII text are a normal form, [Set] and [SetBody]
      compute their specification; [Equal] on URIs with ASCII users and hosts is
      equality of canonical forms.
    - Transactions: table and store agree in every reachable state, final responses are
      not replaced, retransmissions are absorbed and forged CANCELs dropped, over every
      schedule.  Over the schedules in which no other goroutine runs between the send
      and the start of a [Request] or between the halves of a [timeout]: each object
      moves by the steps of its machine, an INVITE client hears one outcome, a
      transaction that waits for a timer ends.  A request that is not answered is
      handed to the transport again at exactly the computed times.
    - Dialogs and the user agent: requests of a dialog are numbered in order and carry
      its route set; after an INVITE and its answer the two agents hold the same call
      and the caller's requests find it at the callee (the callee's do not find it at
      the caller); a BYE ends a dialog only as its peer, and what else it can change;
      which packets crash the agent, with the crashes of its manager.
    - Proxy and B2BUA: what a forwarded request keeps, which failure is relayed and what
      Timer C does, that in every reachable state of a proxy its dialogs come from calls
      it forwarded and a BYE is obeyed from a leg of its dialog only, and that in every
      reachable state of a bridge no dialog is the leg of two calls, so a BYE packet that
      either agent accepts for a leg ends one call and hangs up its other leg.
    - GB28181: the registration handshake completes between the two ends, a device is
      held registered only after a digest of its password was received, the platform is an
      abstract registrar moved only by what packets justify, and it
      learns from a catalog query the channels the device has.
    - Sockets: a transport has the sockets it was asked for, each with its reader, or an
      error and none; a platform that stops leaves none.  The catalog of a simulated
      device can be sent.
    Lemmas beside them follow the schedules and inputs in which the code goes wrong:
    panics, lost responses, requests forked twice.

    ** Modelling decisions

    - A Go string or byte slice is a list of bytes.  Case folding and white space are
      ASCII, which is exact for bytes below 0x80: Go also folds letters and trims
      spaces above it (U+00A0, U+3000) and replaces what is no UTF-8.  Where a theorem
      is about case alone it asks for ASCII; the well-formedness of round trips is
      meant for text without those spaces at its ends.
    - Integers that wrap are written with their modulus (32-bit sequence numbers,
      64-bit counters); a [time.Duration] is a Z, without its 64-bit overflow.
    - Objects that are shared through pointers live in stores, by pointer; nil is
      [None].  What panics is an outcome of its own.
    - A method is one atomic step.  Many methods release their lock before they
      are done; the pieces are steps of their own for [Request] (before and after its
      send), for the [timeout] of a client (up to its unlock, and after it) and for the
      rounds of [fork].  A method that reads a nil Via ([sendACK]) leaves [EPanic] in
      the manager's trace, and the agent or proxy that runs the manager panics on it.
      Goroutines and timers are tasks with a definition
      of one wake-up; a closed [stop] channel wins over a timer that is also due.
    - A wait for an answer takes the answer as an argument, so the theorems hold for
      every answer.
    - What the stack is given from outside is a class or an argument: [Entropy]
      (random identifiers), [Sender] (the result of each send), [Resolver] (address
      lookups) and [NetDNS] (the DNS client behind the one of resolver.go),
      [Listener] (the ports the operating system binds),
      [XmlNames] (which letters above ASCII encoding/xml takes in names), the clock.
    - Callbacks of the application are recorded in their order.  The hooks [OnDevice]
      and [OnInvite] of the platform are taken to be set.

    ** Fuel

    [header_loop] has one step more than the limit on header lines
    ([header_loop_total]).  [Feed] has one round per buffered byte, enough unless an
    empty message is framed (claim C6).  [set_dedup], [draw] and
    [shuffle_groups] have the length of their list, of which each step consumes an
    element ([Headers_Set_spec], claim C36); [blocks] too.  [ipv6_groups] has a step
    per group an address can hold, and [FormatUint] one per bit
    ([ParseUint_FormatUint]).  [times_from], the resend times of a request, takes
    one step per interval ([enough_all]).  [text_loop] and [attr_loop] take a byte per round, and the
    tokens of an XML body are at most two per byte ([decode_fuel]).

    ** Not modelled

    The system calls on sockets and the DNS client of Go's library: their results are
    arguments here.  The loggers of logging.go and those the proxy calls,
    and what the commands print: they format and write text.  The flag package and
    signals.  The media relay of the B2BUA is an interface of the source; its calls
    are recorded.  A [Response] handed to [Respond] is a value, so a caller that
    changes it afterwards is not seen. *)

From stdpp Require Export base tactics option list fin_maps gmap strings.
From Stdlib Require Export Ascii ZArith Lia.
#[export] Set Warnings "-uniform-inheritance".

(** ** Byte strings

    A Go [string] and a Go [[]byte] are both sequences of bytes. *)

Abbreviation str := (list ascii).

Definition lit (s : string) : str := String.list_ascii_of_string s.

Coercion lit : string >-> list.

Declare Scope go_scope.
Delimit Scope go_scope with go.

(** Go's [==] and [!=] on a type with decidable equality. *)
Notation "x == y" := (bool_decide (x = y)) (at level 70, no associativity) : go_scope.
Notation "x != y" := (negb (bool_decide (x = y))) (at level 70, no associativity) : go_scope.

Open Scope string_scope.
Open Scope nat_scope.
Open Scope list_scope.
Open Scope go_scope.

(** ** Errors and results

    Go wraps its sentinel errors with [fmt.Errorf("%w: ...")]; the model keeps
    the sentinel ([errors.go]) and drops the message text. *)

Inductive GoError :=
| ErrParse | ErrShortMessage | ErrBadStartLine | ErrBadHeader | ErrBadUri
| ErrBadAddress | ErrNoVia | ErrNoFrom | ErrNoTo | ErrNoCallID | ErrNoCSeq
| ErrNoContact | ErrDialogNotFound | ErrTxNotFound | ErrTxExists
| ErrTxTerminated | ErrTransportClosed | ErrInvalidResponse | ErrUnsupported
| ErrTimeout
| ErrMaxForwards              (* proxy.go *)
| ErrOther.                   (* an error value with no sentinel *)

#[export] Instance GoError_eq_dec : EqDecision GoError.
Proof. solve_decision. Defined.

Inductive result (A : Type) :=
| Ok (a : A)
| Err (e : GoError).
Arguments Ok {A} a.
Arguments Err {A} e.

#[export] Instance result_ret : MRet result := λ A a, Ok a.
#[export] Instance result_bind : MBind result := λ A B f r,
  match r with Ok a => f a | Err e => Err e end.
#[export] Instance result_fmap : FMap result := λ A B f r,
  match r with Ok a => Ok (f a) | Err e => Err e end.

#[export] Instance result_eq_dec {A} `{EqDecision A} : EqDecision (result A).
Proof. solve_decision. Defined.

Definition is_ok {A} (r : result A) : bool :=
  match r with Ok _ => true | Err _ => false end.

(** [if err == nil] of a Go call whose error value is not looked at. *)
Definition ok_opt {A} (r : result A) : option A :=
  match r with Ok a => Some a | Err _ => None end.

(** [fmt.Errorf("%w: %v", e, err)]: the sentinel of the wrapping error. *)
Definition wrap_err {A} (e : GoError) (r : result A) : result A :=
  match r with Ok a => Ok a | Err _ => Err e end.

(** A Go function that can also panic (nil dereference, slice out of range). *)
Inductive outcome (A : Type) :=
| Ret (a : A)
| Panic.
Arguments Ret {A} a.
Arguments Panic {A}.

#[export] Instance outcome_ret : MRet outcome := λ A a, Ret a.
#[export] Instance outcome_bind : MBind outcome := λ A B f r,
  match r with Ret a => f a | Panic => Panic end.

(** ** Tactics *)

(** Case analysis on every [decide]/[bool_decide]/[match] in the goal. *)
Ltac cases :=
  repeat (case_decide || case_bool_decide || case_match); simplify_eq/=.

(** Prove a closed boolean fact, or an equation between closed values. *)
Ltac by_compute := vm_compute; first [reflexivity | exact I].

(** Turn boolean hypotheses into propositions. *)
Ltac bool_hyps :=
  repeat match goal with
  | H : Is_true (_ && _) |- _ => apply andb_True in H; destruct H
  | H : Is_true (negb _) |- _ => apply negb_True in H
  | H : ¬ Is_true (bool_decide _) |- _ => rewrite bool_decide_spec in H
  | H : Is_true (bool_decide _) |- _ => apply bool_decide_unpack in H
  end.

(** Turn comparisons of numbers that hold as booleans into inequalities. *)
Ltac num_hyps :=
  bool_hyps; repeat match goal with
  | H : Is_true (_ <=? _)%Z |- _ => apply Is_true_true, Z.leb_le in H
  | H : Is_true (_ <? _)%Z |- _ => apply Is_true_true, Z.ltb_lt in H
  | H : Is_true (_ =? _)%Z |- _ => apply Is_true_true, Z.eqb_eq in H
  | H : Is_true (_ <=? _) |- _ => apply Is_true_true, Nat.leb_le in H
  | H : Is_true (_ <? _) |- _ => apply Is_true_true, Nat.ltb_lt in H
  end.

(** Case analysis on the first [bool_decide] of the goal only. *)
Ltac case_test :=
  match goal with
  | |- context [bool_decide ?P] =>
    let H := fresh "Heq" in destruct (bool_decide_reflect P) as [H|H]
  end.

(** Decide a statement over all 256 bytes. *)
Ltac all_bytes c := destruct c as [[] [] [] [] [] [] [] []].

(** ** Generic lemmas *)

Lemma result_bind_Ok {A B} (f : A → result B) a : mbind f (Ok a) = f a.
Proof. done. Qed.

Lemma result_bind_inv {A B} (f : A → result B) (r : result A) b :
  r ≫= f = Ok b → ∃ a, r = Ok a ∧ f a = Ok b.
Proof. destruct r; simpl; [eauto|done]. Qed.

Lemma forallb_same {A} (f g : A → bool) (l : list A) :
  (∀ a, f a = g a) → forallb f l = forallb g l.
Proof. intros H. induction l as [|a l IH]; simpl; [done|]. by rewrite H, IH. Qed.

(** Comparing pointwise is comparing the images. *)
Lemma forallb_pointwise {A B} `{EqDecision B} (f g : A → B) (l : list A) :
  forallb (λ a, f a == g a) l = bool_decide (map f l = map g l).
Proof.
  induction l as [|a l IH]; simpl; [done|]. rewrite IH.
  repeat case_test; simpl; try done; congruence.
Qed.

Lemma Forall_forallb {A} (f : A → bool) (l : list A) :
  forallb f l ↔ Forall (λ a, Is_true (f a)) l.
Proof.
  induction l as [|a l IH]; simpl; [by split; [constructor|]|].
  by rewrite andb_True, Forall_cons, IH.
Qed.
