(* ===== verification/GoStrings.v ===== *)
(** * Go's [strings], [bytes] and [strconv], as far as the stack uses them

    Strings are byte lists.  The case and white-space functions are modelled by
    their ASCII behaviour, which is exact on bytes below 0x80; [IndexByte] and
    the other index functions return [None] where Go returns -1.  The first
    half holds the definitions, the second the lemma library that the parsers'
    round-trip theorems are proved with. *)

From S2P Require Import Prelude.

(** ** Byte classes *)

Definition code (c : ascii) : N := N_of_ascii c.

(** ["\000"] and the like, for bytes with no literal of their own. *)
Definition byte (n : N) : ascii := ascii_of_N n.
Definition CR : ascii := byte 13.
Definition LF : ascii := byte 10.
Definition TAB : ascii := byte 9.
Definition SP : ascii := byte 32.
Definition NUL : ascii := byte 0.
Definition DQUOTE : ascii := byte 34.
Definition BSLASH : ascii := byte 92.
Definition CRLF : str := [CR; LF].

(** [unicode.IsSpace] on ASCII: \t \n \v \f \r and space. *)
Definition is_space (c : ascii) : bool :=
  ((9 <=? code c) && (code c <=? 13))%N || (code c =? 32)%N.

Definition is_digit (c : ascii) : bool := ((48 <=? code c) && (code c <=? 57))%N.
Definition is_upper (c : ascii) : bool := ((65 <=? code c) && (code c <=? 90))%N.
Definition is_lower (c : ascii) : bool := ((97 <=? code c) && (code c <=? 122))%N.
Definition is_alnum (c : ascii) : bool := is_digit c || is_upper c || is_lower c.

(** A control byte: [c < 0x20 || c == 0x7f]. *)
Definition is_ctl (c : ascii) : bool := (code c <? 32)%N || (code c =? 127)%N.

Definition lower_byte (c : ascii) : ascii := if is_upper c then byte (code c + 32) else c.
Definition upper_byte (c : ascii) : ascii := if is_lower c then byte (code c - 32) else c.

(** Every byte of [s] satisfies [P]. *)
Definition all (P : ascii → bool) (s : str) : bool := forallb P s.

(** [c] is one of the bytes of [s]. *)
Definition mem (c : ascii) (s : str) : bool := existsb (λ x, x == c) s.

(** ** [strings] *)

Definition ToLower (s : str) : str := map lower_byte s.
Definition ToUpper (s : str) : str := map upper_byte s.
Definition EqualFold (s t : str) : bool := ToLower s == ToLower t.

Fixpoint trim_left (p : ascii → bool) (s : str) : str :=
  match s with
  | [] => []
  | c :: s' => if p c then trim_left p s' else s
  end.
Definition trim_right (p : ascii → bool) (s : str) : str := rev (trim_left p (rev s)).

Definition TrimSpace (s : str) : str := trim_right is_space (trim_left is_space s).
Definition TrimLeft (s cutset : str) : str := trim_left (λ c, mem c cutset) s.
Definition TrimRight (s cutset : str) : str := trim_right (λ c, mem c cutset) s.

Fixpoint HasPrefix (s p : str) {struct p} : bool :=
  match p, s with
  | [], _ => true
  | _ :: _, [] => false
  | b :: p', c :: s' => (c == b) && HasPrefix s' p'
  end.

Definition TrimPrefix (s p : str) : str := if HasPrefix s p then drop (length p) s else s.

Fixpoint find_byte (p : ascii → bool) (s : str) : option nat :=
  match s with
  | [] => None
  | c :: s' => if p c then Some 0 else S <$> find_byte p s'
  end.

Definition IndexByte (s : str) (c : ascii) : option nat := find_byte (λ x, x == c) s.
Definition IndexAny (s chars : str) : option nat := find_byte (λ x, mem x chars) s.
Definition LastIndexByte (s : str) (c : ascii) : option nat :=
  (λ i, length s - 1 - i) <$> IndexByte (rev s) c.

Definition ContainsByte (s : str) (c : ascii) : bool := mem c s.
Definition ContainsAny (s chars : str) : bool := existsb (λ x, mem x chars) s.

(** [strings.Index] for a substring. *)
Fixpoint Index (s sub : str) : option nat :=
  if HasPrefix s sub then Some 0
  else match s with [] => None | _ :: s' => S <$> Index s' sub end.

(** [strings.Cut] with a one-byte separator. *)
Definition Cut (s : str) (sep : ascii) : str * str * bool :=
  match IndexByte s sep with
  | Some i => (take i s, drop (S i) s, true)
  | None => (s, [], false)
  end.

Fixpoint split_go (sep : str) (skip : nat) (cur s : str) : list str :=
  match s with
  | [] => [cur]
  | c :: s' =>
    match skip with
    | S k => split_go sep k cur s'
    | 0 => if HasPrefix s sep then cur :: split_go sep (length sep - 1) [] s'
           else split_go sep 0 (cur ++ [c]) s'
    end
  end.

(** [strings.Split] with a non-empty separator. *)
Definition Split (s sep : str) : list str := split_go sep 0 [] s.

(** [strings.SplitN] with a one-byte separator and [n >= 1] pieces. *)
Fixpoint SplitN (s : str) (sep : ascii) (n : nat) : list str :=
  match n with
  | 0 => []
  | 1 => [s]
  | S n' => match Cut s sep with
            | (a, b, true) => a :: SplitN b sep n'
            | _ => [s]
            end
  end.

Fixpoint Join (l : list str) (sep : str) : str :=
  match l with
  | [] => []
  | [s] => s
  | s :: l' => s ++ sep ++ Join l' sep
  end.

Fixpoint fields_go (cur s : str) : list str :=
  match s with
  | [] => if cur == [] then [] else [cur]
  | c :: s' =>
    if is_space c then (if cur == [] then fields_go [] s' else cur :: fields_go [] s')
    else fields_go (cur ++ [c]) s'
  end.
Definition Fields (s : str) : list str := fields_go [] s.

Fixpoint replace_go (old new : str) (skip : nat) (s : str) : str :=
  match s with
  | [] => []
  | c :: s' =>
    match skip with
    | S k => replace_go old new k s'
    | 0 => if HasPrefix s old then new ++ replace_go old new (length old - 1) s'
           else c :: replace_go old new 0 s'
    end
  end.

(** [strings.ReplaceAll] with a non-empty [old]. *)
Definition ReplaceAll (s old new : str) : str := replace_go old new 0 s.

(** ** [strconv] *)

Definition digit_val (c : ascii) : option N :=
  if is_digit c then Some (code c - 48)%N
  else if is_lower c then Some (code c - 87)%N
  else if is_upper c then Some (code c - 55)%N
  else None.

Definition digit_char (d : N) : ascii := if (d <? 10)%N then byte (48 + d) else byte (87 + d).

Fixpoint parse_digits (base : N) (s : str) (acc : N) : option N :=
  match s with
  | [] => Some acc
  | c :: s' =>
    d ← digit_val c;
    if (d <? base)%N then parse_digits base s' (acc * base + d)%N else None
  end.

(** [strconv.ParseUint(s, base, bits)] for an explicit base. *)
Definition ParseUint (s : str) (base bits : N) : result Z :=
  if s == [] then Err ErrOther
  else match parse_digits base s 0 with
       | Some n => if (n <? 2 ^ bits)%N then Ok (Z.of_N n) else Err ErrOther
       | None => Err ErrOther
       end.

Definition max_int : Z := 2 ^ 63 - 1.
Definition min_int : Z := - 2 ^ 63.
Definition in_int (z : Z) : bool := (min_int <=? z)%Z && (z <=? max_int)%Z.

(** The sign, and the digits after it. *)
Definition atoi_sign (s : str) : bool * str :=
  match s with
  | c :: s' => if c == "-"%char then (true, s') else if c == "+"%char then (false, s') else (false, s)
  | [] => (false, [])
  end.

(** [strconv.Atoi]: 64-bit [int]. *)
Definition Atoi (s : str) : result Z :=
  let '(neg, ds) := atoi_sign s in
  if ds == [] then Err ErrOther
  else match parse_digits 10 ds 0 with
       | Some n => let z := if neg then (- Z.of_N n)%Z else Z.of_N n in
                   if in_int z then Ok z else Err ErrOther
       | None => Err ErrOther
       end.

Fixpoint format_go (fuel : nat) (base n : N) (acc : str) : str :=
  match fuel with
  | 0 => acc
  | S f => let acc' := digit_char (n mod base) :: acc in
           if (n / base =? 0)%N then acc' else format_go f base (n / base) acc'
  end.

(** [strconv.FormatUint(n, base)]; one step per bit is fuel enough. *)
Definition FormatUint (n base : N) : str := format_go (S (N.to_nat (N.size n))) base n [].

Definition Itoa (z : Z) : str :=
  if (z <? 0)%Z then "-"%char :: FormatUint (Z.to_N (- z)) 10 else FormatUint (Z.to_N z) 10.

(** ** Lemmas: byte classes *)

Implicit Types (P Q : ascii → bool) (s t : str) (c : ascii).

(** [c] does not occur in [s]. *)
Abbreviation free c s := (all (λ x, x != c) s).

Lemma all_cons P c s : all P (c :: s) = P c && all P s.
Proof. done. Qed.

Lemma all_app P s t : all P (s ++ t) = all P s && all P t.
Proof. apply forallb_app. Qed.

Lemma all_elem P s c : all P s → c ∈ s → P c.
Proof.
  intros H Hc. apply Is_true_true. apply Is_true_true in H.
  eapply forallb_forall in H; [exact H|]. by apply list_elem_of_In.
Qed.

Lemma all_intro P s : (∀ c, c ∈ s → P c) → all P s.
Proof.
  intros H. apply Is_true_true, forallb_forall. intros c Hc.
  apply Is_true_true, H. by apply list_elem_of_In.
Qed.

Lemma all_impl P Q s : all P s → (∀ c, P c → Q c) → all Q s.
Proof. intros H HPQ. apply all_intro. intros c Hc. eapply HPQ, all_elem; eauto. Qed.

Lemma all_sub P s t : all P s → (∀ c, c ∈ t → c ∈ s) → all P t.
Proof. intros H Hst. apply all_intro. intros c Hc. eapply all_elem; eauto. Qed.

Lemma all_rev P s : all P (rev s) ↔ all P s.
Proof. split; intros H; eapply all_sub; eauto; intros c; rewrite !list_elem_of_In, <-in_rev; done. Qed.

Lemma free_elem c s : free c s ↔ c ∉ s.
Proof.
  split.
  - intros H Hc. eapply all_elem in H; [|exact Hc]. by cases.
  - intros H. apply all_intro. intros d Hd. by cases.
Qed.

Lemma mem_elem c s : mem c s ↔ c ∈ s.
Proof.
  unfold mem. rewrite Is_true_true, existsb_exists. split.
  - intros (x & Hx & Heq). apply list_elem_of_In. by case_bool_decide; subst.
  - intros H. exists c. split; [by apply list_elem_of_In|]. by case_bool_decide.
Qed.

(** [split_all]: take [all] apart, in the hypotheses and in the goal. *)
Ltac split_all :=
  repeat match goal with
  | H : Is_true (all _ (_ :: _)) |- _ => rewrite all_cons in H
  | H : Is_true (all _ (_ ++ _)) |- _ => rewrite all_app in H
  | H : Is_true (_ && _) |- _ => apply andb_True in H; destruct H
  | |- Is_true (all _ []) => exact I
  | |- Is_true (all _ (_ :: _)) => rewrite all_cons
  | |- Is_true (all _ (_ ++ _)) => rewrite all_app
  | |- Is_true (_ && _) => apply andb_True; split
  end.

(** [solve_class]: a string all of whose bytes are in one class is free of, or
    within, another; the classes are compared on the 256 bytes. *)
Ltac solve_class :=
  match goal with
  | H : Is_true (all _ ?s) |- Is_true (all _ ?s) =>
    apply (all_impl _ _ s H); let c := fresh "c" in
    intros c; all_bytes c; vm_compute; tauto
  end.

(** ** Lemmas: case folding *)

Lemma lower_byte_idem c : lower_byte (lower_byte c) = lower_byte c.
Proof. all_bytes c; reflexivity. Qed.

Lemma lower_upper_byte c : lower_byte (upper_byte c) = lower_byte c.
Proof. all_bytes c; reflexivity. Qed.

Lemma upper_byte_idem c : upper_byte (upper_byte c) = upper_byte c.
Proof. all_bytes c; reflexivity. Qed.

Lemma ToLower_idem s : ToLower (ToLower s) = ToLower s.
Proof. unfold ToLower. rewrite map_map. apply map_ext, lower_byte_idem. Qed.

Lemma ToUpper_idem s : ToUpper (ToUpper s) = ToUpper s.
Proof. unfold ToUpper. rewrite map_map. apply map_ext, upper_byte_idem. Qed.

Lemma ToLower_ToUpper s : ToLower (ToUpper s) = ToLower s.
Proof. unfold ToLower, ToUpper. rewrite map_map. apply map_ext, lower_upper_byte. Qed.

Lemma ToLower_app s t : ToLower (s ++ t) = ToLower s ++ ToLower t.
Proof. apply map_app. Qed.

Lemma ToUpper_app s t : ToUpper (s ++ t) = ToUpper s ++ ToUpper t.
Proof. apply map_app. Qed.

Lemma EqualFold_true s t : EqualFold s t = true ↔ ToLower s = ToLower t.
Proof. apply bool_decide_eq_true. Qed.

Lemma EqualFold_false s t : EqualFold s t = false ↔ ToLower s ≠ ToLower t.
Proof. apply bool_decide_eq_false. Qed.

(** Case-insensitive equality, the relation [EqualFold] decides. *)
Definition eq_fold (s t : str) : Prop := ToLower s = ToLower t.

#[export] Instance eq_fold_equivalence : Equivalence eq_fold.
Proof. unfold eq_fold. split; repeat intro; congruence. Qed.

#[export] Instance EqualFold_proper : Proper (eq_fold ==> eq_fold ==> eq) EqualFold.
Proof. intros s s' Hs t t' Ht. unfold EqualFold. by rewrite Hs, Ht. Qed.

#[export] Instance ToLower_proper : Proper (eq_fold ==> eq) ToLower.
Proof. by intros s t. Qed.

(** ** Lemmas: searching and cutting *)

Lemma find_byte_app P a c b :
  all (λ x, negb (P x)) a → P c → find_byte P (a ++ c :: b) = Some (length a).
Proof.
  induction a as [|x a IH]; simpl; intros Ha Hc.
  - apply Is_true_true in Hc. by rewrite Hc.
  - apply andb_True in Ha as [Hx Ha]. destruct (P x); [done|]. by rewrite IH.
Qed.

Lemma find_byte_None P s : find_byte P s = None ↔ all (λ x, negb (P x)) s.
Proof.
  induction s as [|x s IH]; simpl; [done|].
  destruct (P x); simpl; [done|]. rewrite fmap_None. done.
Qed.

Lemma find_byte_Some P s i :
  find_byte P s = Some i →
  ∃ a c b, s = a ++ c :: b ∧ length a = i ∧ all (λ x, negb (P x)) a ∧ P c.
Proof.
  revert i. induction s as [|x s IH]; simpl; [done|]. intros i.
  destruct (P x) eqn:Hx.
  - intros [= <-]. exists [], x, s. by rewrite Hx.
  - intros H. apply fmap_Some in H as (j & Hj & ->).
    destruct (IH _ Hj) as (a & c & b & -> & <- & Ha & Hc).
    exists (x :: a), c, b. simpl. by rewrite Hx.
Qed.

Lemma find_byte_app_l P s t i : find_byte P s = Some i → find_byte P (s ++ t) = Some i.
Proof.
  intros H. apply find_byte_Some in H as (a & c & b & -> & <- & Ha & Hc).
  rewrite <-app_assoc. by apply find_byte_app.
Qed.

Lemma take_len_app (a b : str) : take (length a) (a ++ b) = a.
Proof. apply take_app_length. Qed.

Lemma drop_len_app (a b : str) : drop (length a) (a ++ b) = b.
Proof. apply drop_app_length. Qed.

Lemma drop_S_len_app (a b : str) c : drop (S (length a)) (a ++ c :: b) = b.
Proof. rewrite (cons_middle c a b), app_assoc. apply drop_app_length'. rewrite length_app; simpl; lia. Qed.

Lemma free_find c s : free c s → all (λ x, negb (x == c)) s.
Proof. done. Qed.

Lemma IndexByte_app a c b : free c a → IndexByte (a ++ c :: b) c = Some (length a).
Proof. intros H. apply find_byte_app; [done|]. by apply bool_decide_pack. Qed.

Lemma IndexByte_None s c : IndexByte s c = None ↔ free c s.
Proof. apply find_byte_None. Qed.

Lemma IndexByte_Some s c i :
  IndexByte s c = Some i → ∃ a b, s = a ++ c :: b ∧ length a = i ∧ free c a.
Proof.
  intros H. apply find_byte_Some in H as (a & d & b & -> & <- & Ha & Hd).
  case_bool_decide; [subst|done]. by exists a, b.
Qed.

Lemma Cut_app a c b : free c a → Cut (a ++ c :: b) c = (a, b, true).
Proof.
  intros H. unfold Cut. rewrite IndexByte_app by done.
  by rewrite take_len_app, drop_S_len_app.
Qed.

Lemma Cut_free s c : free c s → Cut s c = (s, [], false).
Proof. intros H. unfold Cut. by apply IndexByte_None in H as ->. Qed.

Lemma Cut_true s c a b : Cut s c = (a, b, true) → s = a ++ c :: b ∧ free c a.
Proof.
  unfold Cut. destruct (IndexByte s c) as [i|] eqn:Hi; [|done].
  apply IndexByte_Some in Hi as (a' & b' & -> & <- & Ha).
  rewrite take_len_app, drop_S_len_app. by intros [= -> ->].
Qed.

Lemma Cut_false s c a b : Cut s c = (a, b, false) → a = s ∧ b = [] ∧ free c s.
Proof.
  unfold Cut. destruct (IndexByte s c) as [i|] eqn:Hi; [done|].
  apply IndexByte_None in Hi. by intros [= -> ->].
Qed.

Lemma LastIndexByte_app a c b :
  free c b → LastIndexByte (a ++ c :: b) c = Some (length a).
Proof.
  intros H. unfold LastIndexByte. rewrite rev_app_distr. simpl.
  rewrite <-app_assoc. simpl. rewrite IndexByte_app by by apply all_rev.
  simpl. f_equal. rewrite length_rev, length_app. simpl. lia.
Qed.

Lemma LastIndexByte_None s c : free c s → LastIndexByte s c = None.
Proof.
  intros H. unfold LastIndexByte.
  assert (IndexByte (rev s) c = None) as -> by (apply IndexByte_None; by apply all_rev).
  done.
Qed.

Lemma IndexAny_app a c b chars :
  all (λ x, negb (mem x chars)) a → mem c chars → IndexAny (a ++ c :: b) chars = Some (length a).
Proof. intros Ha Hc. by apply find_byte_app. Qed.

Lemma IndexAny_None s chars : IndexAny s chars = None ↔ all (λ x, negb (mem x chars)) s.
Proof. apply find_byte_None. Qed.

Lemma ContainsAny_false s chars :
  ContainsAny s chars = false ↔ all (λ x, negb (mem x chars)) s.
Proof.
  unfold ContainsAny. induction s as [|x s IH]; simpl; [done|].
  destruct (mem x chars); simpl; [done|]. exact IH.
Qed.

Lemma HasPrefix_app p s : HasPrefix (p ++ s) p = true.
Proof. induction p as [|b p IH]; simpl; [by destruct s|]. by rewrite bool_decide_true. Qed.

Lemma HasPrefix_true s p : HasPrefix s p = true → s = p ++ drop (length p) s.
Proof.
  revert s. induction p as [|b p IH]; intros s; simpl; [by rewrite drop_0|].
  destruct s as [|c s]; [done|]. intros H. apply andb_true_iff in H as [Hc H].
  apply bool_decide_eq_true in Hc as ->. simpl. f_equal. by apply IH.
Qed.

Lemma TrimPrefix_app p s : TrimPrefix (p ++ s) p = s.
Proof. unfold TrimPrefix. rewrite HasPrefix_app. apply drop_len_app. Qed.

(** ** Lemmas: trimming *)

(** [s] neither starts nor ends with a byte in [p] (the empty string does not). *)
Definition trimmed_by (p : ascii → bool) (s : str) : bool :=
  match s, rev s with
  | c :: _, d :: _ => negb (p c) && negb (p d)
  | _, _ => true
  end.
Abbreviation trimmed s := (trimmed_by is_space s).

Lemma trim_left_app p s t : all p s → trim_left p (s ++ t) = trim_left p t.
Proof.
  induction s as [|c s IH]; simpl; [done|]. intros H. apply andb_True in H as [Hc H].
  apply Is_true_true in Hc as ->. auto.
Qed.

Lemma trim_left_cons p c s : p c = false → trim_left p (c :: s) = c :: s.
Proof. simpl. by intros ->. Qed.

Lemma trim_left_trimmed p s : trimmed_by p s → trim_left p s = s.
Proof.
  destruct s as [|c s]; [done|]. unfold trimmed_by.
  destruct (rev (c :: s)) as [|d r] eqn:Hr.
  - by apply (f_equal length) in Hr; rewrite length_rev in Hr.
  - intros H. apply andb_True in H as [Hc _]. apply trim_left_cons. by destruct (p c).
Qed.

Lemma trimmed_by_rev p s : trimmed_by p (rev s) = trimmed_by p s.
Proof.
  unfold trimmed_by. pose proof (rev_involutive s) as Hs.
  destruct s as [|c s]; [done|]. destruct (rev (c :: s)) as [|d r]; [done|].
  rewrite Hs. apply andb_comm.
Qed.

Lemma trim_right_trimmed p s : trimmed_by p s → trim_right p s = s.
Proof.
  intros H. unfold trim_right. rewrite trim_left_trimmed by by rewrite trimmed_by_rev.
  apply rev_involutive.
Qed.

Lemma TrimSpace_trimmed s : trimmed s → TrimSpace s = s.
Proof. intros H. unfold TrimSpace. rewrite trim_left_trimmed by done. by apply trim_right_trimmed. Qed.

Lemma trim_left_suffix p s : ∃ t, s = t ++ trim_left p s ∧ all p t.
Proof.
  induction s as [|c s (t & Hs & Ht)]; simpl; [by exists []|].
  destruct (p c) eqn:Hc; [|by exists []]. exists (c :: t). simpl. rewrite Hc.
  split; [by f_equal|done].
Qed.

Lemma trim_left_head p s : match trim_left p s with c :: _ => p c = false | [] => True end.
Proof. induction s as [|c s IH]; simpl; [done|]. by destruct (p c) eqn:Hc. Qed.

Lemma trim_right_snoc p s : trim_right p s = [] ∨ ∃ t c, trim_right p s = t ++ [c] ∧ p c = false.
Proof.
  unfold trim_right. pose proof (trim_left_head p (rev s)) as H.
  destruct (trim_left p (rev s)) as [|c t]; [by left|]. right. by exists (rev t), c.
Qed.

Lemma trim_right_prefix p s : ∃ t, s = trim_right p s ++ t ∧ all p t.
Proof.
  destruct (trim_left_suffix p (rev s)) as (t & Hs & Ht). exists (rev t). split.
  - unfold trim_right. rewrite <-rev_app_distr, <-Hs. symmetry. apply rev_involutive.
  - by apply all_rev.
Qed.

Lemma trimmed_by_snoc p c s d :
  p c = false → p d = false → trimmed_by p (c :: s ++ [d]).
Proof. intros Hc Hd. unfold trimmed_by. simpl. rewrite rev_app_distr. simpl. by rewrite Hc, Hd. Qed.

(** Whatever [TrimSpace] returns is trimmed. *)
Lemma TrimSpace_is_trimmed s : trimmed (TrimSpace s).
Proof.
  unfold TrimSpace. set (u := trim_left is_space s).
  pose proof (trim_left_head is_space s) as Hu. fold u in Hu.
  destruct (trim_right_prefix is_space u) as (t & Hut & Ht).
  destruct (trim_right_snoc is_space u) as [E|(v & d & E & Hd)]; rewrite E in *; [done|].
  destruct v as [|c v].
  - unfold trimmed_by. simpl. by rewrite Hd.
  - rewrite Hut in Hu. simpl in Hu. by apply trimmed_by_snoc.
Qed.

Lemma TrimSpace_idem s : TrimSpace (TrimSpace s) = TrimSpace s.
Proof. apply TrimSpace_trimmed, TrimSpace_is_trimmed. Qed.

Lemma trimmed_nospace s : all (λ c, negb (is_space c)) s → trimmed s.
Proof.
  intros H. pose proof (proj2 (all_rev _ s) H) as Hr. unfold trimmed_by.
  destruct s as [|c s]; [done|]. destruct (rev (c :: s)) as [|d r]; [done|].
  split_all; done.
Qed.

Lemma TrimSpace_nospace s : all (λ c, negb (is_space c)) s → TrimSpace s = s.
Proof. intros H. by apply TrimSpace_trimmed, trimmed_nospace. Qed.

Lemma trim_right_app p s t : all p t → trim_right p (s ++ t) = trim_right p s.
Proof.
  intros H. unfold trim_right. rewrite rev_app_distr, trim_left_app; [done|]. by apply all_rev.
Qed.

(** White space around a trimmed string goes. *)
Lemma TrimSpace_pad a s b :
  all is_space a → all is_space b → trimmed s → TrimSpace (a ++ s ++ b) = s.
Proof.
  intros Ha Hb Hs. unfold TrimSpace. rewrite trim_left_app by done.
  destruct s as [|c s].
  - simpl. pose proof (trim_left_app is_space b [] Hb) as H. rewrite app_nil_r in H.
    by rewrite H.
  - assert (is_space c = false) as Hc.
    { unfold trimmed_by in Hs. destruct (rev (c :: s)) eqn:E.
      - by apply (f_equal length) in E; rewrite length_rev in E.
      - destruct_and!. by destruct (is_space c). }
    simpl. rewrite Hc. change (c :: s ++ b) with ((c :: s) ++ b).
    rewrite trim_right_app by done. by apply trim_right_trimmed.
Qed.

Lemma all_trim_left P p s : all P s → all P (trim_left p s).
Proof.
  intros H. destruct (trim_left_suffix p s) as (t & Hs & _).
  rewrite Hs, all_app in H. by apply andb_True in H as [_ H].
Qed.

Lemma all_TrimSpace P s : all P s → all P (TrimSpace s).
Proof. intros H. by apply all_rev, all_trim_left, all_rev, all_trim_left. Qed.

(** ** Lemmas: fields, splitting, joining *)

Abbreviation nospace s := (all (λ c, negb (is_space c)) s).

Lemma fields_go_app cur s t :
  nospace s → fields_go cur (s ++ t) = fields_go (cur ++ s) t.
Proof.
  revert cur. induction s as [|c s IH]; simpl; intros cur H; [by rewrite app_nil_r|].
  apply andb_True in H as [Hc H]. destruct (is_space c); [done|].
  rewrite IH by done. by rewrite <-app_assoc.
Qed.

Lemma Fields_single s : nospace s → s ≠ [] → Fields s = [s].
Proof.
  intros H Hs. unfold Fields. rewrite <-(app_nil_r s) at 1. rewrite fields_go_app by done.
  simpl. by rewrite bool_decide_false.
Qed.

Lemma Fields_cons s c t :
  nospace s → s ≠ [] → is_space c → Fields (s ++ c :: t) = s :: Fields t.
Proof.
  intros H Hs Hc. unfold Fields. rewrite fields_go_app by done. simpl.
  apply Is_true_true in Hc. by rewrite Hc, bool_decide_false.
Qed.

Lemma fields_go_nospace cur s f : nospace cur → f ∈ fields_go cur s → nospace f ∧ f ≠ [].
Proof.
  revert cur. induction s as [|c s IH]; simpl; intros cur Hcur Hf.
  - case_bool_decide; [set_solver|]. apply list_elem_of_singleton in Hf as ->. done.
  - destruct (is_space c) eqn:Hc.
    + case_bool_decide; [by apply (IH [])|].
      apply elem_of_cons in Hf as [->|Hf]; [done|by apply (IH [])].
    + apply (IH (cur ++ [c])); [|done]. rewrite all_app. simpl. rewrite Hc. by rewrite andb_True.
Qed.

(** A field holds no white space and is not empty. *)
Lemma Fields_nospace s f : f ∈ Fields s → nospace f ∧ f ≠ [].
Proof. by apply fields_go_nospace. Qed.

Lemma SplitN_cons s c t n : free c s → SplitN (s ++ c :: t) c (S (S n)) = s :: SplitN t c (S n).
Proof. intros H. simpl. by rewrite Cut_app. Qed.

Lemma SplitN_free s c n : free c s → SplitN s c (S n) = [s].
Proof. intros H. simpl. destruct n; [done|]. by rewrite Cut_free. Qed.

Lemma split_go_byte c cur s t :
  free c s → split_go [c] 0 cur (s ++ t) = split_go [c] 0 (cur ++ s) t.
Proof.
  revert cur. induction s as [|x s IH]; simpl; intros cur H; [by rewrite app_nil_r|].
  apply andb_True in H as [Hx H]. case_bool_decide; [done|]. simpl.
  rewrite IH by done. by rewrite <-app_assoc.
Qed.

Lemma Split_byte_cons c s t : free c s → Split (s ++ c :: t) [c] = s :: Split t [c].
Proof.
  intros H. unfold Split. rewrite split_go_byte by done. simpl.
  rewrite bool_decide_true by done. simpl. by destruct t.
Qed.

Lemma Split_byte_free c s : free c s → Split s [c] = [s].
Proof.
  intros H. unfold Split. rewrite <-(app_nil_r s) at 1. rewrite split_go_byte by done. done.
Qed.

(** Splitting undoes joining, for pieces free of the separator. *)
Lemma Split_Join_byte c (l : list str) :
  l ≠ [] → Forall (λ s, Is_true (free c s)) l → Split (Join l [c]) [c] = l.
Proof.
  intros Hl H. induction H as [|s l Hs H IH]; [done|]. destruct l as [|s' l].
  - simpl. by apply Split_byte_free.
  - change (Join (s :: s' :: l) [c]) with (s ++ c :: Join (s' :: l) [c]).
    rewrite Split_byte_cons by done. f_equal. by apply IH.
Qed.

(** ** Lemmas: quoting *)

Lemma replace_byte_app c new s t :
  replace_go [c] new 0 (s ++ t) = replace_go [c] new 0 s ++ replace_go [c] new 0 t.
Proof.
  induction s as [|x s IH]; simpl; [done|].
  case_bool_decide; simpl; rewrite <-?app_assoc; by rewrite IH.
Qed.

Lemma ReplaceAll_free c s new : free c s → ReplaceAll s [c] new = s.
Proof.
  unfold ReplaceAll. induction s as [|x s IH]; simpl; intros H; [done|]. split_all.
  case_bool_decide; [done|]. simpl. by rewrite IH.
Qed.

(** Escaping a byte [q] by [b] and unescaping it is the identity: no unescaped
    [q] follows a [b] that was there before. *)
Lemma ReplaceAll_escape b q s :
  b ≠ q → ReplaceAll (ReplaceAll s [q] [b; q]) [b; q] [q] = s.
Proof.
  intros Hbq. unfold ReplaceAll.
  induction s as [|x s IH]; simpl; [done|].
  case_bool_decide as Hx; simpl.
  - subst x. rewrite bool_decide_true, bool_decide_true by done. simpl. by rewrite IH.
  - case_bool_decide as Hb; [|by rewrite andb_false_l, IH].
    subst x. destruct s as [|y s]; simpl in *; [done|].
    case_bool_decide; simpl in *.
    + rewrite bool_decide_false by done. simpl. by rewrite IH.
    + rewrite bool_decide_false by done. simpl. by rewrite IH.
Qed.

(** ** Lemmas: numbers *)

Lemma digit_val_char d : (d < 16)%N → digit_val (digit_char d) = Some d.
Proof.
  intros H. destruct d as [|p]; [done|].
  do 4 (destruct p as [p|p|]; [| |reflexivity]); lia.
Qed.

Lemma digit_char_dec d : (d < 10)%N → is_digit (digit_char d).
Proof.
  intros H. destruct d as [|p]; [done|].
  do 4 (destruct p as [p|p|]; [| |first [exact I|lia]]); lia.
Qed.

Lemma digit_char_alnum d : (d < 16)%N → is_alnum (digit_char d).
Proof.
  intros H. destruct d as [|p]; [done|].
  do 4 (destruct p as [p|p|]; [| |first [exact I|lia]]); lia.
Qed.

Section Format.
Context (base : N) (Hbase : (2 ≤ base ≤ 16)%N).

Lemma mod_base n : (n mod base < base)%N.
Proof. apply N.mod_lt. lia. Qed.

Lemma parse_format_go fuel n acc :
  (n < 2 ^ N.of_nat fuel)%N →
  parse_digits base (format_go fuel base n acc) 0 = parse_digits base acc n.
Proof.
  revert n acc. induction fuel as [|f IH]; intros n acc Hn.
  - simpl in *. by replace n with 0%N by lia.
  - cbn [format_go]. pose proof (mod_base n) as Hm.
    pose proof (N.div_mod n base ltac:(lia)) as Hdm.
    assert (parse_digits base (digit_char (n mod base) :: acc) (n / base)
            = parse_digits base acc n) as Hstep.
    { simpl. rewrite digit_val_char by lia. simpl.
      apply N.ltb_lt in Hm as ->. f_equal. lia. }
    destruct (n / base =? 0)%N eqn:Hz.
    + apply N.eqb_eq in Hz. rewrite Hz in Hstep. exact Hstep.
    + rewrite IH; [exact Hstep|].
      apply N.Div0.div_lt_upper_bound.
      rewrite Nat2N.inj_succ, N.pow_succ_r' in Hn. nia.
Qed.

Lemma all_format_go (P : ascii → bool) fuel n acc :
  (∀ d, (d < base)%N → P (digit_char d)) → all P acc → all P (format_go fuel base n acc).
Proof.
  intros HP. revert n acc. induction fuel as [|f IH]; intros n acc Hacc; [done|].
  cbn [format_go]. assert (all P (digit_char (n mod base) :: acc)).
  { split_all; [apply HP, mod_base|done]. }
  destruct (n / base =? 0)%N; auto.
Qed.

Lemma format_go_nonnil fuel n acc : fuel ≠ 0 ∨ acc ≠ [] → format_go fuel base n acc ≠ [].
Proof.
  revert n acc. induction fuel as [|f IH]; intros n acc H; [by destruct H|].
  cbn [format_go]. destruct (n / base =? 0)%N; [done|]. apply IH. by right.
Qed.

Lemma FormatUint_nonnil n : FormatUint n base ≠ [].
Proof. apply format_go_nonnil. by left. Qed.

Lemma parse_FormatUint n : parse_digits base (FormatUint n base) 0 = Some n.
Proof.
  unfold FormatUint. rewrite parse_format_go; [done|].
  rewrite Nat2N.inj_succ, N2Nat.id, N.pow_succ_r'.
  pose proof (N.size_gt n). lia.
Qed.

Lemma FormatUint_alnum n : all is_alnum (FormatUint n base).
Proof. apply all_format_go; [|done]. intros d Hd. apply digit_char_alnum. lia. Qed.

(** [ParseUint] reads back what [FormatUint] writes. *)
Lemma ParseUint_FormatUint n bits :
  (n < 2 ^ bits)%N → ParseUint (FormatUint n base) base bits = Ok (Z.of_N n).
Proof.
  intros Hn. unfold ParseUint. rewrite bool_decide_false by apply FormatUint_nonnil.
  rewrite parse_FormatUint. by apply N.ltb_lt in Hn as ->.
Qed.
End Format.

Lemma FormatUint_digits n : all is_digit (FormatUint n 10).
Proof. apply all_format_go; [lia|intros; by apply digit_char_dec|done]. Qed.

Lemma parse_digits_bound base s acc n : parse_digits base s acc = Some n → (acc ≤ n)%N ∨ base = 0%N.
Proof.
  revert acc. induction s as [|c s IH]; simpl; intros acc H; [left; simplify_eq; lia|].
  apply bind_Some in H as (d & _ & H). destruct (d <? base)%N eqn:Hd; [|done].
  apply N.ltb_lt in Hd. destruct (IH _ H) as [Hle|]; [|by right]. left. nia.
Qed.

(** [Itoa] and [Atoi] are inverse on the 64-bit [int]s. *)
Lemma Atoi_Itoa z : in_int z → Atoi (Itoa z) = Ok z.
Proof.
  intros Hz. unfold Atoi, Itoa. apply Is_true_true in Hz.
  destruct (z <? 0)%Z eqn:Hneg.
  - cbn [atoi_sign]. rewrite bool_decide_true by done.
    rewrite bool_decide_false by by apply FormatUint_nonnil.
    rewrite parse_FormatUint by lia. cbv zeta.
    replace (- Z.of_N (Z.to_N (- z)))%Z with z by lia. by rewrite Hz.
  - pose proof (FormatUint_digits (Z.to_N z)) as Hd.
    pose proof (FormatUint_nonnil 10 (Z.to_N z)) as Hnn.
    assert (atoi_sign (FormatUint (Z.to_N z) 10) = (false, FormatUint (Z.to_N z) 10)) as ->.
    { destruct (FormatUint (Z.to_N z) 10) as [|c s]; [done|]. split_all. simpl.
      rewrite !bool_decide_false; [done|..]; intros ->; done. }
    rewrite bool_decide_false by done. rewrite parse_FormatUint by lia. cbv zeta.
    replace (Z.of_N (Z.to_N z)) with z by lia. by rewrite Hz.
Qed.

Lemma Itoa_nonneg_digits z : (0 ≤ z)%Z → all is_digit (Itoa z).
Proof.
  intros Hz. unfold Itoa. assert ((z <? 0)%Z = false) as -> by lia. apply FormatUint_digits.
Qed.

Lemma Itoa_nonnil z : Itoa z ≠ [].
Proof. unfold Itoa. destruct (z <? 0)%Z; [done|]. by apply FormatUint_nonnil. Qed.

Lemma Atoi_in_int s z : Atoi s = Ok z → in_int z.
Proof.
  unfold Atoi. destruct (atoi_sign s) as [neg ds]. case_bool_decide; [done|].
  destruct (parse_digits 10 ds 0) as [n|]; [|done]. cbv zeta.
  destruct (in_int _) eqn:Hin; [|done]. intros [= <-]. by rewrite Hin.
Qed.

Lemma ParseUint_bound s base bits z :
  ParseUint s base bits = Ok z → (0 ≤ z < 2 ^ Z.of_N bits)%Z.
Proof.
  unfold ParseUint. case_bool_decide; [done|].
  destruct (parse_digits base s 0) as [n|]; [|done].
  destruct (n <? 2 ^ bits)%N eqn:Hn; [|done]. intros [= <-].
  apply N.ltb_lt in Hn. lia.
Qed.

Lemma all_replace_go P old new skip s :
  all P new → all P s → all P (replace_go old new skip s).
Proof.
  intros Hnew. revert skip. induction s as [|c s IH]; simpl; intros skip H; [done|]. split_all.
  destruct skip; [|by apply IH]. destruct (HasPrefix _ _); split_all; auto.
Qed.

Lemma all_ReplaceAll P s old new : all P new → all P s → all P (ReplaceAll s old new).
Proof. apply all_replace_go. Qed.

Lemma ToLower_noupper s : all (λ c, negb (is_upper c)) s → ToLower s = s.
Proof.
  intros H. unfold ToLower. rewrite <-(map_id s) at 2. apply map_ext_in.
  intros c Hc. apply list_elem_of_In in Hc. eapply all_elem in H; [|exact Hc].
  unfold lower_byte. by destruct (is_upper c).
Qed.

Lemma ToUpper_nolower s : all (λ c, negb (is_lower c)) s → ToUpper s = s.
Proof.
  intros H. unfold ToUpper. rewrite <-(map_id s) at 2. apply map_ext_in.
  intros c Hc. apply list_elem_of_In in Hc. eapply all_elem in H; [|exact Hc].
  unfold upper_byte. by destruct (is_lower c).
Qed.

(** ** Lemmas: case folding against the other functions *)

Lemma is_space_lower c : is_space (lower_byte c) = is_space c.
Proof. all_bytes c; reflexivity. Qed.

Lemma upper_lower_byte c : upper_byte (lower_byte c) = upper_byte c.
Proof. all_bytes c; reflexivity. Qed.

Lemma ToUpper_ToLower s : ToUpper (ToLower s) = ToUpper s.
Proof. unfold ToLower, ToUpper. rewrite map_map. apply map_ext, upper_lower_byte. Qed.

Lemma ToLower_rev s : ToLower (rev s) = rev (ToLower s).
Proof. apply map_rev. Qed.

Lemma trim_left_lower s : trim_left is_space (ToLower s) = ToLower (trim_left is_space s).
Proof.
  induction s as [|c s IH]; simpl; [done|]. rewrite is_space_lower. by destruct (is_space c).
Qed.

Lemma TrimSpace_ToLower s : TrimSpace (ToLower s) = ToLower (TrimSpace s).
Proof.
  unfold TrimSpace, trim_right. by rewrite trim_left_lower, <-!ToLower_rev, trim_left_lower, ToLower_rev.
Qed.

Lemma trimmed_ToLower s : trimmed (ToLower s) = trimmed s.
Proof.
  destruct s as [|c s]; [done|]. pose proof (ToLower_rev (c :: s)) as H. unfold trimmed_by.
  change (ToLower (c :: s)) with (lower_byte c :: ToLower s) in *. cbv beta iota. rewrite <-H.
  destruct (rev (c :: s)) as [|d r]; [done|]. simpl. by rewrite !is_space_lower.
Qed.

Lemma ToLower_Join (l : list str) (sep : str) : ToLower (Join l sep) = Join (map ToLower l) (ToLower sep).
Proof.
  induction l as [|s l IH]; [done|]. destruct l as [|s' l]; [done|].
  change (Join (s :: s' :: l) sep) with (s ++ sep ++ Join (s' :: l) sep).
  by rewrite !ToLower_app, IH.
Qed.

Lemma split_go_cons c cur s : ∃ x l, split_go [c] 0 cur s = x :: l.
Proof.
  revert cur. induction s as [|d s IH]; simpl; intros cur; [by eauto|].
  case_test; simpl; [by eauto|apply IH].
Qed.

Lemma Split_cons c s : ∃ x l, Split s [c] = x :: l.
Proof. apply split_go_cons. Qed.

Lemma split_go_Join c cur s : Join (split_go [c] 0 cur s) [c] = cur ++ s.
Proof.
  revert cur. induction s as [|d s IH]; simpl; intros cur; [by rewrite app_nil_r|].
  case_test; simpl.
  - subst d. destruct (Split_cons c s) as (x & l & E). unfold Split in E.
    specialize (IH []). rewrite E in IH |- *.
    change (cur ++ [c] ++ Join (x :: l) [c] = cur ++ c :: s). by rewrite IH.
  - rewrite IH. by rewrite <-app_assoc.
Qed.

(** Joining undoes splitting. *)
Lemma Join_Split_byte c s : Join (Split s [c]) [c] = s.
Proof. apply split_go_Join. Qed.

Lemma split_go_free c cur s :
  free c cur → Forall (λ x, Is_true (free c x)) (split_go [c] 0 cur s).
Proof.
  revert cur. induction s as [|d s IH]; simpl; intros cur H; [by constructor|].
  case_test; simpl; [constructor; auto|]. apply IH. split_all; [done|].
  by rewrite bool_decide_false.
Qed.

Lemma Split_byte_pieces c s : Forall (λ x, Is_true (free c x)) (Split s [c]).
Proof. by apply split_go_free. Qed.

Lemma Split_nonnil c s : Split s [c] ≠ [].
Proof. by destruct (Split_cons c s) as (x & l & ->). Qed.

Lemma split_go_lower c cur s :
  (∀ d, (lower_byte d == c) = (d == c)) →
  split_go [c] 0 (ToLower cur) (ToLower s) = map ToLower (split_go [c] 0 cur s).
Proof.
  intros Hc. revert cur. induction s as [|d s IH]; simpl; intros cur; [done|].
  rewrite Hc. case_test; simpl; [f_equal; apply (IH [])|].
  rewrite <-IH. by rewrite ToLower_app.
Qed.

Lemma trimmed_by_ends p c d s r :
  rev (c :: s) = d :: r → trimmed_by p (c :: s) = negb (p c) && negb (p d).
Proof. intros H. unfold trimmed_by. cbv beta iota. by rewrite H. Qed.

Lemma rev_cons_ex c s : ∃ d r, rev (c :: s) = d :: r.
Proof.
  destruct (rev (c :: s)) as [|d r] eqn:H; [|by eauto].
  apply (f_equal length) in H. by rewrite length_rev in H.
Qed.

(** A trimmed start and a trimmed end make a trimmed string. *)
Lemma trimmed_between s m t :
  s ≠ [] → t ≠ [] → trimmed s → trimmed t → trimmed (s ++ m ++ t).
Proof.
  intros Hs Ht Hts Htt. destruct s as [|c s]; [done|]. destruct t as [|d t]; [done|].
  destruct (rev_cons_ex c s) as (c' & r & Hr), (rev_cons_ex d t) as (d' & r' & Hr').
  rewrite (trimmed_by_ends _ _ _ _ _ Hr) in Hts. rewrite (trimmed_by_ends _ _ _ _ _ Hr') in Htt.
  bool_hyps. cbn [app]. rewrite (trimmed_by_ends _ _ d' _ (r' ++ rev m ++ rev (c :: s))).
  - by rewrite andb_True, !negb_True.
  - rewrite app_comm_cons, !rev_app_distr, Hr'. by rewrite <-app_assoc.
Qed.

Lemma trimmed_app s t : s ≠ [] → t ≠ [] → trimmed s → trimmed t → trimmed (s ++ t).
Proof. apply (trimmed_between s []). Qed.

Lemma length_escape q b s : length s ≤ length (ReplaceAll s [q] [b; q]).
Proof. unfold ReplaceAll. induction s as [|c s IH]; simpl; [lia|]. case_test; simpl; lia. Qed.

Lemma trimmed_Join (l : list str) (sep : str) :
  Forall (λ s, s ≠ [] ∧ Is_true (trimmed s)) l → trimmed (Join l sep).
Proof.
  intros H. assert ((l ≠ [] → Join l sep ≠ []) ∧ trimmed (Join l sep)) as [_ ?]; [|done].
  induction H as [|s l [Hs Ht] H IH]; [done|]. destruct l as [|s' l]; [by split|].
  change (Join (s :: s' :: l) sep) with (s ++ sep ++ Join (s' :: l) sep).
  destruct IH as [Hne IH]. split; [by destruct s|]. apply trimmed_between; auto.
Qed.

Lemma split_go_sep c cur s : split_go [c] 0 cur (c :: s) = cur :: split_go [c] 0 [] s.
Proof. simpl. by rewrite bool_decide_true. Qed.

Lemma Join_cons (x : str) (l : list str) (sep : str) :
  Join (x :: l) sep = x ++ concat (map (λ y, sep ++ y) l).
Proof.
  revert x. induction l as [|y l IH]; intros x; [by rewrite app_nil_r|].
  change (Join (x :: y :: l) sep) with (x ++ sep ++ Join (y :: l) sep).
  rewrite IH. cbn [map concat]. by rewrite <-!app_assoc.
Qed.
