(* ===== verification/Utf8.v ===== *)
(** * Go's [unicode/utf8], as far as the XML bodies use it

    Decoding and encoding of runes, and XML's character range.  A rune is an [N]; a
    walk over the runes of a byte string is a recursion on its bytes that skips the
    bytes a rune has already used. *)

From S2P Require Import Prelude GoStrings.
From Stdlib Require Import ZifyBool.

(** U+FFFD, [utf8.RuneError]. *)
Definition RuneError : N := 65533.

Definition in_range (lo hi : N) (c : ascii) : bool := ((lo <=? code c) && (code c <=? hi))%N.

(** A continuation byte, and its six bits. *)
Definition cont (c : ascii) : bool := in_range 128 191 c.
Definition low6 (c : ascii) : N := code c mod 64.

(** The second byte after the first byte [x] of a longer encoding: no overlong
    forms, no surrogates, nothing above U+10FFFF. *)
Definition second_ok (x : N) (c : ascii) : bool :=
  if (x =? 224)%N then in_range 160 191 c
  else if (x =? 237)%N then in_range 128 159 c
  else if (x =? 240)%N then in_range 144 191 c
  else if (x =? 244)%N then in_range 128 143 c
  else cont c.

(** [utf8.DecodeRune]: the first rune and its width. *)
Definition DecodeRune (s : str) : N * nat :=
  match s with
  | [] => (RuneError, 0)
  | c0 :: s1 =>
    let x := code c0 in
    if (x <? 128)%N then (x, 1)
    else if (x <? 194)%N then (RuneError, 1)
    else if (x <? 224)%N then
      match s1 with
      | c1 :: _ => if cont c1 then (((x - 192) * 64 + low6 c1)%N, 2) else (RuneError, 1)
      | _ => (RuneError, 1)
      end
    else if (x <? 240)%N then
      match s1 with
      | c1 :: c2 :: _ =>
        if second_ok x c1 && cont c2 then ((((x - 224) * 64 + low6 c1) * 64 + low6 c2)%N, 3) else (RuneError, 1)
      | _ => (RuneError, 1)
      end
    else if (x <? 245)%N then
      match s1 with
      | c1 :: c2 :: c3 :: _ =>
        if second_ok x c1 && cont c2 && cont c3
        then (((((x - 240) * 64 + low6 c1) * 64 + low6 c2) * 64 + low6 c3)%N, 4) else (RuneError, 1)
      | _ => (RuneError, 1)
      end
    else (RuneError, 1)
  end.

(** [string(rune(n))]. *)
Definition EncodeRune (n : N) : str :=
  let n := if ((1114111 <? n) || ((55296 <=? n) && (n <=? 57343)))%N then RuneError else n in
  let tail k := byte (128 + (n / 64 ^ k) mod 64) in
  if (n <? 128)%N then [byte n]
  else if (n <? 2048)%N then [byte (192 + n / 64); tail 0%N]
  else if (n <? 65536)%N then [byte (224 + n / 4096); tail 1%N; tail 0%N]
  else [byte (240 + n / 262144); tail 2%N; tail 1%N; tail 0%N].

(** [isInCharacterRange] of encoding/xml. *)
Definition isInCharacterRange (r : N) : bool :=
  ((r =? 9) || (r =? 10) || (r =? 13) || ((32 <=? r) && (r <=? 55295)) ||
   ((57344 <=? r) && (r <=? 65533)) || ((65536 <=? r) && (r <=? 1114111)))%N.

(** An encoding error: [r == utf8.RuneError && size == 1]. *)
Definition bad_rune (r : N) (n : nat) : bool := (r =? RuneError)%N && (n =? 1).

(** ** Text in XML's character range *)

Fixpoint text_ok_from (skip : nat) (s : str) : bool :=
  match s, skip with
  | [], _ => true
  | _ :: s', S k => text_ok_from k s'
  | _ :: s', O =>
    let '(r, n) := DecodeRune s in
    negb (bad_rune r n) && isInCharacterRange r && text_ok_from (n - 1) s'
  end.

(** Valid UTF-8 of characters XML allows. *)
Definition text_ok (s : str) : bool := text_ok_from 0 s.

(** ** Lemmas *)

Definition is_ascii (c : ascii) : bool := (code c <? 128)%N.

Lemma DecodeRune_ascii c s : is_ascii c → DecodeRune (c :: s) = (code c, 1).
Proof. unfold is_ascii. intros H%Is_true_true. cbn [DecodeRune]. by rewrite H. Qed.

(** The width counts bytes that are there, and only the first may be ASCII. *)
Lemma DecodeRune_width c s r n :
  DecodeRune (c :: s) = (r, n) →
  ∃ k, n = S k ∧ k ≤ length s ∧ all (λ x, negb (is_ascii x)) (take k s) ∧ (0 < k → ¬ is_ascii c).
Proof.
  assert (Hc : ∀ d, cont d → negb (is_ascii d)) by (intros d; all_bytes d; done).
  assert (H2 : ∀ x d, second_ok x d → negb (is_ascii d)).
  { intros x d. unfold second_ok. repeat case_match; all_bytes d; done. }
  assert (Ha : (code c <? 128)%N = false → ¬ is_ascii c) by (unfold is_ascii; intros ->; exact id).
  cbn [DecodeRune]. intros H. repeat case_match; injection H as <- <-; eexists; split; try reflexivity; simpl;
    repeat match goal with E : (_ && _) = true |- _ => apply andb_true_iff in E as [??] end;
    (split; [lia|split; [rewrite ?take_0, ?andb_True; split_and?; eauto using Is_true_true_2|try lia; auto]]).
Qed.

Lemma text_ok_cons c s : is_ascii c → text_ok (c :: s) = isInCharacterRange (code c) && text_ok s.
Proof.
  intros H. unfold text_ok. cbn [text_ok_from]. rewrite DecodeRune_ascii by done. cbn [Nat.sub].
  unfold bad_rune. replace (code c =? RuneError)%N with false; [done|].
  symmetry. apply N.eqb_neq. revert H. all_bytes c; done.
Qed.

(** Skipped bytes are not looked at. *)
Lemma text_ok_from_skip k s : k ≤ length s → text_ok_from k s = text_ok (drop k s).
Proof.
  revert k. induction s as [|c s IH]; intros [|k] Hk; simpl in *; try done; try lia.
  apply IH. lia.
Qed.

(** ASCII text without control characters. *)
Definition printable (c : ascii) : bool := in_range 32 126 c.

Lemma printable_text_ok s : all printable s → text_ok s.
Proof.
  induction s as [|c s IH]; [done|]. rewrite all_cons. intros [Hc Hs]%andb_True.
  rewrite text_ok_cons by (revert Hc; all_bytes c; done).
  apply andb_True. split; [revert Hc; all_bytes c; done|auto].
Qed.

Lemma code_byte n : (n < 256)%N → code (byte n) = n.
Proof. apply N_ascii_embedding. Qed.

Lemma in_range_byte lo hi n : (n < 256)%N → in_range lo hi (byte n) = ((lo <=? n) && (n <=? hi))%N.
Proof. intros H. unfold in_range. by rewrite code_byte. Qed.

(** The continuation byte of six bits. *)
Lemma cont_byte m : cont (byte (128 + m mod 64)) = true ∧ low6 (byte (128 + m mod 64)) = (m mod 64)%N.
Proof.
  assert (m mod 64 < 64)%N by (apply N.mod_lt; lia).
  unfold cont, low6. rewrite in_range_byte, code_byte by lia. split;
    [generalize dependent (m mod 64)%N; lia|].
  rewrite <-N.Div0.add_mod_idemp_l. change (128 mod 64)%N with 0%N. rewrite N.add_0_l. by apply N.Div0.mod_mod.
Qed.

(** Splitting off the low six bits. *)
Lemma split6 m : m = (m / 64 * 64 + m mod 64)%N.
Proof. rewrite (N.div_mod m 64) at 1 by lia. lia. Qed.

(** Decoding undoes encoding. *)
Lemma DecodeRune_EncodeRune n s :
  isInCharacterRange n → DecodeRune (EncodeRune n ++ s) = (n, length (EncodeRune n)).
Proof.
  unfold isInCharacterRange. intros Hn%Is_true_true. unfold EncodeRune.
  replace ((1114111 <? n) || ((55296 <=? n) && (n <=? 57343)))%N with false by lia. cbv zeta.
  destruct (N.ltb_spec n 128) as [A1|A1].
  { cbn [app DecodeRune length]. rewrite code_byte by lia. by replace (n <? 128)%N with true by lia. }
  pose proof (split6 n). pose proof (N.mod_lt n 64).
  pose proof (split6 (n / 64)). pose proof (N.mod_lt (n / 64) 64).
  pose proof (split6 (n / 4096)). pose proof (N.mod_lt (n / 4096) 64).
  assert (n / 64 / 64 = n / 4096)%N by (by rewrite N.Div0.div_div).
  assert (n / 4096 / 64 = n / 262144)%N by (by rewrite N.Div0.div_div).
  change (64 ^ 0)%N with 1%N. change (64 ^ 1)%N with 64%N. change (64 ^ 2)%N with 4096%N. rewrite N.div_1_r.
  destruct (cont_byte n) as [C0 L0], (cont_byte (n / 64)) as [C1 L1], (cont_byte (n / 4096)) as [C2 L2].
  assert (Hs : ∀ x m, (m < 256)%N → second_ok x (byte m) =
    if (x =? 224)%N then ((160 <=? m) && (m <=? 191))%N
    else if (x =? 237)%N then ((128 <=? m) && (m <=? 159))%N
    else if (x =? 240)%N then ((144 <=? m) && (m <=? 191))%N
    else if (x =? 244)%N then ((128 <=? m) && (m <=? 143))%N
    else ((128 <=? m) && (m <=? 191))%N).
  { intros x m Hm. unfold second_ok, cont. by rewrite !in_range_byte by done. }
  destruct (N.ltb_spec n 2048) as [A2|A2]; [|destruct (N.ltb_spec n 65536) as [A3|A3]].
  - cbn [app DecodeRune length]. rewrite code_byte by lia.
    replace (192 + n / 64 <? 128)%N with false by lia. replace (192 + n / 64 <? 194)%N with false by lia.
    replace (192 + n / 64 <? 224)%N with true by lia. rewrite C0, L0. f_equal. lia.
  - cbn [app DecodeRune length]. rewrite code_byte by lia.
    replace (224 + n / 4096 <? 128)%N with false by lia. replace (224 + n / 4096 <? 194)%N with false by lia.
    replace (224 + n / 4096 <? 224)%N with false by lia. replace (224 + n / 4096 <? 240)%N with true by lia.
    rewrite C0, L0, L1, Hs by lia. rewrite andb_true_r.
    match goal with |- context [if ?b then _ else _] => replace b with true; [f_equal; lia|] end.
    repeat case_match; lia.
  - cbn [app DecodeRune length]. rewrite code_byte by lia.
    replace (240 + n / 262144 <? 128)%N with false by lia. replace (240 + n / 262144 <? 194)%N with false by lia.
    replace (240 + n / 262144 <? 224)%N with false by lia. replace (240 + n / 262144 <? 240)%N with false by lia.
    replace (240 + n / 262144 <? 245)%N with true by lia.
    rewrite C0, C1, L0, L1, L2, Hs by lia. rewrite !andb_true_r.
    match goal with |- context [if ?b then _ else _] => replace b with true; [f_equal; lia|] end.
    repeat case_match; lia.
Qed.
