(* ===== verification/Params.v ===== *)
(** * [params.go]: URI and header parameters

    A parameter list keeps insertion order and is looked up without regard to
    case.  A Go [*Params] that may be nil is an [option Params] here. *)

From S2P Require Import Prelude GoStrings.

(** ** Data *)

Record Param := mkParam { Key : str; Value : str; HasValue : bool }.

#[export] Instance Param_eq_dec : EqDecision Param.
Proof. solve_decision. Defined.

(** [type Params struct { items []Param }] *)
Abbreviation Params := (list Param).

(** ** Operations *)

Definition NewParams : Params := [].

Definition Params_Len (p : option Params) : nat :=
  match p with None => 0 | Some items => length items end.

(** [Params.set]: replace in place, or append. *)
Fixpoint Params_set (items : Params) (param : Param) : Params :=
  match items with
  | [] => [param]
  | it :: items' =>
    if EqualFold (Key it) (Key param) then param :: items'
    else it :: Params_set items' param
  end.

Definition Params_Set (p : Params) (key value : str) : Params :=
  Params_set p (mkParam key value true).

Definition Params_SetFlag (p : Params) (key : str) : Params :=
  Params_set p (mkParam key [] false).

Fixpoint items_Get (items : Params) (key : str) : str * bool :=
  match items with
  | [] => ([], false)
  | it :: items' => if EqualFold (Key it) key then (Value it, HasValue it) else items_Get items' key
  end.

Definition Params_Get (p : option Params) (key : str) : str * bool :=
  match p with None => ([], false) | Some items => items_Get items key end.

Definition Params_Has (p : option Params) (key : str) : bool :=
  match p with None => false | Some items => existsb (λ it, EqualFold (Key it) key) items end.

Fixpoint items_Del (items : Params) (key : str) : Params :=
  match items with
  | [] => []
  | it :: items' => if EqualFold (Key it) key then items' else it :: items_Del items' key
  end.

Definition Params_Del (p : option Params) (key : str) : option Params :=
  (λ items, items_Del items key) <$> p.

Definition Params_Keys (p : option Params) : list str :=
  match p with None => [] | Some items => map Key items end.

Definition Params_Items (p : option Params) : list Param :=
  match p with None => [] | Some items => items end.

(** A deep copy: the value itself in a pure model. *)
Definition Params_Clone (p : option Params) : option Params := p.

(** ** Rendering *)

(** [sanitizeField] of uri.go: CR, LF and NUL are dropped. *)
Definition injection_byte (c : ascii) : bool := mem c [CR; LF; NUL].
Definition safe_byte (c : ascii) : bool := negb (injection_byte c).

Definition sanitizeField (s : str) : str :=
  if negb (ContainsAny s [CR; LF; NUL]) then s else List.filter safe_byte s.

(** The bytes that make [escapeParam] quote: double quote, [;], [?], [,]. *)
Definition param_specials : str := [DQUOTE; ";"%char; "?"%char; ","%char].

Definition escapeParam (v : str) : str :=
  if negb (ContainsAny v param_specials) then sanitizeField v
  else let q := ReplaceAll v [DQUOTE] [BSLASH; DQUOTE] in
       [DQUOTE] ++ sanitizeField q ++ [DQUOTE].

Definition Param_String (it : Param) : str :=
  ";"%char :: escapeParam (Key it) ++
  (if HasValue it then "="%char :: escapeParam (Value it) else []).

Definition Params_String (p : option Params) : str :=
  match p with None => [] | Some items => concat (map Param_String items) end.

(** ** Parsing *)

(** One byte of the scanner of [splitParamList]; [cur] is [s[start:i]]. *)
Fixpoint splitParamList_go (inQuote escaped : bool) (cur s : str) : list str :=
  match s with
  | [] => [cur]
  | c :: s' =>
    if escaped then splitParamList_go inQuote false (cur ++ [c]) s'
    else if (c == BSLASH) && inQuote then splitParamList_go inQuote true (cur ++ [c]) s'
    else if c == DQUOTE then splitParamList_go (negb inQuote) false (cur ++ [c]) s'
    else if (c == ";"%char) && negb inQuote then cur :: splitParamList_go inQuote false [] s'
    else splitParamList_go inQuote false (cur ++ [c]) s'
  end.

Definition splitParamList (s : str) : list str := splitParamList_go false false [] s.

Definition unquote (s : str) : str :=
  if (2 <=? length s) && (head s == Some DQUOTE) && (last s == Some DQUOTE)
  then ReplaceAll (take (length s - 2) (drop 1 s)) [BSLASH; DQUOTE] [DQUOTE]
  else s.

(** The bytes no parameter name may hold. *)
Definition bad_key_bytes : str := DQUOTE :: BSLASH :: ";,?<>()@:[]".

Fixpoint parse_parts (p : Params) (parts : list str) : result Params :=
  match parts with
  | [] => Ok p
  | part :: parts' =>
    if part == [] then parse_parts p parts'
    else
      let '(k, v, found) := Cut part "=" in
      let k := TrimSpace k in
      if k == [] then Err ErrParse
      else if ContainsAny k bad_key_bytes then Err ErrParse
      else if found then parse_parts (Params_Set p (ToLower k) (unquote (TrimSpace v))) parts'
      else parse_parts (Params_SetFlag p (ToLower k)) parts'
  end.

Definition ParseParams (s : str) : result Params :=
  let s := TrimPrefix s ";" in
  if s == [] then Ok NewParams else parse_parts NewParams (splitParamList s).

(** ** Lookup, update and deletion *)

Implicit Types (p : Params) (it : Param) (k v s : str) (c : ascii).

(** The names of a list, folded. *)
Definition folded p : list str := map (λ it, ToLower (Key it)) p.

(** No two entries have the same name up to case: what [set] maintains. *)
Definition keys_unique p : Prop := NoDup (folded p).

#[export] Instance keys_unique_dec p : Decision (keys_unique p).
Proof. unfold keys_unique. apply _. Defined.

Lemma items_Get_set p it k :
  items_Get (Params_set p it) k =
  if EqualFold (Key it) k then (Value it, HasValue it) else items_Get p k.
Proof.
  induction p as [|x p IH]; simpl; [done|].
  destruct (EqualFold (Key x) (Key it)) eqn:Hx; simpl.
  - apply EqualFold_true in Hx. destruct (EqualFold (Key it) k) eqn:Hk; [done|].
    assert (EqualFold (Key x) k = false) as ->; [|done].
    apply EqualFold_false in Hk. apply EqualFold_false. congruence.
  - destruct (EqualFold (Key x) k) eqn:Hk; [|apply IH].
    assert (EqualFold (Key it) k = false) as ->; [|done].
    apply EqualFold_true in Hk. apply EqualFold_false in Hx. apply EqualFold_false. congruence.
Qed.

Lemma folded_set p it :
  folded (Params_set p it) =
  if bool_decide (ToLower (Key it) ∈ folded p) then folded p else folded p ++ [ToLower (Key it)].
Proof.
  induction p as [|x p IH]; simpl; [done|].
  destruct (EqualFold (Key x) (Key it)) eqn:Hx.
  - apply EqualFold_true in Hx. rewrite bool_decide_true by set_solver. simpl. by rewrite Hx.
  - apply EqualFold_false in Hx. simpl. rewrite IH.
    repeat case_bool_decide; try done; set_solver.
Qed.

Lemma keys_unique_set p it : keys_unique p → keys_unique (Params_set p it).
Proof.
  unfold keys_unique. rewrite folded_set. intros H. case_bool_decide; [done|].
  apply NoDup_app. split_and!; [done| |apply NoDup_singleton]. set_solver.
Qed.

Lemma set_fresh p it : ToLower (Key it) ∉ folded p → Params_set p it = p ++ [it].
Proof.
  induction p as [|x p IH]; simpl; [done|]. intros H.
  assert (EqualFold (Key x) (Key it) = false) as ->.
  { apply EqualFold_false. set_solver. }
  f_equal. apply IH. set_solver.
Qed.

Lemma items_Get_absent p k : ToLower k ∉ folded p → items_Get p k = ([], false).
Proof.
  induction p as [|x p IH]; simpl; [done|]. intros H.
  assert (EqualFold (Key x) k = false) as -> by (apply EqualFold_false; set_solver).
  apply IH. set_solver.
Qed.

Lemma Params_Has_folded p k : Params_Has (Some p) k = bool_decide (ToLower k ∈ folded p).
Proof.
  simpl. induction p as [|x p IH]; simpl; [done|]. rewrite IH.
  destruct (EqualFold (Key x) k) eqn:Hx; simpl.
  - apply EqualFold_true in Hx. rewrite bool_decide_true by set_solver. done.
  - apply EqualFold_false in Hx. apply bool_decide_ext. set_solver.
Qed.

Lemma items_Get_del p k k' :
  keys_unique p →
  items_Get (items_Del p k) k' = if EqualFold k k' then ([], false) else items_Get p k'.
Proof.
  unfold keys_unique. induction p as [|x p IH]; simpl; [by destruct (EqualFold k k')|].
  intros [Hnin Hnd]%NoDup_cons.
  destruct (EqualFold (Key x) k) eqn:Hx; simpl.
  - apply EqualFold_true in Hx. destruct (EqualFold k k') eqn:Hk.
    + apply EqualFold_true in Hk. apply items_Get_absent. congruence.
    + assert (EqualFold (Key x) k' = false) as ->; [|done].
      apply EqualFold_false in Hk. apply EqualFold_false. congruence.
  - rewrite IH by done. destruct (EqualFold k k') eqn:Hk, (EqualFold (Key x) k') eqn:Hx'; try done.
    apply EqualFold_true in Hk, Hx'. apply EqualFold_false in Hx. congruence.
Qed.

(** ** Rendering lemmas *)

Lemma sanitizeField_filter s : sanitizeField s = List.filter safe_byte s.
Proof.
  unfold sanitizeField. destruct (ContainsAny s [CR; LF; NUL]) eqn:H; [done|]. simpl.
  apply ContainsAny_false in H. induction s as [|c s IH]; simpl; [done|]. split_all.
  unfold safe_byte, injection_byte at 1. destruct (mem c [CR; LF; NUL]); [done|]. simpl.
  f_equal. auto.
Qed.

Lemma sanitizeField_safe s : all safe_byte (sanitizeField s).
Proof.
  rewrite sanitizeField_filter. apply all_intro. intros c Hc.
  apply list_elem_of_In, filter_In in Hc as [_ ->]. done.
Qed.

Lemma sanitizeField_id s : all safe_byte s → sanitizeField s = s.
Proof.
  rewrite sanitizeField_filter. induction s as [|c s IH]; simpl; [done|]. intros H. split_all.
  destruct (safe_byte c); [|done]. f_equal. auto.
Qed.

Lemma escapeParam_safe v : all safe_byte (escapeParam v).
Proof.
  unfold escapeParam. destruct (ContainsAny v param_specials); simpl; [|apply sanitizeField_safe].
  split_all; [apply sanitizeField_safe|done].
Qed.

Lemma Param_String_safe it : all safe_byte (Param_String it).
Proof.
  unfold Param_String. pose proof (escapeParam_safe (Key it)).
  pose proof (escapeParam_safe (Value it)). destruct (HasValue it); by split_all.
Qed.

(** No rendered parameter list can inject a header: CR, LF and NUL are gone. *)
Lemma Params_String_safe (p : option Params) : all safe_byte (Params_String p).
Proof.
  destruct p as [p|]; [|done]. induction p as [|it p IH]; [done|].
  cbn [Params_String map concat] in *. split_all; [apply Param_String_safe|done].
Qed.

(** ** Round trip: parsing what [String] renders *)

(** A name [ParseParams] gives back unchanged. *)
Definition key_byte (c : ascii) : bool :=
  negb (mem c bad_key_bytes) && negb (is_space c) && negb (is_upper c)
  && (c != "="%char) && safe_byte c.

Definition key_ok (k : str) : bool := (k != []) && all key_byte k.

(** A value [ParseParams] gives back unchanged: quoted values must hold no
    backslash, since [escapeParam] does not escape it; bare ones are trimmed. *)
Definition value_ok (v : str) : bool :=
  all safe_byte v &&
  (if ContainsAny v param_specials then free BSLASH v else trimmed v).

Definition wf_param (it : Param) : bool :=
  key_ok (Key it) && (if HasValue it then value_ok (Value it) else Value it == []).

Definition wf_params (p : Params) : bool :=
  forallb wf_param p && bool_decide (keys_unique p).

(** The rendering of one entry without its leading semicolon. *)
Definition part_of (it : Param) : str := drop 1 (Param_String it).

(** Text the scanner of [splitParamList] passes over, back in its start state. *)
Definition neutral (x : str) : Prop :=
  ∀ cur t, splitParamList_go false false cur (x ++ t) = splitParamList_go false false (cur ++ x) t.

Lemma neutral_app x y : neutral x → neutral y → neutral (x ++ y).
Proof. intros Hx Hy cur t. by rewrite <-app_assoc, Hx, Hy, <-app_assoc. Qed.

Lemma neutral_plain x : free DQUOTE x → free ";"%char x → neutral x.
Proof.
  induction x as [|c x IH]; intros Hq Hs cur t; [by rewrite app_nil_r|]. split_all. simpl.
  rewrite andb_false_r. do 2 (case_bool_decide; [done|]). simpl.
  rewrite IH by done. by rewrite <-app_assoc.
Qed.

Lemma scan_escaped v cur t :
  free BSLASH v →
  splitParamList_go true false cur (ReplaceAll v [DQUOTE] [BSLASH; DQUOTE] ++ t) =
  splitParamList_go true false (cur ++ ReplaceAll v [DQUOTE] [BSLASH; DQUOTE]) t.
Proof.
  unfold ReplaceAll. revert cur. induction v as [|c v IH]; intros cur H; [simpl; by rewrite app_nil_r|].
  split_all. bool_hyps. simpl. case_test; simpl.
  - subst c. rewrite IH by done. by rewrite <-!app_assoc.
  - rewrite !bool_decide_false by done. simpl. rewrite andb_false_r, IH by done.
    by rewrite <-app_assoc.
Qed.

Lemma neutral_quoted v :
  free BSLASH v → neutral ([DQUOTE] ++ ReplaceAll v [DQUOTE] [BSLASH; DQUOTE] ++ [DQUOTE]).
Proof.
  intros H cur t. rewrite <-!app_assoc. simpl. rewrite scan_escaped by done. simpl.
  by rewrite <-!app_assoc.
Qed.

Lemma escapeParam_plain v :
  all safe_byte v → ContainsAny v param_specials = false → escapeParam v = v.
Proof. intros Hs Hc. unfold escapeParam. rewrite Hc. simpl. by apply sanitizeField_id. Qed.

Lemma escapeParam_quoted v :
  all safe_byte v → ContainsAny v param_specials = true →
  escapeParam v = [DQUOTE] ++ ReplaceAll v [DQUOTE] [BSLASH; DQUOTE] ++ [DQUOTE].
Proof.
  intros Hs Hc. unfold escapeParam. rewrite Hc. simpl. do 2 f_equal.
  apply sanitizeField_id. by apply all_ReplaceAll.
Qed.

Lemma key_byte_all (P : ascii → bool) k :
  key_ok k → (∀ c, key_byte c → P c) → all P k.
Proof. unfold key_ok. intros [_ H]%andb_True HP. by eapply all_impl. Qed.

Lemma escapeParam_key k : key_ok k → escapeParam k = k.
Proof.
  intros H. apply escapeParam_plain.
  - apply (key_byte_all _ k H). intros c. all_bytes c; vm_compute; tauto.
  - apply ContainsAny_false, (key_byte_all _ k H). intros c. all_bytes c; vm_compute; tauto.
Qed.

Lemma neutral_key k : key_ok k → neutral k.
Proof.
  intros H. apply neutral_plain; apply (key_byte_all _ k H); intros c; all_bytes c; vm_compute; tauto.
Qed.

Lemma plain_free v (c : ascii) :
  ContainsAny v param_specials = false → mem c param_specials → free c v.
Proof.
  intros H Hc. apply ContainsAny_false in H. apply (all_impl _ _ _ H). intros x Hx.
  case_test; [subst x; bool_hyps; done|done].
Qed.

Lemma neutral_value v : value_ok v → neutral (escapeParam v).
Proof.
  unfold value_ok. intros [Hs H]%andb_True. destruct (ContainsAny v param_specials) eqn:Hc.
  - rewrite escapeParam_quoted by done. by apply neutral_quoted.
  - rewrite escapeParam_plain by done. by apply neutral_plain; eapply plain_free.
Qed.

Lemma last_snoc_str (s : str) c : last (s ++ [c]) = Some c.
Proof. apply last_snoc. Qed.

Lemma unquote_quoted q : unquote ([DQUOTE] ++ q ++ [DQUOTE]) = ReplaceAll q [BSLASH; DQUOTE] [DQUOTE].
Proof.
  unfold unquote. rewrite app_assoc, last_snoc_str.
  rewrite !length_app. simpl length. replace (2 <=? 1 + length q + 1) with true by (symmetry; apply Nat.leb_le; lia).
  simpl.
  replace (length q + 1 - 1) with (length q) by lia.
  by rewrite drop_0, take_len_app.
Qed.

Lemma unquote_plain v : free DQUOTE v → unquote v = v.
Proof.
  intros H. unfold unquote. destruct v as [|c v]; [done|]. simpl head. split_all.
  case_bool_decide; [done|]. rewrite (bool_decide_false (Some c = Some DQUOTE)) by congruence.
  by rewrite andb_false_r.
Qed.

Lemma unquote_escape v : value_ok v → unquote (TrimSpace (escapeParam v)) = v.
Proof.
  unfold value_ok. intros [Hs H]%andb_True. destruct (ContainsAny v param_specials) eqn:Hc.
  - rewrite escapeParam_quoted by done.
    rewrite TrimSpace_trimmed by by apply (trimmed_by_snoc _ DQUOTE _ DQUOTE).
    rewrite unquote_quoted. by apply ReplaceAll_escape.
  - rewrite escapeParam_plain, TrimSpace_trimmed by done.
    by eapply unquote_plain, plain_free.
Qed.

Lemma part_of_eq it :
  part_of it = escapeParam (Key it) ++ (if HasValue it then "="%char :: escapeParam (Value it) else []).
Proof. unfold part_of, Param_String. simpl. apply drop_0. Qed.

Lemma Param_String_part it : Param_String it = ";"%char :: part_of it.
Proof. by rewrite part_of_eq. Qed.

Lemma neutral_part it : wf_param it → neutral (part_of it).
Proof.
  unfold wf_param. intros [Hk Hv]%andb_True. rewrite part_of_eq, escapeParam_key by done.
  apply neutral_app; [by apply neutral_key|]. destruct (HasValue it).
  - apply (neutral_app ["="%char]); [by apply neutral_plain|by apply neutral_value].
  - intros cur t. by rewrite !app_nil_r.
Qed.

Lemma splitParamList_parts p it :
  Forall (λ it, Is_true (wf_param it)) (it :: p) →
  splitParamList (part_of it ++ concat (map Param_String p)) = map part_of (it :: p).
Proof.
  unfold splitParamList. revert it. induction p as [|it' p IH]; intros it [Hit Hp]%Forall_cons.
  - simpl. by rewrite (neutral_part it Hit).
  - cbn [map concat]. rewrite Param_String_part. rewrite (neutral_part it Hit). simpl.
    by rewrite IH.
Qed.

Lemma parse_part_of p it parts :
  wf_param it → ToLower (Key it) ∉ folded p →
  parse_parts p (part_of it :: parts) = parse_parts (p ++ [it]) parts.
Proof.
  unfold wf_param. intros [Hk Hv]%andb_True Hfresh. rewrite part_of_eq, escapeParam_key by done.
  assert (free "="%char (Key it)) by (apply (key_byte_all _ _ Hk); intros c; all_bytes c; vm_compute; tauto).
  assert (nospace (Key it)) by (apply (key_byte_all _ _ Hk); intros c; all_bytes c; vm_compute; tauto).
  assert (Key it ≠ []) as Hne by (unfold key_ok in Hk; bool_hyps; done).
  assert (ContainsAny (Key it) bad_key_bytes = false) as Hbad.
  { apply ContainsAny_false, (key_byte_all _ _ Hk). intros c; all_bytes c; vm_compute; tauto. }
  assert (ToLower (Key it) = Key it) as Hlow.
  { apply ToLower_noupper, (key_byte_all _ _ Hk). intros c; all_bytes c; vm_compute; tauto. }
  cbn [parse_parts]. rewrite bool_decide_false by (destruct (Key it); done).
  destruct it as [k v hv]; simpl in *. destruct hv.
  - rewrite Cut_app by done. rewrite TrimSpace_nospace, bool_decide_false by done.
    rewrite Hbad, unquote_escape, Hlow by done. unfold Params_Set. by rewrite set_fresh.
  - rewrite app_nil_r, Cut_free, TrimSpace_nospace, bool_decide_false by done.
    rewrite Hbad, Hlow. bool_hyps. subst v. unfold Params_SetFlag. by rewrite set_fresh.
Qed.

Lemma parse_parts_of acc p :
  Forall (λ it, Is_true (wf_param it)) p → keys_unique (acc ++ p) →
  parse_parts acc (map part_of p) = Ok (acc ++ p).
Proof.
  revert acc. induction p as [|it p IH]; intros acc Hwf Hnd; [simpl; by rewrite app_nil_r|].
  apply Forall_cons in Hwf as [Hit Hwf]. cbn [map]. rewrite parse_part_of; [|done|].
  - rewrite IH by (rewrite <-?app_assoc; done). by rewrite <-app_assoc.
  - unfold keys_unique, folded in Hnd. rewrite map_app in Hnd.
    apply NoDup_app in Hnd as (_ & Hdis & _). intros Hin. apply (Hdis _ Hin). set_solver.
Qed.

Lemma wf_params_spec p :
  wf_params p → Forall (λ it, Is_true (wf_param it)) p ∧ keys_unique p.
Proof.
  unfold wf_params. intros H. bool_hyps. split; [by apply Forall_forallb|done].
Qed.

Lemma ParseParams_String p : wf_params p → ParseParams (Params_String (Some p)) = Ok p.
Proof.
  intros [Hwf Hnd]%wf_params_spec. unfold ParseParams.
  destruct p as [|it p]; [done|]. cbn [Params_String map concat].
  rewrite Param_String_part. change (?c :: ?x) with ([c] ++ x). rewrite <-app_assoc.
  rewrite (TrimPrefix_app [";"%char]). rewrite splitParamList_parts by done.
  rewrite bool_decide_false; [by apply (parse_parts_of [])|].
  rewrite part_of_eq. apply Forall_cons in Hwf as [Hit _].
  unfold wf_param in Hit. bool_hyps. rewrite escapeParam_key by done.
  unfold key_ok in *. bool_hyps. by destruct (Key it).
Qed.

(** ** What the parser returns *)

(** Every parsed list has lower-case names, without duplicates. *)
Definition lower_keys p : Prop := Forall (λ it, ToLower (Key it) = Key it) p.

Lemma Params_set_Forall (Q : Param → Prop) p it : Forall Q p → Q it → Forall Q (Params_set p it).
Proof.
  intros Hp Hit. induction Hp as [|x p Hx Hp IH]; simpl; [by constructor|].
  destruct (EqualFold _ _); by constructor.
Qed.

Lemma parse_parts_inv acc parts p :
  parse_parts acc parts = Ok p →
  keys_unique acc ∧ lower_keys acc → keys_unique p ∧ lower_keys p.
Proof.
  revert acc. induction parts as [|part parts IH]; cbn [parse_parts]; intros acc H Hacc; [by simplify_eq|].
  revert H. case_test; intros H; [by apply (IH acc)|].
  destruct (Cut part "=") as [[k v] found]. revert H. case_test; [done|].
  destruct (ContainsAny _ _); [done|]. intros H. destruct Hacc as [Hu Hl].
  destruct found; (eapply IH; [exact H|]); split; try (apply keys_unique_set; done).
  all: apply Params_set_Forall; [done|]; simpl; apply ToLower_idem.
Qed.

Lemma ParseParams_inv s p : ParseParams s = Ok p → keys_unique p ∧ lower_keys p.
Proof.
  unfold ParseParams. assert (keys_unique NewParams ∧ lower_keys NewParams) as Hnil.
  { split; [apply NoDup_nil_2|constructor]. }
  case_test; [by intros [= <-]|]. intros H. by eapply parse_parts_inv.
Qed.
