(* ===== verification/Uri.v ===== *)
(** * [uri.go]: SIP and tel URIs

    [ParseUri] follows the Go function slice by slice: scheme, the cut at the
    first semicolon or question mark, user info, host and port, parameters,
    headers.  Nil pointers are [None]. *)

From S2P Require Import Prelude GoStrings Params.

(** ** Data *)

Record Uri := mkUri {
  Uri_Scheme : str;
  Uri_User : str;
  Uri_Password : str;
  Uri_Host : str;
  Uri_Port : Z;
  Uri_Params : option Params;
  Uri_Headers : option Params
}.

#[export] Instance Uri_eq_dec : EqDecision Uri.
Proof. solve_decision. Defined.

Definition SchemeSIP : str := "sip".
Definition SchemeSIPS : str := "sips".
Definition SchemeTel : str := "tel".
Definition schemes : list str := [SchemeSIP; SchemeSIPS; SchemeTel].

(** ** Parsing *)

(** Host part, parameter text and header text of what follows the scheme. *)
Definition split_rest (rest : str) : str * str * str :=
  match IndexAny rest ";?" with
  | None => (rest, [], [])
  | Some i =>
    let hostPart := TrimSpace (take i rest) in
    let rest := drop i rest in
    if head rest == Some ";"%char then
      match IndexByte rest "?" with
      | Some pi => (hostPart, take pi rest, drop (S pi) rest)
      | None => (hostPart, rest, [])
      end
    else (hostPart, [], drop 1 rest)
  end.

(** User, password and the host that follows the last at-sign. *)
Definition split_userinfo (hostPart : str) : str * str * str :=
  match LastIndexByte hostPart "@" with
  | None => ([], [], hostPart)
  | Some at_ =>
    let userinfo := take at_ hostPart in
    let host := drop (S at_) hostPart in
    match IndexByte userinfo ":" with
    | Some up => (take up userinfo, drop (S up) userinfo, host)
    | None => (userinfo, [], host)
    end
  end.

(** Host and port; a bracketed IPv6 literal keeps its brackets. *)
Definition parse_host_port (host : str) : result (str * Z) :=
  if HasPrefix host "[" then
    match IndexByte host "]" with
    | None => Err ErrBadUri
    | Some e =>
      if e + 1 <? length host then
        if negb (head (drop (e + 1) host) == Some ":"%char) then Err ErrBadUri
        else port ← wrap_err ErrBadUri (Atoi (drop (e + 2) host));
             Ok (take (e + 1) host, port)
      else Ok (take (e + 1) host, 0%Z)
    end
  else
    match LastIndexByte host ":" with
    | Some i => port ← wrap_err ErrBadUri (Atoi (drop (i + 1) host)); Ok (take i host, port)
    | None => Ok (host, 0%Z)
    end.

(** The loop over the header parts of a URI. *)
Fixpoint parse_uri_headers (h : Params) (parts : list str) : Params :=
  match parts with
  | [] => h
  | part :: parts' =>
    let '(k, v, _) := Cut part "=" in
    parse_uri_headers (if k == [] then h else Params_Set h k v) parts'
  end.

Definition ParseUri (s : str) : result Uri :=
  let s := TrimSpace s in
  if s == [] then Err ErrBadUri
  else if existsb is_ctl s then Err ErrBadUri
  else
    let '(scheme, rest, found) := Cut s ":" in
    if negb found then Err ErrBadUri
    else if negb (bool_decide (ToLower scheme ∈ schemes)) then Err ErrBadUri
    else
      let '(hostPart, params, headers) := split_rest rest in
      let '(user, password, hostPart) := split_userinfo hostPart in
      if hostPart == [] then Err ErrBadUri
      else
        let hostPart := TrimSpace hostPart in
        if hostPart == [] then Err ErrBadUri
        else
          '(host, port) ← parse_host_port hostPart;
          let host := TrimSpace host in
          if host == [] then Err ErrBadUri
          else if ContainsByte host ":" && negb (HasPrefix host "[") then Err ErrBadUri
          else
            ps ← (if params != [] then p ← ParseParams params; Ok (Some p) else Ok None);
            let hs := if headers != [] then Some (parse_uri_headers NewParams (Split headers "&"))
                      else None in
            Ok (mkUri (ToLower scheme) user password host port ps hs).

(** ** Rendering *)

(** The host as [String] writes it: a bare colon gets brackets. *)
Definition render_host (h : str) : str :=
  let host := sanitizeField h in
  if ContainsByte host ":" && negb (HasPrefix host "[") then "["%char :: host ++ ["]"%char] else host.

Definition render_uri_header (it : Param) : str :=
  sanitizeField (Key it) ++ (if HasValue it then "="%char :: sanitizeField (Value it) else []).

Definition render_uri_headers (h : option Params) : str :=
  match h with
  | Some ((_ :: _) as items) => "?"%char :: Join (map render_uri_header items) "&"
  | _ => []
  end.

Definition render_userinfo (u : Uri) : str :=
  if Uri_User u != [] then
    sanitizeField (Uri_User u) ++
    (if Uri_Password u != [] then ":"%char :: sanitizeField (Uri_Password u) else []) ++ "@"
  else [].

Definition render_port (port : Z) : str :=
  if (0 <? port)%Z then ":"%char :: Itoa port else [].

(** [String] of a non-nil URI. *)
Definition uri_String (u : Uri) : str :=
  sanitizeField (Uri_Scheme u) ++ ":"%char :: render_userinfo u ++ render_host (Uri_Host u) ++
  render_port (Uri_Port u) ++ sanitizeField (Params_String (Uri_Params u)) ++
  render_uri_headers (Uri_Headers u).

Definition Uri_String (u : option Uri) : str :=
  match u with None => [] | Some u => uri_String u end.

(** ** The other methods *)

Definition IsEncrypted (u : option Uri) : bool :=
  match u with None => false | Some u => Uri_Scheme u == SchemeSIPS end.

(** A deep copy: the value itself in a pure model. *)
Definition Uri_Clone (u : option Uri) : option Uri := u.

Definition with_Password (u : Uri) (p : str) : Uri :=
  mkUri (Uri_Scheme u) (Uri_User u) p (Uri_Host u) (Uri_Port u) (Uri_Params u) (Uri_Headers u).

Definition RedactUri (u : option Uri) : str :=
  match u with
  | None => []
  | Some u => if Uri_Password u == [] then uri_String u else uri_String (with_Password u "***")
  end.

Definition HostPort (u : option Uri) : str :=
  match u with
  | None => []
  | Some u => if (0 <? Uri_Port u)%Z then Uri_Host u ++ ":"%char :: Itoa (Uri_Port u) else Uri_Host u
  end.

Definition EffectivePort (u : option Uri) : Z :=
  match u with
  | None => 0
  | Some u => if (0 <? Uri_Port u)%Z then Uri_Port u
              else if Uri_Scheme u == SchemeSIPS then 5061 else 5060
  end.

(** The parameters [Equal] compares. *)
Definition compared_params : list str :=
  [lit "user"; lit "transport"; lit "lr"; lit "method"; lit "ttl"; lit "maddr"].

Definition paramsEqual (u o : Uri) : bool :=
  forallb (λ k, let '(a, aok) := Params_Get (Uri_Params u) k in
                let '(b, bok) := Params_Get (Uri_Params o) k in
                (aok == bok) && (a == b)) compared_params.

Definition Uri_Equal (u o : option Uri) : bool :=
  match u, o with
  | Some u, Some o =>
    (Uri_Scheme u == Uri_Scheme o) && EqualFold (Uri_User u) (Uri_User o)
    && EqualFold (Uri_Host u) (Uri_Host o) && (Uri_Port u == Uri_Port o) && paramsEqual u o
  | None, None => true
  | _, _ => false
  end.

(** ** [Equal] is an equivalence *)

(** What [Equal] looks at. *)
Definition uri_key (u : Uri) : str * str * str * Z * list (str * bool) :=
  (Uri_Scheme u, ToLower (Uri_User u), ToLower (Uri_Host u), Uri_Port u,
   map (Params_Get (Uri_Params u)) compared_params).

Lemma paramsEqual_key (u o : Uri) :
  paramsEqual u o = (map (Params_Get (Uri_Params u)) compared_params
                     == map (Params_Get (Uri_Params o)) compared_params).
Proof.
  unfold paramsEqual. rewrite <-forallb_pointwise. apply forallb_same. intros k.
  destruct (Params_Get (Uri_Params u) k) as [a aok], (Params_Get (Uri_Params o) k) as [b bok].
  repeat case_test; simpl; congruence.
Qed.

Lemma Uri_Equal_key (u o : Uri) : Uri_Equal (Some u) (Some o) = (uri_key u == uri_key o).
Proof.
  simpl. unfold uri_key, EqualFold. rewrite paramsEqual_key.
  repeat case_test; simpl; try done; try (exfalso; congruence).
Qed.

Definition uri_equiv (u o : Uri) : Prop := Uri_Equal (Some u) (Some o).

#[export] Instance uri_equiv_equivalence : Equivalence uri_equiv.
Proof.
  unfold uri_equiv. split; repeat intro; rewrite !Uri_Equal_key in *; bool_hyps;
    apply bool_decide_pack; congruence.
Qed.

(** ** The canonical URI

    Two URIs are equal when they have the same canonical URI: no password, no headers,
    the user and the host in lower case, and the compared parameters alone, in the
    order of the list. *)

Definition shown_param (p : option Params) (k : str) : Params :=
  let '(v, ok) := Params_Get p k in
  if (v == []) && negb ok then [] else [mkParam k v ok].

Definition uri_canonical (u : Uri) : Uri :=
  mkUri (Uri_Scheme u) (ToLower (Uri_User u)) [] (ToLower (Uri_Host u)) (Uri_Port u)
    (Some (flat_map (shown_param (Uri_Params u)) compared_params)) None.

(** Its parameters are the ones that were there. *)
Lemma shown_get p ks k :
  Forall (λ j, EqualFold j k = true → j = k) ks →
  items_Get (flat_map (shown_param p) ks) k = if bool_decide (k ∈ ks) then Params_Get p k else ([], false).
Proof.
  induction 1 as [|j ks Hj _ IH]; [done|]. cbn [flat_map]. unfold shown_param at 1.
  destruct (decide (j = k)) as [->|Hne].
  - rewrite (bool_decide_true (k ∈ k :: ks)) by by left. destruct (Params_Get p k) as [v ok] eqn:E.
    destruct ((v == []) && negb ok) eqn:Hv.
    + apply andb_true_iff in Hv as [Hv Hok]. apply bool_decide_eq_true in Hv. apply negb_true_iff in Hok. subst v ok.
      cbn [app]. rewrite IH. by case_match.
    + cbn [app items_Get Key Value HasValue]. unfold EqualFold. by rewrite bool_decide_true.
  - rewrite (bool_decide_ext (k ∈ j :: ks) (k ∈ ks)) by set_solver. rewrite <-IH.
    destruct (Params_Get p j) as [v ok]. destruct (_ && _); [done|]. cbn [app items_Get Key].
    destruct (EqualFold j k) eqn:E; [by destruct Hne; apply Hj|done].
Qed.

Lemma compared_distinct k : k ∈ compared_params → Forall (λ j, EqualFold j k = true → j = k) compared_params.
Proof.
  intros Hk. assert (forallb (λ k, forallb (λ j, negb (EqualFold j k) || (j == k)) compared_params) compared_params = true) as H
    by by vm_compute.
  rewrite forallb_forall in H. apply list_elem_of_In, H in Hk. apply Forall_forall. intros j Hj%list_elem_of_In E.
  rewrite forallb_forall in Hk. apply Hk in Hj. rewrite E in Hj. by apply bool_decide_eq_true in Hj.
Qed.

Lemma canonical_params u :
  map (Params_Get (Uri_Params (uri_canonical u))) compared_params = map (Params_Get (Uri_Params u)) compared_params.
Proof.
  apply map_ext_in. intros k Hk%list_elem_of_In. cbn [uri_canonical Uri_Params Params_Get].
  rewrite shown_get by by apply compared_distinct. by rewrite bool_decide_true.
Qed.

Lemma canonical_key u : uri_key (uri_canonical u) = uri_key u.
Proof. unfold uri_key. rewrite canonical_params. cbn [uri_canonical Uri_User Uri_Host Uri_Scheme Uri_Port]. by rewrite !ToLower_idem. Qed.

Lemma canonical_iff u o : uri_key u = uri_key o ↔ uri_canonical u = uri_canonical o.
Proof.
  split; [|intros E; by rewrite <-(canonical_key u), <-(canonical_key o), E].
  intros E. pose proof (f_equal snd E) as Ep. apply (f_equal fst) in E. cbn [fst snd uri_key] in E, Ep.
  assert (∀ ks p q, map (Params_Get p) ks = map (Params_Get q) ks → flat_map (shown_param p) ks = flat_map (shown_param q) ks) as Hmap.
  { induction ks as [|k ks IH]; intros p q; cbn [map flat_map]; [done|]. intros Hk. injection Hk as Hk Hks.
    unfold shown_param at 1 3. by rewrite Hk, (IH p q). }
  apply Hmap in Ep. injection E as E1 E2 E3 E4. unfold uri_canonical. by rewrite E1, E2, E3, E4, Ep.
Qed.

(** ** Rendering is injection free *)

Lemma digits_safe s : all is_digit s → all safe_byte s.
Proof. intros H. solve_class. Qed.

Lemma render_port_safe port : all safe_byte (render_port port).
Proof.
  unfold render_port. destruct (0 <? port)%Z eqn:H; [|done]. apply Z.ltb_lt in H.
  split_all; [done|]. apply digits_safe, Itoa_nonneg_digits. lia.
Qed.

Lemma render_host_safe h : all safe_byte (render_host h).
Proof.
  unfold render_host. pose proof (sanitizeField_safe h). destruct (_ && _); [by split_all|done].
Qed.

Lemma render_userinfo_safe u : all safe_byte (render_userinfo u).
Proof.
  unfold render_userinfo. pose proof (sanitizeField_safe (Uri_User u)).
  pose proof (sanitizeField_safe (Uri_Password u)).
  repeat case_test; cbn [negb]; by split_all.
Qed.

Lemma render_uri_header_safe it : all safe_byte (render_uri_header it).
Proof.
  unfold render_uri_header. pose proof (sanitizeField_safe (Key it)).
  pose proof (sanitizeField_safe (Value it)). destruct (HasValue it); by split_all.
Qed.

Lemma all_Join (P : ascii → bool) (l : list str) (sep : str) :
  all P sep → Forall (λ s, Is_true (all P s)) l → all P (Join l sep).
Proof.
  intros Hsep H. induction H as [|s l Hs H IH]; [done|]. destruct l as [|s' l]; [done|].
  change (all P (s ++ sep ++ Join (s' :: l) sep)). by split_all.
Qed.

Lemma render_uri_headers_safe h : all safe_byte (render_uri_headers h).
Proof.
  destruct h as [[|it h]|]; [done| |done]. cbn [render_uri_headers]. split_all; [done|].
  apply all_Join; [done|]. apply Forall_map, Forall_true, render_uri_header_safe.
Qed.

Lemma uri_String_safe u : all safe_byte (uri_String u).
Proof.
  unfold uri_String. split_all; try done.
  all: auto using sanitizeField_safe, render_userinfo_safe, render_host_safe, render_port_safe,
    render_uri_headers_safe.
Qed.

Lemma Uri_String_safe u : all safe_byte (Uri_String u).
Proof. destruct u; [apply uri_String_safe|done]. Qed.

(** ** Round trip: parsing what [String] renders *)

(** Bytes that survive between the scheme and the parameters. *)
Definition uri_byte (c : ascii) : bool :=
  negb (is_ctl c) && negb (is_space c) && negb (mem c ";?").
Definition user_byte (c : ascii) : bool := uri_byte c && (c != ":"%char).
Definition host_byte (c : ascii) : bool := uri_byte c && negb (mem c ":@[]").
Definition host6_byte (c : ascii) : bool := uri_byte c && negb (mem c "@[]").
Definition uri_param_byte (c : ascii) : bool :=
  negb (is_ctl c) && negb (is_space c) && (c != "?"%char).
Definition uri_header_byte (c : ascii) : bool :=
  negb (is_ctl c) && negb (is_space c) && (c != "&"%char).

(** A plain host, or a bracketed literal. *)
Definition wf_host (h : str) : bool :=
  ((h != []) && all host_byte h)
  || (HasPrefix h "[" && (last h == Some "]"%char) && (2 <=? length h)
      && all host6_byte (take (length h - 2) (drop 1 h))).

Definition wf_param_in (P : ascii → bool) (it : Param) : bool :=
  wf_param it && all P (Key it) && all P (Value it).

Definition wf_uri_header (it : Param) : bool :=
  (Key it != []) && HasValue it && all uri_header_byte (Key it)
  && free "="%char (Key it) && all uri_header_byte (Value it).

(** Parameters that survive rendering and parsing, all bytes in class [P]. *)
Definition wf_params_in (P : ascii → bool) (p : option Params) : bool :=
  match p with
  | None => true
  | Some p => (p != []) && wf_params p && forallb (wf_param_in P) p
  end.

Definition wf_uri_headers (h : option Params) : bool :=
  match h with
  | None => true
  | Some h => (h != []) && forallb wf_uri_header h && bool_decide (keys_unique h)
  end.

Definition wf_uri (u : Uri) : bool :=
  bool_decide (Uri_Scheme u ∈ schemes)
  && all user_byte (Uri_User u) && all uri_byte (Uri_Password u)
  && ((Uri_User u != []) || (Uri_Password u == []))
  && wf_host (Uri_Host u)
  && (0 <=? Uri_Port u)%Z && (Uri_Port u <=? max_int)%Z
  && wf_params_in uri_param_byte (Uri_Params u) && wf_uri_headers (Uri_Headers u).

Definition u_ex : Uri :=
  mkUri "sip" "alice" "pw" "[::1]" 5070
    (Some [mkParam "transport" "tcp" true; mkParam "lr" [] false; mkParam "x" "a;b" true])
    (Some [mkParam "Subject" "hi=1" true; mkParam "p" "" true]).

Example u_ex_wf : wf_uri u_ex = true.
Proof. reflexivity. Qed.

Example u_ex_roundtrip : ParseUri (uri_String u_ex) = Ok u_ex.
Proof. vm_compute. reflexivity. Qed.


(** No control byte, no white space. *)
Definition uri_text (c : ascii) : bool := negb (is_ctl c) && negb (is_space c).

(** Compare two byte classes on all 256 bytes. *)
Ltac class := let c := fresh "c" in intros c; all_bytes c; vm_compute; tauto.

Lemma all_class (P Q : ascii → bool) (s : str) : all P s → (∀ c, P c → Q c) → all Q s.
Proof. apply all_impl. Qed.

Lemma split_rest_spec (a p h : str) :
  all (λ c, negb (mem c ";?")) a → trimmed a →
  p = [] ∨ (head p = Some ";"%char ∧ free "?"%char p) →
  h = [] ∨ head h = Some "?"%char →
  split_rest (a ++ p ++ h) = (a, p, drop 1 h).
Proof.
  intros Ha Ht Hp Hh. unfold split_rest.
  destruct p as [|c p], h as [|d h]; destruct Hp as [Hp|[Hp Hf]], Hh as [Hh|Hh]; try done;
    cbn [head app] in *; simplify_eq.
  - rewrite app_nil_r. by rewrite (proj2 (IndexAny_None a _) Ha).
  - rewrite IndexAny_app, take_len_app, drop_len_app, TrimSpace_trimmed by done.
    done.
  - rewrite app_nil_r, IndexAny_app, take_len_app, drop_len_app, TrimSpace_trimmed by done.
    cbn [head]. rewrite bool_decide_true by done.
    by rewrite (proj2 (IndexByte_None _ _) Hf).
  - rewrite IndexAny_app, take_len_app, drop_len_app, TrimSpace_trimmed by done.
    cbn [head]. rewrite bool_decide_true by done.
    change (";"%char :: p ++ "?"%char :: h) with ((";"%char :: p) ++ "?"%char :: h).
    by rewrite IndexByte_app, take_len_app, drop_S_len_app by done.
Qed.

Lemma split_userinfo_none hp : free "@"%char hp → split_userinfo hp = ([], [], hp).
Proof. intros H. unfold split_userinfo. by rewrite LastIndexByte_None. Qed.

Lemma split_userinfo_user user hp :
  free ":"%char user → free "@"%char hp →
  split_userinfo (user ++ "@"%char :: hp) = (user, [], hp).
Proof.
  intros Hu Hh. unfold split_userinfo. rewrite LastIndexByte_app by done.
  rewrite take_len_app, drop_S_len_app. by rewrite (proj2 (IndexByte_None _ _) Hu).
Qed.

Lemma split_userinfo_both user pw hp :
  free ":"%char user → free "@"%char hp →
  split_userinfo ((user ++ ":"%char :: pw) ++ "@"%char :: hp) = (user, pw, hp).
Proof.
  intros Hu Hh. unfold split_userinfo. rewrite LastIndexByte_app by done.
  rewrite take_len_app, drop_S_len_app.
  by rewrite IndexByte_app, take_len_app, drop_S_len_app by done.
Qed.

(** A well-formed host is plain or bracketed. *)
Lemma wf_host_cases h :
  wf_host h →
  (h ≠ [] ∧ all host_byte h) ∨ ∃ x, h = "["%char :: x ++ ["]"%char] ∧ all host6_byte x.
Proof.
  unfold wf_host. intros [H|H]%orb_True; bool_hyps; [by left|]. right.
  destruct h as [|c h]; [done|].
  cbn [HasPrefix lit String.list_ascii_of_string] in *. bool_hyps. subst c.
  destruct h as [|d h _] using rev_ind; [done|].
  exists h. rewrite app_comm_cons, last_snoc in *. simplify_eq.
  cbn [length app drop] in *. rewrite length_app in *. cbn [length] in *.
  replace (S (length h + 1) - 2) with (length h) in * by lia.
  by rewrite drop_0, take_len_app in *.
Qed.

Lemma wf_host_text h : wf_host h → all (λ c, uri_byte c && (c != "@"%char)) h.
Proof.
  intros [[_ H]|(x & -> & H)]%wf_host_cases.
  - apply (all_impl _ _ _ H). class.
  - split_all; try done. apply (all_impl _ _ _ H). class.
Qed.

Lemma wf_host_trim h : wf_host h → TrimSpace h = h ∧ h ≠ [].
Proof.
  intros H. split.
  - apply TrimSpace_nospace. pose proof (wf_host_text h H) as Ht. apply (all_impl _ _ _ Ht). class.
  - by apply wf_host_cases in H as [[? _]|(x & -> & _)].
Qed.

Lemma render_host_id h : wf_host h → render_host h = h.
Proof.
  intros H. unfold render_host. rewrite sanitizeField_id.
  - apply wf_host_cases in H as [[_ H]|(x & -> & _)]; [|by rewrite andb_false_r].
    destruct (ContainsByte h ":") eqn:E; [|done]. exfalso.
    apply Is_true_true, mem_elem in E. eapply all_elem in H; [|exact E]. done.
  - pose proof (wf_host_text h H) as Ht. apply (all_impl _ _ _ Ht). class.
Qed.

Lemma render_port_digits port : all (λ c, is_digit c || (c == ":"%char)) (render_port port).
Proof.
  unfold render_port. destruct (0 <? port)%Z eqn:H; [|done]. apply Z.ltb_lt in H.
  split_all; [done|]. assert (all is_digit (Itoa port)) as Hd by (apply Itoa_nonneg_digits; lia).
  apply (all_impl _ _ _ Hd). class.
Qed.

Lemma Atoi_port port : (0 ≤ port ≤ max_int)%Z → Atoi (Itoa port) = Ok port.
Proof.
  intros H. apply Atoi_Itoa. unfold in_int, min_int, max_int in *. apply Is_true_true. lia.
Qed.

Lemma host_byte_no_bracket c h : all host_byte (c :: h) → c ≠ "["%char.
Proof. intros H ->. done. Qed.

Lemma parse_host_port_spec h port :
  wf_host h → (0 ≤ port ≤ max_int)%Z → parse_host_port (h ++ render_port port) = Ok (h, port).
Proof.
  intros Hh Hport. unfold parse_host_port, render_port.
  apply wf_host_cases in Hh as [[Hne Hh]|(x & -> & Hx)].
  - set (t := if (0 <? port)%Z then _ else _). assert (HasPrefix (h ++ t) "[" = false) as ->.
    { destruct h as [|c h]; [done|]. simpl. apply host_byte_no_bracket in Hh.
      by rewrite bool_decide_false. }
    assert (free ":"%char h) by (apply (all_impl _ _ _ Hh); class).
    subst t. destruct (0 <? port)%Z eqn:Hp; simpl.
    + apply Z.ltb_lt in Hp. assert (all is_digit (Itoa port)) as Hd by (apply Itoa_nonneg_digits; lia).
      rewrite LastIndexByte_app by (apply (all_impl _ _ _ Hd); class).
      replace (length h + 1) with (S (length h)) by lia.
      by rewrite take_len_app, drop_S_len_app, Atoi_port.
    + rewrite app_nil_r, LastIndexByte_None by done. apply Z.ltb_ge in Hp.
      by replace port with 0%Z by lia.
  - cbn [app]. cbn [HasPrefix lit String.list_ascii_of_string]. rewrite bool_decide_true by done. cbn [andb].
    assert (free "]"%char ("["%char :: x)) by (split_all; [done|]; apply (all_impl _ _ _ Hx); class).
    rewrite <-app_assoc. cbn [app]. rewrite app_comm_cons. rewrite IndexByte_app by done.
    set (y := "["%char :: x) in *.
    assert (∀ z, y ++ "]"%char :: z = (y ++ ["]"%char]) ++ z) as Hy by (intros z; by rewrite <-app_assoc).
    assert (length y + 1 = length (y ++ ["]"%char])) as Hlen by (rewrite length_app; done).
    destruct (0 <? port)%Z eqn:Hp.
    + rewrite Hy, Hlen, drop_len_app, take_len_app.
      assert ((length (y ++ ["]"%char]) <? length ((y ++ ["]"%char]) ++ ":"%char :: Itoa port)) = true) as ->.
      { apply Nat.ltb_lt. rewrite !length_app. simpl. lia. }
      cbn [head]. rewrite bool_decide_true by done. cbn [negb].
      replace (length y + 2) with (S (length (y ++ ["]"%char]))) by (rewrite length_app; simpl; lia).
      rewrite drop_S_len_app, Atoi_port by (apply Z.ltb_lt in Hp; lia). done.
    + rewrite Hy, Hlen, app_nil_r, Nat.ltb_irrefl. rewrite firstn_all.
      apply Z.ltb_ge in Hp. by replace port with 0%Z by lia.
Qed.

(** *** The parameters and headers of a well-formed URI *)

Lemma all_escapeParam (P : ascii → bool) v :
  P DQUOTE → P BSLASH → all P v → all P (escapeParam v).
Proof.
  intros Hq Hb Hv.
  assert (∀ s, all P s → all P (sanitizeField s)) as Hsan.
  { intros s Hs. rewrite sanitizeField_filter. apply all_intro. intros c Hc.
    apply list_elem_of_In, filter_In in Hc as [Hc _]. eapply all_elem; [exact Hs|].
    by apply list_elem_of_In. }
  unfold escapeParam. destruct (negb _); [by apply Hsan|].
  split_all; [done| |done]. apply Hsan, all_ReplaceAll; by split_all.
Qed.

(** A class that holds the bytes [String] adds to names and values. *)
Definition param_class (P : ascii → bool) : Prop := P DQUOTE ∧ P BSLASH ∧ P ";"%char ∧ P "="%char.

Lemma params_in_text P p :
  param_class P → wf_params_in P p →
  all P (Params_String p) ∧
  (Params_String p = [] ∨ head (Params_String p) = Some ";"%char) ∧
  (Params_String p = [] → p = None).
Proof.
  intros (Hq & Hb & Hs & He) H.
  destruct p as [p|]; [|by split; [done|split; [left|]]]. unfold wf_params_in in H. bool_hyps.
  split; [|split].
  - match goal with H : Is_true (forallb _ p) |- _ => apply Forall_forallb in H; rename H into Hp end.
    cbn [Params_String]. clear -Hp Hq Hb Hs He. induction Hp as [|it p Hit Hp IH]; [done|].
    cbn [map concat]. unfold wf_param_in in Hit. bool_hyps. unfold Param_String.
    split_all; [done|by apply all_escapeParam| |done].
    destruct (HasValue it); [|done]. split_all; [done|by apply all_escapeParam].
  - right. by destruct p.
  - by destruct p.
Qed.

Lemma ParseParams_in P p :
  param_class P → wf_params_in P p →
  (if Params_String p != [] then q ← ParseParams (Params_String p); Ok (Some q) else Ok None) = Ok p.
Proof.
  intros HP H. destruct (params_in_text P p HP H) as (_ & _ & Hnil).
  case_test; cbn [negb]; [by rewrite Hnil|].
  destruct p as [p|]; [|done]. unfold wf_params_in in H. bool_hyps.
  by rewrite ParseParams_String.
Qed.

Lemma uri_param_class : param_class uri_param_byte.
Proof. done. Qed.

Lemma sanitize_text s : all uri_header_byte s → sanitizeField s = s.
Proof. intros H. apply sanitizeField_id, (all_impl _ _ _ H). class. Qed.

Lemma render_uri_header_eq it :
  wf_uri_header it → render_uri_header it = Key it ++ "="%char :: Value it.
Proof.
  unfold wf_uri_header, render_uri_header. intros H. bool_hyps.
  rewrite !sanitize_text by done. by destruct (HasValue it).
Qed.

Lemma parse_uri_headers_spec acc h :
  Forall (λ it, Is_true (wf_uri_header it)) h → keys_unique (acc ++ h) →
  parse_uri_headers acc (map render_uri_header h) = acc ++ h.
Proof.
  revert acc. induction h as [|it h IH]; intros acc Hwf Hnd; [by rewrite app_nil_r|].
  apply Forall_cons in Hwf as [Hit Hwf]. cbn [map parse_uri_headers].
  rewrite render_uri_header_eq by done. unfold wf_uri_header in Hit. bool_hyps.
  rewrite Cut_app by done. rewrite bool_decide_false by done.
  assert (Params_Set acc (Key it) (Value it) = acc ++ [it]) as ->.
  { unfold Params_Set. replace (mkParam _ _ true) with it by (destruct it as [? ? []]; done).
    apply set_fresh. unfold keys_unique, folded in Hnd. rewrite map_app in Hnd.
    apply NoDup_app in Hnd as (_ & Hdis & _). intros Hin. apply (Hdis _ Hin). set_solver. }
  rewrite IH by (rewrite <-?app_assoc; done). by rewrite <-app_assoc.
Qed.

Lemma wf_uri_headers_cases h :
  wf_uri_headers h →
  h = None ∨ ∃ it l, h = Some (it :: l) ∧ Forall (λ it, Is_true (wf_uri_header it)) (it :: l)
                     ∧ keys_unique (it :: l).
Proof.
  destruct h as [[|it l]|]; [done| |by left]. unfold wf_uri_headers. intros H. bool_hyps.
  right. exists it, l. by rewrite <-Forall_forallb.
Qed.

Lemma wf_uri_header_text it : wf_uri_header it → all uri_header_byte (render_uri_header it).
Proof.
  intros H. rewrite render_uri_header_eq by done. unfold wf_uri_header in H. bool_hyps.
  by split_all.
Qed.

Lemma parse_rendered_headers h :
  wf_uri_headers h →
  (if drop 1 (render_uri_headers h) != []
   then Some (parse_uri_headers NewParams (Split (drop 1 (render_uri_headers h)) "&")) else None) = h.
Proof.
  intros [->|(it & l & -> & Hwf & Hnd)]%wf_uri_headers_cases; [done|].
  cbn [render_uri_headers drop]. rewrite drop_0.
  rewrite bool_decide_false.
  - cbn [negb]. rewrite (Split_Join_byte "&"); [by rewrite (parse_uri_headers_spec [])|done|].
    apply Forall_map. eapply Forall_impl; [exact Hwf|]. intros x Hx. simpl.
    pose proof (wf_uri_header_text x Hx) as Ht. apply (all_impl _ _ _ Ht). class.
  - apply Forall_cons in Hwf as [Hit _]. cbn [map].
    pose proof (render_uri_header_eq it Hit) as E.
    destruct l; cbn [map Join]; rewrite E; destruct (Key it); done.
Qed.

Lemma render_uri_headers_text h :
  wf_uri_headers h → all uri_text (render_uri_headers h) ∧
  (render_uri_headers h = [] ∨ head (render_uri_headers h) = Some "?"%char).
Proof.
  intros [->|(it & l & -> & Hwf & _)]%wf_uri_headers_cases; [by split; [|left]|].
  split; [|by right]. cbn [render_uri_headers]. split_all; [done|].
  apply all_Join; [done|]. apply Forall_map. eapply Forall_impl; [exact Hwf|].
  intros x Hx. simpl. pose proof (wf_uri_header_text x Hx) as Ht. apply (all_impl _ _ _ Ht). class.
Qed.

(** *** The user info of a well-formed URI *)

Lemma render_userinfo_eq u :
  wf_uri u →
  render_userinfo u =
  if Uri_User u == [] then []
  else (if Uri_Password u == [] then Uri_User u else Uri_User u ++ ":"%char :: Uri_Password u) ++ ["@"%char].
Proof.
  unfold wf_uri, render_userinfo. intros H. bool_hyps.
  assert (sanitizeField (Uri_User u) = Uri_User u) as ->.
  { apply sanitizeField_id. eapply all_impl; [eassumption|]. class. }
  assert (sanitizeField (Uri_Password u) = Uri_Password u) as ->.
  { apply sanitizeField_id. eapply all_impl; [eassumption|]. class. }
  repeat case_test; cbn [negb app]; rewrite ?app_nil_r, <-?app_assoc; done.
Qed.

Lemma split_rendered_userinfo u hp :
  wf_uri u → free "@"%char hp →
  split_userinfo (render_userinfo u ++ hp) = (Uri_User u, Uri_Password u, hp).
Proof.
  intros Hwf Hhp. rewrite render_userinfo_eq by done. unfold wf_uri in Hwf. bool_hyps.
  assert (free ":"%char (Uri_User u)) by (eapply all_impl; [eassumption|]; class).
  case_test; cbn [app].
  - rewrite split_userinfo_none by done. do 2 f_equal; [by symmetry|].
    match goal with H : Is_true (_ || _) |- _ => apply orb_True in H as [H|H]; bool_hyps end; done.
  - case_test; rewrite <-app_assoc; cbn [app].
    + rewrite split_userinfo_user by done. congruence.
    + by rewrite split_userinfo_both by done.
Qed.

(** *** The whole URI *)

Lemma scheme_cases (s : str) : s ∈ schemes → s = SchemeSIP ∨ s = SchemeSIPS ∨ s = SchemeTel.
Proof. unfold schemes. set_solver. Qed.

Lemma scheme_facts (s : str) :
  s ∈ schemes → ToLower s = s ∧ free ":"%char s ∧ all uri_text s ∧ sanitizeField s = s.
Proof. intros [-> | [-> | ->]]%scheme_cases; by vm_compute. Qed.

Lemma existsb_ctl s : all uri_text s → existsb is_ctl s = false.
Proof.
  intros H. induction s as [|c s IH]; [done|]. split_all. simpl.
  unfold uri_text in *. bool_hyps. rewrite IH by done. by destruct (is_ctl c).
Qed.

(** The text between the scheme and the parameters. *)
Definition uri_authority (u : Uri) : str := render_userinfo u ++ Uri_Host u ++ render_port (Uri_Port u).

Lemma uri_authority_text u : wf_uri u → all uri_byte (uri_authority u).
Proof.
  intros H. unfold uri_authority. rewrite render_userinfo_eq by done. unfold wf_uri in H. bool_hyps.
  split_all.
  - repeat case_test; split_all; try done; eapply all_impl; try eassumption; class.
  - pose proof (wf_host_text (Uri_Host u) ltac:(done)) as Ht. apply (all_impl _ _ _ Ht). class.
  - pose proof (render_port_digits (Uri_Port u)) as Ht. apply (all_impl _ _ _ Ht). class.
Qed.

Lemma uri_String_eq u :
  wf_uri u →
  uri_String u = Uri_Scheme u ++ ":"%char :: uri_authority u ++
                 Params_String (Uri_Params u) ++ render_uri_headers (Uri_Headers u).
Proof.
  intros H. unfold uri_String, uri_authority. unfold wf_uri in H. bool_hyps.
  destruct (scheme_facts (Uri_Scheme u)) as (_ & _ & _ & ->); [done|].
  rewrite render_host_id, (sanitizeField_id (Params_String _)) by (done || apply Params_String_safe).
  by rewrite <-!app_assoc.
Qed.

Lemma uri_String_text u : wf_uri u → all uri_text (uri_String u).
Proof.
  intros H. rewrite uri_String_eq by done. pose proof (uri_authority_text u H) as Ha.
  unfold wf_uri in H. bool_hyps.
  destruct (scheme_facts (Uri_Scheme u)) as (_ & _ & Hs & _); [done|].
  destruct (params_in_text _ (Uri_Params u) uri_param_class) as (Hp & _); [done|].
  destruct (render_uri_headers_text (Uri_Headers u)) as (Hh & _); [done|].
  split_all; try done; eapply all_impl; try eassumption; class.
Qed.

Lemma ParseUri_uri_String u : wf_uri u → ParseUri (uri_String u) = Ok u.
Proof.
  intros Hwf. pose proof (uri_String_text u Hwf) as Htext.
  pose proof (uri_authority_text u Hwf) as Hauth. unfold ParseUri.
  rewrite TrimSpace_nospace by (apply (all_impl _ _ _ Htext); class).
  rewrite (existsb_ctl _ Htext). rewrite uri_String_eq by done.
  pose proof Hwf as Hwf'. unfold wf_uri in Hwf'. bool_hyps.
  destruct (scheme_facts (Uri_Scheme u)) as (Hlow & Hcol & _ & _); [done|].
  destruct (params_in_text _ (Uri_Params u) uri_param_class) as (Hp & Hph & _); [done|].
  destruct (render_uri_headers_text (Uri_Headers u)) as (_ & Hh); [done|].
  destruct (wf_host_trim (Uri_Host u)) as (Htrim & Hne); [done|].
  rewrite bool_decide_false by (destruct (Uri_Scheme u); done).
  rewrite Cut_app by done. cbn [negb]. rewrite Hlow, bool_decide_true by done. cbn [negb].
  rewrite split_rest_spec; [|by apply (all_impl _ _ _ Hauth); class|..|done].
  2: { apply trimmed_nospace, (all_impl _ _ _ Hauth). class. }
  2: { destruct Hph; [by left|right]. split; [done|]. apply (all_impl _ _ _ Hp). class. }
  assert (all (λ c, uri_byte c && (c != "@"%char)) (Uri_Host u ++ render_port (Uri_Port u))) as Hhp.
  { split_all; [by apply wf_host_text|].
    pose proof (render_port_digits (Uri_Port u)) as Ht. apply (all_impl _ _ _ Ht). class. }
  unfold uri_authority. rewrite split_rendered_userinfo by (done || (apply (all_impl _ _ _ Hhp); class)).
  rewrite bool_decide_false by (destruct (Uri_Host u); done).
  rewrite TrimSpace_nospace by (apply (all_impl _ _ _ Hhp); class).
  rewrite bool_decide_false by (destruct (Uri_Host u); done).
  rewrite parse_host_port_spec by (done || split; by apply Z.leb_le, Is_true_true).
  rewrite result_bind_Ok. cbv zeta. rewrite Htrim, bool_decide_false by done.
  assert (ContainsByte (Uri_Host u) ":" && negb (HasPrefix (Uri_Host u) "[") = false) as ->.
  { pose proof (render_host_id (Uri_Host u) ltac:(done)) as E. unfold render_host in E.
    rewrite sanitizeField_id in E; [destruct (_ && _); [|done]|].
    - apply (f_equal length) in E. simpl in E. rewrite length_app in E. simpl in E. lia.
    - pose proof (wf_host_text (Uri_Host u) ltac:(done)) as Ht. apply (all_impl _ _ _ Ht). class. }
  rewrite (ParseParams_in _ _ uri_param_class) by done. rewrite result_bind_Ok, parse_rendered_headers by done.
  by destruct u.
Qed.

(** ** What the parser accepts *)

(** Invert one guard or one bind of a [result] computation in [H]. *)
Ltac invert_guard H :=
  match type of H with
  | (if ?b then _ else _) = Ok _ => destruct b eqn:?; try discriminate H
  | (_ ≫= _) = Ok _ => apply result_bind_inv in H as (? & ? & H)
  | (let '_ := ?p in _) = Ok _ => destruct p eqn:?
  end.

(** The shape of every URI the parser returns. *)
Record uri_valid (u : Uri) : Prop := {
  valid_scheme : Uri_Scheme u ∈ schemes;
  valid_host : Uri_Host u ≠ [];
  valid_host_trimmed : trimmed (Uri_Host u);
  valid_colon : ContainsByte (Uri_Host u) ":" = true → HasPrefix (Uri_Host u) "[" = true;
  valid_port : in_int (Uri_Port u);
  valid_params : ∀ p, Uri_Params u = Some p → keys_unique p ∧ lower_keys p;
  valid_headers : ∀ h, Uri_Headers u = Some h → keys_unique h
}.

Lemma parse_host_port_inv s h port : parse_host_port s = Ok (h, port) → in_int port.
Proof.
  unfold parse_host_port. destruct (HasPrefix s "[").
  - destruct (IndexByte s "]"); [|done]. destruct (_ <? _); [|by intros [= _ <-]].
    destruct (negb _); [done|]. intros (p & Hp & [= _ <-])%result_bind_inv.
    destruct (Atoi _) eqn:E; simplify_eq/=. by eapply Atoi_in_int.
  - destruct (LastIndexByte s ":"); [|by intros [= _ <-]].
    intros (p & Hp & [= _ <-])%result_bind_inv.
    destruct (Atoi _) eqn:E; simplify_eq/=. by eapply Atoi_in_int.
Qed.

Lemma parse_uri_headers_unique h parts : keys_unique h → keys_unique (parse_uri_headers h parts).
Proof.
  revert h. induction parts as [|part parts IH]; intros h H; [done|]. cbn [parse_uri_headers].
  destruct (Cut part "=") as [[k v] found]. apply IH. case_test; [done|].
  by apply keys_unique_set.
Qed.

Lemma ParseUri_inv s u : ParseUri s = Ok u → uri_valid u.
Proof.
  unfold ParseUri. intros H. do 2 invert_guard H. destruct (Cut (TrimSpace s) ":") as [[scheme rest] found].
  do 2 invert_guard H.
  destruct (split_rest rest) as [[hp ps] hs]. destruct (split_userinfo hp) as [[user pw] host].
  do 2 invert_guard H. apply result_bind_inv in H as ([h port] & Hport & H).
  cbv zeta in H. do 2 invert_guard H. apply result_bind_inv in H as (p & Hp & [= <-]).
  apply parse_host_port_inv in Hport.
  repeat match goal with
  | H : negb _ = false |- _ => apply negb_false_iff in H
  | H : bool_decide _ = true |- _ => apply bool_decide_eq_true in H
  | H : bool_decide _ = false |- _ => apply bool_decide_eq_false in H
  end.
  split; cbn [Uri_Scheme Uri_Host Uri_Port Uri_Params Uri_Headers]; try done.
  - apply TrimSpace_is_trimmed.
  - intros Hc. rewrite Hc in *. by destruct (HasPrefix _ _).
  - intros q ->. revert Hp. case_test; cbn [negb]; [done|].
    intros (q' & Hq & [= <-])%result_bind_inv. by eapply ParseParams_inv.
  - intros q. case_test; cbn [negb]; [done|]. intros [= <-].
    apply parse_uri_headers_unique, NoDup_nil_2.
Qed.
