(* ===== verification/Headers.v ===== *)
(** * [headers.go]: typed headers

    Header names, Via, addresses and address lists, CSeq, the numeric headers,
    token lists and the authentication parameters: the data, the parsers, the
    renderers and the [Header] sum type the messages hold. *)

From S2P Require Import Prelude GoStrings Params Uri.

(** ** Header names *)

Definition shortToLong : list (str * str) :=
  [(lit "i", lit "Call-ID");
   (lit "f", lit "From");
   (lit "t", lit "To");
   (lit "v", lit "Via");
   (lit "m", lit "Contact");
   (lit "c", lit "Content-Type");
   (lit "l", lit "Content-Length");
   (lit "k", lit "Supported");
   (lit "s", lit "Subject");
   (lit "r", lit "Refer-To");
   (lit "u", lit "Allow-Events");
   (lit "e", lit "Content-Encoding");
   (lit "j", lit "Reject-Contact");
   (lit "d", lit "Request-Disposition");
   (lit "a", lit "Accept-Contact");
   (lit "x", lit "Session-Expires");
   (lit "y", lit "Identity");
   (lit "n", lit "Identity-Info");
   (lit "o", lit "Event");
   (lit "b", lit "Referred-By");
   (lit "q", lit "Target-Dialog");
   (lit "cseq", lit "CSeq");
   (lit "call-id", lit "Call-ID");
   (lit "www-authenticate", lit "WWW-Authenticate");
   (lit "proxy-authenticate", lit "Proxy-Authenticate");
   (lit "proxy-authorization", lit "Proxy-Authorization");
   (lit "p-asserted-identity", lit "P-Asserted-Identity");
   (lit "refer-to", lit "Refer-To");
   (lit "referred-by", lit "Referred-By");
   (lit "accept-contact", lit "Accept-Contact");
   (lit "session-expires", lit "Session-Expires");
   (lit "min-se", lit "Min-SE");
   (lit "allow-events", lit "Allow-Events");
   (lit "content-length", lit "Content-Length");
   (lit "content-type", lit "Content-Type");
   (lit "max-forwards", lit "Max-Forwards");
   (lit "record-route", lit "Record-Route");
   (lit "accept-encoding", lit "Accept-Encoding");
   (lit "accept-language", lit "Accept-Language");
   (lit "retry-after", lit "Retry-After");
   (lit "in-reply-to", lit "In-Reply-To");
   (lit "user-agent", lit "User-Agent");
   (lit "reject-contact", lit "Reject-Contact");
   (lit "request-disposition", lit "Request-Disposition");
   (lit "identity-info", lit "Identity-Info");
   (lit "target-dialog", lit "Target-Dialog")].

Fixpoint assoc (k : str) (l : list (str * str)) : option str :=
  match l with
  | [] => None
  | (a, b) :: l' => if a == k then Some b else assoc k l'
  end.

(** [strings.ToUpper(p[:1]) + strings.ToLower(p[1:])], the empty part kept. *)
Definition capitalize (p : str) : str := ToUpper (take 1 p) ++ ToLower (drop 1 p).

Definition CanonicalName (name : str) : str :=
  let name := TrimSpace name in
  match assoc (ToLower name) shortToLong with
  | Some long => long
  | None => Join (map capitalize (Split name "-")) "-"
  end.

(** ** Via *)

Record Via := mkVia {
  Via_Proto : str;
  Via_Transport : str;
  Via_Host : str;
  Via_Port : Z;
  Via_Params : option Params
}.

#[export] Instance Via_eq_dec : EqDecision Via.
Proof. solve_decision. Defined.

(** Host and port of a Via; text after a bracketed host that is no port is
    dropped. *)
Definition via_host_port (s : str) : result (str * Z) :=
  if HasPrefix s "[" then
    match IndexByte s "]" with
    | None => Err ErrParse
    | Some e =>
      if (e + 1 <? length s) && (head (drop (e + 1) s) == Some ":"%char)
      then p ← wrap_err ErrParse (Atoi (drop (e + 2) s)); Ok (take (e + 1) s, p)
      else Ok (take (e + 1) s, 0%Z)
    end
  else
    match LastIndexByte s ":" with
    | Some i => p ← wrap_err ErrParse (Atoi (drop (i + 1) s)); Ok (take i s, p)
    | None => Ok (s, 0%Z)
    end.

(** The transport: what follows the last slash of the protocol. *)
Definition transport_of (proto : str) : str :=
  match LastIndexByte proto "/" with Some i => drop (i + 1) proto | None => proto end.

(** [parseHostPort] on a Via whose protocol and parameters are set. *)
Definition parseHostPort (proto : str) (params : option Params) (s : str) : result Via :=
  '(host, port) ← via_host_port s;
  Ok (mkVia proto (transport_of proto) host port params).

Definition ParseVia (s : str) : result Via :=
  let s := TrimSpace s in
  if existsb is_ctl s then Err ErrParse
  else match SplitN s " " 2 with
  | [p; r] =>
    let proto := TrimSpace p in
    let rest := TrimSpace r in
    match IndexByte rest ";" with
    | Some i => params ← ParseParams (drop i rest);
                parseHostPort proto (Some params) (TrimSpace (take i rest))
    | None => parseHostPort proto None rest
    end
  | _ => Err ErrParse
  end.

Definition Branch (v : Via) : str := (Params_Get (Via_Params v) "branch").1.

Definition SetBranch (v : Via) (branch : str) : Via :=
  mkVia (Via_Proto v) (Via_Transport v) (Via_Host v) (Via_Port v)
    (Some (Params_Set (default NewParams (Via_Params v)) "branch" branch)).

Definition Via_Value (v : Via) : str :=
  Via_Proto v ++ " "%char :: Via_Host v ++ render_port (Via_Port v) ++ Params_String (Via_Params v).

(** ** Addresses *)

Record Address := mkAddress {
  DisplayName : str;
  Quoted : bool;
  Address_Uri : option Uri;
  Address_Params : option Params
}.

#[export] Instance Address_eq_dec : EqDecision Address.
Proof. solve_decision. Defined.

Definition ParseAddress (s : str) : result Address :=
  let s := TrimSpace s in
  match IndexByte s "<" with
  | Some uriStart =>
    let raw := TrimSpace (take uriStart s) in
    let display := unquote raw in
    match LastIndexByte s ">" with
    | None => Err ErrBadAddress
    | Some e =>
      if e <=? uriStart then Err ErrBadAddress
      else
        u ← ParseUri (take (e - (uriStart + 1)) (drop (uriStart + 1) s));
        let rest := TrimSpace (drop (e + 1) s) in
        ps ← (if rest != [] then p ← ParseParams rest; Ok (Some p) else Ok None);
        Ok (mkAddress display (raw != display) (Some u) ps)
    end
  | None => u ← wrap_err ErrBadAddress (ParseUri s); Ok (mkAddress [] false (Some u) None)
  end.

Definition Tag (a : option Address) : str :=
  match a with
  | None => []
  | Some a => (Params_Get (Address_Params a) "tag").1
  end.

Definition with_Params (a : Address) (p : option Params) : Address :=
  mkAddress (DisplayName a) (Quoted a) (Address_Uri a) p.

Definition SetTag (a : Address) (tag : str) : Address :=
  with_Params a (Some (Params_Set (default NewParams (Address_Params a)) "tag" tag)).

(** The bytes that make [Address.String] quote the display name. *)
Definition display_specials : str := [","%char; ";"%char; DQUOTE; " "%char].

Definition render_display (a : Address) : str :=
  if DisplayName a != [] then
    (if Quoted a || ContainsAny (DisplayName a) display_specials
     then [DQUOTE] ++ ReplaceAll (DisplayName a) [DQUOTE] [BSLASH; DQUOTE] ++ [DQUOTE]
     else DisplayName a) ++ " "
  else [].

Definition Address_String (a : Address) : str :=
  render_display a ++ "<"%char :: Uri_String (Address_Uri a) ++ ">"%char :: Params_String (Address_Params a).

(** ** CSeq, Content-Length, Max-Forwards *)

(** A method is a string type in the source. *)
Abbreviation Method := str (only parsing).

Record CSeq := mkCSeq { Seq : Z; CSeq_Method : Method }.

#[export] Instance CSeq_eq_dec : EqDecision CSeq.
Proof. solve_decision. Defined.

Definition ParseCSeq (s : str) : result CSeq :=
  match Fields s with
  | [f0; f1] =>
    seq ← wrap_err ErrParse (ParseUint f0 10 32);
    Ok (mkCSeq seq (ToUpper f1))
  | _ => Err ErrParse
  end.

Definition CSeq_Value (c : CSeq) : str :=
  FormatUint (Z.to_N (Seq c)) 10 ++ " "%char :: CSeq_Method c.

Definition ParseContentLength (s : str) : result Z :=
  wrap_err ErrParse (ParseUint (TrimSpace s) 10 32).

Definition ContentLength_Value (n : Z) : str := FormatUint (Z.to_N n) 10.

(** ** Address lists *)

Record NameAddrList := mkNameAddrList {
  NAL_HName : str;
  Addresses : list Address;
  All : bool
}.

#[export] Instance NameAddrList_eq_dec : EqDecision NameAddrList.
Proof. solve_decision. Defined.

(** The scanner of [splitAddrList]; [cur] is [s[start:i]]. *)
Fixpoint splitAddrList_go (depth : Z) (inQuote escaped : bool) (cur s : str) : list str :=
  match s with
  | [] => [TrimSpace cur]
  | c :: s' =>
    if escaped then splitAddrList_go depth inQuote false (cur ++ [c]) s'
    else if (c == BSLASH) && inQuote then splitAddrList_go depth inQuote true (cur ++ [c]) s'
    else if c == DQUOTE then splitAddrList_go depth (negb inQuote) false (cur ++ [c]) s'
    else if negb inQuote && (c == "<"%char) then splitAddrList_go (depth + 1) inQuote false (cur ++ [c]) s'
    else if negb inQuote && (c == ">"%char) then splitAddrList_go (depth - 1) inQuote false (cur ++ [c]) s'
    else if negb inQuote && (depth =? 0)%Z && (c == ","%char)
    then TrimSpace cur :: splitAddrList_go depth inQuote false [] s'
    else splitAddrList_go depth inQuote false (cur ++ [c]) s'
  end.

Definition splitAddrList (s : str) : list str := splitAddrList_go 0 false false [] s.

Fixpoint parse_addresses (parts : list str) : result (list Address) :=
  match parts with
  | [] => Ok []
  | p :: parts' => a ← ParseAddress p; l ← parse_addresses parts'; Ok (a :: l)
  end.

(** The list has no header name yet: [newTypedHeader] sets it. *)
Definition ParseNameAddrList (s : str) : result NameAddrList :=
  let s := TrimSpace s in
  if s == "*" then Ok (mkNameAddrList [] [] true)
  else
    l ← parse_addresses (splitAddrList s);
    if length l =? 0 then Err ErrBadAddress else Ok (mkNameAddrList [] l false).

Definition NameAddrList_Value (l : NameAddrList) : str :=
  Join (map Address_String (Addresses l)) ", ".

Definition First (l : option NameAddrList) : option Address :=
  match l with None => None | Some l => head (Addresses l) end.

(** ** Token lists *)

Record TokenList := mkTokenList { TL_HName : str; Tokens : list str }.

#[export] Instance TokenList_eq_dec : EqDecision TokenList.
Proof. solve_decision. Defined.

Definition ParseTokenList (name s : str) : TokenList :=
  mkTokenList name (List.filter (λ t, t != []) (map TrimSpace (Split s ","))).

Definition TokenList_Value (t : TokenList) : str := Join (Tokens t) ", ".

Definition TokenList_Has (t : TokenList) (tok : str) : bool :=
  existsb (λ x, EqualFold x tok) (Tokens t).

(** ** Authentication parameters *)

Record Auth := mkAuth {
  Auth_Scheme : str;
  Username : str;
  Realm : str;
  Nonce : str;
  URI : str;
  Response_ : str;      (* the field Response of the source *)
  Cnonce : str;
  Nc : str;
  Qop : str;
  Algorithm : str;
  Opaque_ : str;        (* the field Opaque of the source *)
  Other : option Params
}.

#[export] Instance Auth_eq_dec : EqDecision Auth.
Proof. solve_decision. Defined.

(** [&Auth{Scheme: s}] *)
Definition new_Auth (scheme : str) (other : option Params) : Auth :=
  mkAuth scheme [] [] [] [] [] [] [] [] [] [] other.

(** The scanner of [splitAuthParams]; [cur] is [s[start:i]], pushed only when
    it is not empty. *)
Fixpoint splitAuthParams_go (inQuote escaped : bool) (cur s : str) : list str :=
  match s with
  | [] => [TrimSpace cur]
  | c :: s' =>
    if escaped then splitAuthParams_go inQuote false (cur ++ [c]) s'
    else if (c == BSLASH) && inQuote then splitAuthParams_go inQuote true (cur ++ [c]) s'
    else if c == DQUOTE then splitAuthParams_go (negb inQuote) false (cur ++ [c]) s'
    else if ((c == ","%char) || (c == " "%char) || (c == TAB)) && negb inQuote
    then (if cur != [] then TrimSpace cur :: splitAuthParams_go inQuote false [] s'
          else splitAuthParams_go inQuote false [] s')
    else splitAuthParams_go inQuote false (cur ++ [c]) s'
  end.

Definition splitAuthParams (s : str) : list str := splitAuthParams_go false false [] s.

(** The [switch] of [ParseAuth] on a lower-case parameter name. *)
Definition set_auth_param (a : Auth) (k v : str) : Auth :=
  let 'mkAuth scheme username realm nonce uri response cnonce nc qop algorithm opaque other := a in
  if k == "username" then mkAuth scheme v realm nonce uri response cnonce nc qop algorithm opaque other
  else if k == "realm" then mkAuth scheme username v nonce uri response cnonce nc qop algorithm opaque other
  else if k == "nonce" then mkAuth scheme username realm v uri response cnonce nc qop algorithm opaque other
  else if k == "uri" then mkAuth scheme username realm nonce v response cnonce nc qop algorithm opaque other
  else if k == "response" then mkAuth scheme username realm nonce uri v cnonce nc qop algorithm opaque other
  else if k == "cnonce" then mkAuth scheme username realm nonce uri response v nc qop algorithm opaque other
  else if k == "nc" then mkAuth scheme username realm nonce uri response cnonce v qop algorithm opaque other
  else if k == "qop" then mkAuth scheme username realm nonce uri response cnonce nc v algorithm opaque other
  else if k == "algorithm" then mkAuth scheme username realm nonce uri response cnonce nc qop v opaque other
  else if k == "opaque" then mkAuth scheme username realm nonce uri response cnonce nc qop algorithm v other
  else mkAuth scheme username realm nonce uri response cnonce nc qop algorithm opaque
         ((λ o, Params_Set o k v) <$> other).

Fixpoint parse_auth_params (a : Auth) (parts : list str) : Auth :=
  match parts with
  | [] => a
  | part :: parts' =>
    let '(k, v, found) := Cut part "=" in
    if negb found then parse_auth_params a parts'
    else parse_auth_params (set_auth_param a (ToLower (TrimSpace k)) (unquote (TrimSpace v))) parts'
  end.

(** [ParseAuth] never fails. *)
Definition ParseAuth (s : str) : Auth :=
  let s := TrimSpace s in
  match IndexAny s [" "%char; TAB; ","%char] with
  | None => new_Auth s None
  | Some i => parse_auth_params (new_Auth (take i s) (Some NewParams)) (splitAuthParams (drop (i + 1) s))
  end.

(** [writeAuth]: a quoted parameter, left out when it is empty. *)
Definition writeAuth (k v : str) : str :=
  if v == [] then [] else ", " ++ k ++ "="%char :: DQUOTE :: v ++ [DQUOTE].

(** A parameter written without quotes, left out when it is empty. *)
Definition writeBare (k v : str) : str :=
  if v != [] then ", " ++ k ++ "="%char :: v else [].

Definition Auth_Value (a : Auth) : str :=
  Auth_Scheme a ++ writeAuth "username" (Username a) ++ writeAuth "realm" (Realm a) ++
  writeAuth "nonce" (Nonce a) ++ writeBare "uri" (URI a) ++ writeAuth "response" (Response_ a) ++
  writeAuth "cnonce" (Cnonce a) ++ writeBare "nc" (Nc a) ++ writeBare "qop" (Qop a) ++
  writeBare "algorithm" (Algorithm a) ++ writeAuth "opaque" (Opaque_ a).

(** ** The [Header] interface

    One constructor per implementation that a message can hold; [AddrHeader]
    and [TypedAuthHeader] are declared in dialog.go and parser.go. *)

Inductive Header :=
| HGeneric (K V : str)
| HVia (v : Via)
| HCSeq (c : CSeq)
| HContentLength (n : Z)
| HMaxForwards (n : Z)
| HNameAddr (l : NameAddrList)
| HTokens (t : TokenList)
| HAuth (a : Auth) (K : str)
| HAddr (A : Address) (K : str).

#[export] Instance Header_eq_dec : EqDecision Header.
Proof. solve_decision. Defined.

Definition NewHeader (name value : str) : Header := HGeneric name value.

Definition Header_Name (h : Header) : str :=
  match h with
  | HGeneric K _ => K
  | HVia _ => "Via"
  | HCSeq _ => "CSeq"
  | HContentLength _ => "Content-Length"
  | HMaxForwards _ => "Max-Forwards"
  | HNameAddr l => NAL_HName l
  | HTokens t => TL_HName t
  | HAuth _ K => K
  | HAddr _ K => K
  end.

Definition Header_Value (h : Header) : str :=
  match h with
  | HGeneric _ V => V
  | HVia v => Via_Value v
  | HCSeq c => CSeq_Value c
  | HContentLength n => ContentLength_Value n
  | HMaxForwards n => Itoa n
  | HNameAddr l => NameAddrList_Value l
  | HTokens t => TokenList_Value t
  | HAuth a _ => Auth_Value a
  | HAddr a _ => Address_String a
  end.

(** Clones are deep copies of the same value. *)
Definition Header_Clone (h : Header) : Header := h.

(** ** Header names: canonical, and blind to case *)

Lemma capitalize_lower p : capitalize (ToLower p) = capitalize p.
Proof.
  unfold capitalize, ToLower at 1. rewrite firstn_map. fold (ToLower (take 1 p)).
  rewrite ToUpper_ToLower. f_equal. unfold ToLower at 2. rewrite skipn_map.
  fold (ToLower (drop 1 p)). apply ToLower_idem.
Qed.

Lemma lower_capitalize p : ToLower (capitalize p) = ToLower p.
Proof.
  unfold capitalize. rewrite ToLower_app, ToLower_ToUpper, ToLower_idem, <-ToLower_app.
  by rewrite take_drop.
Qed.

Lemma capitalize_idem p : capitalize (capitalize p) = capitalize p.
Proof. by rewrite <-(capitalize_lower (capitalize p)), lower_capitalize, capitalize_lower. Qed.

Lemma dash_lower (d : ascii) : (lower_byte d == "-"%char) = (d == "-"%char).
Proof. all_bytes d; reflexivity. Qed.

Lemma Split_dash_lower (s : str) : Split (ToLower s) "-" = map ToLower (Split s "-").
Proof. apply (split_go_lower "-" [] s), dash_lower. Qed.

(** The name the table does not know: every dash-separated part capitalised. *)
Definition dashed (s : str) : str := Join (map capitalize (Split s "-")) "-".

Lemma dashed_lower (s : str) : dashed (ToLower s) = dashed s.
Proof.
  unfold dashed. rewrite Split_dash_lower, map_map. f_equal. apply map_ext, capitalize_lower.
Qed.

Lemma lower_dashed (s : str) : ToLower (dashed s) = ToLower s.
Proof.
  unfold dashed. rewrite ToLower_Join, map_map.
  rewrite (map_ext _ ToLower) by apply lower_capitalize.
  rewrite <-(Join_Split_byte "-" s) at 2. by rewrite ToLower_Join.
Qed.

Lemma assoc_elem k l v : assoc k l = Some v → (k, v) ∈ l.
Proof.
  induction l as [|[a b] l IH]; cbn [assoc]; [done|]. case_test; intros H.
  - simplify_eq. by left.
  - right. auto.
Qed.

Lemma CanonicalName_unfold (s : str) :
  CanonicalName s = default (dashed (TrimSpace s)) (assoc (ToLower (TrimSpace s)) shortToLong).
Proof. unfold CanonicalName, dashed. by destruct (assoc _ _). Qed.

(** Every entry of the table is its own canonical name. *)
Lemma table_canonical (k v : str) : (k, v) ∈ shortToLong → CanonicalName v = v.
Proof.
  intros H. assert (forallb (λ e, CanonicalName e.2 == e.2) shortToLong = true) as Hall by by_compute.
  rewrite forallb_forall in Hall. apply list_elem_of_In in H. specialize (Hall _ H).
  by apply bool_decide_eq_true in Hall.
Qed.

Lemma CanonicalName_idem (s : str) : CanonicalName (CanonicalName s) = CanonicalName s.
Proof.
  rewrite (CanonicalName_unfold s). destruct (assoc _ _) as [v|] eqn:E; simpl.
  - eapply table_canonical, assoc_elem, E.
  - rewrite CanonicalName_unfold.
    rewrite (TrimSpace_trimmed (dashed _)).
    + rewrite lower_dashed, E. simpl. rewrite <-dashed_lower, lower_dashed. apply dashed_lower.
    + rewrite <-trimmed_ToLower, lower_dashed, trimmed_ToLower. apply TrimSpace_is_trimmed.
Qed.

Lemma CanonicalName_lower (s : str) : CanonicalName (ToLower s) = CanonicalName s.
Proof. by rewrite !CanonicalName_unfold, TrimSpace_ToLower, ToLower_idem, dashed_lower. Qed.

(** Lookups by name are blind to case. *)
#[export] Instance CanonicalName_proper : Proper (eq_fold ==> eq) CanonicalName.
Proof. intros s t H. by rewrite <-(CanonicalName_lower s), H, CanonicalName_lower. Qed.

Lemma CanonicalName_trim (s : str) : CanonicalName (TrimSpace s) = CanonicalName s.
Proof. by rewrite !CanonicalName_unfold, TrimSpace_idem. Qed.

(** ** Round trips: Via *)

Lemma text_class : param_class uri_text.
Proof. done. Qed.

Definition wf_via (v : Via) : bool :=
  (Via_Proto v != []) && all uri_text (Via_Proto v)
  && (Via_Transport v == transport_of (Via_Proto v))
  && wf_host (Via_Host v) && (0 <=? Via_Port v)%Z && (Via_Port v <=? max_int)%Z
  && wf_params_in uri_text (Via_Params v).

(** Where both accept, the Via parser and the URI parser read a host alike. *)
Lemma via_host_port_uri s r : parse_host_port s = Ok r → via_host_port s = Ok r.
Proof.
  unfold parse_host_port, via_host_port. destruct (HasPrefix s "[").
  - destruct (IndexByte s "]") as [e|]; [|done]. destruct (e + 1 <? length s); [|done].
    cbn [andb]. destruct (bool_decide _); [|done]. cbn [negb].
    by destruct (Atoi _).
  - destruct (LastIndexByte s ":") as [i|]; [|done]. by destruct (Atoi _).
Qed.

Lemma via_hp_text v :
  wf_via v → all (λ c, uri_text c && (c != ";"%char)) (Via_Host v ++ render_port (Via_Port v)).
Proof.
  unfold wf_via. intros H. bool_hyps. split_all.
  - pose proof (wf_host_text (Via_Host v) ltac:(done)) as Ht. apply (all_impl _ _ _ Ht). class.
  - pose proof (render_port_digits (Via_Port v)) as Ht. apply (all_impl _ _ _ Ht). class.
Qed.

Lemma ParseVia_Value v : wf_via v → ParseVia (Via_Value v) = Ok v.
Proof.
  intros Hwf. pose proof (via_hp_text v Hwf) as Hhp. unfold wf_via in Hwf. bool_hyps.
  destruct (params_in_text _ (Via_Params v) text_class) as (Hp & Hph & Hpn); [done|].
  destruct (wf_host_trim (Via_Host v)) as (_ & Hne); [done|].
  unfold ParseVia, Via_Value.
  set (rest := Via_Host v ++ render_port (Via_Port v) ++ Params_String (Via_Params v)).
  assert (all uri_text rest) as Hrest.
  { subst rest. rewrite app_assoc, all_app, andb_True. split; [|done]. apply (all_impl _ _ _ Hhp). class. }
  assert (rest ≠ []) by (subst rest; destruct (Via_Host v); done).
  assert (nospace rest) by (apply (all_impl _ _ _ Hrest); class).
  assert (nospace (Via_Proto v)) by (eapply all_impl; [eassumption|]; class).
  rewrite TrimSpace_trimmed.
  2: { apply (trimmed_between _ [" "%char] rest); auto using trimmed_nospace. }
  assert (existsb is_ctl (Via_Proto v ++ " "%char :: rest) = false) as ->.
  { rewrite existsb_app. cbn [existsb]. by rewrite !existsb_ctl by done. }
  rewrite (SplitN_cons _ " " _ 0) by (eapply all_impl; [eassumption|]; class).
  cbn [SplitN]. rewrite !TrimSpace_nospace by done.
  assert (parseHostPort (Via_Proto v) (Via_Params v) (Via_Host v ++ render_port (Via_Port v)) = Ok v) as Hfin.
  { unfold parseHostPort. erewrite via_host_port_uri; cycle 1.
    - apply parse_host_port_spec; [done|]. split; by apply Z.leb_le, Is_true_true.
    - rewrite result_bind_Ok. destruct v; simpl in *. congruence. }
  subst rest. rewrite app_assoc. destruct Hph as [Hph|Hph].
  - rewrite Hph, app_nil_r, (proj2 (IndexByte_None _ _)) by (apply (all_impl _ _ _ Hhp); class).
    rewrite Hpn in Hfin by done. exact Hfin.
  - pose proof (ParseParams_in _ (Via_Params v) text_class ltac:(done)) as Hpp.
    destruct (Params_String (Via_Params v)) as [|c ps] eqn:Hps; [done|]. simplify_eq/=.
    rewrite IndexByte_app by (apply (all_impl _ _ _ Hhp); class).
    rewrite drop_len_app, take_len_app.
    rewrite TrimSpace_nospace by (apply (all_impl _ _ _ Hhp); class).
    destruct (ParseParams (";"%char :: ps)) as [q|]; simplify_eq/=. congruence.
Qed.

(** ** Round trips: CSeq, Content-Length, Max-Forwards *)

Definition wf_method (m : Method) : bool := (m != []) && all (λ c, uri_text c && negb (is_lower c)) m.

Definition wf_cseq (c : CSeq) : bool :=
  (0 <=? Seq c)%Z && (Seq c <? 2 ^ 32)%Z && wf_method (CSeq_Method c).

Lemma wf_method_facts m : wf_method m → m ≠ [] ∧ nospace m ∧ ToUpper m = m.
Proof.
  unfold wf_method. intros H. bool_hyps. split_and!; [done|..].
  - eapply all_impl; [eassumption|]. class.
  - apply ToUpper_nolower. eapply all_impl; [eassumption|]. class.
Qed.

Lemma digits_nospace s : all is_digit s → nospace s.
Proof. intros H. solve_class. Qed.

Lemma ParseUint_Format z : (0 ≤ z < 2 ^ 32)%Z → ParseUint (FormatUint (Z.to_N z) 10) 10 32 = Ok z.
Proof. intros H. rewrite ParseUint_FormatUint by lia. f_equal. lia. Qed.

Lemma ParseCSeq_Value c : wf_cseq c → ParseCSeq (CSeq_Value c) = Ok c.
Proof.
  unfold wf_cseq. intros H. bool_hyps. destruct (wf_method_facts (CSeq_Method c)) as (Hne & Hsp & Hup); [done|].
  unfold ParseCSeq, CSeq_Value.
  rewrite Fields_cons, Fields_single; try done.
  - rewrite ParseUint_Format by (split; [by apply Z.leb_le, Is_true_true|by apply Z.ltb_lt, Is_true_true]).
    simpl. rewrite Hup. by destruct c.
  - apply digits_nospace, FormatUint_digits.
  - by apply FormatUint_nonnil.
Qed.

Lemma ParseContentLength_Value n : (0 ≤ n < 2 ^ 32)%Z → ParseContentLength (ContentLength_Value n) = Ok n.
Proof.
  intros H. unfold ParseContentLength, ContentLength_Value.
  rewrite TrimSpace_nospace by apply digits_nospace, FormatUint_digits. by rewrite ParseUint_Format.
Qed.

(** ** Round trips: addresses *)

Definition disp_byte (c : ascii) : bool := negb (is_ctl c) && negb (mem c [BSLASH; "<"%char; ">"%char]).
Definition addr_param_byte (c : ascii) : bool := uri_text c && negb (mem c "<>").

Lemma addr_param_class : param_class addr_param_byte.
Proof. done. Qed.

(** A display name is quoted exactly when it was written quoted; a name that
    needs quotes has them. *)
Definition wf_display (a : Address) : bool :=
  if DisplayName a == [] then negb (Quoted a)
  else all disp_byte (DisplayName a) &&
       (Quoted a || (negb (ContainsAny (DisplayName a) display_specials) && trimmed (DisplayName a))).

Definition wf_address (a : Address) : bool :=
  wf_display a && wf_params_in addr_param_byte (Address_Params a) &&
  match Address_Uri a with Some u => wf_uri u | None => false end.

(** What [String] writes before the angle bracket, without the final space. *)
Definition display_text (a : Address) : str :=
  if Quoted a then [DQUOTE] ++ ReplaceAll (DisplayName a) [DQUOTE] [BSLASH; DQUOTE] ++ [DQUOTE]
  else DisplayName a.

Lemma render_display_eq a :
  wf_display a →
  render_display a = if DisplayName a == [] then [] else display_text a ++ [" "%char].
Proof.
  unfold wf_display, render_display, display_text. intros H.
  case_test; cbn [negb]; [done|]. bool_hyps.
  destruct (Quoted a); cbn [orb] in *; [by rewrite <-!app_assoc|]. bool_hyps.
  by destruct (ContainsAny _ _).
Qed.

Lemma display_text_facts a :
  wf_display a → DisplayName a ≠ [] →
  display_text a ≠ [] ∧ trimmed (display_text a) ∧ free "<"%char (display_text a) ∧
  unquote (display_text a) = DisplayName a ∧ (display_text a != DisplayName a) = Quoted a.
Proof.
  unfold wf_display, display_text. intros H Hne. rewrite bool_decide_false in H by done. bool_hyps.
  assert (free "<"%char (DisplayName a)) by (eapply all_impl; [eassumption|]; class).
  destruct (Quoted a) eqn:Hq; cbn [orb] in *.
  - split_and!; [done|by apply (trimmed_by_snoc _ DQUOTE _ DQUOTE)| | |].
    + split_all; [done| |done]. by apply all_ReplaceAll.
    + rewrite unquote_quoted. by apply ReplaceAll_escape.
    + rewrite bool_decide_false; [done|]. intros E. apply (f_equal length) in E.
      rewrite !length_app in E. pose proof (length_escape DQUOTE BSLASH (DisplayName a)).
      simpl in E. lia.
  - bool_hyps. destruct (ContainsAny _ _) eqn:Hc; [done|]. split_and!; try done.
    + apply ContainsAny_false in Hc. apply unquote_plain, (all_impl _ _ _ Hc). class.
    + by rewrite bool_decide_true.
Qed.

(** What the parser reads before the angle bracket. *)
Lemma display_parsed a :
  wf_display a →
  ∃ raw, TrimSpace (render_display a) = raw ∧ free "<"%char (render_display a) ∧
         unquote raw = DisplayName a ∧ (raw != DisplayName a) = Quoted a.
Proof.
  intros H. rewrite render_display_eq by done. case_test.
  - exists []. unfold wf_display in H. rewrite Heq in *. by destruct (Quoted a).
  - destruct (display_text_facts a) as (Hne & Ht & Hf & Hu & Hq); [done..|].
    exists (display_text a). split_and!; [by apply (TrimSpace_pad [] _ [" "%char])|by split_all|done..].
Qed.

Lemma Address_String_trimmed a (mid : str) (tail : str) :
  wf_display a → nospace tail → tail ≠ [] → trimmed (render_display a ++ "<"%char :: mid ++ tail).
Proof.
  intros H Ht Hne. rewrite render_display_eq by done. apply trimmed_nospace in Ht. case_test.
  - by apply (trimmed_between ["<"%char] mid tail).
  - destruct (display_text_facts a) as (Hd & Htd & _); [done..|]. rewrite <-app_assoc.
    apply (trimmed_between (display_text a) (" "%char :: "<"%char :: mid) tail); done.
Qed.

(** Angle brackets delimit the URI: nothing before it opens one, nothing after
    it closes one. *)
Lemma ParseAddress_String a : wf_address a → ParseAddress (Address_String a) = Ok a.
Proof.
  unfold wf_address. intros H. bool_hyps. destruct (Address_Uri a) as [u|] eqn:Hu; [|done].
  destruct (params_in_text _ (Address_Params a) addr_param_class) as (Hp & _ & _); [done|].
  destruct (display_parsed a) as (raw & Hraw & Hfree & Hname & Hquoted); [done|].
  unfold ParseAddress, Address_String. rewrite Hu. cbn [Uri_String].
  set (ps := Params_String (Address_Params a)) in *. set (d := render_display a) in *.
  assert (nospace ps) by (apply (all_impl _ _ _ Hp); class).
  assert (free ">"%char ps) by (apply (all_impl _ _ _ Hp); class).
  rewrite TrimSpace_trimmed by (apply Address_String_trimmed; [done|by split_all|done]).
  rewrite IndexByte_app by done. rewrite take_len_app, Hraw.
  assert (d ++ "<"%char :: uri_String u ++ ">"%char :: ps = (d ++ "<"%char :: uri_String u) ++ ">"%char :: ps) as E
    by (by rewrite <-app_assoc).
  rewrite E, LastIndexByte_app by done.
  assert ((length (d ++ "<"%char :: uri_String u) <=? length d) = false) as ->.
  { apply Nat.leb_gt. rewrite length_app. simpl. lia. }
  rewrite !Nat.add_1_r, drop_S_len_app, <-E, drop_S_len_app.
  replace (length (d ++ "<"%char :: uri_String u) - S (length d)) with (length (uri_String u))
    by (rewrite length_app; simpl; lia).
  rewrite take_len_app, ParseUri_uri_String by done. rewrite result_bind_Ok.
  rewrite TrimSpace_nospace by done. subst ps.
  rewrite (ParseParams_in _ _ addr_param_class) by done. rewrite result_bind_Ok, Hname, Hquoted, <-Hu.
  by destruct a.
Qed.

(** ** Round trips: address lists *)

(** Text the scanner of [splitAddrList] passes over at bracket depth [d]. *)
Definition neutral_at (d : Z) (x : str) : Prop :=
  ∀ cur t, splitAddrList_go d false false cur (x ++ t) = splitAddrList_go d false false (cur ++ x) t.

Lemma neutral_at_nil d : neutral_at d [].
Proof. intros cur t. by rewrite app_nil_r. Qed.

Lemma neutral_at_app d x y : neutral_at d x → neutral_at d y → neutral_at d (x ++ y).
Proof. intros Hx Hy cur t. by rewrite <-app_assoc, Hx, Hy, <-app_assoc. Qed.

Definition no_angle (c : ascii) : bool := negb (mem c [DQUOTE; "<"%char; ">"%char]).

Lemma neutral_at_plain d x :
  all no_angle x → d ≠ 0%Z ∨ free ","%char x → neutral_at d x.
Proof.
  induction x as [|c x IH]; intros Hx Hc; [apply neutral_at_nil|]. intros cur t.
  split_all. simpl.
  assert ((c == DQUOTE) = false ∧ (c == "<"%char) = false ∧ (c == ">"%char) = false) as (-> & -> & ->).
  { unfold no_angle in *. bool_hyps. rewrite !bool_decide_eq_false.
    split_and!; intros ->; done. }
  rewrite andb_false_r. cbn [andb].
  assert ((d =? 0)%Z && (c == ","%char) = false) as ->.
  { destruct Hc as [Hd|Hc]; [by rewrite (proj2 (Z.eqb_neq _ _) Hd)|]. split_all. bool_hyps.
    rewrite (bool_decide_false (c = _)) by done. apply andb_false_r. }
  rewrite IH; [by rewrite <-app_assoc|done|]. destruct Hc as [|Hc]; [by left|right]. by split_all.
Qed.

Lemma neutral_at_quoted d v :
  free BSLASH v → neutral_at d ([DQUOTE] ++ ReplaceAll v [DQUOTE] [BSLASH; DQUOTE] ++ [DQUOTE]).
Proof.
  intros H cur t. rewrite <-!app_assoc. simpl.
  assert (∀ cur t, splitAddrList_go d true false cur (ReplaceAll v [DQUOTE] [BSLASH; DQUOTE] ++ t) =
                   splitAddrList_go d true false (cur ++ ReplaceAll v [DQUOTE] [BSLASH; DQUOTE]) t) as Hin.
  { clear cur t. unfold ReplaceAll. induction v as [|c v IH]; intros cur t; [simpl; by rewrite app_nil_r|].
    split_all. bool_hyps. simpl. case_test; simpl.
    - subst c. rewrite IH by done. by rewrite <-!app_assoc.
    - rewrite !bool_decide_false by done. simpl. rewrite IH by done.
      by rewrite <-app_assoc. }
  rewrite Hin. simpl. by rewrite <-!app_assoc.
Qed.

Lemma neutral_at_brackets x : neutral_at 1 x → neutral_at 0 ("<"%char :: x ++ [">"%char]).
Proof.
  intros H cur t. simpl. rewrite <-app_assoc, H. simpl. by rewrite <-!app_assoc.
Qed.

Lemma no_angle_value v :
  ContainsAny v param_specials = false → all (λ c, negb (mem c "<>")) v →
  all no_angle v ∧ free ","%char v.
Proof.
  intros Hc Hv. apply ContainsAny_false in Hc. split; apply all_intro; intros c Hin;
    pose proof (all_elem _ _ c Hc Hin) as H1; pose proof (all_elem _ _ c Hv Hin) as H2; revert H1 H2;
    all_bytes c; vm_compute; tauto.
Qed.

Lemma neutral_at_param d it :
  wf_param_in (λ c, negb (mem c "<>")) it → neutral_at d (Param_String it).
Proof.
  unfold wf_param_in, wf_param. intros H. bool_hyps. unfold Param_String.
  rewrite escapeParam_key by done.
  apply (neutral_at_app d [";"%char]); [by apply neutral_at_plain; [|right]|].
  apply neutral_at_app.
  { apply neutral_at_plain; [|right]; (eapply key_byte_all; [eassumption|]); class. }
  destruct (HasValue it); [|apply neutral_at_nil].
  apply (neutral_at_app d ["="%char]); [by apply neutral_at_plain; [|right]|].
  unfold value_ok in *. bool_hyps. destruct (ContainsAny (Value it) param_specials) eqn:Hc.
  - rewrite escapeParam_quoted by done. by apply neutral_at_quoted.
  - rewrite escapeParam_plain by done. destruct (no_angle_value (Value it)); [done..|].
    apply neutral_at_plain; [done|by right].
Qed.

Lemma neutral_at_params d p :
  wf_params_in (λ c, negb (mem c "<>")) p → neutral_at d (Params_String p).
Proof.
  destruct p as [p|]; [|intros _; apply neutral_at_nil]. unfold wf_params_in. intros H. bool_hyps.
  match goal with H : Is_true (forallb _ p) |- _ => apply Forall_forallb in H; rename H into Hp end.
  cbn [Params_String]. clear -Hp. induction Hp as [|it p Hit Hp IH]; [apply neutral_at_nil|].
  cbn [map concat]. apply neutral_at_app; [by apply neutral_at_param|done].
Qed.

(** A URI without angle brackets, quotes only around its parameters. *)
Definition wf_list_uri (u : Uri) : bool :=
  all no_angle (Uri_User u) && all no_angle (Uri_Password u) && all no_angle (Uri_Host u)
  && all no_angle (render_uri_headers (Uri_Headers u))
  && wf_params_in (λ c, negb (mem c "<>")) (Uri_Params u).

Definition wf_list_address (a : Address) : bool :=
  wf_address a && match Address_Uri a with Some u => wf_list_uri u | None => false end.

Lemma neutral_at_uri u : wf_uri u → wf_list_uri u → neutral_at 1 (uri_String u).
Proof.
  intros Hwf Hl. rewrite uri_String_eq by done. unfold uri_authority.
  rewrite render_userinfo_eq by done. unfold wf_uri, wf_list_uri in *. bool_hyps.
  assert (∀ x, all no_angle x → neutral_at 1 x) as Hplain.
  { intros x Hx. apply neutral_at_plain; [done|by left]. }
  apply neutral_at_app; [|apply (neutral_at_app 1 [":"%char]); [by apply Hplain|]].
  { match goal with H : Uri_Scheme u ∈ schemes |- _ => apply scheme_cases in H as [-> | [-> | ->]] end;
      by apply Hplain. }
  apply neutral_at_app; [|apply neutral_at_app; [by apply neutral_at_params|by apply Hplain]].
  apply Hplain. split_all; [|done|].
  - repeat case_test; by split_all.
  - pose proof (render_port_digits (Uri_Port u)) as Ht. apply (all_impl _ _ _ Ht). class.
Qed.

Lemma neutral_at_display a : wf_display a → neutral_at 0 (render_display a).
Proof.
  intros H. rewrite render_display_eq by done. case_test; [apply neutral_at_nil|].
  unfold wf_display in H. rewrite bool_decide_false in H by done. bool_hyps.
  apply neutral_at_app; [|by apply neutral_at_plain; [|right]]. unfold display_text.
  destruct (Quoted a); cbn [orb] in *.
  - apply neutral_at_quoted. eapply all_impl; [eassumption|]. class.
  - bool_hyps. destruct (ContainsAny _ _) eqn:Hc; [done|].
    apply ContainsAny_false in Hc. apply neutral_at_plain; [|right; apply (all_impl _ _ _ Hc); class].
    apply all_intro. intros c Hin. pose proof (all_elem _ _ c Hc Hin) as Hc1.
    match goal with H : Is_true (all disp_byte _) |- _ => pose proof (all_elem _ _ c H Hin) as Hc2 end.
    revert Hc1 Hc2. all_bytes c; vm_compute; tauto.
Qed.

Lemma neutral_at_address a : wf_list_address a → neutral_at 0 (Address_String a).
Proof.
  unfold wf_list_address, wf_address. intros H. bool_hyps.
  destruct (Address_Uri a) as [u|] eqn:Hu; [|done]. unfold Address_String. rewrite Hu. cbn [Uri_String].
  apply neutral_at_app; [by apply neutral_at_display|].
  change ("<"%char :: uri_String u ++ ">"%char :: ?x) with ("<"%char :: uri_String u ++ [">"%char] ++ x).
  rewrite app_assoc, app_comm_cons. apply neutral_at_app.
  - by apply neutral_at_brackets, neutral_at_uri.
  - apply neutral_at_params. unfold wf_params_in in *. destruct (Address_Params a) as [p|]; [|done].
    bool_hyps. rewrite !andb_True. split; [split|]; [by rewrite bool_decide_false|done|].
    match goal with H : Is_true (forallb _ p) |- _ => apply Forall_forallb in H; rename H into Hp end.
    apply Forall_forallb. eapply Forall_impl; [exact Hp|]. intros it. unfold wf_param_in. intros Hit.
    bool_hyps. rewrite !andb_True. split_and!; [done|..]; eapply all_impl; [eassumption|class|eassumption|class].
Qed.

Definition wf_addr_list (l : NameAddrList) : bool :=
  (Addresses l != []) && forallb wf_list_address (Addresses l) && negb (All l).

Lemma Address_String_facts a :
  wf_list_address a → Address_String a ≠ [] ∧ trimmed (Address_String a).
Proof.
  unfold wf_list_address, wf_address. intros H. bool_hyps.
  destruct (params_in_text _ (Address_Params a) addr_param_class) as (Hp & _ & _); [done|].
  unfold Address_String. split; [by destruct (render_display a)|].
  apply Address_String_trimmed; [done| |done]. split_all; [done|]. apply (all_impl _ _ _ Hp). class.
Qed.

Lemma splitAddrList_comma cur s :
  splitAddrList_go 0 false false cur (","%char :: " "%char :: s) =
  TrimSpace cur :: splitAddrList_go 0 false false [" "%char] s.
Proof. done. Qed.

Lemma splitAddrList_pieces a l pre :
  wf_list_address a → Forall (λ a, Is_true (wf_list_address a)) l → all is_space pre →
  splitAddrList_go 0 false false pre (Join (map Address_String (a :: l)) ", ") = map Address_String (a :: l).
Proof.
  revert a pre. induction l as [|a' l IH]; intros a pre Ha Hl Hpre;
    destruct (Address_String_facts a Ha) as [Hne Ht].
  - cbn [map Join]. rewrite <-(app_nil_r (Address_String a)) at 1.
    rewrite (neutral_at_address a Ha). cbn [splitAddrList_go].
    rewrite <-(app_nil_r (Address_String a)) at 1. by rewrite TrimSpace_pad.
  - apply Forall_cons in Hl as [Ha' Hl].
    change (Join (map Address_String (a :: a' :: l)) ", ")
      with (Address_String a ++ ","%char :: " "%char :: Join (map Address_String (a' :: l)) ", ").
    rewrite (neutral_at_address a Ha), splitAddrList_comma, (IH a' [" "%char]) by done.
    cbn [map]. f_equal. rewrite <-(app_nil_r (Address_String a)) at 1. by rewrite TrimSpace_pad.
Qed.

Lemma parse_addresses_String l :
  Forall (λ a, Is_true (wf_list_address a)) l → parse_addresses (map Address_String l) = Ok l.
Proof.
  induction 1 as [|a l Ha Hl IH]; [done|]. cbn [map parse_addresses].
  unfold wf_list_address in Ha. bool_hyps. by rewrite ParseAddress_String, result_bind_Ok, IH by done.
Qed.

(** The header name is not part of the value. *)
Lemma ParseNameAddrList_Value l :
  wf_addr_list l →
  ParseNameAddrList (NameAddrList_Value l) = Ok (mkNameAddrList [] (Addresses l) false).
Proof.
  unfold wf_addr_list, NameAddrList_Value, ParseNameAddrList. intros H. bool_hyps.
  match goal with H : Is_true (forallb _ _) |- _ => apply Forall_forallb in H; rename H into Hl end.
  destruct (Addresses l) as [|a al]; [done|]. apply Forall_cons in Hl as [Ha Hal].
  rewrite TrimSpace_trimmed; cycle 1.
  { apply trimmed_Join, Forall_map. apply Forall_cons. split; [by apply Address_String_facts|].
    eapply Forall_impl; [exact Hal|]. intros x Hx. by apply Address_String_facts. }
  rewrite bool_decide_false; cycle 1.
  { intros E. apply (f_equal (λ s, bool_decide (">"%char ∈ s))) in E.
    rewrite (bool_decide_true (_ ∈ Join _ _)), bool_decide_false in E; [done|set_solver|].
    assert (">"%char ∈ Address_String a) by (unfold Address_String; set_solver).
    destruct al; cbn [map Join]; [done|]. set_solver. }
  unfold splitAddrList. rewrite splitAddrList_pieces by done.
  by rewrite parse_addresses_String, result_bind_Ok by by apply Forall_cons.
Qed.

(** ** Round trips: token lists *)

Definition wf_token (t : str) : bool := (t != []) && free ","%char t && trimmed t.

Lemma ParseTokenList_Value t :
  Tokens t ≠ [] → forallb wf_token (Tokens t) → ParseTokenList (TL_HName t) (TokenList_Value t) = t.
Proof.
  destruct t as [n ts]. unfold ParseTokenList, TokenList_Value. cbn [TL_HName Tokens].
  intros Hne H. f_equal. apply Forall_forallb in H.
  assert (∀ pre, all is_space pre →
    List.filter (λ t, t != []) (map TrimSpace (split_go "," 0 pre (Join ts ", "))) = ts) as Hgo; [|by apply (Hgo [])].
  induction H as [|t ts Ht H IH]; [done|]. intros pre Hpre. unfold wf_token in Ht. bool_hyps.
  assert (TrimSpace (pre ++ t) = t) as Htrim.
  { rewrite <-(app_nil_r t) at 1. by apply TrimSpace_pad. }
  destruct ts as [|t' ts].
  - cbn [Join]. rewrite <-(app_nil_r t) at 1. rewrite (split_go_byte ","%char) by done.
    cbn [split_go map]. rewrite Htrim. cbn [List.filter]. by rewrite bool_decide_false.
  - change (Join (t :: t' :: ts) ", ") with (t ++ ","%char :: " "%char :: Join (t' :: ts) ", ").
    rewrite (split_go_byte ","%char), split_go_sep by done.
    change (" "%char :: ?s) with ([" "%char] ++ s).
    rewrite (split_go_byte ","%char [] [" "%char]) by done.
    cbn [map]. rewrite Htrim. cbn [List.filter]. rewrite bool_decide_false by done.
    cbn [negb]. f_equal. by apply (IH ltac:(done) [" "%char]).
Qed.

(** ** Round trips: authentication parameters *)

(** Bytes of a quoted and of an unquoted parameter value. *)
Definition quoted_byte (c : ascii) : bool := negb (is_ctl c) && negb (mem c [DQUOTE; BSLASH]).
Definition bare_byte (c : ascii) : bool := uri_text c && negb (mem c [","%char; DQUOTE]).

(** Name, value and whether [Value] quotes it, in the order of [Value]. *)
Definition auth_entries (a : Auth) : list (str * str * bool) :=
  [(lit "username", Username a, true); (lit "realm", Realm a, true); (lit "nonce", Nonce a, true);
   (lit "uri", URI a, false); (lit "response", Response_ a, true); (lit "cnonce", Cnonce a, true);
   (lit "nc", Nc a, false); (lit "qop", Qop a, false); (lit "algorithm", Algorithm a, false);
   (lit "opaque", Opaque_ a, true)].

Definition auth_part (e : str * str * bool) : str :=
  let '(k, v, q) := e in
  k ++ "="%char :: (if q then [DQUOTE] ++ v ++ [DQUOTE] else v).

(** A parameter name and a value that survive rendering and parsing. *)
Definition wf_auth_entry (e : str * str * bool) : bool :=
  let '(k, v, q) := e in
  (k != []) && all is_lower k && (if q then all quoted_byte v else all bare_byte v).

Definition nonempty_entries (l : list (str * str * bool)) : list (str * str * bool) :=
  List.filter (λ e, e.1.2 != []) l.

Definition wf_auth (a : Auth) : bool :=
  (Auth_Scheme a != []) && all bare_byte (Auth_Scheme a) && (Other a == Some [])
  && negb (nonempty_entries (auth_entries a) == [])
  && forallb wf_auth_entry (auth_entries a).

Lemma write_entry k v :
  writeAuth k v = concat (map (λ e, ", " ++ auth_part e) (nonempty_entries [(k, v, true)])) ∧
  writeBare k v = concat (map (λ e, ", " ++ auth_part e) (nonempty_entries [(k, v, false)])).
Proof.
  unfold writeAuth, writeBare, nonempty_entries. cbn [List.filter fst snd].
  case_test; cbn [negb map concat]; [done|]. by rewrite !app_nil_r.
Qed.

Lemma nonempty_entries_app l l' : nonempty_entries (l ++ l') = nonempty_entries l ++ nonempty_entries l'.
Proof. apply List.filter_app. Qed.

Lemma Auth_Value_eq a :
  Auth_Value a = Auth_Scheme a ++ concat (map (λ e, ", " ++ auth_part e) (nonempty_entries (auth_entries a))).
Proof.
  unfold Auth_Value. f_equal.
  repeat (rewrite (proj1 (write_entry _ _)) || rewrite (proj2 (write_entry _ _))).
  rewrite <-!concat_app, <-!map_app, <-!nonempty_entries_app. done.
Qed.

(** Text the scanner of [splitAuthParams] passes over. *)
Definition neutral_auth (x : str) : Prop :=
  ∀ cur t, splitAuthParams_go false false cur (x ++ t) = splitAuthParams_go false false (cur ++ x) t.

Lemma neutral_auth_app x y : neutral_auth x → neutral_auth y → neutral_auth (x ++ y).
Proof. intros Hx Hy cur t. by rewrite <-app_assoc, Hx, Hy, <-app_assoc. Qed.

Lemma neutral_auth_bare x : all bare_byte x → neutral_auth x.
Proof.
  induction x as [|c x IH]; intros H cur t; [by rewrite app_nil_r|]. split_all. simpl.
  assert (c ≠ DQUOTE ∧ c ≠ ","%char ∧ c ≠ " "%char ∧ c ≠ TAB) as (? & ? & ? & ?).
  { split_and!; intros ->; done. }
  rewrite andb_false_r, !bool_decide_false by done. cbn [orb andb].
  rewrite IH by done. by rewrite <-app_assoc.
Qed.

Lemma neutral_auth_quoted v : all quoted_byte v → neutral_auth ([DQUOTE] ++ v ++ [DQUOTE]).
Proof.
  intros H cur t. rewrite <-!app_assoc. simpl.
  assert (∀ cur t, splitAuthParams_go true false cur (v ++ t) =
                   splitAuthParams_go true false (cur ++ v) t) as Hin.
  { clear cur t. induction v as [|c v IH]; intros cur t; [by rewrite app_nil_r|]. split_all. simpl.
    assert (c ≠ DQUOTE ∧ c ≠ BSLASH) as [? ?] by (split; intros ->; done).
    rewrite !(bool_decide_false (c = BSLASH)), !(bool_decide_false (c = DQUOTE)), andb_false_r by done.
    cbn [andb]. rewrite IH by done. by rewrite <-app_assoc. }
  rewrite Hin. simpl. by rewrite <-!app_assoc.
Qed.

Lemma neutral_auth_part e : wf_auth_entry e → neutral_auth (auth_part e).
Proof.
  destruct e as [[k v] q]. unfold wf_auth_entry. intros H. bool_hyps. cbn [auth_part].
  apply neutral_auth_app; [apply neutral_auth_bare; eapply all_impl; [eassumption|]; class|].
  apply (neutral_auth_app ["="%char]); [by apply neutral_auth_bare|].
  destruct q; [by apply neutral_auth_quoted|by apply neutral_auth_bare].
Qed.

Lemma auth_part_trimmed e : wf_auth_entry e → auth_part e ≠ [] ∧ TrimSpace (auth_part e) = auth_part e.
Proof.
  destruct e as [[k v] q]. unfold wf_auth_entry. intros H. bool_hyps. cbn [auth_part].
  assert (trimmed k) by (apply trimmed_nospace; eapply all_impl; [eassumption|]; class).
  split; [by destruct k|]. apply TrimSpace_trimmed. destruct q.
  - apply (trimmed_between k ("="%char :: DQUOTE :: v) [DQUOTE]); done.
  - apply trimmed_app; [done..|]. apply trimmed_nospace. split_all; [done|].
    eapply all_impl; [eassumption|]. class.
Qed.

Lemma splitAuthParams_comma cur s :
  cur ≠ [] →
  splitAuthParams_go false false cur (", " ++ s) = TrimSpace cur :: splitAuthParams_go false false [] s.
Proof. intros H. simpl. by rewrite bool_decide_false. Qed.

Lemma splitAuthParams_parts e l :
  wf_auth_entry e → Forall (λ e, Is_true (wf_auth_entry e)) l →
  splitAuthParams_go false false [] (auth_part e ++ concat (map (λ e, ", " ++ auth_part e) l)) =
  map auth_part (e :: l).
Proof.
  revert e. induction l as [|e' l IH]; intros e He Hl; destruct (auth_part_trimmed e He) as [Hne Ht];
    rewrite (neutral_auth_part e He); cbn [map concat app].
  - simpl. by rewrite Ht.
  - apply Forall_cons in Hl as [He' Hl]. rewrite <-app_assoc, splitAuthParams_comma, Ht by done.
    f_equal. by apply IH.
Qed.

Lemma parse_auth_part a e parts :
  wf_auth_entry e →
  parse_auth_params a (auth_part e :: parts) = parse_auth_params (set_auth_param a e.1.1 e.1.2) parts.
Proof.
  destruct e as [[k v] q]. unfold wf_auth_entry. intros H. bool_hyps. cbn [auth_part parse_auth_params fst snd].
  rewrite Cut_app by (eapply all_impl; [eassumption|]; class). cbn [negb].
  rewrite (TrimSpace_nospace k) by (eapply all_impl; [eassumption|]; class).
  rewrite ToLower_noupper by (eapply all_impl; [eassumption|]; class).
  do 2 f_equal. destruct q.
  - rewrite TrimSpace_trimmed by by apply (trimmed_by_snoc _ DQUOTE _ DQUOTE).
    rewrite unquote_quoted. unfold ReplaceAll.
    match goal with H : Is_true (all quoted_byte v) |- _ => rename H into Hv end. clear -Hv.
    induction v as [|c v IH]; [done|]. split_all. simpl.
    rewrite bool_decide_false by (intros ->; done). cbn [andb]. by rewrite IH.
  - rewrite TrimSpace_nospace by (eapply all_impl; [eassumption|]; class).
    apply unquote_plain. eapply all_impl; [eassumption|]. class.
Qed.

Lemma parse_auth_parts a l :
  Forall (λ e, Is_true (wf_auth_entry e)) l →
  parse_auth_params a (map auth_part (nonempty_entries l)) =
  foldl (λ a e, if e.1.2 == [] then a else set_auth_param a e.1.1 e.1.2) a l.
Proof.
  intros H. revert a. induction H as [|e l He Hl IH]; intros a; [done|].
  unfold nonempty_entries. cbn [List.filter foldl]. case_test; cbn [negb map]; [apply IH|].
  rewrite parse_auth_part by done. apply IH.
Qed.

(** One step of the rebuilding: an absent value is the value of a fresh field. *)
Ltac set_entry :=
  match goal with
  | |- context [if bool_decide (?v = []) then ?a else set_auth_param ?a ?k ?v] =>
    lazymatch a with mkAuth _ _ _ _ _ _ _ _ _ _ _ _ => idtac end;
    let b := eval vm_compute in (set_auth_param a k v) in
    replace (if bool_decide (v = []) then a else set_auth_param a k v) with b
      by (case_test; [subst v|]; reflexivity)
  end.

(** Setting every non-empty entry of [a] on a fresh record rebuilds [a]. *)
Lemma rebuild_auth a :
  Other a = Some [] →
  foldl (λ a e, if e.1.2 == [] then a else set_auth_param a e.1.1 e.1.2)
    (new_Auth (Auth_Scheme a) (Some NewParams)) (auth_entries a) = a.
Proof.
  destruct a as [s u r n uri rsp cn nc q alg op o]. cbn [Other Auth_Scheme]. intros ->.
  unfold auth_entries. cbn [Username Realm Nonce URI Response_ Cnonce Nc Qop Algorithm Opaque_].
  cbn [foldl fst snd]. unfold new_Auth. by repeat set_entry.
Qed.

Lemma ParseAuth_Value a : wf_auth a → ParseAuth (Auth_Value a) = a.
Proof.
  unfold wf_auth. intros H. bool_hyps.
  match goal with H : Is_true (forallb _ _) |- _ => apply Forall_forallb in H; rename H into Hl end.
  rewrite Auth_Value_eq. pose proof (parse_auth_parts (new_Auth (Auth_Scheme a) (Some NewParams)) _ Hl) as Hparse.
  assert (Forall (λ e, Is_true (wf_auth_entry e)) (nonempty_entries (auth_entries a))) as Hne.
  { apply Forall_forall. intros e He. apply list_elem_of_In, filter_In in He as [He _].
    rewrite Forall_forall in Hl. apply Hl. by apply list_elem_of_In. }
  destruct (nonempty_entries (auth_entries a)) as [|e l] eqn:Hnel; [done|].
  pose proof Hne as Hall. apply Forall_cons in Hne as [He Hne].
  unfold ParseAuth. rewrite TrimSpace_trimmed; cycle 1.
  { rewrite <-(map_map auth_part (λ y, ", " ++ y)), <-Join_cons. apply trimmed_Join.
    apply Forall_cons. split.
    - split; [done|]. apply trimmed_nospace. eapply all_impl; [eassumption|]. class.
    - apply Forall_map. eapply Forall_impl; [exact Hall|].
      intros x Hx. destruct (auth_part_trimmed x Hx) as [? E]. split; [done|]. rewrite <-E. apply TrimSpace_is_trimmed. }
  cbn [map concat]. change ((", " ++ ?x) ++ ?y) with (","%char :: " "%char :: x ++ y).
  rewrite IndexAny_app by (done || (eapply all_impl; [eassumption|]; class)).
  rewrite take_len_app, Nat.add_1_r, drop_S_len_app.
  change (splitAuthParams (" "%char :: ?x)) with (splitAuthParams_go false false [] x).
  rewrite splitAuthParams_parts, Hparse by done. apply rebuild_auth. by bool_hyps.
Qed.
