(* ===== verification/HeadersMap.v ===== *)
(** * [headers_map.go]: the header list of a message

    An ordered list, looked up by canonical name.  [Headers_Set] keeps the index
    loop of the source, deletions included; [Headers_Set_spec] says what it
    computes. *)

From S2P Require Import Prelude GoStrings Params Uri Headers.

(** [type Headers struct { list []Header }] *)
Abbreviation Headers := (list Header).

(** The canonical name under which a header is found. *)
Definition cname (h : Header) : str := CanonicalName (Header_Name h).

Definition Headers_Add (h : Headers) (hdr : Header) : Headers := h ++ [hdr].

Definition Headers_Prepend (h : Headers) (hdr : Header) : Headers := [hdr] ++ h.

(** The inner loop of [Set] from index [j]: each step deletes [list[j]] or moves
    on, so the length of the list is fuel enough. *)
Fixpoint set_dedup (fuel : nat) (name : str) (j : nat) (l : Headers) : Headers :=
  match fuel with
  | 0 => l
  | S f =>
    match l !! j with
    | None => l
    | Some x => if cname x == name then set_dedup f name j (delete j l)
                else set_dedup f name (S j) l
    end
  end.

Definition Headers_Set (h : Headers) (hdr : Header) : Headers :=
  let name := cname hdr in
  match list_find (λ x, cname x = name) h with
  | Some (i, _) => let l := <[i := hdr]> h in set_dedup (length l) name (S i) l
  | None => h ++ [hdr]
  end.

Fixpoint Headers_Get (h : Headers) (name : str) : option Header :=
  match h with
  | [] => None
  | hdr :: h' => if cname hdr == CanonicalName name then Some hdr else Headers_Get h' name
  end.

Definition Headers_All (h : Headers) (name : str) : list Header :=
  List.filter (λ hdr, cname hdr == CanonicalName name) h.

Definition Headers_Del (h : Headers) (name : str) : Headers :=
  List.filter (λ hdr, cname hdr != CanonicalName name) h.

Definition Headers_Len (h : Headers) : nat := length h.

Definition Headers_Clone (h : Headers) : Headers := map Header_Clone h.

(** One rendered header line. *)
Definition header_line (hdr : Header) : str := Header_Name hdr ++ ": " ++ Header_Value hdr ++ CRLF.

Definition Headers_String (h : Headers) : str := concat (map header_line h).

Definition Headers_Values (h : Headers) (name : str) : list str :=
  map Header_Value (Headers_All h name).

(** ** What [Set] computes *)

Implicit Types (h l : Headers) (hdr x : Header) (name : str).

Lemma set_dedup_spec fuel name a b :
  length b ≤ fuel →
  set_dedup fuel name (length a) (a ++ b) = a ++ List.filter (λ x, cname x != name) b.
Proof.
  revert a b. induction fuel as [|f IH]; intros a b Hlen; [by destruct b; simpl in *; [|lia]|].
  destruct b as [|x b]; simpl.
  - rewrite app_nil_r. by rewrite lookup_ge_None_2.
  - rewrite list_lookup_middle by done. case_test; simpl in *.
    + rewrite delete_middle. apply IH. lia.
    + rewrite cons_middle, app_assoc. replace (S (length a)) with (length (a ++ [x])) by (rewrite length_app; simpl; lia).
      rewrite IH by lia. by rewrite <-app_assoc.
Qed.

(** The first header of that name is replaced, the later ones go; a new name
    goes to the end. *)
Lemma Headers_Set_split h hdr :
  (Headers_Get h (Header_Name hdr) = None ∧ Headers_Set h hdr = h ++ [hdr]) ∨
  ∃ a x b, h = a ++ x :: b ∧ cname x = cname hdr ∧ Forall (λ y, cname y ≠ cname hdr) a ∧
           Headers_Set h hdr = a ++ hdr :: List.filter (λ y, cname y != cname hdr) b.
Proof.
  unfold Headers_Set. destruct (list_find _ h) as [[i x]|] eqn:Hf.
  - right. apply list_find_Some in Hf as (Hi & Hx & Hbefore).
    exists (take i h), x, (drop (S i) h).
    assert (i < length h) as Hlen by by eapply lookup_lt_Some.
    split_and!; [by rewrite take_drop_middle|done| |].
    + apply Forall_forall. intros y Hy. apply list_elem_of_lookup in Hy as [j Hj].
      pose proof (lookup_lt_Some _ _ _ Hj) as Hj'. rewrite length_take in Hj'.
      rewrite lookup_take_lt in Hj by lia. eapply Hbefore; [exact Hj|lia].
    + rewrite insert_take_drop by done.
      assert (S i = length (take i h ++ [hdr])) as Hn by (rewrite length_app, length_take; simpl; lia).
      rewrite cons_middle, app_assoc. rewrite Hn at 2.
      rewrite set_dedup_spec by (rewrite !length_app, length_drop; lia).
      by rewrite <-app_assoc.
  - left. split; [|done]. apply list_find_None in Hf.
    induction Hf as [|y h Hy Hf IH]; [done|]. simpl. by rewrite bool_decide_false.
Qed.

Lemma Headers_Get_All h name : Headers_Get h name = head (Headers_All h name).
Proof.
  unfold Headers_All. induction h as [|hdr h IH]; simpl; [done|]. case_test; [done|apply IH].
Qed.

Lemma Headers_All_app h l name : Headers_All (h ++ l) name = Headers_All h name ++ Headers_All l name.
Proof. apply List.filter_app. Qed.

Lemma Headers_All_none h name :
  Forall (λ y, cname y ≠ CanonicalName name) h → Headers_All h name = [].
Proof.
  unfold Headers_All. induction 1 as [|y h Hy Hh IH]; simpl; [done|]. by rewrite bool_decide_false.
Qed.

Lemma Headers_All_cons hdr h name :
  Headers_All (hdr :: h) name =
  if cname hdr == CanonicalName name then hdr :: Headers_All h name else Headers_All h name.
Proof. done. Qed.

(** Filtering one name out: none of that name is left, the others stay. *)
Lemma Headers_All_drop h cn name :
  Headers_All (List.filter (λ y, cname y != cn) h) name =
  if CanonicalName name == cn then [] else Headers_All h name.
Proof.
  unfold Headers_All. induction h as [|y h IH]; simpl; [by case_test|].
  destruct (decide (cname y = cn)) as [E|E].
  - rewrite (bool_decide_true (cname y = cn)) by done. simpl. rewrite IH. case_test; [done|].
    by rewrite bool_decide_false by congruence.
  - rewrite (bool_decide_false (cname y = cn)) by done. simpl. rewrite IH.
    repeat case_test; try done; congruence.
Qed.

Lemma Headers_All_Del h name name' :
  Headers_All (Headers_Del h name) name' =
  if CanonicalName name' == CanonicalName name then [] else Headers_All h name'.
Proof. apply Headers_All_drop. Qed.

Lemma Headers_All_Set h hdr name :
  Headers_All (Headers_Set h hdr) name =
  if CanonicalName name == cname hdr then [hdr] else Headers_All h name.
Proof.
  destruct (decide (CanonicalName name = cname hdr)) as [E|E];
    [rewrite (bool_decide_true _ E)|rewrite (bool_decide_false _ E)];
    destruct (Headers_Set_split h hdr) as [[Hnone ->]|(a & x & b & -> & Hx & Ha & ->)];
    rewrite !Headers_All_app, !Headers_All_cons, ?Headers_All_drop.
  - rewrite bool_decide_true by done. rewrite Headers_Get_All in Hnone.
    assert (Headers_All h name = Headers_All h (Header_Name hdr)) as ->.
    { unfold Headers_All. by rewrite E. }
    by destruct (Headers_All h (Header_Name hdr)).
  - by rewrite !bool_decide_true, Headers_All_none by (rewrite ?E; done).
  - rewrite bool_decide_false by congruence. apply app_nil_r.
  - by rewrite !bool_decide_false by congruence.
Qed.

Lemma Headers_Get_Set h hdr name :
  Headers_Get (Headers_Set h hdr) name =
  if CanonicalName name == cname hdr then Some hdr else Headers_Get h name.
Proof. rewrite !Headers_Get_All, Headers_All_Set. by case_test. Qed.

Lemma Headers_Get_Del h name name' :
  Headers_Get (Headers_Del h name) name' =
  if CanonicalName name' == CanonicalName name then None else Headers_Get h name'.
Proof. rewrite !Headers_Get_All, Headers_All_Del. by case_test. Qed.

Lemma Headers_Get_Prepend h hdr name :
  Headers_Get (Headers_Prepend h hdr) name =
  if cname hdr == CanonicalName name then Some hdr else Headers_Get h name.
Proof. done. Qed.

Lemma Headers_Get_app h l name :
  Headers_Get (h ++ l) name =
  match Headers_Get h name with Some x => Some x | None => Headers_Get l name end.
Proof. induction h as [|x h IH]; simpl; [done|]. by case_test. Qed.

Lemma Headers_Get_Add h hdr name :
  Headers_Get (Headers_Add h hdr) name =
  match Headers_Get h name with
  | Some x => Some x
  | None => if cname hdr == CanonicalName name then Some hdr else None
  end.
Proof. apply Headers_Get_app. Qed.

Lemma Headers_Get_name h name x : Headers_Get h name = Some x → cname x = CanonicalName name ∧ x ∈ h.
Proof.
  induction h as [|y h IH]; simpl; [done|]. case_test.
  - intros [= <-]. split; [done|set_solver].
  - intros H. destruct (IH H). split; [done|set_solver].
Qed.

(** Getting by name is blind to case. *)
#[export] Instance Headers_Get_proper : Proper (eq ==> eq_fold ==> eq) Headers_Get.
Proof.
  intros h _ <- n n' Hn. rewrite !Headers_Get_All. unfold Headers_All.
  by rewrite (CanonicalName_proper n n' Hn).
Qed.

Create Rewrite HintDb headers.
#[export] Hint Rewrite Headers_Get_Set Headers_Get_Del Headers_Get_Prepend Headers_Get_Add
  Headers_All_Set Headers_All_Del Headers_All_app : headers.
