(* ===== verification/Message.v ===== *)
(** * [message.go]: requests and responses

    The two message types, their accessors, the required-header check and the
    renderer.  A nil [[]byte] body is [None]. *)

From S2P Require Import Prelude GoStrings Params Uri Headers HeadersMap.

(** ** Methods and reasons *)

Definition SipVersion : str := "SIP/2.0".

Definition INVITE : Method := "INVITE".
Definition ACK : Method := "ACK".
Definition BYE : Method := "BYE".
Definition CANCEL : Method := "CANCEL".
Definition OPTIONS : Method := "OPTIONS".
Definition REGISTER : Method := "REGISTER".
Definition INFO : Method := "INFO".
Definition UPDATE : Method := "UPDATE".
Definition PRACK : Method := "PRACK".
Definition REFER : Method := "REFER".
Definition NOTIFY : Method := "NOTIFY".
Definition SUBSCRIBE : Method := "SUBSCRIBE".
Definition MESSAGE : Method := "MESSAGE".
Definition PUBLISH : Method := "PUBLISH".

Definition DefaultReason (code : Z) : str :=
  if (code =? 100)%Z then "Trying"
  else if (code =? 180)%Z then "Ringing"
  else if (code =? 183)%Z then "Session Progress"
  else if (code =? 200)%Z then "OK"
  else if (code =? 202)%Z then "Accepted"
  else if (code =? 301)%Z then "Moved Permanently"
  else if (code =? 302)%Z then "Moved Temporarily"
  else if (code =? 400)%Z then "Bad Request"
  else if (code =? 401)%Z then "Unauthorized"
  else if (code =? 403)%Z then "Forbidden"
  else if (code =? 404)%Z then "Not Found"
  else if (code =? 407)%Z then "Proxy Authentication Required"
  else if (code =? 408)%Z then "Request Timeout"
  else if (code =? 415)%Z then "Unsupported Media Type"
  else if (code =? 420)%Z then "Bad Extension"
  else if (code =? 421)%Z then "Extension Required"
  else if (code =? 423)%Z then "Interval Too Brief"
  else if (code =? 480)%Z then "Temporarily Unavailable"
  else if (code =? 481)%Z then "Call/Transaction Does Not Exist"
  else if (code =? 483)%Z then "Too Many Hops"
  else if (code =? 486)%Z then "Busy Here"
  else if (code =? 487)%Z then "Request Terminated"
  else if (code =? 488)%Z then "Not Acceptable Here"
  else if (code =? 500)%Z then "Server Internal Error"
  else if (code =? 501)%Z then "Not Implemented"
  else if (code =? 502)%Z then "Bad Gateway"
  else if (code =? 503)%Z then "Service Unavailable"
  else if (code =? 504)%Z then "Server Time-out"
  else if (code =? 600)%Z then "Busy Everywhere"
  else if (code =? 603)%Z then "Decline"
  else if (code =? 604)%Z then "Does Not Exist Anywhere"
  else if (code <? 200)%Z then "Provisional"
  else if (code <? 300)%Z then "Success"
  else if (code <? 400)%Z then "Redirection"
  else if (code <? 500)%Z then "Client Error"
  else if (code <? 600)%Z then "Server Error"
  else "Global Failure".

(** ** Data *)

Record Request := mkRequest {
  Req_Method : Method;
  Req_Uri : option Uri;
  Req_Proto : str;
  Req_headers : Headers;
  Req_body : option str
}.

Record Response := mkResponse {
  StatusCode : Z;
  Reason : str;
  Resp_Proto : str;
  Resp_headers : Headers;
  Resp_body : option str
}.

(** The [Message] interface has these two implementations. *)
Inductive Message := MReq (r : Request) | MResp (r : Response).

#[export] Instance Request_eq_dec : EqDecision Request.
Proof. solve_decision. Defined.
#[export] Instance Response_eq_dec : EqDecision Response.
Proof. solve_decision. Defined.
#[export] Instance Message_eq_dec : EqDecision Message.
Proof. solve_decision. Defined.

Definition NewRequest (method : Method) (uri : option Uri) : Request :=
  mkRequest method uri SipVersion [] None.

Definition NewResponse (status : Z) (reason : str) : Response :=
  mkResponse status (if reason == [] then DefaultReason status else reason) SipVersion [] None.

Definition req_with_headers (r : Request) (h : Headers) : Request :=
  mkRequest (Req_Method r) (Req_Uri r) (Req_Proto r) h (Req_body r).

Definition resp_with_headers (r : Response) (h : Headers) : Response :=
  mkResponse (StatusCode r) (Reason r) (Resp_Proto r) h (Resp_body r).

Definition msg_headers (m : Message) : Headers :=
  match m with MReq r => Req_headers r | MResp r => Resp_headers r end.

(** [m.Body()]; a nil slice has no bytes. *)
Definition msg_body (m : Message) : str :=
  default [] (match m with MReq r => Req_body r | MResp r => Resp_body r end).

Definition IsRequest (m : Message) : bool := match m with MReq _ => true | MResp _ => false end.

Definition StartLine (m : Message) : str :=
  match m with
  | MReq r => Req_Method r ++ " " ++ Uri_String (Req_Uri r) ++ " " ++ Req_Proto r
  | MResp r => Resp_Proto r ++ " " ++ Itoa (StatusCode r) ++ " " ++ Reason r
  end.

(** [ContentLength(len(body))]: a conversion to 32 bits. *)
Definition content_length_of (body : str) : Header := HContentLength (Z.of_nat (length body) mod 2 ^ 32).

(** The headers [SetBody] leaves; the same code for both message types. *)
Definition set_body_headers (h : Headers) (contentType : str) (body : option str) : Headers :=
  match body with
  | None => Headers_Del (Headers_Del h "Content-Length") "Content-Type"
  | Some b =>
    let h := Headers_Set h (content_length_of b) in
    if contentType != [] then Headers_Set h (NewHeader "Content-Type" contentType) else h
  end.

Definition Request_SetBody (r : Request) (contentType : str) (body : option str) : Request :=
  mkRequest (Req_Method r) (Req_Uri r) (Req_Proto r) (set_body_headers (Req_headers r) contentType body) body.

Definition Response_SetBody (r : Response) (contentType : str) (body : option str) : Response :=
  mkResponse (StatusCode r) (Reason r) (Resp_Proto r) (set_body_headers (Resp_headers r) contentType body) body.

(** [append([]byte(nil), body...)]: an empty body becomes nil. *)
Definition clone_body (body : option str) : option str :=
  match body with Some (c :: b) => Some (c :: b) | _ => None end.

Definition Request_Clone (r : Request) : Request :=
  mkRequest (Req_Method r) (Uri_Clone (Req_Uri r)) (Req_Proto r) (Headers_Clone (Req_headers r))
    (clone_body (Req_body r)).

Definition Response_Clone (r : Response) : Response :=
  mkResponse (StatusCode r) (Reason r) (Resp_Proto r) (Headers_Clone (Resp_headers r))
    (clone_body (Resp_body r)).

(** ** Rendering *)

Definition render (m : Message) : str :=
  StartLine m ++ CRLF ++ Headers_String (msg_headers m) ++
  (if 0 <? length (msg_body m) then
     (match Headers_Get (msg_headers m) "Content-Length" with
      | None => "Content-Length: " ++ Itoa (Z.of_nat (length (msg_body m))) ++ CRLF
      | Some _ => []
      end) ++ CRLF ++ msg_body m
   else CRLF).

(** ** Accessors *)

Definition via_of (h : Headers) : option Via :=
  match Headers_Get h "Via" with
  | Some (HVia v) => Some v
  | Some hdr => ok_opt (ParseVia (Header_Value hdr))
  | None => None
  end.

Definition addressOf (h : option Header) : option Address :=
  match h with
  | Some (HAddr a _) => Some a
  | Some (HNameAddr l) => First (Some l)
  | Some (HGeneric _ v) => ok_opt (ParseAddress v)
  | _ => None
  end.

Definition nameAddrListOf (h : option Header) : option NameAddrList :=
  match h with
  | Some (HNameAddr l) => Some l
  | Some (HAddr a _) => Some (mkNameAddrList [] [a] false)
  | Some (HGeneric _ v) => ok_opt (ParseNameAddrList v)
  | _ => None
  end.

Definition headerValue (h : option Header) : str :=
  match h with None => [] | Some h => Header_Value h end.

Definition cseqOf (h : option Header) : option CSeq :=
  match h with
  | Some (HCSeq c) => Some c
  | Some (HGeneric _ v) => ok_opt (ParseCSeq v)
  | _ => None
  end.

Definition from_of (h : Headers) : option Address := addressOf (Headers_Get h "From").
Definition to_of (h : Headers) : option Address := addressOf (Headers_Get h "To").
Definition contact_of (h : Headers) : option NameAddrList := nameAddrListOf (Headers_Get h "Contact").
Definition callid_of (h : Headers) : str := headerValue (Headers_Get h "Call-ID").
Definition cseq_of (h : Headers) : option CSeq := cseqOf (Headers_Get h "CSeq").

(** ** Required headers *)

Fixpoint check_required (h : Headers) (l : list (str * GoError)) : result unit :=
  match l with
  | [] => Ok ()
  | (name, e) :: l' =>
    match Headers_Get h name with None => Err e | Some _ => check_required h l' end
  end.

Definition required_headers : list (str * GoError) :=
  [(lit "Via", ErrNoVia); (lit "From", ErrNoFrom); (lit "To", ErrNoTo);
   (lit "Call-ID", ErrNoCallID); (lit "CSeq", ErrNoCSeq)].

Definition Request_Validate (r : Request) : result unit :=
  if Req_Method r == [] then Err ErrParse
  else match Req_Uri r with
       | None => Err ErrParse
       | Some u => if Uri_Host u == [] then Err ErrParse
                   else check_required (Req_headers r) required_headers
       end.

Definition Response_Validate (r : Response) : result unit :=
  if (StatusCode r <? 100)%Z || (699 <? StatusCode r)%Z then Err ErrParse
  else check_required (Resp_headers r) required_headers.

(** ** Headers that [SetBody] leaves alone *)

Lemma set_body_all (h : Headers) ct body name :
  CanonicalName name ∉ [lit "Content-Length"; lit "Content-Type"] →
  Headers_All (set_body_headers h ct body) name = Headers_All h name.
Proof.
  intros Hn. unfold set_body_headers, content_length_of. destruct body as [b|]; [destruct (ct != [])|];
    autorewrite with headers;
    change (cname (NewHeader "Content-Type" ct)) with (lit "Content-Type");
    change (cname (HContentLength _)) with (lit "Content-Length");
    change (CanonicalName "Content-Type") with (lit "Content-Type");
    change (CanonicalName "Content-Length") with (lit "Content-Length");
    rewrite !bool_decide_false by set_solver; done.
Qed.

Lemma set_body_get (h : Headers) ct body name :
  CanonicalName name ∉ [lit "Content-Length"; lit "Content-Type"] →
  Headers_Get (set_body_headers h ct body) name = Headers_Get h name.
Proof. intros Hn. by rewrite !Headers_Get_All, set_body_all. Qed.
