(* ===== verification/Parser.v ===== *)
(** * [parser.go]: the message parser

    [ParseMessage] reads the start line, the header block and the body from a
    reader; the reader is the bytes still to read.  The header loop runs on fuel
    one above the limit on header lines, which [header_loop_total] proves is
    enough. *)

From S2P Require Import Prelude GoStrings Params Uri Headers HeadersMap Message.

Definition MaxMessageSize : Z := 2 ^ 20.
Definition maxHeaderLines : nat := 128.
Definition maxHeaderLineLen : Z := 8192.
Definition MaxBodySize : Z := 65536.

(** ** Typed headers *)

Definition name_addr_names : list str :=
  [lit "From"; lit "To"; lit "Contact"; lit "Route"; lit "Record-Route"; lit "Refer-To";
   lit "Accept-Contact"; lit "Referred-By"; lit "Reply-To"; lit "Alert-Info"; lit "Call-Info";
   lit "Error-Info"; lit "P-Asserted-Identity"; lit "Path"; lit "Service-Route"].

Definition auth_names : list str :=
  [lit "Authorization"; lit "WWW-Authenticate"; lit "Proxy-Authorization"; lit "Proxy-Authenticate"].

(** A value that does not parse keeps its text in a generic header. *)
Definition newTypedHeader (name value : str) : Header :=
  if name == "Via" then
    match ParseVia value with Ok v => HVia v | Err _ => HGeneric name value end
  else if bool_decide (name ∈ name_addr_names) then
    match ParseNameAddrList value with
    | Ok l => HNameAddr (mkNameAddrList name (Addresses l) (All l))
    | Err _ => HGeneric name value
    end
  else if name == "CSeq" then
    match ParseCSeq value with Ok c => HCSeq c | Err _ => HGeneric name value end
  else if name == "Content-Length" then
    match ParseContentLength value with Ok c => HContentLength c | Err _ => HGeneric name value end
  else if name == "Max-Forwards" then
    match Atoi value with Ok n => HMaxForwards n | Err _ => HGeneric name value end
  else if bool_decide (name ∈ auth_names) then HAuth (ParseAuth value) name
  else HGeneric name value.

(** [g.V += " " + extra] through the pointer: only a generic header changes. *)
Definition setHeaderValue (h : Header) (extra : str) : Header :=
  match h with HGeneric K V => HGeneric K (V ++ " " ++ extra) | _ => h end.

(** ** The header block *)

(** [reader.ReadString('\n')]: the line, the rest, and whether it ended in LF. *)
Definition ReadString (r : str) : str * str * bool :=
  match IndexByte r LF with
  | Some i => (take (S i) r, drop (S i) r, true)
  | None => (r, [], false)
  end.

(** The loop's state: the reader, the headers so far, the last Content-Length and
    the line count.  [prev] is the header last added, so it is the last of [hs]. *)
Record block := mkBlock {
  b_reader : str;
  b_headers : Headers;
  contentLength : Z;
  headerCount : nat
}.

(** One pass through the loop body: [inl] goes round again, [inr] is the state at
    the blank line. *)
Definition header_step (b : block) : result (block + block) :=
  let '(line, rest, found) := ReadString (b_reader b) in
  if negb found && (line == []) then Err ErrParse
  else
    let line := TrimRight line CRLF in
    if ContainsByte line CR then Err ErrBadHeader
    else if (maxHeaderLineLen <? Z.of_nat (length line))%Z then Err ErrBadHeader
    else if line == [] then Ok (inr (mkBlock rest (b_headers b) (contentLength b) (headerCount b)))
    else
      let count := S (headerCount b) in
      if maxHeaderLines <? count then Err ErrBadHeader
      else if (head line == Some SP) || (head line == Some TAB) then
        match last (b_headers b) with
        | None => Err ErrBadHeader
        | Some prev =>
          let hs := removelast (b_headers b) ++ [setHeaderValue prev (TrimSpace line)] in
          Ok (inl (mkBlock rest hs (contentLength b) count))
        end
      else
        let '(name, value, found) := Cut line ":" in
        if negb found then Err ErrBadHeader
        else
          let hdr := newTypedHeader (CanonicalName (TrimSpace name)) (TrimSpace value) in
          let cl := match hdr with HContentLength n => n | _ => contentLength b end in
          Ok (inl (mkBlock rest (Headers_Add (b_headers b) hdr) cl count)).

Fixpoint header_loop (fuel : nat) (b : block) : option (result block) :=
  match fuel with
  | 0 => None
  | S f => match header_step b with
           | Err e => Some (Err e)
           | Ok (inr b) => Some (Ok b)
           | Ok (inl b) => header_loop f b
           end
  end.

(** What follows the loop: the size check and [io.ReadFull]. *)
Definition read_body (b : block) : result (Headers * option str) :=
  let n := Z.max 0 (contentLength b) in
  if (MaxBodySize <? n)%Z then Err ErrParse
  else if (0 <? n)%Z then
    let n := Z.to_nat n in
    if length (b_reader b) <? n then Err ErrParse
    else Ok (b_headers b, Some (take n (b_reader b)))
  else Ok (b_headers b, None).

Definition header_fuel : nat := S maxHeaderLines.

Definition parseHeaderBlock (reader : str) : result (Headers * option str) :=
  match header_loop header_fuel (mkBlock reader [] (-1) 0) with
  | Some r => r ≫= read_body
  | None => Err ErrParse  (* not reached: [header_loop_total] *)
  end.

(** ** Messages *)

Definition parseRequest (startLine reader : str) : result Message :=
  match Fields startLine with
  | [method; u; proto] =>
    uri ← wrap_err ErrBadStartLine (ParseUri u);
    '(hs, body) ← parseHeaderBlock reader;
    let r := mkRequest (ToUpper method) (Some uri) proto hs body in
    _ ← Request_Validate r;
    Ok (MReq r)
  | _ => Err ErrBadStartLine
  end.

Definition parseResponse (startLine reader : str) : result Message :=
  match SplitN startLine " " 3 with
  | proto :: c :: fields =>
    code ← wrap_err ErrBadStartLine (Atoi c);
    let reason := match fields with [reason] => reason | _ => [] end in
    let r := NewResponse code reason in
    '(hs, body) ← parseHeaderBlock reader;
    let r := mkResponse (StatusCode r) (Reason r) proto hs body in
    _ ← Response_Validate r;
    Ok (MResp r)
  | _ => Err ErrBadStartLine
  end.

Definition ParseMessage (data : str) : result Message :=
  if length data <? 8 then Err ErrShortMessage
  else if (MaxMessageSize <? Z.of_nat (length data))%Z then Err ErrParse
  else
    let '(line, reader, _) := ReadString data in
    let line := TrimRight line CRLF in
    if line == [] then Err ErrBadStartLine
    else if HasPrefix line "SIP/" then parseResponse line reader
    else parseRequest line reader.

Definition ex_register : str :=
  "REGISTER sip:3402000000@192.168.1.1:5060 SIP/2.0" ++ CRLF ++
  "v: SIP/2.0/UDP 10.0.0.2:5060;branch=z9hG4bK-1;rport" ++ CRLF ++
  "From: <sip:34020000001320000001@3402000000>;tag=1" ++ CRLF ++
  "To: <sip:34020000001320000001@3402000000>" ++ CRLF ++
  "Call-ID: abc" ++ CRLF ++
  "CSeq: 1 REGISTER" ++ CRLF ++
  "User-Agent: a" ++ CRLF ++ "  b" ++ CRLF ++
  "l: 3" ++ CRLF ++ CRLF ++ "xyz".

Example parse_ex :
  (λ m, (StartLine m, msg_body m, length (msg_headers m), Headers_Values (msg_headers m) "user-agent"))
    <$> ParseMessage ex_register
  = Ok (lit "REGISTER sip:3402000000@192.168.1.1:5060 SIP/2.0", lit "xyz", 7, [lit "a b"]).
Proof. by_compute. Qed.

(** ** The header loop ends *)

Lemma header_step_count b b' :
  header_step b = Ok (inl b') → headerCount b' = S (headerCount b) ∧ headerCount b' ≤ maxHeaderLines.
Proof.
  unfold header_step. destruct (ReadString (b_reader b)) as [[line rest] found].
  destruct (negb found && _); [done|]. destruct (ContainsByte _ _); [done|].
  destruct (maxHeaderLineLen <? _)%Z; [done|]. destruct (TrimRight line CRLF == []); [done|].
  destruct (maxHeaderLines <? S (headerCount b)) eqn:Hc; [done|]. apply Nat.ltb_ge in Hc.
  destruct (_ || _).
  - destruct (last _); [|done]. by intros [= <-].
  - destruct (Cut _ _) as [[name value] fnd]. destruct fnd; [|done]. by intros [= <-].
Qed.

Lemma header_loop_enough fuel b :
  headerCount b ≤ maxHeaderLines → maxHeaderLines < fuel + headerCount b →
  ∃ r, header_loop fuel b = Some r.
Proof.
  revert b. induction fuel as [|f IH]; intros b Hle H; [lia|].
  simpl. destruct (header_step b) as [[b'|b']|e] eqn:Hs; [|by eauto|by eauto].
  apply header_step_count in Hs as [Hc Hle']. apply IH; [done|]. rewrite Hc. lia.
Qed.

(** The fuel of [parseHeaderBlock] is enough for every input. *)
Lemma header_loop_total reader : ∃ r, header_loop header_fuel (mkBlock reader [] (-1) 0) = Some r.
Proof. apply header_loop_enough; unfold header_fuel; cbn [headerCount]; lia. Qed.

(** More fuel does not change the answer. *)
Lemma header_loop_mono fuel fuel' b r :
  fuel ≤ fuel' → header_loop fuel b = Some r → header_loop fuel' b = Some r.
Proof.
  revert fuel' b. induction fuel as [|f IH]; intros fuel' b Hle H; [done|].
  destruct fuel' as [|f']; [lia|]. simpl in *. destruct (header_step b) as [[b'|b']|e]; [|done..].
  apply IH; [lia|done].
Qed.

(** ** Reading back a rendered line *)

Definition line_byte (c : ascii) : bool := negb (mem c CRLF).

Lemma trim_right_none p s : all (λ c, negb (p c)) s → trim_right p s = s.
Proof.
  intros H. apply trim_right_trimmed. pose proof (proj2 (all_rev _ s) H) as Hr. unfold trimmed_by.
  destruct s as [|c s]; [done|]. destruct (rev (c :: s)) as [|d r]; [done|]. split_all; done.
Qed.

Lemma line_byte_free s : all line_byte s → free CR s ∧ free LF s.
Proof. split; solve_class. Qed.

Lemma ReadString_line s t : all line_byte s → ReadString (s ++ CRLF ++ t) = (s ++ CRLF, t, true).
Proof.
  intros H. unfold ReadString. destruct (line_byte_free s H) as [_ Hf].
  change (s ++ CRLF ++ t) with (s ++ [CR] ++ LF :: t). rewrite app_assoc.
  assert (Is_true (free LF (s ++ [CR]))) by (split_all; done).
  rewrite IndexByte_app, drop_S_len_app by done. do 2 f_equal.
  rewrite (cons_middle LF), app_assoc, take_app_length'; [by rewrite <-app_assoc|].
  rewrite !length_app; simpl; lia.
Qed.

Lemma TrimRight_line s : all line_byte s → TrimRight (s ++ CRLF) CRLF = s.
Proof. intros H. unfold TrimRight. rewrite trim_right_app by done. by apply trim_right_none. Qed.

Lemma ContainsByte_free s c : free c s → ContainsByte s c = false.
Proof.
  intros H. unfold ContainsByte. apply not_true_is_false. intros E. apply Is_true_true in E.
  apply mem_elem in E. by apply free_elem in H.
Qed.

(** ** Well-formed headers *)

Definition typed_names : list str :=
  [lit "Via"; lit "CSeq"; lit "Content-Length"; lit "Max-Forwards"] ++ name_addr_names ++ auth_names.

(** The data of a header, in the form the parser gives it. *)
Definition wf_header_data (h : Header) : bool :=
  match h with
  | HGeneric K V => negb (bool_decide (K ∈ typed_names))
  | HVia v => wf_via v
  | HCSeq c => wf_cseq c
  | HContentLength n => (0 <=? n)%Z && (n <? 2 ^ 32)%Z
  | HMaxForwards n => in_int n
  | HNameAddr l => bool_decide (NAL_HName l ∈ name_addr_names) && wf_addr_list l
  | HAuth a K => bool_decide (K ∈ auth_names) && wf_auth a
  | HTokens _ | HAddr _ _ => false
  end.

(** What the receiver makes of a header: its name and value read back. *)
Definition retype (h : Header) : Header := newTypedHeader (Header_Name h) (Header_Value h).

Lemma newTypedHeader_name n s : Header_Name (newTypedHeader n s) = n.
Proof.
  unfold newTypedHeader. repeat case_test; subst;
    repeat match goal with |- context [match ?r with Ok _ => _ | Err _ => _ end] => destruct r end; done.
Qed.

Lemma cname_retype h : cname (retype h) = cname h.
Proof. unfold cname, retype. by rewrite newTypedHeader_name. Qed.

Lemma Headers_Get_retype h name : Headers_Get (map retype h) name = retype <$> Headers_Get h name.
Proof.
  induction h as [|x h IH]; [done|]. cbn [map Headers_Get]. rewrite cname_retype.
  case_test; [done|exact IH].
Qed.

(** The header's text: a canonical name, and a value that fits on one line. *)
Definition wf_header_text (h : Header) : bool :=
  (cname h == Header_Name h) && trimmed (Header_Name h) && trimmed (Header_Value h)
  && all line_byte (Header_Name h) && free ":"%char (Header_Name h)
  && all line_byte (Header_Value h)
  && (Z.of_nat (length (Header_Name h ++ ": " ++ Header_Value h)) <=? maxHeaderLineLen)%Z.

Definition wf_header (h : Header) : bool := wf_header_data h && wf_header_text h.

(** Refute a closed membership. *)
Ltac not_member H := apply (bool_decide_pack _) in H; vm_compute in H; destruct H.

Ltac other_name :=
  repeat match goal with
  | H : ?K ∈ _ |- context [bool_decide (?K = ?n)] =>
    rewrite (bool_decide_false (K = n)) by (let E := fresh in intros E; rewrite E in H; not_member H)
  | H : ¬ (?K ∈ _) |- context [bool_decide (?K = ?n)] =>
    rewrite (bool_decide_false (K = n)) by (let E := fresh in intros E; apply H; rewrite E; apply (bool_decide_unpack _); by_compute)
  end.

Lemma name_addr_typed K v :
  K ∈ name_addr_names →
  newTypedHeader K v = match ParseNameAddrList v with
                       | Ok l => HNameAddr (mkNameAddrList K (Addresses l) (All l))
                       | Err _ => HGeneric K v
                       end.
Proof.
  intros H. unfold newTypedHeader. other_name. by rewrite (bool_decide_true (K ∈ name_addr_names)).
Qed.

Lemma auth_typed K v : K ∈ auth_names → newTypedHeader K v = HAuth (ParseAuth v) K.
Proof.
  intros H. unfold newTypedHeader. other_name. rewrite (bool_decide_true (K ∈ auth_names)) by done.
  rewrite (bool_decide_false (K ∈ name_addr_names)); [done|]. intros H'.
  unfold auth_names in H. rewrite !elem_of_cons in H.
  destruct H as [->|[->|[->|[->|H]]]]; [..|by apply not_elem_of_nil in H]; not_member H'.
Qed.

Lemma generic_untyped K v : K ∉ typed_names → newTypedHeader K v = HGeneric K v.
Proof.
  intros H. unfold newTypedHeader. other_name.
  unfold typed_names in H. rewrite !elem_of_app in H.
  rewrite !bool_decide_false by naive_solver. done.
Qed.

Lemma newTypedHeader_Value h : wf_header_data h → newTypedHeader (Header_Name h) (Header_Value h) = h.
Proof.
  destruct h as [K V|v|c|n|n|l|t|a K|a K]; cbn [wf_header_data Header_Name Header_Value]; intros H;
    bool_hyps; try done.
  - apply generic_untyped. by intros E.
  - change (newTypedHeader _ _) with
      (match ParseVia (Via_Value v) with Ok v => HVia v | Err _ => HGeneric "Via" (Via_Value v) end).
    by rewrite ParseVia_Value.
  - change (newTypedHeader _ _) with
      (match ParseCSeq (CSeq_Value c) with Ok c => HCSeq c | Err _ => HGeneric "CSeq" (CSeq_Value c) end).
    by rewrite ParseCSeq_Value.
  - change (newTypedHeader _ _) with
      (match ParseContentLength (ContentLength_Value n) with
       | Ok c => HContentLength c | Err _ => HGeneric "Content-Length" (ContentLength_Value n) end).
    rewrite ParseContentLength_Value; [done|]. split; [by apply Z.leb_le, Is_true_true|by apply Z.ltb_lt, Is_true_true].
  - change (newTypedHeader _ _) with
      (match Atoi (Itoa n) with Ok n => HMaxForwards n | Err _ => HGeneric "Max-Forwards" (Itoa n) end).
    by rewrite Atoi_Itoa.
  - rewrite name_addr_typed, ParseNameAddrList_Value by done. destruct l as [N A []]; [|done].
    match goal with H : Is_true (wf_addr_list _) |- _ => unfold wf_addr_list in H; bool_hyps; done end.
  - by rewrite auth_typed, ParseAuth_Value.
Qed.

(** ** The header block *)

(** The Content-Length in force after the headers [hs]: the last one. *)
Definition last_length (cl : Z) (hs : Headers) : Z :=
  fold_left (λ cl h, match h with HContentLength n => n | _ => cl end) hs cl.

Lemma header_line_eq h : header_line h = (Header_Name h ++ ":"%char :: " "%char :: Header_Value h) ++ CRLF.
Proof. unfold header_line. by rewrite <-app_assoc. Qed.

Lemma no_indent s c t :
  trimmed s → is_space c = false → ((head (s ++ c :: t) == Some SP) || (head (s ++ c :: t) == Some TAB)) = false.
Proof.
  intros Hs Hc. assert (∃ d, head (s ++ c :: t) = Some d ∧ is_space d = false) as (d & -> & Hd).
  { destruct s as [|d s]; [by exists c|]. exists d. split; [done|].
    destruct (rev_cons_ex d s) as (e & r & Hr). rewrite (trimmed_by_ends _ _ _ _ _ Hr) in Hs.
    split_all. by destruct (is_space d). }
  by rewrite !bool_decide_false by (by intros [= ->]).
Qed.

Lemma header_step_line h b t :
  wf_header_text h → headerCount b < maxHeaderLines → b_reader b = header_line h ++ t →
  header_step b = Ok (inl (mkBlock t (Headers_Add (b_headers b) (retype h))
                             (last_length (contentLength b) [retype h]) (S (headerCount b)))).
Proof.
  intros Hh Hc Hr. unfold wf_header_text in Hh. bool_hyps.
  unfold header_step. rewrite Hr, header_line_eq, <-app_assoc.
  set (line := Header_Name h ++ ":"%char :: " "%char :: Header_Value h).
  assert (Is_true (all line_byte line)) as Hl by (unfold line; split_all; done).
  rewrite ReadString_line, TrimRight_line by done. cbn [negb andb].
  rewrite ContainsByte_free by by apply line_byte_free.
  assert ((maxHeaderLineLen <? Z.of_nat (length line))%Z = false) as ->.
  { apply Z.ltb_ge, Z.leb_le, Is_true_true. done. }
  rewrite bool_decide_false by (unfold line; by destruct (Header_Name h)).
  assert ((maxHeaderLines <? S (headerCount b)) = false) as -> by (apply Nat.ltb_ge; lia).
  unfold line. rewrite no_indent, Cut_app by done. cbn [negb].
  rewrite (TrimSpace_trimmed (Header_Name h)) by done.
  replace (TrimSpace (" "%char :: Header_Value h)) with (Header_Value h); cycle 1.
  { symmetry. pose proof (TrimSpace_pad [" "%char] (Header_Value h) []) as E.
    rewrite app_nil_r in E. by apply E. }
  match goal with H : cname h = _ |- _ => unfold cname in H; by rewrite H end.
Qed.

Lemma header_step_blank b t :
  b_reader b = CRLF ++ t →
  header_step b = Ok (inr (mkBlock t (b_headers b) (contentLength b) (headerCount b))).
Proof. intros Hr. unfold header_step. rewrite Hr. pose proof (ReadString_line [] t I) as E. cbn [app] in E. by rewrite E. Qed.

Lemma header_loop_lines hs b t fuel :
  forallb wf_header_text hs → headerCount b + length hs ≤ maxHeaderLines →
  b_reader b = Headers_String hs ++ CRLF ++ t →
  header_loop (length hs + S fuel) b =
  Some (Ok (mkBlock t (b_headers b ++ map retype hs) (last_length (contentLength b) (map retype hs)) (headerCount b + length hs))).
Proof.
  revert b. induction hs as [|h hs IH]; intros b Hhs Hc Hr.
  - simpl. rewrite (header_step_blank b t) by done. by rewrite app_nil_r, Nat.add_0_r.
  - cbn [forallb] in Hhs. apply andb_True in Hhs as [Hh Hhs]. cbn [length] in *. cbn [Nat.add header_loop].
    rewrite (header_step_line h b (Headers_String hs ++ CRLF ++ t)); [|done|lia|].
    + rewrite IH; cbn [headerCount b_headers contentLength b_reader]; [|done|lia|done].
      unfold Headers_Add. rewrite <-app_assoc. do 3 f_equal. lia.
    + rewrite Hr. unfold Headers_String. cbn [map concat]. by rewrite <-app_assoc.
Qed.

(** ** Whole messages *)

(** The header [render] writes when a body has no Content-Length of its own. *)
Definition framed_headers (h : Headers) (body : str) : Headers :=
  if 0 <? length body then
    match Headers_Get h "Content-Length" with
    | None => h ++ [HContentLength (Z.of_nat (length body))]
    | Some _ => h
    end
  else h.

Definition framed (m : Message) : Message :=
  let h := framed_headers (msg_headers m) (msg_body m) in
  let b := clone_body (Some (msg_body m)) in
  match m with
  | MReq r => MReq (mkRequest (Req_Method r) (Req_Uri r) (Req_Proto r) h b)
  | MResp r => MResp (mkResponse (StatusCode r) (Reason r) (Resp_Proto r) h b)
  end.

Lemma msg_headers_framed m : msg_headers (framed m) = framed_headers (msg_headers m) (msg_body m).
Proof. by destruct m. Qed.

Lemma render_framed m :
  render m = StartLine m ++ CRLF ++ Headers_String (msg_headers (framed m)) ++ CRLF ++ msg_body m.
Proof.
  rewrite msg_headers_framed. unfold render, framed_headers. destruct (0 <? length (msg_body m)) eqn:Hb.
  - destruct (Headers_Get _ _); [done|].
    assert (header_line (HContentLength (Z.of_nat (length (msg_body m)))) =
            "Content-Length: " ++ Itoa (Z.of_nat (length (msg_body m))) ++ CRLF) as E.
    { unfold header_line, Itoa. cbn [Header_Name Header_Value]. unfold ContentLength_Value.
      assert ((Z.of_nat (length (msg_body m)) <? 0)%Z = false) as -> by (apply Z.ltb_ge; lia). done. }
    unfold Headers_String. rewrite map_app, concat_app. cbn [map concat]. rewrite app_nil_r, E.
    by rewrite <-!app_assoc.
  - apply Nat.ltb_ge in Hb. destruct (msg_body m); [done|simpl in Hb; lia].
Qed.

(** Every Content-Length of the message is the length of its body. *)
Definition lengths_agree (h : Headers) (n : Z) : bool :=
  forallb (λ h, match h with HContentLength m => (m =? n)%Z | _ => true end) h.

Definition wf_start_line (m : Message) : bool :=
  match m with
  | MReq r =>
    wf_method (Req_Method r) && free ":"%char (Req_Method r) && negb (HasPrefix (Req_Method r) "SIP/")
    && match Req_Uri r with Some u => wf_uri u | None => false end
    && (Req_Proto r != []) && nospace (Req_Proto r)
  | MResp r =>
    HasPrefix (Resp_Proto r) "SIP/" && nospace (Resp_Proto r) && free ":"%char (Resp_Proto r)
    && (Reason r != []) && all line_byte (Reason r)
  end.

Definition msg_valid (m : Message) : bool :=
  match m with MReq r => is_ok (Request_Validate r) | MResp r => is_ok (Response_Validate r) end.

Definition wf_message (m : Message) : bool :=
  wf_start_line m && msg_valid m
  && forallb wf_header (msg_headers (framed m))
  && (length (msg_headers (framed m)) <=? maxHeaderLines)
  && lengths_agree (msg_headers m) (Z.of_nat (length (msg_body m)))
  && (Z.of_nat (length (msg_body m)) <=? MaxBodySize)%Z
  && (Z.of_nat (length (render m)) <=? MaxMessageSize)%Z.

Lemma lengths_agree_last cl h n :
  lengths_agree h n → last_length cl h = cl ∧ (∀ k, HContentLength k ∉ h) ∨ last_length cl h = n.
Proof.
  revert cl. induction h as [|x h IH]; intros cl H; [left; set_solver|].
  cbn [lengths_agree forallb] in H. apply andb_True in H as [Hx H].
  unfold last_length in *. cbn [fold_left].
  destruct (IH (match x with HContentLength n => n | _ => cl end) H) as [[-> Hn]|]; [|by right].
  destruct x; try (left; split; [done|]; intros k; specialize (Hn k); set_solver).
  right. by apply Z.eqb_eq, Is_true_true.
Qed.

(** A well-formed Content-Length header is a typed one. *)
Lemma length_typed h : wf_header_data h → Header_Name h = "Content-Length" → ∃ k, h = HContentLength k.
Proof.
  intros H Hn. destruct h; cbn [Header_Name wf_header_data] in *; try done; subst; bool_hyps;
    try (by eexists); exfalso.
  - match goal with H : ¬ _ |- _ => apply H; apply (bool_decide_unpack _); by_compute end.
  - rewrite Hn in H. not_member H.
  - not_member H.
Qed.

Lemma Get_length_typed h x :
  forallb wf_header h → Headers_Get h "Content-Length" = Some x → ∃ k, x = HContentLength k.
Proof.
  intros H Hg. apply Headers_Get_name in Hg as [Hn Hx].
  apply Forall_forallb in H. eapply Forall_forall in H; [|exact Hx].
  unfold wf_header, wf_header_text in H. bool_hyps. apply length_typed; [done|].
  by match goal with H : cname x = Header_Name x |- _ => rewrite <-H end.
Qed.

Lemma nospace_line s : nospace s → all line_byte s.
Proof. intros H. solve_class. Qed.

Lemma framed_length d h body :
  forallb wf_header (framed_headers h body) → lengths_agree h (Z.of_nat (length body)) →
  last_length d (framed_headers h body) = Z.of_nat (length body) ∨
  last_length d (framed_headers h body) = d ∧ length body = 0.
Proof.
  unfold framed_headers. intros Hwf Ha. destruct (lengths_agree_last d h _ Ha) as [[Hl Hn]|Hl].
  - destruct (0 <? length body) eqn:Hb; [|apply Nat.ltb_ge in Hb; right; split; [done|lia]].
    destruct (Headers_Get h "Content-Length") as [x|] eqn:Hg.
    + destruct (Get_length_typed h x Hwf Hg) as [k ->]. apply Headers_Get_name in Hg as [_ Hg].
      by destruct (Hn k).
    + left. unfold last_length. by rewrite fold_left_app.
  - left. destruct (0 <? length body); [|done].
    destruct (Headers_Get h "Content-Length"); [done|]. unfold last_length. by rewrite fold_left_app.
Qed.

(** A message whose headers are lines of text.  What arrives has each of them read
    back, and the body. *)
Definition text_message (m : Message) : bool :=
  wf_start_line m && msg_valid m
  && forallb wf_header_text (msg_headers (framed m))
  && (length (msg_headers (framed m)) <=? maxHeaderLines)
  && (Z.max 0 (last_length (-1) (map retype (msg_headers (framed m)))) =? Z.of_nat (length (msg_body m)))%Z
  && (Z.of_nat (length (msg_body m)) <=? MaxBodySize)%Z
  && (Z.of_nat (length (render m)) <=? MaxMessageSize)%Z.

Definition received_request (r : Request) : Request :=
  mkRequest (Req_Method r) (Req_Uri r) (Req_Proto r) (map retype (msg_headers (framed (MReq r))))
    (clone_body (Some (msg_body (MReq r)))).
Definition received_response (r : Response) : Response :=
  mkResponse (StatusCode r) (Reason r) (Resp_Proto r) (map retype (msg_headers (framed (MResp r))))
    (clone_body (Some (msg_body (MResp r)))).
Definition received (m : Message) : Message :=
  match m with MReq r => MReq (received_request r) | MResp r => MResp (received_response r) end.

Lemma retype_id hs : forallb wf_header hs → map retype hs = hs.
Proof.
  intros H. apply Forall_forallb in H. induction H as [|h hs Hh Hhs IH]; [done|]. cbn [map]. rewrite IH.
  unfold wf_header in Hh. bool_hyps. unfold retype. by rewrite newTypedHeader_Value.
Qed.

(** A well-formed message is received as it was sent. *)
Lemma wf_text m : wf_message m → text_message m ∧ received m = framed m.
Proof.
  unfold wf_message. intros H. bool_hyps. unfold text_message, received, received_request, received_response.
  assert (map retype (msg_headers (framed m)) = msg_headers (framed m)) as Hid by by apply retype_id.
  rewrite Hid. split; [|destruct m; by rewrite Hid].
  rewrite !andb_True. split_and!; try done.
  - match goal with H : Is_true (forallb _ _) |- _ => apply Forall_forallb in H; apply Forall_forallb; revert H end.
    intros Hw. eapply Forall_impl; [exact Hw|]. intros h Hh. unfold wf_header in Hh. by bool_hyps.
  - rewrite msg_headers_framed in *. apply Is_true_true, Z.eqb_eq.
    destruct (framed_length (-1) (msg_headers m) (msg_body m)) as [E|[E E']]; [done..| |]; rewrite E; lia.
Qed.

Lemma parseHeaderBlock_text m :
  text_message m →
  parseHeaderBlock (Headers_String (msg_headers (framed m)) ++ CRLF ++ msg_body m)
  = Ok (map retype (msg_headers (framed m)), clone_body (Some (msg_body m))).
Proof.
  unfold text_message. intros H. bool_hyps.
  set (hs := msg_headers (framed m)) in *. set (body := msg_body m) in *.
  unfold parseHeaderBlock.
  match goal with H : Is_true (length hs <=? _) |- _ => apply Is_true_true, Nat.leb_le in H; rename H into Hlen end.
  rewrite (header_loop_mono (length hs + 1) header_fuel _ _ ltac:(unfold header_fuel; lia)
             (header_loop_lines hs (mkBlock _ [] (-1) 0) body 0 ltac:(done) Hlen eq_refl)).
  rewrite result_bind_Ok. unfold read_body. cbn [contentLength b_reader b_headers app].
  match goal with H : Is_true (Z.max 0 _ =? _)%Z |- _ => apply Is_true_true, Z.eqb_eq in H; rewrite H end.
  assert ((MaxBodySize <? Z.of_nat (length body))%Z = false) as ->.
  { apply Z.ltb_ge, Z.leb_le, Is_true_true. done. }
  rewrite Nat2Z.id. destruct body as [|c body']; [done|].
  rewrite Nat.ltb_irrefl, take_ge by lia. done.
Qed.

Lemma check_required_retype h l : check_required (map retype h) l = check_required h l.
Proof.
  induction l as [|[n e] l IH]; cbn [check_required]; [done|].
  rewrite Headers_Get_retype. by destruct (Headers_Get h n).
Qed.

Lemma check_required_app h x l : is_ok (check_required h l) → check_required (h ++ [x]) l = Ok ().
Proof.
  induction l as [|[n e] l IH]; cbn [check_required]; [done|].
  rewrite Headers_Get_app. by destruct (Headers_Get h n).
Qed.

Lemma check_required_ok h l : is_ok (check_required h l) → check_required h l = Ok ().
Proof. by destruct (check_required h l) as [[]|]. Qed.

Lemma check_required_framed h b l :
  is_ok (check_required h l) → check_required (framed_headers h b) l = Ok ().
Proof.
  intros H. unfold framed_headers. destruct (0 <? length b); [|by apply check_required_ok].
  destruct (Headers_Get h "Content-Length"); [by apply check_required_ok|by apply check_required_app].
Qed.

Lemma msg_valid_received m : msg_valid m → msg_valid (received m).
Proof.
  unfold received, received_request, received_response.
  destruct m as [r|r]; cbn [msg_valid]; rewrite msg_headers_framed; cbn [msg_headers msg_body];
    [unfold Request_Validate|unfold Response_Validate];
    cbn [Req_Method Req_Uri Req_headers StatusCode Resp_headers]; intros H.
  - destruct (Req_Method r == []); [done|]. destruct (Req_Uri r) as [u|]; [|done].
    destruct (Uri_Host u == []); [done|]. by rewrite check_required_retype, check_required_framed.
  - destruct (_ || _); [done|]. by rewrite check_required_retype, check_required_framed.
Qed.

Lemma in_int_small z : (-1000 ≤ z ≤ 1000)%Z → in_int z.
Proof. intros H. apply Is_true_true. unfold in_int, min_int, max_int. lia. Qed.

Lemma status_digits r : is_ok (Response_Validate r) → (100 ≤ StatusCode r ≤ 699)%Z.
Proof.
  unfold Response_Validate. intros H. destruct (StatusCode r <? 100)%Z eqn:H1; [done|].
  destruct (699 <? StatusCode r)%Z eqn:H2; [done|]. lia.
Qed.

Lemma uri_nospace u : wf_uri u → nospace (uri_String u).
Proof. intros H. apply (all_impl _ _ _ (uri_String_text u H)). class. Qed.

(** A rendered URI starts with the first letter of its scheme. *)
Lemma uri_first u : wf_uri u → ∃ c s, uri_String u = c :: s ∧ is_space c = false ∧ c ≠ ":"%char.
Proof.
  unfold wf_uri. intros H. bool_hyps.
  match goal with H : _ ∈ schemes |- _ => unfold schemes in H; rewrite !elem_of_cons in H; rename H into Hs end.
  unfold uri_String. destruct Hs as [->|[->|[->|Hs]]]; [..|by apply not_elem_of_nil in Hs];
    (eexists _, _; split; [reflexivity|by split]).
Qed.

Lemma start_line_bytes m : text_message m → all line_byte (StartLine m).
Proof.
  unfold text_message. intros H. bool_hyps. destruct m as [r|r]; cbn [wf_start_line StartLine] in *; bool_hyps.
  - destruct (Req_Uri r) as [u|]; [|done]. cbn [Uri_String].
    destruct (wf_method_facts (Req_Method r)) as (_ & Hm & _); [done|].
    split_all; try done; try (by apply nospace_line). by apply nospace_line, uri_nospace.
  - assert (Is_true (nospace (Itoa (StatusCode r)))).
    { apply digits_nospace, Itoa_nonneg_digits. pose proof (status_digits r). cbn [msg_valid] in *. intuition lia. }
    split_all; try done; by apply nospace_line.
Qed.

Lemma HasPrefix_space m t p : free SP p → HasPrefix (m ++ SP :: t) p = true → HasPrefix m p = true.
Proof.
  revert m. induction p as [|c p IH]; intros m Hp; [by destruct m|]. split_all.
  destruct m as [|d m]; cbn [app HasPrefix]; intros E; apply andb_true_iff in E as [Ed E].
  - apply bool_decide_eq_true in Ed as <-. done.
  - rewrite Ed. simpl. by apply IH.
Qed.

Lemma parseRequest_text r reader :
  let m := MReq r in
  text_message m → parseHeaderBlock reader = Ok (map retype (msg_headers (framed m)), clone_body (Some (msg_body m))) →
  parseRequest (StartLine m) reader = Ok (received m).
Proof.
  intros m Hm Hb. assert (Is_true (msg_valid (received m))) as Hv.
  { apply msg_valid_received. unfold text_message in Hm. by bool_hyps. }
  unfold text_message in Hm. bool_hyps. clear -H Hb Hv. unfold m in *. cbn [wf_start_line StartLine] in *.
  bool_hyps. destruct (Req_Uri r) as [u|] eqn:Hu; [|done].
  destruct (wf_method_facts (Req_Method r)) as (Hne & Hns & Hup); [done|].
  destruct (uri_first u) as (c & s & Hus & _); [done|].
  unfold parseRequest. cbn [Uri_String app lit String.list_ascii_of_string].
  rewrite Fields_cons by done. rewrite Fields_cons, Fields_single; [|done|done|by apply uri_nospace|by rewrite Hus|done].
  rewrite ParseUri_uri_String by done. cbn [wrap_err]. rewrite result_bind_Ok, Hb, result_bind_Ok, Hup.
  cbn [msg_valid received msg_headers msg_body] in *. unfold received_request in *. rewrite Hu in *.
  by destruct (Request_Validate _) as [[]|].
Qed.

Lemma parseResponse_text r reader :
  let m := MResp r in
  text_message m → parseHeaderBlock reader = Ok (map retype (msg_headers (framed m)), clone_body (Some (msg_body m))) →
  parseResponse (StartLine m) reader = Ok (received m).
Proof.
  intros m Hm Hb. assert (Is_true (msg_valid (received m))) as Hv.
  { apply msg_valid_received. unfold text_message in Hm. by bool_hyps. }
  unfold text_message in Hm. bool_hyps. unfold m in *. cbn [wf_start_line StartLine msg_valid] in *.
  bool_hyps. pose proof (status_digits r ltac:(done)) as Hcode.
  assert (Is_true (nospace (Itoa (StatusCode r)))) by (apply digits_nospace, Itoa_nonneg_digits; lia).
  unfold parseResponse. cbn [app lit String.list_ascii_of_string].
  rewrite !SplitN_cons by solve_class. cbn [SplitN].
  rewrite Atoi_Itoa by (apply in_int_small; lia).
  cbn [wrap_err]. rewrite result_bind_Ok, Hb, result_bind_Ok.
  unfold NewResponse. cbn [StatusCode Reason]. rewrite bool_decide_false by done.
  cbn [msg_valid received] in *. unfold received_response in *.
  destruct (Response_Validate (mkResponse _ _ _ _ _)) as [[]|]; done.
Qed.

Lemma start_line_first m : text_message m → ∃ c s, StartLine m = c :: s.
Proof.
  unfold text_message. intros H. bool_hyps. destruct m as [r|r]; cbn [wf_start_line StartLine] in *; bool_hyps.
  - destruct (Req_Method r); [|by eauto]. by simpl; eauto.
  - destruct (Resp_Proto r); simpl; by eauto.
Qed.

Lemma request_line_not_sip r : text_message (MReq r) → HasPrefix (StartLine (MReq r)) "SIP/" = false.
Proof.
  unfold text_message. intros H. bool_hyps. cbn [wf_start_line StartLine] in *. bool_hyps.
  apply not_true_is_false. intros E. apply HasPrefix_space in E; [|done].
  match goal with H : ¬ Is_true (HasPrefix _ _) |- _ => apply H; by rewrite E end.
Qed.

Lemma HasPrefix_app_l s p t : HasPrefix s p = true → HasPrefix (s ++ t) p = true.
Proof. intros H. apply HasPrefix_true in H. rewrite H, <-app_assoc. apply HasPrefix_app. Qed.

Lemma response_line_sip r : text_message (MResp r) → HasPrefix (StartLine (MResp r)) "SIP/" = true.
Proof.
  unfold text_message. intros H. bool_hyps. cbn [wf_start_line StartLine] in *. bool_hyps.
  apply HasPrefix_app_l. by apply Is_true_true.
Qed.

Lemma render_length m : text_message m → 8 ≤ length (render m).
Proof.
  intros Hm. rewrite render_framed, !length_app. cbn [length CRLF].
  assert (4 ≤ length (StartLine m)); [|lia]. unfold text_message in Hm. bool_hyps.
  destruct m as [r|r]; cbn [wf_start_line StartLine] in *; bool_hyps; rewrite !length_app.
  - destruct (Req_Uri r) as [u|]; [|done]. destruct (uri_first u) as (c & s & Hu & _); [done|].
    cbn [Uri_String]. rewrite Hu. destruct (Req_Method r), (Req_Proto r); try done.
    cbn [length lit String.list_ascii_of_string]. lia.
  - match goal with H : Is_true (HasPrefix _ _) |- _ => apply Is_true_true, HasPrefix_true in H; rewrite H end.
    rewrite length_app. cbn [length lit String.list_ascii_of_string]. lia.
Qed.

Lemma ParseMessage_text m : text_message m → ParseMessage (render m) = Ok (received m).
Proof.
  intros Hm. pose proof (start_line_bytes m Hm) as Hl. pose proof (parseHeaderBlock_text m Hm) as Hb.
  assert (8 ≤ length (render m)) as H8 by (by apply render_length).
  pose proof Hm as Hwf. unfold text_message in Hwf. bool_hyps.
  match goal with H : Is_true (Z.of_nat (length (render m)) <=? _)%Z |- _ => apply Is_true_true, Z.leb_le in H end.
  unfold ParseMessage. assert ((length (render m) <? 8) = false) as -> by (by apply Nat.ltb_ge).
  assert ((MaxMessageSize <? Z.of_nat (length (render m)))%Z = false) as -> by (by apply Z.ltb_ge).
  rewrite render_framed, ReadString_line, TrimRight_line by done.
  destruct (start_line_first m Hm) as (c & s & Hs).
  rewrite bool_decide_false by (by rewrite Hs).
  destruct m as [r|r].
  - rewrite (request_line_not_sip r) by done. by apply parseRequest_text.
  - rewrite response_line_sip by done. by apply parseResponse_text.
Qed.

Lemma ParseMessage_render m : wf_message m → ParseMessage (render m) = Ok (framed m).
Proof. intros Hm. destruct (wf_text m Hm) as [Ht <-]. by apply ParseMessage_text. Qed.
