(* ===== verification/Injection.v ===== *)
(** * What is parsed renders on one line

    A relaying element parses a message and renders it again.  Whatever bytes
    came in, no header of the parsed message renders a line break, so rendering
    cannot create headers that were not parsed. *)

From S2P Require Import Prelude GoStrings Params Uri Headers HeadersMap Message Parser.

Implicit Types (P : ascii → bool) (s : str).

(** ** String functions keep a byte class *)

Lemma all_take P n s : all P s → all P (take n s).
Proof. intros H. rewrite <-(take_drop n s), all_app in H. by apply andb_True in H as [? _]. Qed.

Lemma all_drop P n s : all P s → all P (drop n s).
Proof. intros H. rewrite <-(take_drop n s), all_app in H. by apply andb_True in H as [_ ?]. Qed.

Lemma all_unquote P s : P DQUOTE → all P s → all P (unquote s).
Proof.
  intros HP H. unfold unquote. destruct (_ && _); [|done].
  apply all_ReplaceAll; [by split_all; simpl; rewrite ?andb_True|]. by apply all_take, all_drop.
Qed.

Lemma all_Cut P s c a b f : all P s → Cut s c = (a, b, f) → all P a ∧ all P b.
Proof.
  intros H. destruct f; intros E.
  - apply Cut_true in E as [-> _]. by split_all.
  - apply Cut_false in E as (-> & -> & _). done.
Qed.

Lemma all_SplitN P s c n : all P s → Forall (λ x, Is_true (all P x)) (SplitN s c n).
Proof.
  revert s. induction n as [|n IH]; intros s H; [constructor|]. destruct n as [|n]; [by repeat constructor|].
  change (SplitN s c (S (S n))) with
    (match Cut s c with (a, b, true) => a :: SplitN b c (S n) | (_, _, false) => [s] end).
  destruct (Cut s c) as [[a b] []] eqn:E; [|by repeat constructor].
  destruct (all_Cut P _ _ _ _ _ H E). constructor; [done|]. by apply IH.
Qed.

Lemma all_fields_go P cur s : all P cur → all P s → Forall (λ x, Is_true (all P x)) (fields_go cur s).
Proof.
  revert cur. induction s as [|c s IH]; simpl; intros cur Hc H; [by case_test; repeat constructor|].
  split_all. destruct (is_space c); [case_test; repeat constructor; try done; by apply IH|].
  apply IH; [|done]. rewrite all_app. simpl. by rewrite !andb_True.
Qed.

Lemma all_Fields P s : all P s → Forall (λ x, Is_true (all P x)) (Fields s).
Proof. by apply all_fields_go. Qed.

Lemma all_snoc P cur c : all P cur → P c → all P (cur ++ [c]).
Proof. intros. rewrite all_app. simpl. by rewrite !andb_True. Qed.

Create HintDb bytes.
#[export] Hint Resolve all_take all_drop all_TrimSpace all_unquote all_snoc : bytes.

(** ** Addresses *)

Lemma all_splitAddrList P d q e cur s :
  all P cur → all P s → Forall (λ x, Is_true (all P x)) (splitAddrList_go d q e cur s).
Proof.
  revert d q e cur. induction s as [|c s IH]; cbn [splitAddrList_go]; intros d q e cur Hc H.
  - repeat constructor. by apply all_TrimSpace.
  - split_all. repeat match goal with |- context [if ?b then _ else _] => destruct b end;
      try (apply IH; auto with bytes; fail).
    constructor; [auto with bytes|by apply IH].
Qed.

Lemma safe_line s : all safe_byte s → all line_byte s.
Proof. intros H. solve_class. Qed.

Lemma text_line s : all uri_text s → all line_byte s.
Proof. intros H. solve_class. Qed.

Lemma ParseAddress_line s a : all line_byte s → ParseAddress s = Ok a → all line_byte (Address_String a).
Proof.
  intros Hs H. assert (Is_true (all line_byte (DisplayName a))) as Hd.
  { unfold ParseAddress in H. destruct (IndexByte _ "<") as [i|].
    - destruct (LastIndexByte _ ">") as [e|]; [|done]. destruct (e <=? i); [done|].
      apply result_bind_inv in H as (u & _ & H). apply result_bind_inv in H as (ps & _ & [= <-]).
      cbn [DisplayName]. auto 10 with bytes.
    - apply result_bind_inv in H as (u & _ & [= <-]). done. }
  unfold Address_String. split_all; try done.
  - unfold render_display. destruct (DisplayName a != []); [|done].
    split_all; [|done]. destruct (_ || _); [|done].
    split_all; [done| |done]. by apply all_ReplaceAll.
  - destruct (Address_Uri a) as [u|]; cbn [Uri_String]; [|done]. apply safe_line, uri_String_safe.
  - apply safe_line, Params_String_safe.
Qed.

Lemma ParseNameAddrList_line s l :
  all line_byte s → ParseNameAddrList s = Ok l → all line_byte (NameAddrList_Value l).
Proof.
  intros Hs H. unfold ParseNameAddrList in H. destruct (_ == _); [by simplify_eq|].
  apply result_bind_inv in H as (al & Hal & H). destruct (length al =? 0); [done|]. simplify_eq.
  unfold NameAddrList_Value. cbn [Addresses].
  assert (Forall (λ x, Is_true (all line_byte x)) (splitAddrList (TrimSpace s))) as Hp
    by (apply all_splitAddrList; auto with bytes).
  apply all_Join; [done|]. revert al Hal. induction Hp as [|p parts Hp Hps IH]; intros al Hal.
  - by simplify_eq/=.
  - cbn [parse_addresses] in Hal. apply result_bind_inv in Hal as (a & Ha & Hal).
    apply result_bind_inv in Hal as (l & Hl & [= <-]). constructor; [|by apply IH].
    by eapply ParseAddress_line.
Qed.

(** ** Via, CSeq, authentication *)

Lemma digits_line s : all is_digit s → all line_byte s.
Proof. intros H. solve_class. Qed.

Lemma port_line port : all line_byte (render_port port).
Proof. apply (all_impl _ _ _ (render_port_digits port)). class. Qed.

Lemma via_host_port_line s h port : all line_byte s → via_host_port s = Ok (h, port) → all line_byte h.
Proof.
  intros Hs. unfold via_host_port. destruct (HasPrefix s "[").
  - destruct (IndexByte s "]") as [e|]; [|done]. destruct (_ && _).
    + intros H. apply result_bind_inv in H as (p & _ & [= <- <-]). by apply all_take.
    + intros [= <- <-]. by apply all_take.
  - destruct (LastIndexByte s ":") as [i|].
    + intros H. apply result_bind_inv in H as (p & _ & [= <- <-]). by apply all_take.
    + by intros [= <- <-].
Qed.

Lemma ParseVia_line s v : all line_byte s → ParseVia s = Ok v → all line_byte (Via_Value v).
Proof.
  intros Hs H. assert (all line_byte (Via_Proto v) ∧ all line_byte (Via_Host v)) as [Hp Hh].
  { unfold ParseVia in H. destruct (existsb _ _); [done|].
    pose proof (all_SplitN line_byte (TrimSpace s) " " 2 ltac:(auto with bytes)) as Hparts.
    destruct (SplitN (TrimSpace s) " " 2) as [|p [|r []]]; try done.
    apply Forall_cons in Hparts as [Hp Hparts]. apply Forall_cons in Hparts as [Hr _].
    assert (∀ q ps x, all line_byte x → all line_byte q → parseHostPort q ps x = Ok v →
                      all line_byte (Via_Proto v) ∧ all line_byte (Via_Host v)) as Hgo.
    { unfold parseHostPort. intros q ps x Hx Hq E. apply result_bind_inv in E as ([h port] & Hhp & [= <-]).
      cbn [Via_Proto Via_Host]. split; [exact Hq|]. by apply (via_host_port_line x h port). }
    destruct (IndexByte _ ";") as [i|].
    - apply result_bind_inv in H as (ps & _ & H). eapply Hgo; [| |exact H]; auto 10 with bytes.
    - eapply Hgo; [| |exact H]; auto 10 with bytes. }
  unfold Via_Value. split_all; try done; [apply port_line|apply safe_line, Params_String_safe].
Qed.

Lemma ToUpper_line s : all line_byte s → all line_byte (ToUpper s).
Proof.
  intros H. apply Forall_forallb, Forall_map. apply Forall_forallb in H.
  eapply Forall_impl; [exact H|]. class.
Qed.

Lemma ParseCSeq_line s c : all line_byte s → ParseCSeq s = Ok c → all line_byte (CSeq_Value c).
Proof.
  intros Hs H. unfold ParseCSeq in H. pose proof (all_Fields line_byte s Hs) as Hf.
  destruct (Fields s) as [|f0 [|f1 []]]; try done. apply result_bind_inv in H as (n & _ & [= <-]).
  apply Forall_cons in Hf as [_ Hf]. apply Forall_cons in Hf as [Hf _].
  unfold CSeq_Value. cbn [Seq CSeq_Method]. split_all; try done; [apply digits_line, FormatUint_digits|by apply ToUpper_line].
Qed.

(** The texts an [Auth] renders. *)
Definition auth_line (a : Auth) : bool :=
  all line_byte (Auth_Scheme a) && all line_byte (Username a) && all line_byte (Realm a)
  && all line_byte (Nonce a) && all line_byte (URI a) && all line_byte (Response_ a)
  && all line_byte (Cnonce a) && all line_byte (Nc a) && all line_byte (Qop a)
  && all line_byte (Algorithm a) && all line_byte (Opaque_ a).

Lemma write_line k v :
  all line_byte k → all line_byte v → all line_byte (writeAuth k v) ∧ all line_byte (writeBare k v).
Proof. intros Hk Hv. unfold writeAuth, writeBare. split; case_test; simpl negb; cbv iota; split_all; done. Qed.

Lemma auth_line_Value a : auth_line a → all line_byte (Auth_Value a).
Proof.
  unfold auth_line, Auth_Value. intros H. bool_hyps. split_all; try done; by apply write_line.
Qed.

Lemma set_auth_param_line a k v : auth_line a → all line_byte v → auth_line (set_auth_param a k v).
Proof.
  destruct a. unfold auth_line, set_auth_param. cbn. intros H Hv. bool_hyps.
  repeat match goal with |- context [if ?b then _ else _] => destruct b end;
    cbn; rewrite !andb_True; by split_and!.
Qed.

Lemma parse_auth_params_line a parts :
  auth_line a → Forall (λ x, Is_true (all line_byte x)) parts → auth_line (parse_auth_params a parts).
Proof.
  intros Ha Hp. revert a Ha. induction Hp as [|p parts Hp Hps IH]; intros a Ha; cbn [parse_auth_params]; [done|].
  destruct (Cut p "=") as [[k v] found] eqn:E. destruct (all_Cut _ _ _ _ _ _ Hp E) as [Hk Hv].
  destruct found; cbn [negb]; [|by apply IH]. apply IH. apply set_auth_param_line; auto 10 with bytes.
Qed.

Lemma all_splitAuthParams P q e cur s :
  all P cur → all P s → Forall (λ x, Is_true (all P x)) (splitAuthParams_go q e cur s).
Proof.
  revert q e cur. induction s as [|c s IH]; cbn [splitAuthParams_go]; intros q e cur Hc H.
  - repeat constructor. by apply all_TrimSpace.
  - split_all. repeat match goal with |- context [if ?b then _ else _] => destruct b end;
      try (apply IH; auto with bytes; fail).
    constructor; [auto with bytes|by apply IH].
Qed.

Lemma ParseAuth_line s : all line_byte s → all line_byte (Auth_Value (ParseAuth s)).
Proof.
  intros Hs. apply auth_line_Value. unfold ParseAuth. destruct (IndexAny _ _) as [i|].
  - apply parse_auth_params_line.
    + unfold auth_line. cbn. rewrite !andb_True. split_and!; auto with bytes.
    + apply all_splitAuthParams; auto with bytes.
  - unfold auth_line. cbn. rewrite !andb_True. split_and!; auto with bytes.
Qed.

(** ** Every parsed header *)

Lemma line_lower s : all line_byte (ToLower s) ↔ all line_byte s.
Proof.
  unfold all, ToLower. rewrite !Forall_forallb, Forall_map.
  split; intros H; (eapply Forall_impl; [exact H|]); class.
Qed.

Lemma CanonicalName_line s : all line_byte s → all line_byte (CanonicalName s).
Proof.
  intros H. rewrite CanonicalName_unfold. destruct (assoc _ _) as [v|] eqn:Ha.
  - apply assoc_elem in Ha. assert (forallb (λ kv, all line_byte kv.2) shortToLong) as Hall by by_compute.
    apply Forall_forallb in Hall. by eapply Forall_forall in Hall; [|exact Ha].
  - change (default ?x None) with x. apply (proj1 (line_lower _)). rewrite lower_dashed. apply line_lower. auto with bytes.
Qed.

Lemma Itoa_line z : all line_byte (Itoa z).
Proof.
  unfold Itoa. destruct (z <? 0)%Z; split_all; try done; apply digits_line, FormatUint_digits.
Qed.

(** A header under its canonical name, whose name and value hold no line break. *)
Definition parsed_header (h : Header) : Prop :=
  cname h = Header_Name h ∧ all line_byte (Header_Name h) ∧ all line_byte (Header_Value h).

Lemma newTypedHeader_line n s : all line_byte s → all line_byte (Header_Value (newTypedHeader n s)).
Proof.
  intros Hs. unfold newTypedHeader. repeat case_test; subst; try done;
    try match goal with |- context [match ?r with Ok _ => _ | Err _ => _ end] => destruct r eqn:Hr end;
    cbn [Header_Value]; try done.
  - by eapply ParseVia_line.
  - exact (ParseNameAddrList_line s _ Hs Hr).
  - by eapply ParseCSeq_line.
  - apply digits_line, FormatUint_digits.
  - apply Itoa_line.
  - by apply ParseAuth_line.
Qed.

(** The state of the header loop: as many headers as lines at most, and the
    last Content-Length read. *)
Definition block_ok (b : block) : Prop :=
  Forall parsed_header (b_headers b) ∧ length (b_headers b) ≤ headerCount b ∧
  headerCount b ≤ maxHeaderLines ∧ contentLength b = last_length (-1) (b_headers b).

Lemma all_trim_right P p s : all P s → all P (trim_right p s).
Proof. intros H. by apply all_rev, all_trim_left, all_rev. Qed.

(** The line [ReadString] returns holds no LF once its end is trimmed. *)
Lemma ReadString_LF r line rest f : ReadString r = (line, rest, f) → free LF (TrimRight line CRLF).
Proof.
  unfold ReadString, TrimRight. destruct (IndexByte r LF) as [i|] eqn:Hi; intros [= <- <- <-].
  - apply IndexByte_Some in Hi as (a & b & -> & <- & Ha).
    rewrite cons_middle, app_assoc, take_app_length' by (rewrite length_app; simpl; lia).
    rewrite trim_right_app by done. by apply all_trim_right.
  - apply IndexByte_None in Hi. by apply all_trim_right.
Qed.

Lemma line_byte_intro s : free LF s → ContainsByte s CR = false → all line_byte s.
Proof.
  intros HLF HCR. apply all_intro. intros c Hc. apply (proj1 (free_elem LF s)) in HLF.
  assert (CR ∉ s) as HCR'.
  { intros E. apply mem_elem in E. unfold ContainsByte in HCR. by rewrite HCR in E. }
  unfold line_byte. apply negb_True. intros E. apply mem_elem in E.
  unfold CRLF in E. rewrite !elem_of_cons in E. destruct E as [->|[->|E]]; [done..|by apply not_elem_of_nil in E].
Qed.

Lemma last_length_snoc cl h x :
  last_length cl (h ++ [x]) = match x with HContentLength n => n | _ => last_length cl h end.
Proof. unfold last_length. by rewrite fold_left_app. Qed.

Lemma setHeaderValue_ok h s : parsed_header h → all line_byte s → parsed_header (setHeaderValue h s).
Proof.
  intros (Hn & Hk & Hv) Hs. destruct h; try by split_and!.
  split_and!; [exact Hn|exact Hk|]. cbn [setHeaderValue Header_Value] in *. by split_all.
Qed.

Lemma setHeaderValue_length cl h s :
  match setHeaderValue h s with HContentLength n => n | _ => cl end =
  match h with HContentLength n => n | _ => cl end.
Proof. by destruct h. Qed.

Lemma block_ok_continue b rest prev s :
  block_ok b → headerCount b < maxHeaderLines → last (b_headers b) = Some prev → all line_byte s →
  block_ok (mkBlock rest (removelast (b_headers b) ++ [setHeaderValue prev s]) (contentLength b) (S (headerCount b))).
Proof.
  intros (Hh & Hlen & _ & Hcl) Hc Hprev Hs. apply last_Some in Hprev as [hs Hprev]. rewrite Hprev in *.
  rewrite removelast_last. apply Forall_app in Hh as [Hh Hp]. apply Forall_cons in Hp as [Hp _].
  rewrite length_app in Hlen. cbn [length] in Hlen. split; [|split; [|split]]; cbn [b_headers headerCount contentLength].
  - apply Forall_app. split; [done|]. apply Forall_singleton. by apply setHeaderValue_ok.
  - rewrite length_app. cbn [length]. lia.
  - lia.
  - by rewrite Hcl, !last_length_snoc, setHeaderValue_length.
Qed.

Lemma block_ok_add b rest name s :
  block_ok b → headerCount b < maxHeaderLines → all line_byte name → all line_byte s →
  let hdr := newTypedHeader (CanonicalName (TrimSpace name)) (TrimSpace s) in
  block_ok (mkBlock rest (Headers_Add (b_headers b) hdr)
              (match hdr with HContentLength n => n | _ => contentLength b end) (S (headerCount b))).
Proof.
  intros (Hh & Hlen & _ & Hcl) Hc Hn Hs hdr. split; [|split; [|split]]; cbn [b_headers headerCount contentLength]; unfold Headers_Add.
  - apply Forall_app. split; [done|]. apply Forall_singleton. unfold parsed_header, cname, hdr.
    rewrite newTypedHeader_name. split_and!; [apply CanonicalName_idem|apply CanonicalName_line|apply newTypedHeader_line];
      auto with bytes.
  - rewrite length_app. cbn [length]. lia.
  - lia.
  - by rewrite last_length_snoc, Hcl.
Qed.

Lemma header_step_ok b b' :
  block_ok b → header_step b = Ok (inl b') ∨ header_step b = Ok (inr b') → block_ok b'.
Proof.
  intros Hb. unfold header_step.
  destruct (ReadString (b_reader b)) as [[line rest] found] eqn:Hr. apply ReadString_LF in Hr.
  destruct (negb found && _); [by intros []|]. destruct (ContainsByte _ _) eqn:HCR; [by intros []|].
  pose proof (line_byte_intro _ Hr HCR) as Hl. clear Hr HCR. set (l := TrimRight line CRLF) in *.
  destruct (maxHeaderLineLen <? _)%Z; [by intros []|]. destruct (l == []).
  { intros [|]; simplify_eq. done. }
  destruct (maxHeaderLines <? S (headerCount b)) eqn:Hcount; [by intros []|]. apply Nat.ltb_ge in Hcount.
  destruct (_ || _).
  - destruct (last (b_headers b)) as [prev|] eqn:Hprev; [|by intros []]. intros [|]; simplify_eq.
    apply block_ok_continue; auto with bytes.
  - destruct (Cut l ":") as [[name value] fnd] eqn:HCut. destruct (all_Cut _ _ _ _ _ _ Hl HCut).
    destruct fnd; cbn [negb]; [|by intros []]. intros [|]; simplify_eq. by apply block_ok_add.
Qed.

Lemma header_loop_ok fuel b b' : block_ok b → header_loop fuel b = Some (Ok b') → block_ok b'.
Proof.
  revert b. induction fuel as [|f IH]; intros b Hb; cbn [header_loop]; [done|].
  destruct (header_step b) as [[b1|b1]|e] eqn:Hs; [| |done].
  - apply IH. eapply header_step_ok; eauto.
  - intros [= <-]. eapply header_step_ok; eauto.
Qed.

(** What the header block of a parsed message satisfies. *)
Definition block_result (hs : Headers) (body : option str) : Prop :=
  Forall parsed_header hs ∧ length hs ≤ maxHeaderLines ∧
  Z.of_nat (length (default [] body)) = Z.max 0 (last_length (-1) hs) ∧
  (Z.of_nat (length (default [] body)) ≤ MaxBodySize)%Z.

Lemma parseHeaderBlock_ok r hs body : parseHeaderBlock r = Ok (hs, body) → block_result hs body.
Proof.
  unfold parseHeaderBlock. destruct (header_loop _ _) as [[b|e]|] eqn:Hl; [|done..].
  apply header_loop_ok in Hl as (Hh & Hlen & Hc & Hcl); cycle 1.
  { split_and!; [constructor|cbn; lia|cbn; lia|done]. }
  rewrite result_bind_Ok. unfold read_body. destruct (MaxBodySize <? _)%Z eqn:Hmax; [done|]. apply Z.ltb_ge in Hmax.
  rewrite Hcl in *. destruct (0 <? _)%Z eqn:Hpos.
  - destruct (length _ <? _) eqn:Hshort; [done|]. apply Nat.ltb_ge in Hshort. intros [= <- <-].
    split_and!; cbn [default]; rewrite ?length_take; [done|lia|simpl; rewrite length_take; lia..].
  - apply Z.ltb_ge in Hpos. intros [= <- <-]. split_and!; simpl; [done|lia..].
Qed.

(** ** Every parsed message *)

Definition body_of (m : Message) : option str :=
  match m with MReq r => Req_body r | MResp r => Resp_body r end.

(** A request's start line is one line; a response's reason may keep a bare CR,
    which only the header block refuses. *)
Definition start_line_ok (m : Message) : bool :=
  if IsRequest m then all line_byte (StartLine m) else free LF (StartLine m).

Lemma DefaultReason_line c : all line_byte (DefaultReason c).
Proof.
  unfold DefaultReason. repeat match goal with |- context [if ?b then _ else _] => destruct b; [done|] end. done.
Qed.

Lemma line_LF s : all line_byte s → free LF s.
Proof. intros H. solve_class. Qed.

Lemma parseRequest_ok line r m :
  parseRequest line r = Ok m → msg_valid m ∧ block_result (msg_headers m) (body_of m) ∧ start_line_ok m.
Proof.
  unfold parseRequest. pose proof (λ f, Fields_nospace line f) as Hf.
  destruct (Fields line) as [|me [|u [|p []]]]; try done. intros H.
  apply result_bind_inv in H as (uri & _ & H). apply result_bind_inv in H as ([hs body] & Hb & H).
  apply result_bind_inv in H as ([] & Hv & [= <-]). split_and!; [exact (proj2 (Is_true_true _) (f_equal is_ok Hv))|by apply parseHeaderBlock_ok in Hb|].
  unfold start_line_ok. cbn [IsRequest StartLine Req_Method Req_Uri Req_Proto Uri_String].
  split_all; try done.
  - apply ToUpper_line, nospace_line. by apply Hf; left.
  - apply safe_line, uri_String_safe.
  - apply nospace_line. apply Hf. by right; right; left.
Qed.

Lemma parseResponse_ok line r m :
  free LF line →
  parseResponse line r = Ok m → msg_valid m ∧ block_result (msg_headers m) (body_of m) ∧ start_line_ok m.
Proof.
  unfold parseResponse. intros Hline. pose proof (all_SplitN _ line " " 3 Hline) as Hf.
  destruct (SplitN line " " 3) as [|p [|c fs]]; [done..|]. intros H.
  apply Forall_cons in Hf as [Hp Hf]. apply Forall_cons in Hf as [_ Hf].
  apply result_bind_inv in H as (code & _ & H). apply result_bind_inv in H as ([hs body] & Hb & H).
  apply result_bind_inv in H as ([] & Hv & [= <-]). split_and!; [exact (proj2 (Is_true_true _) (f_equal is_ok Hv))|by apply parseHeaderBlock_ok in Hb|].
  unfold start_line_ok. cbn [IsRequest StartLine Resp_Proto StatusCode Reason NewResponse].
  split_all; try done; [apply line_LF, Itoa_line|].
  case_test; [apply line_LF, DefaultReason_line|].
  destruct fs as [|x []]; [done| |done]. by apply Forall_cons in Hf as [Hf _].
Qed.

Lemma ParseMessage_ok data m :
  ParseMessage data = Ok m → msg_valid m ∧ block_result (msg_headers m) (body_of m) ∧ start_line_ok m.
Proof.
  unfold ParseMessage. destruct (length data <? 8); [done|]. destruct (MaxMessageSize <? _)%Z; [done|].
  destruct (ReadString data) as [[line rest] f] eqn:Hr. apply ReadString_LF in Hr.
  destruct (TrimRight line CRLF == []); [done|]. destruct (HasPrefix _ _);
    [by apply parseResponse_ok|by apply parseRequest_ok].
Qed.
