(* ===== verification/Stream.v ===== *)
(** * [parser.go]: StreamSplitter, framing a TCP stream

    [splitOne] cuts one message off the front of the buffer; [Feed] appends a
    chunk and cuts until nothing complete is left.  Slicing out of range panics,
    and a message of no bytes keeps [Feed] going round: the loop has fuel, and
    [None] says it has not returned within it. *)

From S2P Require Import Prelude GoStrings Params Uri Headers HeadersMap Message Parser.

Definition CRLF2 : str := CRLF ++ CRLF.

(** The loop over the lines of the head: the last Content-Length, or an error. *)
Fixpoint head_length (cl : Z) (lines : list str) : result Z :=
  match lines with
  | [] => Ok cl
  | line :: lines' =>
    let '(name, value, found) := Cut line ":" in
    if negb found then head_length cl lines'
    else if CanonicalName name == "Content-Length" then
      match Atoi (TrimSpace value) with
      | Ok n => head_length n lines'
      | Err _ => Err ErrParse
      end
    else head_length cl lines'
  end.

(** [(msg, rest, ok, err)]: [Ok None] when [ok] is false, with the data as rest. *)
Definition splitOne (data : str) : outcome (result (option (str * str))) :=
  match Index data CRLF2 with
  | None => Ret (Ok None)
  | Some i =>
    let head := take (i + 4) data in
    match head_length 0 (Split head CRLF) with
    | Err e => Ret (Err e)
    | Ok cl =>
      let total := (Z.of_nat (i + 4) + cl)%Z in
      if (MaxBodySize <? cl)%Z then Ret (Err ErrParse)
      else if (Z.of_nat (length data) <? total)%Z then Ret (Ok None)
      else if (total <? 0)%Z then Panic
      else Ret (Ok (Some (take (Z.to_nat total) data, drop (Z.to_nat total) data)))
    end
  end.

(** What a call of [Feed] leaves: the buffer, the messages, the error. *)
Record fed := mkFed { f_buf : str; f_out : list str; f_err : option GoError }.

Fixpoint feed_loop (fuel : nat) (buf : str) (out : list str) : option (outcome fed) :=
  match fuel with
  | 0 => None
  | S f =>
    match splitOne buf with
    | Panic => Some Panic
    | Ret (Err e) => Some (Ret (mkFed buf out (Some e)))
    | Ret (Ok None) => Some (Ret (mkFed buf out None))
    | Ret (Ok (Some (msg, rest))) => feed_loop f rest (out ++ [msg])
    end
  end.

Definition Feed (fuel : nat) (buf data : str) : option (outcome fed) :=
  if (MaxMessageSize <? Z.of_nat (length buf + length data))%Z then Some (Ret (mkFed [] [] (Some ErrParse)))
  else feed_loop fuel (buf ++ data) [].

(** A connection's reads, one [Feed] each, until an error. *)
Fixpoint feed_all (fuel : nat) (buf : str) (chunks : list str) : option (outcome fed) :=
  match chunks with
  | [] => Some (Ret (mkFed buf [] None))
  | c :: chunks' =>
    match Feed fuel buf c with
    | Some (Ret (mkFed buf' out None)) =>
      match feed_all fuel buf' chunks' with
      | Some (Ret r) => Some (Ret (mkFed (f_buf r) (out ++ f_out r) (f_err r)))
      | r => r
      end
    | r => r
    end
  end.

Example feed_ex :
  let m := "A: b" ++ CRLF ++ "l: 3" ++ CRLF2 ++ "xyz" in
  feed_all 10 [] [take 7 (m ++ m); drop 7 (m ++ m) ++ "A:"] = Some (Ret (mkFed (lit "A:") [m; m] None)).
Proof. by_compute. Qed.

(** A negative Content-Length is read as it stands: the message of no bytes is
    cut off for ever, or the slice bounds are out of range. *)
Example feed_negative fuel out : feed_loop fuel ("l: -9" ++ CRLF2) out = None.
Proof. revert out. induction fuel as [|f IH]; intros out; [done|]. exact (IH _). Qed.

Example feed_panic : Feed 1 [] ("l: -11" ++ CRLF2) = Some Panic.
Proof. by_compute. Qed.

(** ** Cutting is stable under more data *)

Lemma HasPrefix_iff s p : HasPrefix s p = true ↔ ∃ t, s = p ++ t.
Proof.
  split; [intros H; apply HasPrefix_true in H; by exists (drop (length p) s)|].
  intros [t ->]. apply HasPrefix_app.
Qed.

Lemma Index_Some s p i :
  Index s p = Some i →
  s = take i s ++ p ++ drop (i + length p) s ∧ i + length p ≤ length s ∧
  ∀ j, j < i → HasPrefix (drop j s) p = false.
Proof.
  revert i. induction s as [|c s IH]; intros i; cbn [Index].
  - destruct (HasPrefix [] p) eqn:H; [|done]. apply HasPrefix_iff in H as [t Ht].
    symmetry in Ht. apply app_nil in Ht as [-> ->]. intros [= <-]. split_and!; [done|simpl; lia|lia].
  - destruct (HasPrefix (c :: s) p) eqn:H.
    + intros [= <-]. apply HasPrefix_iff in H as [t Ht]. rewrite Ht. change (0 + length p) with (length p). cbn [take app].
      split_and!; [by rewrite drop_len_app|rewrite length_app; lia|lia].
    + intros [i' [Hi ->]]%fmap_Some. destruct (IH i' Hi) as (Hs & Hlen & Hno).
      split_and!; [simpl; by f_equal|simpl; lia|]. intros [|j] Hj; [done|]. simpl. apply Hno. lia.
Qed.

Lemma Index_app s p t i : Index s p = Some i → Index (s ++ t) p = Some i.
Proof.
  revert i. induction s as [|c s IH]; intros i; cbn [Index].
  - destruct (HasPrefix [] p) eqn:H; [|done]. intros [= <-]. apply HasPrefix_iff in H as [q Hq].
    symmetry in Hq. apply app_nil in Hq as [-> _]. by destruct t.
  - destruct (HasPrefix (c :: s) p) eqn:H.
    + intros [= <-]. apply (HasPrefix_app_l _ _ t) in H. cbn [app Index] in *. by rewrite H.
    + intros [i' [Hi ->]]%fmap_Some. cbn [app Index].
      destruct (HasPrefix (c :: s ++ t) p) eqn:H'; [|by rewrite (IH i' Hi)].
      exfalso. apply Index_Some in Hi as (_ & Hlen & _).
      change (c :: s ++ t) with ((c :: s) ++ t) in H'.
      apply HasPrefix_iff in H' as [q Hq].
      assert (HasPrefix (c :: s) p = true); [|congruence].
      apply HasPrefix_iff. exists (drop (length p) (c :: s)).
      apply (f_equal (take (length p))) in Hq. rewrite take_app_length, take_app_le in Hq by (simpl; lia).
      rewrite <-Hq at 1. symmetry. apply take_drop.
Qed.

(** Once the head is complete, more data only extends what is left over. *)
Lemma splitOne_app data t :
  splitOne (data ++ t) =
  match splitOne data with
  | Ret (Ok (Some (m, rest))) => Ret (Ok (Some (m, rest ++ t)))
  | Ret (Ok None) => splitOne (data ++ t)
  | r => r
  end.
Proof.
  unfold splitOne at 2. destruct (Index data CRLF2) as [i|] eqn:Hi; [|done].
  unfold splitOne. rewrite (Index_app _ _ t _ Hi). apply Index_Some in Hi as (_ & Hlen & _).
  change (length CRLF2) with 4 in Hlen. rewrite take_app_le by done.
  destruct (head_length 0 _) as [cl|]; [|done]. destruct (MaxBodySize <? cl)%Z; [done|].
  destruct (Z.of_nat (length data) <? Z.of_nat (i + 4) + cl)%Z eqn:Hshort; [done|]. apply Z.ltb_ge in Hshort.
  assert ((Z.of_nat (length (data ++ t)) <? Z.of_nat (i + 4) + cl)%Z = false) as ->.
  { apply Z.ltb_ge. rewrite length_app. lia. }
  destruct (_ <? 0)%Z; [done|]. rewrite take_app_le, drop_app_le by lia. done.
Qed.

Lemma splitOne_concat data m rest : splitOne data = Ret (Ok (Some (m, rest))) → data = m ++ rest.
Proof.
  unfold splitOne. destruct (Index data CRLF2); [|done]. destruct (head_length _ _); [|done].
  destruct (MaxBodySize <? _)%Z; [done|]. destruct (_ <? _)%Z; [done|]. destruct (_ <? 0)%Z; [done|].
  intros [= <- <-]. by rewrite take_drop.
Qed.

(** ** Frames *)

(** One whole message, as the splitter sees it. *)
Definition frame (m : str) : Prop := m ≠ [] ∧ splitOne m = Ret (Ok (Some (m, []))).

(** A buffer from which nothing can be cut yet. *)
Definition pending (p : str) : Prop := splitOne p = Ret (Ok None).

Lemma frame_app m t : frame m → splitOne (m ++ t) = Ret (Ok (Some (m, t))).
Proof. intros [_ H]. by rewrite splitOne_app, H. Qed.

Lemma frame_prefix p t : frame (p ++ t) → t ≠ [] → pending p.
Proof.
  intros [_ H] Ht. rewrite splitOne_app in H. unfold pending.
  destruct (splitOne p) as [[[[m rest]|]|e]|]; try done. injection H as _ H.
  by apply app_nil in H as [_ H].
Qed.

Lemma feed_loop_frames fuel ms p out :
  Forall frame ms → pending p → length ms < fuel →
  feed_loop fuel (concat ms ++ p) out = Some (Ret (mkFed p (out ++ ms) None)).
Proof.
  intros Hms Hp. revert fuel out. induction Hms as [|m ms Hm Hms IH]; intros fuel out Hf;
    destruct fuel as [|f]; try (simpl in Hf; lia); cbn [feed_loop].
  - cbn [concat app]. rewrite Hp. by rewrite app_nil_r.
  - cbn [concat]. rewrite <-app_assoc, (frame_app m) by done.
    rewrite IH by (simpl in Hf; lia). by rewrite <-app_assoc.
Qed.

Lemma pending_prefix p t : pending (p ++ t) → pending p.
Proof. unfold pending. rewrite splitOne_app. by destruct (splitOne p) as [[[[m rest]|]|e]|]. Qed.

(** Where a byte stream of frames is cut: whole frames, and the start of one. *)
Lemma prefix_frames B ms q x y :
  Forall frame ms → Forall (λ m, length m ≤ B) ms → pending q → length q ≤ B → x ++ y = concat ms ++ q →
  ∃ ms1 ms2 p, ms = ms1 ++ ms2 ∧ x = concat ms1 ++ p ∧ p ++ y = concat ms2 ++ q ∧ pending p ∧ length p ≤ B.
Proof.
  intros Hms HB Hq HqB. revert x HB. induction Hms as [|m ms Hm Hms IH]; intros x HB H.
  - cbn in H. subst q. exists [], [], x. split_and!; try done; [by eapply pending_prefix|].
    rewrite length_app in HqB. lia.
  - apply Forall_cons in HB as [HmB HB]. cbn [concat] in H. rewrite <-app_assoc in H.
    destruct (app_eq_inv _ _ _ _ H) as [(k & -> & Hk)|(k & -> & ->)].
    + destruct (IH k HB (eq_sym Hk)) as (ms1 & ms2 & p & -> & -> & Hp & Hpend & HpB).
      exists (m :: ms1), ms2, p. split_and!; try done. cbn [concat]. by rewrite app_assoc.
    + destruct k as [|c k].
      * rewrite app_nil_r in *. exists [x], ms, []. split_and!; try done; simpl; [by rewrite !app_nil_r|lia].
      * exists [], ((x ++ c :: k) :: ms), x. split_and!; try done.
        -- cbn [concat]. by rewrite <-!app_assoc.
        -- by apply (frame_prefix _ (c :: k)).
        -- rewrite length_app in HmB. lia.
Qed.

(** However the bytes of a stream of messages are cut into reads, the messages
    come out whole, once each and in order, and what is no message yet is left over. *)
Lemma feed_all_frames fuel B chunks buf ms q :
  Forall frame ms → Forall (λ m, length m ≤ B) ms → pending q → length q ≤ B → pending buf → length buf ≤ B →
  Forall (λ c, (Z.of_nat (B + length c) ≤ MaxMessageSize)%Z) chunks → length ms < fuel →
  buf ++ concat chunks = concat ms ++ q →
  feed_all fuel buf chunks = Some (Ret (mkFed q ms None)).
Proof.
  intros Hms HB Hq HqB Hbuf HlB Hch Hf. revert buf ms Hms HB Hbuf HlB Hf.
  induction Hch as [|c chunks Hc Hch IH]; intros buf ms Hms HB Hbuf HlB Hf H; cbn [feed_all concat] in *.
  - rewrite app_nil_r in H. subst buf. destruct Hms as [|m ms Hm Hms]; [done|].
    cbn [concat] in Hbuf. unfold pending in Hbuf. by rewrite <-app_assoc, frame_app in Hbuf.
  - rewrite app_assoc in H.
    destruct (prefix_frames B ms q _ _ Hms HB Hq HqB H) as (ms1 & ms2 & p & -> & Hx & Hp & Hpend & HpB).
    apply Forall_app in Hms as [Hms1 Hms2]. apply Forall_app in HB as [HB1 HB2]. rewrite length_app in Hf.
    unfold Feed. assert ((MaxMessageSize <? Z.of_nat (length buf + length c))%Z = false) as ->.
    { apply Z.ltb_ge. lia. }
    rewrite Hx, feed_loop_frames by (done || lia). cbn [app].
    rewrite (IH p ms2) by (done || lia). done.
Qed.

(** What the splitter cuts without an error is made of frames, as long as each
    message holds its whole head (a negative length may end one inside it). *)
Lemma splitOne_frame data m rest :
  splitOne data = Ret (Ok (Some (m, rest))) → Index m CRLF2 ≠ None → frame m.
Proof.
  intros Hs Hi. pose proof (splitOne_concat _ _ _ Hs) as ->. split; [by intros ->|].
  destruct (Index m CRLF2) as [i|] eqn:Em; [|done]. clear Hi.
  unfold splitOne in *. rewrite Em. rewrite (Index_app _ _ rest _ Em) in Hs. apply Index_Some in Em as (_ & Hlen & _).
  change (length CRLF2) with 4 in Hlen. rewrite take_app_le in Hs by done.
  destruct (head_length 0 _) as [cl|]; [|done]. destruct (MaxBodySize <? cl)%Z; [done|].
  set (total := (Z.of_nat (i + 4) + cl)%Z) in *. destruct (_ <? total)%Z eqn:Hshort in Hs; [done|].
  apply Z.ltb_ge in Hshort. rewrite length_app in Hshort. destruct (total <? 0)%Z; [done|]. injection Hs as Ht _.
  assert (Z.to_nat total = length m) as Hl.
  { apply (f_equal length) in Ht. rewrite length_take, length_app in Ht. lia. }
  assert ((Z.of_nat (length m) <? total)%Z = false) as -> by (apply Z.ltb_ge; lia).
  by rewrite Hl, take_ge, drop_ge by done.
Qed.

Lemma feed_loop_out fuel s out0 q out :
  feed_loop fuel s out0 = Some (Ret (mkFed q out None)) →
  ∃ ms, out = out0 ++ ms ∧ s = concat ms ++ q ∧ pending q ∧ (Forall (λ m, Index m CRLF2 ≠ None) ms → Forall frame ms).
Proof.
  revert s out0. induction fuel as [|f IH]; intros s out0; [done|]. cbn [feed_loop].
  destruct (splitOne s) as [[[[m rest]|]|e]|] eqn:Hs; try done.
  - intros (ms & -> & -> & Hq & Hms)%IH. exists (m :: ms). rewrite <-app_assoc. split_and!; [done| |done|].
    + cbn [concat]. rewrite <-app_assoc. by eapply splitOne_concat.
    + intros [Hm Hms']%Forall_cons. constructor; [by eapply splitOne_frame|by apply Hms].
  - intros [= <- <-]. exists []. by rewrite app_nil_r.
Qed.

(** [Feed] returns within one round per byte, unless a message of no bytes is
    cut off its buffer. *)
Lemma feed_loop_stuck fuel buf out :
  length buf < fuel → feed_loop fuel buf out = None →
  ∃ a b, buf = a ++ b ∧ splitOne b = Ret (Ok (Some ([], b))).
Proof.
  revert buf out. induction fuel as [|f IH]; intros buf out Hf; [lia|]. cbn [feed_loop].
  destruct (splitOne buf) as [[[[m rest]|]|e]|] eqn:Hs; try done. intros H.
  pose proof (splitOne_concat _ _ _ Hs) as ->. destruct m as [|c m]; [by exists [], rest|].
  destruct (IH rest (out ++ [c :: m])) as (a & b & -> & Hb); [simpl in Hf; rewrite length_app in Hf; lia|done|].
  exists ((c :: m) ++ a), b. by rewrite app_assoc.
Qed.

(** ** What [render] writes is a frame *)

Lemma Index_cons_no c s p : HasPrefix (c :: s) p = false → Index (c :: s) p = S <$> Index s p.
Proof. cbn [Index]. by intros ->. Qed.

Lemma line_byte_CR c : line_byte c → c ≠ CR.
Proof. intros H ->. by vm_compute in H. Qed.

(** Within a line the separator cannot start. *)
Lemma Index_line l t : all line_byte l → Index (l ++ t) CRLF2 = (λ i, length l + i) <$> Index t CRLF2.
Proof.
  induction l as [|c l IH]; intros H; [by cbn [app]; destruct (Index t CRLF2)|]. split_all. cbn [app].
  rewrite Index_cons_no, IH; [by destruct (Index t CRLF2)|done|].
  cbn [HasPrefix CRLF2 CRLF app]. rewrite bool_decide_false; [done|]. by apply line_byte_CR.
Qed.

Lemma Index_break c t : c ≠ CR → Index (CRLF ++ c :: t) CRLF2 = (λ i, 2 + i) <$> Index (c :: t) CRLF2.
Proof.
  intros Hc. change (CRLF ++ c :: t) with (CR :: LF :: c :: t).
  rewrite !Index_cons_no; [by destruct (Index t CRLF2)|..];
    cbn [HasPrefix CRLF2 CRLF app]; rewrite ?(bool_decide_false (c = CR)) by done; by rewrite ?andb_false_r.
Qed.

(** Lines between single line breaks, then a blank line. *)
Lemma Index_lines l ls t :
  all line_byte l → Forall (λ l, l ≠ [] ∧ Is_true (all line_byte l)) ls →
  Index (Join (l :: ls) CRLF ++ CRLF2 ++ t) CRLF2 = Some (length (Join (l :: ls) CRLF)).
Proof.
  intros Hl Hls. revert l Hl. induction Hls as [|l' ls [Hne Hl'] Hls IH]; intros l Hl.
  - cbn [Join]. rewrite Index_line by done. simpl. by rewrite Nat.add_0_r.
  - change (Join (l :: l' :: ls) CRLF) with (l ++ CRLF ++ Join (l' :: ls) CRLF).
    rewrite <-!app_assoc, Index_line by done. specialize (IH l' Hl').
    destruct (Join (l' :: ls) CRLF ++ CRLF2 ++ t) as [|c s] eqn:Hs.
    { by destruct l', ls. }
    rewrite Index_break, IH; [simpl; rewrite !length_app; f_equal; simpl; lia|].
    apply line_byte_CR. destruct l' as [|d l']; [done|]. split_all. by destruct ls; simplify_eq/=.
Qed.

Lemma split_line cur l t :
  all line_byte l → split_go CRLF 0 cur (l ++ CRLF ++ t) = (cur ++ l) :: split_go CRLF 0 [] t.
Proof.
  revert cur. induction l as [|c l IH]; intros cur H; [by rewrite app_nil_r|]. split_all.
  cbn [app split_go]. cbn [HasPrefix CRLF]. rewrite bool_decide_false by by apply line_byte_CR.
  cbn [andb]. rewrite IH by done. by rewrite <-app_assoc.
Qed.

Lemma Split_lines ls :
  Forall (λ l, Is_true (all line_byte l)) ls →
  Split (concat (map (λ l, l ++ CRLF) ls) ++ CRLF) CRLF = ls ++ [[]; []].
Proof.
  unfold Split. induction 1 as [|l ls Hl Hls IH]; [done|]. cbn [map concat].
  rewrite <-!app_assoc, split_line by done. by rewrite IH.
Qed.

(** A rendered header without its line break. *)
Definition header_text (h : Header) : str := Header_Name h ++ ":"%char :: " "%char :: Header_Value h.

Lemma Join_CRLF (l : str) ls : concat (map (λ l, l ++ CRLF) (l :: ls)) = Join (l :: ls) CRLF ++ CRLF.
Proof.
  revert l. induction ls as [|l' ls IH]; intros l; [by cbn; rewrite app_nil_r|].
  change (Join (l :: l' :: ls) CRLF) with (l ++ CRLF ++ Join (l' :: ls) CRLF).
  cbn [map concat]. specialize (IH l'). cbn [map concat] in IH. by rewrite IH, <-!app_assoc.
Qed.

Lemma render_lines m :
  let ls := StartLine m :: map header_text (msg_headers (framed m)) in
  render m = Join ls CRLF ++ CRLF2 ++ msg_body m ∧
  Join ls CRLF ++ CRLF2 = concat (map (λ l, l ++ CRLF) ls) ++ CRLF.
Proof.
  intros ls. assert (Join ls CRLF ++ CRLF2 = concat (map (λ l, l ++ CRLF) ls) ++ CRLF) as E.
  { unfold ls. by rewrite Join_CRLF, <-app_assoc. }
  split; [|done]. rewrite app_assoc, E, render_framed. unfold ls. cbn [map concat].
  rewrite map_map. unfold Headers_String. rewrite (map_ext header_line (λ h, header_text h ++ CRLF)) by apply header_line_eq.
  by rewrite <-!app_assoc.
Qed.

Lemma wf_header_text_line h : wf_header h → header_text h ≠ [] ∧ all line_byte (header_text h).
Proof.
  unfold wf_header, wf_header_text, header_text. intros H. bool_hyps.
  split; [by destruct (Header_Name h)|]. split_all; done.
Qed.

(** The splitter reads a rendered header the way the parser does. *)
Lemma head_length_header cl h ls :
  wf_header h → head_length cl (header_text h :: ls) = head_length (last_length cl [h]) ls.
Proof.
  intros Hh. pose proof Hh as Hwf. unfold wf_header, wf_header_text in Hwf. bool_hyps.
  cbn [head_length]. unfold header_text. rewrite Cut_app by done. cbn [negb].
  match goal with H : cname h = _ |- _ => unfold cname in H; rewrite H end.
  case_bool_decide as Hn.
  - destruct (length_typed h) as [k ->]; [done..|]. cbn [wf_header_data Header_Value] in *.
    replace (TrimSpace (" "%char :: ContentLength_Value k)) with (Itoa k); cycle 1.
    { symmetry. replace (ContentLength_Value k) with (Itoa k).
      - pose proof (TrimSpace_pad [" "%char] (Itoa k) []) as E. rewrite app_nil_r in E. apply E; [done..|].
        apply trimmed_nospace, digits_nospace, Itoa_nonneg_digits. num_hyps. lia.
      - unfold Itoa. destruct (k <? 0)%Z eqn:E; [|done]. num_hyps. lia. }
    rewrite Atoi_Itoa; [done|]. apply Is_true_true. unfold in_int, min_int, max_int. num_hyps. lia.
  - destruct h; first [reflexivity|by destruct Hn].
Qed.

Lemma head_length_headers cl hs :
  forallb wf_header hs → head_length cl (map header_text hs ++ [[]; []]) = Ok (last_length cl hs).
Proof.
  revert cl. induction hs as [|h hs IH]; intros cl H; [done|].
  cbn [forallb] in H. apply andb_True in H as [Hh H]. cbn [map app].
  rewrite head_length_header, IH by done. done.
Qed.

(** ** The start line is not read as a header *)

(** Outer spaces apart, a space stays. *)
Lemma TrimSpace_inner a c b :
  nospace a → a ≠ [] → is_space c = false → SP ∈ TrimSpace (a ++ SP :: c :: b).
Proof.
  intros Ha Hne Hc. unfold TrimSpace. destruct a as [|d a]; [done|]. split_all. cbn [app].
  rewrite trim_left_cons by by destruct (is_space d).
  destruct (trim_right_prefix is_space (d :: a ++ SP :: c :: b)) as (t & Ht & Hsp).
  set (u := trim_right is_space (d :: a ++ SP :: c :: b)) in *.
  change (d :: a ++ SP :: c :: b) with ((d :: a) ++ SP :: c :: b) in Ht.
  destruct (app_eq_inv _ _ _ _ Ht) as [(k & _ & ->)|(k & Hu & Hk)].
  - split_all. by rewrite Hc in *.
  - rewrite Hu. destruct k as [|e k]; simplify_eq/=; [|set_solver].
    split_all. by rewrite Hc in *.
Qed.

Lemma content_length_nospace s : CanonicalName s = "Content-Length" → SP ∉ TrimSpace s.
Proof.
  rewrite CanonicalName_unfold. destruct (assoc _ _) as [v|] eqn:Ha; cbn [default]; intros E HSP.
  - apply assoc_elem in Ha.
    assert (forallb (λ e, free SP e.1) shortToLong) as Hall by by_compute.
    apply Forall_forallb in Hall. eapply Forall_forall in Hall; [|exact Ha]. cbn in Hall.
    apply free_elem in Hall. apply Hall. by apply (list_elem_of_fmap_2 lower_byte _ SP) in HSP.
  - apply (f_equal ToLower) in E. change (from_option ?f ?x None) with x in E. rewrite lower_dashed in E.
    apply (list_elem_of_fmap_2 lower_byte _ SP) in HSP. change (lower_byte SP) with SP in HSP.
    change (lower_byte <$> TrimSpace s) with (ToLower (TrimSpace s)) in HSP. rewrite E in HSP.
    revert HSP. apply free_elem. by_compute.
Qed.

Lemma digit_facts c : is_digit c → is_space c = false ∧ c ≠ ":"%char.
Proof. intros H. split; [revert H|intros ->; by vm_compute in H]. by all_bytes c. Qed.

(** A start line: one word without a colon, a space, and more text. *)
Lemma start_line_shape m :
  wf_message m → ∃ a c b, StartLine m = a ++ SP :: c :: b ∧ nospace a ∧ a ≠ [] ∧ free ":"%char a ∧
                          is_space c = false ∧ c ≠ ":"%char.
Proof.
  unfold wf_message. intros H. bool_hyps. destruct m as [r|r]; cbn [wf_start_line StartLine msg_valid] in *; bool_hyps.
  - destruct (Req_Uri r) as [u|]; [|done]. destruct (uri_first u) as (c & s & Hu & Hc & Hcol); [done|].
    destruct (wf_method_facts (Req_Method r)) as (Hne & Hns & _); [done|].
    cbn [Uri_String]. rewrite Hu. by exists (Req_Method r), c, (s ++ " " ++ Req_Proto r).
  - pose proof (status_digits r ltac:(done)) as Hcode.
    pose proof (Itoa_nonneg_digits (StatusCode r) ltac:(lia)) as Hd.
    destruct (Itoa (StatusCode r)) as [|c s] eqn:Hi; [by apply Itoa_nonnil in Hi|]. split_all.
    exists (Resp_Proto r), c, (s ++ " " ++ Reason r). split_and!; try done.
    + intros E. match goal with H : Is_true (HasPrefix _ _) |- _ => by rewrite E in H end.
    + by apply digit_facts.
    + by apply digit_facts.
Qed.

Lemma start_line_skipped m cl ls :
  wf_message m → head_length cl (StartLine m :: ls) = head_length cl ls.
Proof.
  intros Hm. cbn [head_length]. destruct (Cut (StartLine m) ":") as [[name value] found] eqn:HCut.
  destruct found; cbn [negb]; [|done]. rewrite bool_decide_false; [done|]. intros Hn.
  apply content_length_nospace in Hn. apply Hn. clear Hn.
  apply Cut_true in HCut as [Hs Hname].
  destruct (start_line_shape m Hm) as (a & c & b & E & Ha & Hne & Hcol & Hc & Hcc). rewrite E in Hs.
  change (SP :: c :: b) with ([SP; c] ++ b) in Hs. rewrite app_assoc in Hs.
  assert (∃ k, name = a ++ SP :: c :: k) as [k ->]; [|by apply TrimSpace_inner].
  destruct (app_eq_inv _ _ _ _ Hs) as [(k & Hk & Hv)|(k & -> & Hv)].
  - destruct k as [|d k]; [exists []; by rewrite app_nil_r in Hk|]. exfalso. simplify_eq/=.
    assert (":"%char ∈ a ++ [SP; c]) as Hin by (rewrite Hk; set_solver).
    apply elem_of_app in Hin as [Hin|Hin]; [by apply free_elem in Hcol|]. set_solver.
  - exists k. by rewrite <-app_assoc.
Qed.

(** A rendered message is one frame: the splitter and the parser agree on where
    it ends. *)
Lemma frame_render m : wf_message m → frame (render m).
Proof.
  intros Hm. split; [by intros E; pose proof (render_length m (proj1 (wf_text m Hm))) as H; rewrite E in H; simpl in H; lia|].
  destruct (render_lines m) as [Hr Hhead]. set (ls := StartLine m :: _) in *.
  pose proof (start_line_bytes m (proj1 (wf_text m Hm))) as Hsl. pose proof Hm as Hwf. unfold wf_message in Hwf. num_hyps.
  set (hs := msg_headers (framed m)) in *.
  assert (Forall (λ l, l ≠ [] ∧ Is_true (all line_byte l)) (map header_text hs)) as Hls.
  { apply Forall_map. match goal with H : Is_true (forallb wf_header hs) |- _ => apply Forall_forallb in H; rename H into Hh end.
    eapply Forall_impl; [exact Hh|]. apply wf_header_text_line. }
  pose proof (Index_lines (StartLine m) (map header_text hs) (msg_body m) Hsl Hls) as Hi. fold ls in Hi.
  unfold splitOne. rewrite Hr, Hi.
  assert (take (length (Join ls CRLF) + 4) (Join ls CRLF ++ CRLF2 ++ msg_body m) = Join ls CRLF ++ CRLF2) as ->.
  { rewrite app_assoc. apply take_app_length'. rewrite length_app. done. }
  rewrite Hhead, Split_lines; cycle 1.
  { constructor; [done|]. eapply Forall_impl; [exact Hls|]. by intros ? [_ ?]. }
  unfold ls. cbn [app]. rewrite start_line_skipped, head_length_headers by done. fold ls.
  assert (last_length 0 hs = Z.of_nat (length (msg_body m))) as ->.
  { unfold hs in *. rewrite msg_headers_framed in *.
    destruct (framed_length 0 (msg_headers m) (msg_body m)) as [E|[E E']]; [done..| |]; rewrite E; lia. }
  rewrite !length_app. change (length CRLF2) with 4.
  assert ((MaxBodySize <? Z.of_nat (length (msg_body m)))%Z = false) as -> by (apply Z.ltb_ge; lia).
  match goal with |- context [(?x <? ?y)%Z] => assert ((x <? y)%Z = false) as -> by (apply Z.ltb_ge; lia) end.
  match goal with |- context [(?x <? 0)%Z] => assert ((x <? 0)%Z = false) as -> by (apply Z.ltb_ge; lia) end.
  rewrite take_ge, drop_ge by (rewrite !length_app; change (length CRLF2) with 4; lia). done.
Qed.

(** ** End to end *)

(** Messages rendered one after the other on a connection, read in pieces of any
    size, come out one by one and parse to what was sent. *)
Lemma stream_round_trip fuel B chunks ms :
  forallb wf_message ms → Forall (λ m, length (render m) ≤ B) ms →
  Forall (λ c, (Z.of_nat (B + length c) ≤ MaxMessageSize)%Z) chunks → length ms < fuel →
  concat chunks = concat (map render ms) →
  ∃ out, feed_all fuel [] chunks = Some (Ret (mkFed [] out None)) ∧
         map ParseMessage out = map (λ m, Ok (framed m)) ms.
Proof.
  intros Hms HB Hch Hf H. apply Forall_forallb in Hms. exists (map render ms). split.
  - apply (feed_all_frames fuel B); try done; [| |simpl; lia|simpl; lia|by rewrite length_map|by rewrite app_nil_r].
    + apply Forall_map. eapply Forall_impl; [exact Hms|]. apply frame_render.
    + by apply Forall_map.
  - rewrite map_map. apply map_ext_in. intros m Hm. apply ParseMessage_render.
    apply list_elem_of_In in Hm. by eapply Forall_forall in Hms.
Qed.
