(* ===== verification/Net.v ===== *)
(** * [net]: addresses of the Go standard library

    What the source uses of package [net]: [ParseIP] with [Equal], [To4] and
    [IsUnspecified] on its results, and [JoinHostPort].  An [IP] that [ParseIP]
    returns is 16 bytes, an IPv4 address in its mapped form. *)

From S2P Require Import Prelude GoStrings.

Abbreviation IP := (list N).

(** The four fields of a dotted address: no leading zeros, at most 255. *)
Fixpoint ipv4_fields (s : str) (val : N) (digLen : nat) (acc : list N) : option (list N) :=
  match s with
  | [] => if (digLen =? 0) || negb (length acc =? 3) then None else Some (acc ++ [val])
  | c :: s' =>
    if is_digit c then
      if (digLen =? 1) && (val =? 0)%N then None
      else
        let val := (val * 10 + (code c - 48))%N in
        if (255 <? val)%N then None else ipv4_fields s' val (S digLen) acc
    else if c == "."%char then
      if (digLen =? 0) || (length acc =? 3) then None else ipv4_fields s' 0 0 (acc ++ [val])
    else None
  end.

Definition parseIPv4Fields (s : str) : option (list N) := ipv4_fields s 0 0 [].

(** A hexadecimal group: its value, its length and what follows. *)
Fixpoint hex_group (s : str) (acc : N) (off : nat) : option (N * nat * str) :=
  match s with
  | [] => Some (acc, off, [])
  | c :: s' =>
    match digit_val c with
    | Some d => if (d <? 16)%N
                then (if 3 <? off then None else hex_group s' (acc * 16 + d)%N (S off))
                else Some (acc, off, s)
    | None => Some (acc, off, s)
    end
  end.

(** The loop of [parseIPv6] over the groups: the bytes so far, where the
    ellipsis was, and the text; at most eight rounds. *)
Fixpoint ipv6_groups (fuel : nat) (s : str) (ip : list N) (ellipsis : option nat) : option (list N * option nat) :=
  if 16 <=? length ip then (if s == [] then Some (ip, ellipsis) else None)
  else match fuel with
  | 0 => None
  | S f =>
    '(acc, off, rest) ← hex_group s 0 0;
    if off =? 0 then None
    else if head rest == Some "."%char then
      if (ellipsis == None) && negb (length ip =? 12) then None
      else if 16 <? length ip + 4 then None
      else v4 ← parseIPv4Fields s; Some (ip ++ v4, ellipsis)
    else
      let ip := ip ++ [(acc / 256)%N; (acc mod 256)%N] in
      match rest with
      | [] => Some (ip, ellipsis)
      | c :: rest' =>
        if c != ":"%char then None
        else match rest' with
        | [] => None
        | d :: rest'' =>
          if d == ":"%char then
            if negb (ellipsis == None) then None
            else if rest'' == [] then Some (ip, Some (length ip))
            else ipv6_groups f rest'' ip (Some (length ip))
          else ipv6_groups f rest' ip ellipsis
        end
      end
  end.

Definition parseIPv6 (s : str) : option IP :=
  if HasPrefix s "::" && (drop 2 s == []) then Some (replicate 16 0%N)
  else
    let '(s, e) := if HasPrefix s "::" then (drop 2 s, Some 0) else (s, None) in
    '(ip, e) ← ipv6_groups 9 s [] e;
    if length ip <? 16 then
      match e with
      | None => None
      | Some k => Some (take k ip ++ replicate (16 - length ip) 0%N ++ drop k ip)
      end
    else if e == None then Some ip else None.

Definition v4_prefix : list N := replicate 10 0%N ++ [255; 255]%N.

(** The first dot, colon or percent sign decides; a zone is refused. *)
Definition ParseIP (s : str) : option IP :=
  match IndexAny s [":"%char; "."%char; "%"%char] with
  | None => None
  | Some i =>
    if head (drop i s) == Some "."%char then v ← parseIPv4Fields s; Some (v4_prefix ++ v)
    else if head (drop i s) == Some ":"%char then (if ContainsByte s "%" then None else parseIPv6 s)
    else None
  end.

(** The 4-byte form of a mapped IPv4 address; a 4-byte address is itself. *)
Definition To4 (ip : IP) : option IP :=
  if length ip =? 4 then Some ip
  else if (length ip =? 16) && (take 12 ip == v4_prefix) then Some (drop 12 ip)
  else None.

Definition IsUnspecified (ip : IP) : bool :=
  (ip == replicate 16 0%N) || (ip == v4_prefix ++ replicate 4 0%N) || (ip == replicate 4 0%N).

Definition JoinHostPort (host port : str) : str :=
  if ContainsByte host ":" then "["%char :: host ++ "]:" ++ port else host ++ ":"%char :: port.

Example ip_ex1 : ParseIP "192.168.1.10" = Some (v4_prefix ++ [192; 168; 1; 10]%N).
Proof. by_compute. Qed.
Example ip_ex2 : ParseIP "fe80::1:AB" = Some ([254; 128] ++ replicate 10 0 ++ [0; 1; 0; 171])%N.
Proof. by_compute. Qed.
Example ip_ex3 : ParseIP "::ffff:10.0.0.1" = ParseIP "10.0.0.1".
Proof. by_compute. Qed.
Example ip_ex4 : map ParseIP [lit "256.1.1.1"; lit "01.1.1.1"; lit "1.1.1"; lit "a.b"; lit "::1::"; lit "fe80::1%eth0";
                              lit "1:2:3:4:5:6:7:8:9"; lit "12345::"; lit ""; lit ":1"; lit "1:"] = replicate 11 None.
Proof. by_compute. Qed.
Example ip_ex5 : ParseIP "1:2:3:4:5:6:7:8" = Some [0;1;0;2;0;3;0;4;0;5;0;6;0;7;0;8]%N.
Proof. by_compute. Qed.
Example ip_ex6 : map ParseIP [lit "::"; lit "1:2:3:4:5:6:7::"] = [Some (replicate 16 0%N); Some [0;1;0;2;0;3;0;4;0;5;0;6;0;7;0;0]%N].
Proof. by_compute. Qed.

(** ** [ParseIP] is blind to case *)

Lemma digit_val_lower c : digit_val (lower_byte c) = digit_val c.
Proof. by all_bytes c. Qed.

Lemma is_digit_lower c : is_digit (lower_byte c) = is_digit c.
Proof. by all_bytes c. Qed.

Lemma code_digit_lower c : is_digit c → lower_byte c = c.
Proof. by all_bytes c. Qed.

Lemma lower_mark c d : d ∈ [":"%char; "."%char; "%"%char] → (lower_byte c == d) = (c == d).
Proof.
  intros H. rewrite !elem_of_cons in H. destruct H as [->|[->|[->|H]]]; [..|by apply not_elem_of_nil in H];
    by all_bytes c.
Qed.

Lemma ipv4_fields_lower s v n acc : ipv4_fields (ToLower s) v n acc = ipv4_fields s v n acc.
Proof.
  revert v n acc. induction s as [|c s IH]; intros v n acc; [done|]. cbn [ToLower map ipv4_fields].
  rewrite is_digit_lower. destruct (is_digit c) eqn:Hc.
  - rewrite (code_digit_lower c) by by rewrite Hc. fold (ToLower s).
    destruct (_ && _); [done|]. cbv zeta. destruct (255 <? _)%N; [done|]. apply IH.
  - rewrite lower_mark by set_solver. destruct (c == _); [|done]. destruct (_ || _); [done|]. apply IH.
Qed.

Lemma hex_group_lower s acc off :
  hex_group (ToLower s) acc off = (λ '(a, o, r), (a, o, ToLower r)) <$> hex_group s acc off.
Proof.
  revert acc off. induction s as [|c s IH]; intros acc off; [done|]. cbn [ToLower map hex_group].
  rewrite digit_val_lower. destruct (digit_val c) as [d|]; [|done]. destruct (d <? 16)%N; [|done].
  destruct (3 <? off); [done|]. apply IH.
Qed.

Lemma nil_lower s : (ToLower s == []) = (s == []).
Proof. by destruct s. Qed.

Lemma some_eq (c d : ascii) : (Some c == Some d) = (c == d).
Proof. apply bool_decide_ext. naive_solver. Qed.

Lemma head_lower s d : d ∈ [":"%char; "."%char; "%"%char] → (head (ToLower s) == Some d) = (head s == Some d).
Proof.
  intros H. destruct s as [|c s]; [done|]. cbn [ToLower map head]. rewrite !some_eq. by apply lower_mark.
Qed.

Lemma ipv6_groups_lower f s ip e : ipv6_groups f (ToLower s) ip e = ipv6_groups f s ip e.
Proof.
  revert s ip e. induction f as [|f IH]; intros s ip e; cbn [ipv6_groups]; rewrite nil_lower; [done|].
  destruct (16 <=? length ip); [done|]. rewrite hex_group_lower.
  destruct (hex_group s 0 0) as [[[acc off] rest]|]; [|done]. cbn [fmap option_fmap option_map mbind option_bind].
  destruct (off =? 0); [done|]. rewrite head_lower by set_solver.
  destruct (head rest == _).
  - unfold parseIPv4Fields. by rewrite ipv4_fields_lower.
  - destruct rest as [|c rest]; [done|]. cbn [ToLower map]. rewrite lower_mark by set_solver.
    destruct (negb (c == _)); [done|]. destruct rest as [|d rest]; [done|]. cbn [map].
    rewrite lower_mark by set_solver. fold (ToLower rest).
    destruct (d == _); [by rewrite nil_lower, IH|]. change (lower_byte d :: ToLower rest) with (ToLower (d :: rest)). apply IH.
Qed.

Lemma ToLower_drop n s : ToLower (drop n s) = drop n (ToLower s).
Proof. unfold ToLower. symmetry. apply skipn_map. Qed.

Lemma HasPrefix_colons_lower s : HasPrefix (ToLower s) "::" = HasPrefix s "::".
Proof.
  destruct s as [|c [|d s]]; [done|..]; cbn [ToLower map HasPrefix lit String.list_ascii_of_string];
    by rewrite !lower_mark by set_solver.
Qed.

Lemma parseIPv6_lower s : parseIPv6 (ToLower s) = parseIPv6 s.
Proof.
  unfold parseIPv6. rewrite HasPrefix_colons_lower, <-ToLower_drop, nil_lower.
  destruct (HasPrefix s "::"); cbn [andb]; [destruct (drop 2 s == []); [done|]|]; by rewrite ipv6_groups_lower.
Qed.

Lemma find_byte_lower (p : ascii → bool) s :
  (∀ c, p (lower_byte c) = p c) → find_byte p (ToLower s) = find_byte p s.
Proof. intros H. induction s as [|c s IH]; simpl; [done|]. rewrite H. fold (ToLower s). by rewrite IH. Qed.

Lemma ContainsByte_lower s : ContainsByte (ToLower s) "%" = ContainsByte s "%".
Proof.
  unfold ContainsByte, mem. induction s as [|c s IH]; simpl; [done|]. rewrite lower_mark by set_solver.
  fold (ToLower s). by rewrite IH.
Qed.

(** The address text is read without regard to case. *)
#[export] Instance ParseIP_proper : Proper (eq_fold ==> eq) ParseIP.
Proof.
  assert (∀ s, ParseIP (ToLower s) = ParseIP s) as E; [|intros s t H; by rewrite <-(E s), H, E].
  intros s. unfold ParseIP, IndexAny. rewrite find_byte_lower by (intros c; by all_bytes c).
  destruct (find_byte _ s) as [i|]; [|done]. rewrite <-ToLower_drop, !head_lower by set_solver.
  unfold parseIPv4Fields. by rewrite ipv4_fields_lower, ContainsByte_lower, parseIPv6_lower.
Qed.
