(* ===== verification/Transport.v ===== *)
(** * [transport.go]: addresses, network selection, the connection pool

    The sockets themselves are the operating system's: the model takes what they
    return as arguments.  A connection is an identifier into the store of
    connections; the pool maps address keys to identifiers, so two keys can name
    one connection, as two entries of the Go map can. *)

From S2P Require Import Prelude GoStrings Params Uri Headers HeadersMap Message Net.

(** ** Addresses *)

Record Addr := mkAddr { Network : str; Addr_Host : str; Addr_Port : Z }.

#[export] Instance Addr_eq_dec : EqDecision Addr.
Proof. solve_decision. Defined.

Definition Addr_String (a : Addr) : str :=
  Network a ++ ":"%char :: JoinHostPort (Addr_Host a) (Itoa (Addr_Port a)).

Record Packet := mkPacket { Msg : Message; Src : Addr }.

(** The network a [transport] parameter asks for. *)
Definition param_network (dflt : str) (p : option Params) : str :=
  match Params_Get p "transport" with
  | (tp, true) =>
    let tp := ToLower tp in
    if tp == "tcp" then "tcp" else if tp == "tls" then "tls" else if tp == "udp" then "udp" else dflt
  | _ => dflt
  end.

Definition TransportFor (uri : Uri) : str * str * Z :=
  (param_network (if IsEncrypted (Some uri) then "tls" else "udp") (Uri_Params uri),
   Uri_Host uri, EffectivePort (Some uri)).

(** [conn] is [None] for a nil connection and [Some None] for a local address
    without an IP. *)
Definition pickAddrFamily (conn : option (option IP)) (ip : option IP) : option IP :=
  match conn, ip with
  | None, _ | _, None | Some None, _ => ip
  | Some (Some local), Some a =>
    let wants4 := bool_decide (is_Some (To4 local)) in
    let is4 := bool_decide (is_Some (To4 a)) in
    if (wants4 && is4) || (negb wants4 && negb is4) then Some a
    else if negb wants4 && is4 && IsUnspecified local then To4 a
    else None
  end.

(** ** The pool *)

Record Conn := mkConn { remote_ip : str; remote_port : Z; is_tls : bool; closed : bool }.

Definition defaultIdleTimeout : Z := 300 * 10 ^ 9.  (* 5 minutes, in ns *)
Definition defaultMaxTCPConns : nat := 1024.

Record Pool := mkPool {
  TCPIdleTimeout : Z;
  MaxTCPConns : Z;
  tcpConns : gmap str nat;
  connLastUse : gmap str Z;
  inflight : gmap str nat;
  conns : gmap nat Conn;
  done : bool
}.

Definition idleTimeout (p : Pool) : Z :=
  if (0 <? TCPIdleTimeout p)%Z then TCPIdleTimeout p else defaultIdleTimeout.

Definition maxTCPConns (p : Pool) : Z :=
  if (0 <? MaxTCPConns p)%Z then MaxTCPConns p else Z.of_nat defaultMaxTCPConns.

Definition connKey (c : Conn) : str :=
  Addr_String (mkAddr (if is_tls c then "tls" else "tcp") (remote_ip c) (remote_port c)).

Definition with_tables (p : Pool) (t : gmap str nat) (u : gmap str Z) (i : gmap str nat) (cs : gmap nat Conn) : Pool :=
  mkPool (TCPIdleTimeout p) (MaxTCPConns p) t u i cs (done p).

Definition close_conn (c : Conn) : Conn := mkConn (remote_ip c) (remote_port c) (is_tls c) true.

Definition touchConn (p : Pool) (key : str) (now : Z) : Pool :=
  with_tables p (tcpConns p) (<[key := now]> (connLastUse p)) (inflight p) (conns p).

Definition dropConn (p : Pool) (key : str) : Pool :=
  match tcpConns p !! key with
  | Some c => with_tables p (delete key (tcpConns p)) (delete key (connLastUse p)) (inflight p)
                (alter close_conn c (conns p))
  | None => p
  end.

(** The keys a tick of the janitor at [now] removes. *)
Definition expired (p : Pool) (now : Z) (key : str) : bool :=
  match connLastUse p !! key with
  | Some last => (idleTimeout p <? now - last)%Z
  | None => false
  end.

(** The body of the janitor's range loop, for one key of [connLastUse]. *)
Definition janitor_key (now : Z) (p : Pool) (key : str) : Pool :=
  if expired p now key then
    with_tables p (delete key (tcpConns p)) (delete key (connLastUse p)) (inflight p)
      (match tcpConns p !! key with Some c => alter close_conn c (conns p) | None => conns p end)
  else p.

(** One tick: the range loop over the keys, in some order. *)
Definition janitor_tick (now : Z) (keys : list str) (p : Pool) : Pool :=
  fold_left (janitor_key now) keys p.

(** What [readTCP] does before it reads. *)
Definition register (p : Pool) (c : nat) (now : Z) : Pool :=
  match conns p !! c with
  | Some conn => with_tables p (<[connKey conn := c]> (tcpConns p)) (<[connKey conn := now]> (connLastUse p))
                   (inflight p) (conns p)
  | None => p
  end.

(** The test of [acceptStream] on a new connection. *)
Definition accepts (p : Pool) : bool := negb (maxTCPConns p <? Z.of_nat (size (tcpConns p)))%Z.

Inductive lookup_result := Pooled (c : nat) | WaitFor (d : nat) | TooMany | Dial.

(** [getStreamConn] up to the dial; a dial call is named by an identifier. *)
Definition getStreamConn_start (p : Pool) (key : str) (d : nat) : Pool * lookup_result :=
  match tcpConns p !! key with
  | Some c => (p, Pooled c)
  | None =>
    match inflight p !! key with
    | Some d' => (p, WaitFor d')
    | None =>
      if (maxTCPConns p <=? Z.of_nat (size (tcpConns p)))%Z then (p, TooMany)
      else (with_tables p (tcpConns p) (connLastUse p) (<[key := d]> (inflight p)) (conns p), Dial)
    end
  end.

(** [getStreamConn] after the dial, which returned a connection or failed. *)
Definition getStreamConn_finish (p : Pool) (key : str) (r : result nat) (now : Z) : Pool :=
  let i := delete key (inflight p) in
  match r with
  | Ok c => with_tables p (<[key := c]> (tcpConns p)) (<[key := now]> (connLastUse p)) i (conns p)
  | Err _ => with_tables p (tcpConns p) (connLastUse p) i (conns p)
  end.

(** [getStreamConn] after the wait for another call's dial, which had the result
    [r]. *)
Definition getStreamConn_waited (p : Pool) (key : str) (r : result nat) : result nat :=
  match tcpConns p !! key with Some c => Ok c | None => r end.

(** [getStreamConn] whole: the pool, what it returns, and the connection it starts a
    reader for.  [during] is what other goroutines do to the pool while this one
    waits or dials; [waited] is the result of the dial it waits for. *)
Definition getStreamConn (p : Pool) (key : str) (d : nat) (during : Pool → Pool) (waited dialled : result nat) (now : Z)
  : Pool * result nat * option nat :=
  match getStreamConn_start p key d with
  | (p, Pooled c) => (p, Ok c, None)
  | (p, WaitFor _) => let p := during p in (p, getStreamConn_waited p key waited, None)
  | (p, TooMany) => (p, Err ErrTransportClosed, None)
  | (p, Dial) => (getStreamConn_finish (during p) key dialled now, dialled, ok_opt dialled)
  end.

(** What [Accept] returned: a connection, or an error with whether [done] is closed. *)
Inductive accept_result := Accepted (c : nat) | AcceptFailed (closing : bool).

(** The loop of [acceptStream]: each connection in turn and whether a reader is
    started for it or it is closed at once; [pool n] is the pool when the [n]-th is
    tested, for the readers register their connections themselves. *)
Fixpoint acceptStream (pool : nat → Pool) (n : nat) (rs : list accept_result) : list (nat * bool) :=
  match rs with
  | [] => []
  | AcceptFailed closing :: rs' => if closing then [] else acceptStream pool n rs'
  | Accepted c :: rs' => (c, accepts (pool n)) :: acceptStream pool (S n) rs'
  end.

(** [Close]: the last-use times stay. *)
Definition Close (p : Pool) : Pool :=
  if done p then p
  else mkPool (TCPIdleTimeout p) (MaxTCPConns p) ∅ (connLastUse p) (inflight p)
         (map_imap (λ i c, Some (if bool_decide (map_Exists (λ _ j, j = i) (tcpConns p)) then close_conn c else c)) (conns p))
         true.

(** ** [Send] *)

Inductive sent := Dropped | Datagram (ip : option IP) (port : Z) (data : str) | Streamed (key : str) (data : str).

(** What the sockets and the resolver answer. *)
Record net_ops := mkNetOps {
  udpConn : option (option IP);        (* the local UDP address, when there is one *)
  drop_hook : Message → Addr → bool;   (* [DropHook], false when it is nil *)
  LookupIP : str → result (list IP);
  WriteToUDP : str → option IP → Z → result unit;
  StreamWrite : str → Addr → str → result unit   (* [getStreamConn] and [conn.Write] *)
}.

Definition Send (o : net_ops) (network : str) (dst : Addr) (msg : Message) : result sent :=
  let data := render msg in
  let n := ToLower network in
  if n == "udp" then
    match udpConn o with
    | None => Err ErrTransportClosed
    | Some local =>
      if drop_hook o msg dst then Ok Dropped
      else
        ip ← match pickAddrFamily (Some local) (ParseIP (Addr_Host dst)) with
             | Some ip => Ok (Some ip)
             | None => match LookupIP o (Addr_Host dst) with
                       | Ok (ip :: _) => Ok (pickAddrFamily (Some local) (Some ip))
                       | _ => Err ErrOther
                       end
             end;
        _ ← WriteToUDP o data ip (Addr_Port dst);
        Ok (Datagram ip (Addr_Port dst) data)
    end
  else if (n == "tcp") || (n == "tls") then
    _ ← StreamWrite o network dst data; Ok (Streamed (Addr_String dst) data)
  else Err ErrOther.

(** ** The pool as a state machine *)

Inductive pool_op :=
| OTouch (key : str) (now : Z)
| ODrop (key : str)
| OTick (now : Z) (keys : list str)
| ORegister (c : nat) (now : Z)
| OStart (key : str) (d : nat)
| OFinish (key : str) (r : result nat) (now : Z)
| OClose.

Definition pool_exec (p : Pool) (o : pool_op) : Pool :=
  match o with
  | OTouch k t => touchConn p k t
  | ODrop k => dropConn p k
  | OTick t ks => janitor_tick t ks p
  | ORegister c t => register p c t
  | OStart k d => fst (getStreamConn_start p k d)
  | OFinish k r t => getStreamConn_finish p k r t
  | OClose => Close p
  end.

(** A pool as [NewTransport] makes it. *)
Definition new_pool (idle maxc : Z) (cs : gmap nat Conn) : Pool := mkPool idle maxc ∅ ∅ ∅ cs false.

Inductive pool_reachable (p0 : Pool) : Pool → Prop :=
| pool_init : pool_reachable p0 p0
| pool_next p o : pool_reachable p0 p → pool_reachable p0 (pool_exec p o).

(** Every pooled connection has a last use, so the janitor can see it. *)
Definition tracked (p : Pool) : Prop := ∀ k, is_Some (tcpConns p !! k) → is_Some (connLastUse p !! k).

Lemma tracked_insert p t u k c now i cs :
  tracked p → t = tcpConns p → u = connLastUse p →
  tracked (with_tables p (<[k := c]> t) (<[k := now]> u) i cs).
Proof.
  intros H -> -> k'. unfold tracked, with_tables in *. simpl.
  destruct (decide (k = k')) as [->|Hk]; [by rewrite !lookup_insert_eq|].
  rewrite !lookup_insert_ne by done. apply H.
Qed.

Lemma tracked_delete p k i cs :
  tracked p → tracked (with_tables p (delete k (tcpConns p)) (delete k (connLastUse p)) i cs).
Proof.
  intros H k'. unfold tracked in *. simpl. destruct (decide (k = k')) as [->|Hk].
  - rewrite lookup_delete_eq. by intros [].
  - rewrite !lookup_delete_ne by done. apply H.
Qed.

Lemma tracked_exec p o : tracked p → tracked (pool_exec p o).
Proof.
  intros H. destruct o as [k t|k|t ks|c t|k d|k r t|]; cbn [pool_exec].
  - intros k' Hk'. specialize (H k' Hk'). simpl. destruct (decide (k = k')) as [->|Hk]; [by rewrite lookup_insert_eq|].
    by rewrite lookup_insert_ne.
  - unfold dropConn. destruct (tcpConns p !! k); [by apply tracked_delete|done].
  - unfold janitor_tick. revert p H. induction ks as [|k ks IH]; intros p H; [done|]. simpl. apply IH.
    unfold janitor_key. destruct (expired p t k); [by apply tracked_delete|done].
  - unfold register. destruct (conns p !! c); [by apply tracked_insert|done].
  - unfold getStreamConn_start. destruct (tcpConns p !! k); [done|]. destruct (inflight p !! k); [done|].
    by destruct (_ <=? _)%Z.
  - unfold getStreamConn_finish. destruct r; [by apply tracked_insert|done].
  - unfold Close. destruct (done p); [done|]. intros k' Hk'. simpl in Hk'. rewrite lookup_empty in Hk'. by destruct Hk'.
Qed.

Lemma pool_tracked p0 p : tracked p0 → pool_reachable p0 p → tracked p.
Proof. induction 2; [done|]. by apply tracked_exec. Qed.

Lemma new_pool_tracked idle maxc cs : tracked (new_pool idle maxc cs).
Proof. intros k Hk. simpl in Hk. rewrite lookup_empty in Hk. by destruct Hk. Qed.

(** ** What a janitor tick leaves *)

Lemma janitor_key_expired now p k k' : k ≠ k' → expired (janitor_key now p k) now k' = expired p now k'.
Proof.
  intros Hk. unfold janitor_key. destruct (expired p now k); [|done].
  unfold expired at 1, idleTimeout. simpl. rewrite lookup_delete_ne by done. done.
Qed.

Lemma janitor_key_once now p k : expired (janitor_key now p k) now k = false.
Proof.
  unfold janitor_key. destruct (expired p now k) eqn:E; [|done].
  unfold expired. simpl. by rewrite lookup_delete_eq.
Qed.

Lemma janitor_key_lookup now p k k' :
  tcpConns (janitor_key now p k) !! k' = (if (k == k') && expired p now k then None else tcpConns p !! k') ∧
  connLastUse (janitor_key now p k) !! k' = (if (k == k') && expired p now k then None else connLastUse p !! k').
Proof.
  unfold janitor_key. destruct (expired p now k); [|by rewrite andb_false_r]. rewrite andb_true_r. simpl.
  case_test; [subst; by rewrite !lookup_delete_eq|by rewrite !lookup_delete_ne].
Qed.

(** Expired keys are gone, the others are as they were. *)
Lemma janitor_tick_lookup now ks p k :
  let gone := bool_decide (k ∈ ks) && expired p now k in
  tcpConns (janitor_tick now ks p) !! k = (if gone then None else tcpConns p !! k) ∧
  connLastUse (janitor_tick now ks p) !! k = (if gone then None else connLastUse p !! k).
Proof.
  unfold janitor_tick. revert p. induction ks as [|k' ks IH]; intros p; [done|]. cbn [fold_left].
  destruct (IH (janitor_key now p k')) as [-> ->]. destruct (janitor_key_lookup now p k' k) as [-> ->].
  destruct (decide (k = k')) as [<-|Hk].
  - rewrite janitor_key_once, andb_false_r, (bool_decide_true (k = k)), (bool_decide_true (k ∈ k :: ks)) by set_solver.
    done.
  - rewrite janitor_key_expired, (bool_decide_false (k' = k)) by done. cbn [andb].
    by rewrite (bool_decide_ext (k ∈ k' :: ks) (k ∈ ks)) by set_solver.
Qed.

Lemma idleTimeout_tick now ks p : idleTimeout (janitor_tick now ks p) = idleTimeout p.
Proof.
  unfold janitor_tick. revert p. induction ks as [|k ks IH]; intros p; [done|]. simpl. rewrite IH.
  unfold janitor_key. by destruct (expired p now k).
Qed.

(** After a tick no pooled connection is idle for longer than the timeout. *)
Lemma janitor_evicts now ks p k c :
  tracked p → (∀ k, is_Some (connLastUse p !! k) → k ∈ ks) →
  tcpConns (janitor_tick now ks p) !! k = Some c →
  ∃ last, connLastUse (janitor_tick now ks p) !! k = Some last ∧ (now - last ≤ idleTimeout p)%Z.
Proof.
  intros Ht Hks Hc. destruct (janitor_tick_lookup now ks p k) as [E1 E2]. rewrite E1 in Hc. rewrite E2.
  destruct (bool_decide (k ∈ ks) && expired p now k) eqn:E; [done|].
  destruct (Ht k ltac:(by eexists)) as [last Hl]. exists last. split; [done|].
  rewrite bool_decide_true in E by eauto. cbn [andb] in E. unfold expired in E. rewrite Hl in E.
  by apply Z.ltb_ge in E.
Qed.

(** ** One connection under two keys

    A connection dialled for a host name is pooled under that name, and
    [readTCP] registers it under the peer's address; writes refresh only the
    latter. *)

Definition ex_host_key : str := Addr_String (mkAddr "tcp" "sip.example.com" 5060).
Definition ex_conn : Conn := mkConn "10.0.0.9" 5060 false false.
Definition ex_secs (n : Z) : Z := (n * 10 ^ 9)%Z.

(** Dialled at 0, read from 0 on, written to at 299 s; ticks at 300 s and 301 s. *)
Definition ex_pool : Pool :=
  fold_left pool_exec
    [OStart ex_host_key 0; OFinish ex_host_key (Ok 1) 0; ORegister 1 0;
     OTouch (connKey ex_conn) (ex_secs 299);
     OTick (ex_secs 301) [ex_host_key; connKey ex_conn]]
    (new_pool 0 0 {[1 := ex_conn]}).

(** The janitor closes the connection for the key that is not refreshed, and the
    other key goes on naming it. *)
Lemma janitor_closes_used_connection :
  connLastUse ex_pool !! connKey ex_conn = Some (ex_secs 299) ∧
  tcpConns ex_pool !! connKey ex_conn = Some 1 ∧
  closed <$> (conns ex_pool !! 1) = Some true ∧
  snd (getStreamConn_start ex_pool (connKey ex_conn) 2) = Pooled 1.
Proof. split_and!; by_compute. Qed.

(** ** One dial per key *)

Lemma getStreamConn_single p k d d' :
  snd (getStreamConn_start p k d) = Dial →
  snd (getStreamConn_start (fst (getStreamConn_start p k d)) k d') = WaitFor d.
Proof.
  unfold getStreamConn_start. destruct (tcpConns p !! k) as [c|] eqn:Hc; [done|].
  destruct (inflight p !! k) as [|] eqn:Hi; [done|]. destruct (_ <=? _)%Z; [done|]. intros _. simpl.
  by rewrite Hc, lookup_insert_eq.
Qed.

(** ** Address families *)

(** A datagram to a literal address goes to that address, in the family of the
    socket, or the address is refused. *)
Lemma pickAddrFamily_same local a b :
  pickAddrFamily (Some (Some local)) (Some a) = Some b → b = a ∨ To4 a = Some b.
Proof.
  unfold pickAddrFamily. destruct (_ || _); [intros [= ->]; by left|]. destruct (_ && _); [|done]. by right.
Qed.

(** ** The limit, and a dial that outlives [Close] *)

(** [acceptStream] still takes a connection when the pool is full, where
    [getStreamConn] refuses one. *)
Lemma accept_over_limit p k d :
  Z.of_nat (size (tcpConns p)) = maxTCPConns p → tcpConns p !! k = None → inflight p !! k = None →
  accepts p = true ∧ snd (getStreamConn_start p k d) = TooMany.
Proof.
  intros Hs Hk Hi. unfold accepts, getStreamConn_start. rewrite Hk, Hi, Hs, Z.ltb_irrefl, Z.leb_refl. done.
Qed.

(** A dial that returns after [Close] is pooled all the same, and nothing closes
    its connection any more. *)
Lemma dial_outlives_close k c conn now :
  let p := fold_left pool_exec [OStart k 0; OClose; OFinish k (Ok c) now] (new_pool 0 0 {[c := conn]}) in
  done p = true ∧ tcpConns p !! k = Some c ∧ conns p !! c = Some conn ∧ pool_exec p OClose = p.
Proof.
  cbv zeta. cbn [fold_left pool_exec]. unfold getStreamConn_start. cbn [new_pool tcpConns inflight]. rewrite !lookup_empty.
  assert ((maxTCPConns (new_pool 0 0 {[c := conn]}) <=? Z.of_nat (size (∅ : gmap str nat)))%Z = false) as -> by done.
  cbn. split_and!; [done|by rewrite lookup_insert_eq| |done].
  rewrite map_lookup_imap, lookup_singleton_eq. cbn. rewrite bool_decide_false; [done|].
  intros (i & j & Hj & _). by rewrite lookup_empty in Hj.
Qed.

(** A connection that [getStreamConn] returns is pooled under the key, or is the one
    another call dialled meanwhile; the reader it starts is for the connection it
    dialled itself, and its dial is no longer in flight. *)
Lemma getStreamConn_result p key d during waited dialled now p' c reader :
  getStreamConn p key d during waited dialled now = (p', Ok c, reader) →
  (tcpConns p' !! key = Some c ∨ (waited = Ok c ∧ is_Some (inflight p !! key))) ∧
  (∀ c', reader = Some c' → c' = c ∧ dialled = Ok c ∧ inflight p' !! key = None).
Proof.
  unfold getStreamConn, getStreamConn_start. destruct (tcpConns p !! key) as [c0|] eqn:Hc.
  - intros [= <- <- <-]. split; [by left|done].
  - destruct (inflight p !! key) as [d'|] eqn:Hi.
    + intros [= <- Hr <-]. split; [|done]. unfold getStreamConn_waited in Hr.
      destruct (tcpConns (during p) !! key) eqn:E; [left; congruence|right; eauto].
    + destruct (_ <=? _)%Z; [done|]. intros [= <- Hr <-]. subst dialled. cbn. split.
      * left. by rewrite lookup_insert_eq.
      * intros c' [= <-]. by rewrite lookup_delete_eq.
Qed.

(** Connections that come before the reader of the first has registered it are all
    taken, whatever the limit: the test and the registration are apart. *)
Lemma accept_burst p cs :
  accepts p = true → acceptStream (λ _, p) 0 (map Accepted cs) = map (λ c, (c, true)) cs.
Proof.
  intros Hp. generalize 0. induction cs as [|c cs IH]; intros n; [done|]. cbn. by rewrite Hp, IH.
Qed.

Example burst_over_limit :
  let cs := {[1 := mkConn "10.0.0.1" 1 false false; 2 := mkConn "10.0.0.2" 2 false false; 3 := mkConn "10.0.0.3" 3 false false]} in
  let p := new_pool 0 1 cs in
  acceptStream (λ _, p) 0 [Accepted 1; Accepted 2; Accepted 3] = [(1, true); (2, true); (3, true)] ∧
  size (tcpConns (fold_left pool_exec [ORegister 1 5; ORegister 2 5; ORegister 3 5] p)) = 3 ∧
  maxTCPConns p = 1%Z.
Proof. split_and!; by_compute. Qed.
