(* ===== verification/Reader.v ===== *)
(** * [transport.go]: the read loops

    From the bytes a socket yields to the packets the transaction manager gets:
    [readUDP], [readTCP] with its stream splitter, [dispatch].  The reads of a
    connection are a list of what [Read] returned; [taken n] says which case the
    select of the [n]-th packet takes, the channel or the closed [done]. *)

From S2P Require Import Prelude GoStrings Params Uri Headers HeadersMap Message Parser Stream Net Transport.

(** ** [dispatch] *)

(** The packet handed over, and whether the reader goes on. *)
Definition dispatch (taken : bool) (raw : str) (src : Addr) : option Packet * bool :=
  match ParseMessage raw with
  | Err _ => (None, true)
  | Ok msg => if taken then (Some (mkPacket msg src), true) else (None, false)
  end.

(** ** Datagrams *)

Inductive udp_read :=
| Received (data : str) (ip : str) (port : Z)
| ReadFailed (closing : bool).   (* whether [done] is closed *)

Definition AddrFromUDP (ip : str) (port : Z) : Addr := mkAddr "udp" ip port.

(** The loop ends when a read fails after [Close]; a datagram that is not taken
    does not end it. *)
Fixpoint readUDP (taken : nat → bool) (n : nat) (reads : list udp_read) : list Packet :=
  match reads with
  | [] => []
  | ReadFailed closing :: reads' => if closing then [] else readUDP taken n reads'
  | Received data ip port :: reads' =>
    option_list (fst (dispatch (taken n) data (AddrFromUDP ip port))) ++ readUDP taken (S n) reads'
  end.

(** ** Streams *)

Definition AddrFromTCP (ip : str) (port : Z) : Addr := mkAddr "tcp" ip port.

(** The source address of a connection's packets. *)
Definition conn_src (c : Conn) : Addr :=
  let src := AddrFromTCP (remote_ip c) (remote_port c) in
  mkAddr (if is_tls c then "tls" else "tcp") (Addr_Host src) (Addr_Port src).

(** The loop over the messages of one read. *)
Fixpoint dispatch_all (taken : nat → bool) (n : nat) (raws : list str) (src : Addr) : list Packet * bool :=
  match raws with
  | [] => ([], true)
  | raw :: raws' =>
    let '(p, go) := dispatch (taken n) raw src in
    if go then let '(ps, go) := dispatch_all taken (S n) raws' src in (option_list p ++ ps, go)
    else ([], false)
  end.

(** What [Read] returned: the bytes, and whether there was an error. *)
Definition stream_read : Type := str * bool.

(** The loop of [readTCP]: the packets, and whether the loop is still reading.
    The messages of a read are dropped when [Feed] returns an error with them. *)
Fixpoint read_loop (fuel : nat) (taken : nat → bool) (n : nat) (buf : str) (src : Addr) (reads : list stream_read)
  : option (outcome (list Packet * bool)) :=
  match reads with
  | [] => Some (Ret ([], true))
  | (chunk, failed) :: reads' =>
    match (if chunk == [] then Some (Ret (mkFed buf [] None)) else Feed fuel buf chunk) with
    | None => None
    | Some Panic => Some Panic
    | Some (Ret f) =>
      match f_err f with
      | Some _ => Some (Ret ([], false))
      | None =>
        let '(ps, go) := dispatch_all taken n (f_out f) src in
        if negb go || failed then Some (Ret (ps, false))
        else match read_loop fuel taken (n + length (f_out f)) (f_buf f) src reads' with
             | Some (Ret (ps', open)) => Some (Ret (ps ++ ps', open))
             | r => r
             end
      end
    end
  end.

(** What the deferred function of [readTCP] does. *)
Definition unregister (p : Pool) (c : nat) : Pool :=
  match conns p !! c with
  | Some conn =>
    let p := dropConn p (connKey conn) in
    with_tables p (tcpConns p) (connLastUse p) (inflight p) (alter close_conn c (conns p))
  | None => p
  end.

(** [readTCP] on its own: the pool once the loop has left, unchanged while it
    reads. *)
Definition readTCP (fuel : nat) (taken : nat → bool) (p : Pool) (c : nat) (conn : Conn) (now : Z) (reads : list stream_read)
  : option (outcome (list Packet * Pool)) :=
  let p := register p c now in
  match read_loop fuel taken 0 [] (conn_src conn) reads with
  | Some (Ret (ps, open)) => Some (Ret (ps, if open then p else unregister p c))
  | Some Panic => Some Panic
  | None => None
  end.

(** ** What a connection delivers *)

(** The packets of the frames that parse. *)
Definition packets_of (src : Addr) (raws : list str) : list Packet :=
  omap (λ raw, match ParseMessage raw with Ok m => Some (mkPacket m src) | Err _ => None end) raws.

Lemma dispatch_all_open n raws src : dispatch_all (λ _, true) n raws src = (packets_of src raws, true).
Proof.
  revert n. induction raws as [|raw raws IH]; intros n; [done|]. cbn [dispatch_all packets_of omap list_omap].
  unfold dispatch. rewrite IH. by destruct (ParseMessage raw).
Qed.

(** While nothing goes wrong the loop hands over what the splitter cuts, and reads
    of no bytes change nothing. *)
Lemma read_loop_feed fuel n buf src chunks b out :
  feed_all fuel buf (List.filter (λ c, c != []) chunks) = Some (Ret (mkFed b out None)) →
  read_loop fuel (λ _, true) n buf src (map (λ c, (c, false)) chunks) = Some (Ret (packets_of src out, true)).
Proof.
  revert n buf b out. induction chunks as [|c chunks IH]; intros n buf b out; [by intros [= <- <-]|].
  cbn [List.filter map read_loop]. case_test; cbn [negb].
  - intros H. cbn [f_err f_out f_buf dispatch_all orb negb length]. by rewrite (IH _ _ _ _ H).
  - cbn [feed_all]. destruct (Feed fuel buf c) as [[[b' o [e|]]|]|]; [done| |done..].
    destruct (feed_all fuel b' _) as [[[b'' o' e']|]|] eqn:E; [|done..]. intros [= -> <- ->].
    cbn [f_err f_out f_buf]. rewrite dispatch_all_open. cbn [negb orb].
    rewrite (IH _ _ _ _ E). unfold packets_of. by rewrite omap_app.
Qed.

Lemma concat_filter_nonempty (l : list str) : concat (List.filter (λ c, c != []) l) = concat l.
Proof. induction l as [|c l IH]; [done|]. simpl. case_test; subst; simpl; by rewrite IH. Qed.

(** Whole messages and the start of one, cut anywhere, are handed over in order:
    those that parse. *)
Lemma read_loop_frames fuel B n src chunks raws q :
  Forall frame raws → Forall (λ m, length m ≤ B) raws → pending q → length q ≤ B →
  Forall (λ c, (Z.of_nat (B + length c) ≤ MaxMessageSize)%Z) chunks → length raws < fuel →
  concat chunks = concat raws ++ q →
  read_loop fuel (λ _, true) n [] src (map (λ c, (c, false)) chunks) = Some (Ret (packets_of src raws, true)).
Proof.
  intros Hfr HB Hq HqB Hch Hf H. apply (read_loop_feed _ _ _ _ _ q).
  apply (feed_all_frames fuel B); [done..|simpl; lia| |done|by rewrite concat_filter_nonempty].
  clear -Hch. induction Hch; simpl; [done|]. case_test; simpl; by try constructor.
Qed.

Lemma packets_of_render src ms :
  forallb wf_message ms → packets_of src (map render ms) = map (λ m, mkPacket (framed m) src) ms.
Proof.
  intros H. apply Forall_forallb in H. induction H as [|m ms Hm Hms IH]; [done|]. cbn [map packets_of omap list_omap].
  rewrite ParseMessage_render by done. f_equal. exact IH.
Qed.

(** ** What an unreadable head costs *)

(** A complete message that arrives in the same read as a head with a bad
    Content-Length is not handed over: the error comes before the dispatch. *)
Lemma complete_message_lost (m : Message) (src : Addr) :
  wf_message m → length (render m) ≤ 1000 →
  let bad := lit "l: x" ++ CRLF2 in
  read_loop 3 (λ _, true) 0 [] src [(render m, false); (bad, false)] = Some (Ret ([mkPacket (framed m) src], false)) ∧
  read_loop 3 (λ _, true) 0 [] src [(render m ++ bad, false)] = Some (Ret ([], false)).
Proof.
  intros Hm Hl bad. pose proof (frame_render m Hm) as Hf. pose proof (packets_of_render src [m] ltac:(simpl; by rewrite (Is_true_true_1 _ Hm))) as Hp.
  cbn [map] in Hp. revert Hl Hf Hp. generalize (render m) (mkPacket (framed m) src). intros r p Hl Hf Hp.
  assert (∀ b, length b ≤ 100 → Feed 3 [] (r ++ b) = feed_loop 2 b [r]) as HF.
  { intros b Hb. unfold Feed. rewrite length_app. cbn [length].
    assert ((MaxMessageSize <? Z.of_nat (0 + (length r + length b)))%Z = false) as ->
      by (apply Z.ltb_ge; unfold MaxMessageSize; lia).
    cbn [feed_loop]. by rewrite app_nil_l, (frame_app r b Hf). }
  assert (∀ out, feed_loop 2 [] out = Some (Ret (mkFed [] out None))) as Hnil by (intros; by_compute).
  assert (∀ out, feed_loop 2 bad out = Some (Ret (mkFed bad out (Some ErrParse)))) as Hbad by (intros; by_compute).
  assert (Feed 3 [] bad = Some (Ret (mkFed bad [] (Some ErrParse)))) as Hb by by_compute.
  split; cbn [read_loop]; rewrite bool_decide_false by (destruct Hf as [Hne _]; by destruct r).
  - specialize (HF [] ltac:(simpl; lia)). rewrite app_nil_r in HF. rewrite HF, Hnil.
    cbn [f_err f_out f_buf]. rewrite dispatch_all_open, Hp. cbn [negb orb].
    assert (bool_decide (bad = []) = false) as -> by by_compute.
    by rewrite Hb.
  - by rewrite HF, Hbad by (simpl; lia).
Qed.
