(* ===== verification/Resolver.v ===== *)
(** * [resolver.go]: targets of a URI by DNS

    [ResolveTarget] chooses between an address lookup and the SRV records, and
    [shuffleSRV] orders the records by priority and, within a priority, draws them
    by weight.  The lookups are the interface [Resolver] of the source, here a
    class; [rand.Intn] is an argument that is told the number of the call.  The two
    loops run on fuel, the number of records; indexing out of range is a panic. *)

From S2P Require Import Prelude GoStrings Params Uri Net.
From Stdlib Require Import Sorted.

Record HostPortT := mkHostPort { hp_Host : str; hp_Port : Z }.

Record SRV := mkSRV { Target : str; SRV_Port : Z; Priority : Z; Weight : Z }.

(** The interface [Resolver]. *)
Class Resolver := mkResolver {
  LookupSRV : str → str → str → result (list SRV);
  LookupHost : str → result (list str)
}.

(** ** [NetResolver]

    The client [net.Resolver] of the standard library answers within the three
    seconds of the context, or fails; like it, a lookup of SRV records returns the
    canonical name, the records and an error, which may come together. *)
Class NetDNS := mkNetDNS {
  net_LookupSRV : str → str → str → str * list SRV * option GoError;
  net_LookupHost : str → list str * option GoError
}.

(** An answer with an error is not looked at by [ResolveTarget]. *)
Definition answer {A} (a : A) (err : option GoError) : result A := match err with None => Ok a | Some e => Err e end.

Definition NetResolver_LookupSRV `{NetDNS} (service proto name : str) : result (list SRV) :=
  let '(_, addrs, err) := net_LookupSRV service proto name in answer addrs err.

Definition NetResolver_LookupHost `{NetDNS} (name : str) : result (list str) :=
  let '(ips, err) := net_LookupHost name in answer ips err.

Definition NetResolver `{NetDNS} : Resolver := mkResolver NetResolver_LookupSRV NetResolver_LookupHost.

Definition formatHostPort (hp : HostPortT) : str := JoinHostPort (hp_Host hp) (Itoa (hp_Port hp)).

(** ** [shuffleSRV] *)

(** [sort.SliceStable] by priority. *)
Fixpoint insert_srv (s : SRV) (l : list SRV) : list SRV :=
  match l with
  | [] => [s]
  | t :: l' => if (Priority s <=? Priority t)%Z then s :: l else t :: insert_srv s l'
  end.
Definition sort_srvs (l : list SRV) : list SRV := foldr insert_srv [] l.

Definition total_weight (group : list SRV) : Z := fold_left (λ n s, n + Weight s)%Z group 0%Z.

(** The first index whose accumulated weight reaches [n]; 0 when none does. *)
Fixpoint reach (group : list SRV) (acc n : Z) (k : nat) : nat :=
  match group with
  | [] => 0
  | s :: group' => if (n <=? acc + Weight s)%Z then k else reach group' (acc + Weight s) n (S k)
  end.

Section Shuffle.
(** [rand.Intn]: the number of the call, the bound. *)
Context (intn : nat → Z → Z).

Definition pick (c : nat) (group : list SRV) : nat :=
  let total := total_weight group in
  if total == 0%Z then Z.to_nat (intn c (Z.of_nat (length group)))
  else reach group 0 (intn c total + 1) 0.

(** The records of a group in the order they are drawn, from call [c] on. *)
Fixpoint draw (fuel c : nat) (group : list SRV) : outcome (list SRV) :=
  match fuel, group with
  | _, [] => Ret []
  | 0, _ => Ret []
  | S f, _ =>
    let k := pick c group in
    match group !! k with
    | None => Panic
    | Some s => l ← draw f (S c) (delete k group); Ret (s :: l)
    end
  end.

(** The records at the head that share a priority, and the rest. *)
Fixpoint span_priority (pr : Z) (l : list SRV) : list SRV * list SRV :=
  match l with
  | [] => ([], [])
  | s :: l' => if Priority s == pr then let '(g, r) := span_priority pr l' in (s :: g, r) else ([], l)
  end.

Fixpoint shuffle_groups (fuel c : nat) (l : list SRV) : outcome (list SRV) :=
  match fuel, l with
  | _, [] => Ret []
  | 0, _ => Ret []
  | S f, s :: _ =>
    let '(group, rest) := span_priority (Priority s) l in
    a ← draw (length group) c group;
    b ← shuffle_groups f (c + length group) rest;
    Ret (a ++ b)
  end.

Definition srv_target (s : SRV) : HostPortT := mkHostPort (Target s) (SRV_Port s).

Definition shuffleSRV (srvs : list SRV) : outcome (list HostPortT) :=
  l ← shuffle_groups (length srvs) 0 (sort_srvs srvs); Ret (map srv_target l).

(** ** [ResolveTarget] *)

Definition target_network (u : Uri) : str :=
  let network : str := if IsEncrypted (Some u) then "tls" else "udp" in
  let '(tp, ok) := Params_Get (Uri_Params u) "transport" in
  if negb ok then network
  else if ToLower tp == "tcp" then "tcp"
  else if ToLower tp == "tls" then "tls"
  else if ToLower tp == "udp" then "udp"
  else network.

Definition srv_service (u : Uri) : str * str :=
  if IsEncrypted (Some u) then (lit "sips", lit "tcp")
  else
    let '(tp, ok) := Params_Get (Uri_Params u) "transport" in
    if ok && ((ToLower tp == "tcp") || (ToLower tp == "tls")) then (lit "sip", lit "tcp") else (lit "sip", lit "udp").

(** The addresses with a port, the host itself when there is none. *)
Definition host_targets (host : str) (port : Z) (ips : list str) : list HostPortT :=
  match map (λ ip, mkHostPort ip port) ips with
  | [] => [mkHostPort host port]
  | out => out
  end.

Definition ResolveTarget `{Resolver} (u : Uri) : outcome (result (list HostPortT) * str) :=
  let network := target_network u in
  if (0 <? Uri_Port u)%Z then
    Ret (host_targets (Uri_Host u) (Uri_Port u) <$> LookupHost (Uri_Host u), network)
  else
    let '(service, proto) := srv_service u in
    match LookupSRV service proto (Uri_Host u) with
    | Ok (s :: srvs) => l ← shuffleSRV (s :: srvs); Ret (Ok l, network)
    | _ => Ret (host_targets (Uri_Host u) (EffectivePort (Some u)) <$> LookupHost (Uri_Host u), network)
    end.
End Shuffle.

(** ** Sorting *)

Definition by_priority (a b : SRV) : Prop := (Priority a ≤ Priority b)%Z.

Lemma insert_srv_perm s l : insert_srv s l ≡ₚ s :: l.
Proof.
  induction l as [|t l IH]; [done|]. cbn [insert_srv]. destruct (_ <=? _)%Z; [done|]. rewrite IH. apply Permutation_swap.
Qed.

Lemma insert_srv_sorted s l : StronglySorted by_priority l → StronglySorted by_priority (insert_srv s l).
Proof.
  induction 1 as [|t l Hl IH Ht]; cbn [insert_srv]; [by repeat constructor|].
  destruct (Z.leb_spec (Priority s) (Priority t)) as [Hle|Hlt].
  - constructor; [by constructor|]. constructor; [done|]. eapply Forall_impl; [exact Ht|]. unfold by_priority. lia.
  - constructor; [done|]. rewrite insert_srv_perm. constructor; [unfold by_priority; lia|done].
Qed.

Lemma sort_srvs_perm l : sort_srvs l ≡ₚ l.
Proof. induction l as [|s l IH]; [done|]. cbn. by rewrite insert_srv_perm, IH. Qed.

Lemma sort_srvs_sorted l : StronglySorted by_priority (sort_srvs l).
Proof. induction l as [|s l IH]; [constructor|]. by apply insert_srv_sorted. Qed.

(** Records of one priority keep their order. *)
Lemma sort_srvs_stable pr l :
  List.filter (λ s, Priority s == pr) (sort_srvs l) = List.filter (λ s, Priority s == pr) l.
Proof.
  induction l as [|s l IH]; [done|]. cbn [sort_srvs foldr List.filter]. rewrite <-IH. fold (sort_srvs l).
  pose proof (sort_srvs_sorted l) as Hl. clear IH. induction Hl as [|t k Hk IHk Ht]; [done|]. cbn [insert_srv].
  destruct (Z.leb_spec (Priority s) (Priority t)) as [Hle|Hlt]; [done|]. cbn [List.filter]. rewrite IHk.
  destruct (bool_decide_reflect (Priority s = pr)), (bool_decide_reflect (Priority t = pr)); try done. lia.
Qed.

(** ** Drawing by weight *)

Definition srv_ok (s : SRV) : Prop := (0 ≤ Weight s)%Z.

Lemma total_weight_acc group acc : fold_left (λ n s, n + Weight s)%Z group acc = (acc + total_weight group)%Z.
Proof.
  unfold total_weight. revert acc. induction group as [|s group IH]; intros acc; cbn [fold_left]; [lia|].
  rewrite IH, (IH (0 + Weight s)%Z). lia.
Qed.

Lemma total_weight_cons s group : total_weight (s :: group) = (Weight s + total_weight group)%Z.
Proof. unfold total_weight at 1. cbn [fold_left]. rewrite total_weight_acc. lia. Qed.

Lemma total_weight_nonneg group : Forall srv_ok group → (0 ≤ total_weight group)%Z.
Proof. induction 1 as [|s l Hs Hl IH]; [done|]. rewrite total_weight_cons. unfold srv_ok in Hs. lia. Qed.

Lemma total_weight_zero group s : Forall srv_ok group → total_weight group = 0%Z → s ∈ group → Weight s = 0%Z.
Proof.
  induction 1 as [|t l Ht Hl IH]; [by intros _ ?%not_elem_of_nil|]. rewrite total_weight_cons. unfold srv_ok in Ht.
  pose proof (total_weight_nonneg l Hl). intros H0 [->|Hs]%elem_of_cons; [lia|apply IH; [lia|done]].
Qed.

(** The index reached is in range and its record has weight. *)
Lemma reach_spec group acc n k :
  (acc < n ≤ acc + total_weight group)%Z →
  ∃ i s, reach group acc n k = k + i ∧ group !! i = Some s ∧ (0 < Weight s)%Z.
Proof.
  revert acc k. induction group as [|s group IH]; intros acc k; [unfold total_weight; cbn; lia|].
  rewrite total_weight_cons. intros Hn. cbn [reach]. destruct (Z.leb_spec n (acc + Weight s)).
  - exists 0, s. split_and!; [lia|done|lia].
  - destruct (IH (acc + Weight s)%Z (S k)) as (i & t & -> & Hi & Ht); [lia|]. exists (S i), t. split_and!; [lia|done|done].
Qed.

(** A record drawn before another of its group has weight unless that has none. *)
Definition srv_before (a b : SRV) : Prop :=
  (Priority a < Priority b ∨ Priority a = Priority b ∧ (Weight a = 0 → Weight b = 0))%Z.

Section Draws.
Context (intn : nat → Z → Z) (Hintn : ∀ i n, (0 < n)%Z → (0 ≤ intn i n < n)%Z).

Lemma pick_spec c group :
  Forall srv_ok group → group ≠ [] →
  ∃ s, group !! pick intn c group = Some s ∧ ∀ t, t ∈ group → Weight s = 0%Z → Weight t = 0%Z.
Proof.
  intros Hok Hne. unfold pick. pose proof (total_weight_nonneg group Hok). case_test.
  - assert (0 < length group) by (destruct group; [done|cbn; lia]).
    pose proof (Hintn c (Z.of_nat (length group)) ltac:(lia)).
    destruct (lookup_lt_is_Some_2 group (Z.to_nat (intn c (Z.of_nat (length group))))) as [s Hs]; [lia|].
    exists s. split; [done|]. intros t Ht _. by eapply total_weight_zero.
  - pose proof (Hintn c (total_weight group) ltac:(lia)).
    destruct (reach_spec group 0 (intn c (total_weight group) + 1) 0) as (i & s & -> & Hi & Hw); [lia|].
    exists s. split; [done|]. lia.
Qed.

Lemma draw_spec pr fuel c group :
  length group ≤ fuel → Forall srv_ok group → Forall (λ s, Priority s = pr) group →
  ∃ l, draw intn fuel c group = Ret l ∧ l ≡ₚ group ∧ StronglySorted srv_before l.
Proof.
  revert c group. induction fuel as [|f IH]; intros c group Hlen Hok Hpr.
  - destruct group; [|cbn in Hlen; lia]. exists []. split_and!; [done..|constructor].
  - destruct (decide (group = [])) as [->|Hne]; [exists []; split_and!; [done..|constructor]|].
    destruct (pick_spec c group Hok Hne) as (s & Hs & Hw).
    assert (draw intn (S f) c group = (l ← draw intn f (S c) (delete (pick intn c group) group); Ret (s :: l))) as ->.
    { destruct group; [done|]. cbn [draw]. by rewrite Hs. }
    pose proof (delete_Permutation group (pick intn c group) s Hs) as Hperm.
    destruct (IH (S c) (delete (pick intn c group) group)) as (l & -> & Hl & Hsorted).
    + pose proof (Permutation_length Hperm) as E. cbn in E. lia.
    + rewrite Hperm in Hok. by apply Forall_cons_1 in Hok as [_ ?].
    + rewrite Hperm in Hpr. by apply Forall_cons_1 in Hpr as [_ ?].
    + exists (s :: l). split; [done|]. split; [by rewrite Hl, <-Hperm|]. constructor; [done|].
      apply Forall_forall. intros t Ht. assert (t ∈ group) as Hin by (rewrite Hperm, <-Hl; set_solver).
      right. rewrite Forall_forall in Hpr. rewrite (Hpr s), (Hpr t); [|done|by eapply list_elem_of_lookup_2].
      split; [done|]. by apply Hw.
Qed.

Lemma span_priority_spec pr l g r :
  span_priority pr l = (g, r) → l = g ++ r ∧ Forall (λ s, Priority s = pr) g.
Proof.
  revert g r. induction l as [|s l IH]; intros g r; cbn [span_priority]; [by intros [= <- <-]|].
  case_test; [|by intros [= <- <-]]. destruct (span_priority pr l) as [g' r'] eqn:E. intros [= <- <-].
  destruct (IH g' r' eq_refl) as [-> Hg]. split; [done|by constructor].
Qed.

(** What follows the span has a higher priority value. *)
Lemma span_priority_rest pr l g r :
  span_priority pr l = (g, r) → StronglySorted by_priority l → Forall (λ s, (pr ≤ Priority s)%Z) l →
  Forall (λ s, (pr < Priority s)%Z) r.
Proof.
  revert g r. induction l as [|s l IH]; intros g r; cbn [span_priority]; [by intros [= <- <-]|].
  intros Hsp Hs Hall. inversion Hs as [|? ? Hs' Hle]; subst. apply Forall_cons_1 in Hall as [Hp Hall].
  revert Hsp. case_test.
  - destruct (span_priority pr l) as [g' r'] eqn:E. intros [= <- <-]. by eapply IH.
  - intros [= <- <-]. constructor; [lia|]. eapply Forall_impl; [exact Hle|]. unfold by_priority. cbn. lia.
Qed.

Lemma StronglySorted_app (R : SRV → SRV → Prop) a b :
  StronglySorted R a → StronglySorted R b → (∀ x y, x ∈ a → y ∈ b → R x y) → StronglySorted R (a ++ b).
Proof.
  intros Ha Hb Hab. induction Ha as [|x a Ha IH Hx]; [done|]. cbn. constructor.
  - apply IH. intros y z Hy. apply Hab. set_solver.
  - apply Forall_app_2; [done|]. apply Forall_forall. intros y Hy. apply Hab; [set_solver|done].
Qed.

Lemma StronglySorted_app_r (R : SRV → SRV → Prop) a b : StronglySorted R (a ++ b) → StronglySorted R b.
Proof. induction a as [|x a IH]; [done|]. cbn. inversion 1; subst. by apply IH. Qed.

Lemma shuffle_groups_spec fuel c l :
  length l ≤ fuel → StronglySorted by_priority l → Forall srv_ok l →
  ∃ out, shuffle_groups intn fuel c l = Ret out ∧ out ≡ₚ l ∧ StronglySorted srv_before out.
Proof.
  revert c l. induction fuel as [|f IH]; intros c l Hlen Hs Hok.
  - destruct l; [|cbn in Hlen; lia]. exists []. split_and!; [done..|constructor].
  - destruct l as [|s l]; [exists []; split_and!; [done..|constructor]|]. cbn [shuffle_groups].
    destruct (span_priority (Priority s) (s :: l)) as [g r] eqn:E.
    pose proof (span_priority_spec _ _ _ _ E) as [El Hg].
    assert (Forall (λ t, (Priority s < Priority t)%Z) r) as Hr.
    { eapply span_priority_rest; [exact E|done|]. constructor; [done|]. by inversion Hs. }
    assert (0 < length g) as Hpos by (destruct g; [|cbn; lia]; cbn [span_priority] in E; revert E;
      rewrite bool_decide_true by done; by destruct (span_priority _ _)).
    rewrite El in Hok, Hlen, Hs. rewrite length_app in Hlen. apply Forall_app in Hok as [Hokg Hokr].
    destruct (draw_spec (Priority s) (length g) c g) as (a & -> & Ha & Has); [done..|].
    destruct (IH (c + length g) r) as (b & Eb & Hb & Hbs); [lia|by apply StronglySorted_app_r in Hs|done|].
    cbn. rewrite Eb. exists (a ++ b). rewrite El. split; [done|]. split; [by rewrite Ha, Hb|].
    apply StronglySorted_app; [done..|]. intros x y Hx Hy. left. rewrite Forall_forall in Hg, Hr.
    rewrite (Hg x); [|by rewrite <-Ha]. apply Hr. by rewrite <-Hb.
Qed.

(** C36: whatever the random numbers, the records come out exactly once each, by
    priority, and within a priority no record without weight comes before one with
    weight; no index is out of range. *)
Theorem srv_order (srvs : list SRV) :
  Forall srv_ok srvs →
  ∃ l, shuffleSRV intn srvs = Ret (map srv_target l) ∧ l ≡ₚ srvs ∧ StronglySorted srv_before l.
Proof.
  intros Hok. unfold shuffleSRV.
  destruct (shuffle_groups_spec (length srvs) 0 (sort_srvs srvs)) as (l & -> & Hl & Hs).
  - by rewrite sort_srvs_perm.
  - apply sort_srvs_sorted.
  - by rewrite sort_srvs_perm.
  - exists l. split; [done|]. split; [by rewrite Hl, sort_srvs_perm|done].
Qed.
End Draws.

Definition ex_srvs : list SRV :=
  [mkSRV "b." 5070 2 0; mkSRV "z." 5060 1 0; mkSRV "a." 5060 1 50; mkSRV "c." 5061 1 10].

Lemma srv_order_witness :
  ∃ l, shuffleSRV (λ _ n, (n - 1)%Z) ex_srvs = Ret (map srv_target l) ∧ l ≡ₚ ex_srvs ∧ StronglySorted srv_before l.
Proof.
  apply (srv_order (λ _ n, (n - 1)%Z) ltac:(intros; lia) ex_srvs).
  repeat (constructor; [unfold srv_ok; cbn; lia|]). constructor.
Defined.

Example srv_order_ex :
  shuffleSRV (λ _ n, (n - 1)%Z) ex_srvs =
  Ret [mkHostPort "c." 5061; mkHostPort "a." 5060; mkHostPort "z." 5060; mkHostPort "b." 5070].
Proof. by vm_compute. Qed.

(** A name the DNS knows nothing of is refused; one with an address only is
    reached at the default port. *)
Definition ex_dns : NetDNS :=
  mkNetDNS (λ _ _ _, ([], [], Some ErrOther))
    (λ name, if name == lit "h.example" then ([lit "192.0.2.7"], None) else ([], Some ErrOther)).

Example resolve_fallback :
  let resolve host := ResolveTarget (λ _ _, 0%Z) (H := NetResolver (H := ex_dns)) (mkUri "sip" [] [] host 0 None None) in
  resolve "h.example" = Ret (Ok [mkHostPort "192.0.2.7" 5060], lit "udp") ∧
  resolve "x.example" = Ret (Err ErrOther, lit "udp").
Proof. split; by vm_compute. Qed.

(** The transport parameter of a [sips:] URI names what runs under TLS; here it
    takes its place, and the request goes out in the clear. *)
Lemma sips_goes_in_clear :
  let u := mkUri "sips" "bob" [] "h.example" 5061 (Some [mkParam "transport" "tcp" true]) None in
  IsEncrypted (Some u) = true ∧ target_network u = lit "tcp".
Proof. by vm_compute. Qed.
