(* ===== verification/Metrics.v ===== *)
(** * [logging.go]: the metrics

    Counters by name, 64-bit and wrapping, with the calls of the callback in their
    order.  The loggers of the file only format and write text. *)

From S2P Require Import Prelude.

Record Metrics := mkMetrics { counters : gmap str Z; has_OnEvent : bool; m_events : list (str * Z) }.

Definition NewMetrics : Metrics := mkMetrics ∅ false [].

Definition Metrics_Get (m : Metrics) (name : str) : Z := default 0%Z (counters m !! name).

Definition Inc (name : str) (m : Metrics) : Metrics :=
  let v := ((Metrics_Get m name + 1) mod 2 ^ 64)%Z in
  mkMetrics (<[name := v]> (counters m)) (has_OnEvent m)
    (if has_OnEvent m then m_events m ++ [(name, v)] else m_events m).

Definition Snapshot (m : Metrics) : gmap str Z := counters m.

Lemma Metrics_Get_Inc name name' m :
  Metrics_Get (Inc name m) name' = if name == name' then ((Metrics_Get m name + 1) mod 2 ^ 64)%Z else Metrics_Get m name'.
Proof.
  unfold Metrics_Get at 1, Inc. cbn [counters]. case_test; [subst; by rewrite lookup_insert_eq|by rewrite lookup_insert_ne].
Qed.
