(* ===== verification/Ids.v ===== *)
(** * Random identifiers: branches, call identifiers, tags

    [NewBranch] and [NewCallID] of transaction.go and [NewTag] of dialog.go.  The
    bytes [rand.Read] fills the buffer with are an argument, [Err] when it fails;
    so are the clock, the process id and the counter of the fallbacks. *)

From S2P Require Import Prelude GoStrings.

(** [hex.EncodeToString] of bytes. *)
Definition hex_digit (n : N) : ascii := digit_char n.

Definition EncodeToString (b : list N) : str :=
  concat (map (λ x, [hex_digit (x / 16); hex_digit (x mod 16)]%N) b).

(** A number in hexadecimal, padded to [width] digits: the verb [%0<width>x]. *)
Definition pad_hex (width : nat) (n : N) : str :=
  let d := FormatUint n 16 in replicate (width - length d) "0"%char ++ d.

Definition magic_cookie : str := "z9hG4bK".

Definition NewBranch (rnd : result (list N)) (nano pid counter : N) : str :=
  match rnd with
  | Ok b => magic_cookie ++ EncodeToString b
  | Err _ => magic_cookie ++ pad_hex 16 nano ++ pad_hex 8 pid ++ pad_hex 4 (N.land counter 65535)
  end.

Definition NewCallID (rnd : result (list N)) (nano : N) : str :=
  match rnd with
  | Ok b => EncodeToString b ++ "@localhost"
  | Err _ => FormatUint nano 10 ++ "@localhost"
  end.

Definition NewTag (rnd : result (list N)) (nano : N) : str :=
  match rnd with Ok b => EncodeToString b | Err _ => FormatUint nano 10 end.

(** ** Different bytes give different identifiers *)

Definition is_byte (n : N) : bool := (n <? 256)%N.

Lemma hex_digit_inj a b : (a < 16)%N → (b < 16)%N → hex_digit a = hex_digit b → a = b.
Proof.
  intros Ha Hb H. apply (f_equal digit_val) in H. unfold hex_digit in H.
  rewrite !digit_val_char in H by done. by simplify_eq.
Qed.

Lemma EncodeToString_inj a b :
  forallb is_byte a → forallb is_byte b → EncodeToString a = EncodeToString b → a = b.
Proof.
  revert b. induction a as [|x a IH]; intros [|y b] Ha Hb H; try done.
  cbn [forallb] in *. apply andb_True in Ha as [Hx Ha], Hb as [Hy Hb].
  apply Is_true_true, N.ltb_lt in Hx, Hy. unfold EncodeToString in H. cbn [map concat app] in H.
  injection H as H1 H2 H. f_equal; [|by apply IH].
  apply hex_digit_inj in H1, H2; [|try (apply N.Div0.div_lt_upper_bound; lia); by apply N.mod_lt..].
  rewrite (N.div_mod x 16), (N.div_mod y 16) by done. by rewrite H1, H2.
Qed.

Lemma EncodeToString_alnum b : forallb is_byte b → all is_alnum (EncodeToString b).
Proof.
  induction b as [|x b IH]; cbn [forallb]; [done|]. intros H. apply andb_True in H as [Hx Hb].
  apply Is_true_true, N.ltb_lt in Hx. unfold EncodeToString in *. cbn [map concat app all forallb].
  fold (all is_alnum (concat (map (λ x, [hex_digit (x / 16); hex_digit (x mod 16)]%N) b))).
  rewrite !andb_True. split_and!; [..|by apply IH]; apply digit_char_alnum;
    [apply N.Div0.div_lt_upper_bound; lia|by apply N.mod_lt].
Qed.

Lemma NewBranch_inj a b n p c n' p' c' :
  forallb is_byte a → forallb is_byte b → NewBranch (Ok a) n p c = NewBranch (Ok b) n' p' c' → a = b.
Proof. intros Ha Hb H. by apply app_inv_head, EncodeToString_inj in H. Qed.

Lemma NewTag_inj a b n n' :
  forallb is_byte a → forallb is_byte b → NewTag (Ok a) n = NewTag (Ok b) n' → a = b.
Proof. intros Ha Hb H. by apply EncodeToString_inj in H. Qed.

Lemma NewCallID_inj a b n n' :
  forallb is_byte a → forallb is_byte b → NewCallID (Ok a) n = NewCallID (Ok b) n' → a = b.
Proof. intros Ha Hb H. by apply app_inv_tail, EncodeToString_inj in H. Qed.
