(* ===== verification/Transaction.v ===== *)
(** * [transaction.go]: client and server transactions

    The manager keeps a store of transaction objects, indexed by pointer, and the
    table [txs] from keys to pointers: a transaction that left the table is still
    an object with timers.  Goroutines and [time.AfterFunc] callbacks are tasks
    with a due time.  What a call does outside the manager (messages sent,
    callbacks, channel deliveries) is the [trace].  The transport is the class
    [Sender]: each send may succeed or fail. *)

From S2P Require Import Prelude GoStrings Params Uri Headers HeadersMap Message Net Transport Ids.

(** ** The state monad of the manager *)

Definition state (S A : Type) : Type := S → A * S.

#[export] Instance state_ret {S} : MRet (state S) := λ A a s, (a, s).
#[export] Instance state_bind {S} : MBind (state S) := λ A B f m s, let '(a, s) := m s in f a s.

Definition modify {S} (f : S → S) : state S () := λ s, ((), f s).
Definition gets {S A} (f : S → A) : state S A := λ s, (f s, s).
Definition when {S} (b : bool) (m : state S ()) : state S () := if b then m else mret ().

(** ** Data *)

Record TxConfig := mkTxConfig { T1 : Z; T2 : Z; TimerD : Z; TimerF : Z; TimerJ : Z }.

(** Durations are nanoseconds. *)
Definition Millisecond : Z := 10 ^ 6.
Definition Second : Z := 10 ^ 9.

Definition DefaultTxConfig : TxConfig :=
  mkTxConfig (500 * Millisecond) (4 * Second) (32 * Second) (32 * Second) (32 * Second).

Inductive TxState :=
| TxStateIdle | TxStateCalling | TxStateTrying | TxStateProceeding
| TxStateCompleted | TxStateConfirmed | TxStateTerminated.

#[export] Instance TxState_eq_dec : EqDecision TxState.
Proof. solve_decision. Defined.

Definition TxState_String (s : TxState) : str :=
  match s with
  | TxStateIdle => "idle" | TxStateCalling => "calling" | TxStateTrying => "trying"
  | TxStateProceeding => "proceeding" | TxStateCompleted => "completed"
  | TxStateConfirmed => "confirmed" | TxStateTerminated => "terminated"
  end.

Inductive TxEvent := EvResponse (r : Response) | EvErr (e : GoError).

#[export] Instance TxEvent_eq_dec : EqDecision TxEvent.
Proof. solve_decision. Defined.

(** The capacity of [events]. *)
Definition events_cap : nat := 64.

(** [terminated] and [stop] are channels that are only ever closed. *)
Record ClientTx := mkClientTx {
  c_req : Request; c_key : str; c_dst : Addr; c_state : TxState;
  c_events : list TxEvent; c_terminated : bool; c_stop : bool
}.

Record ServerTx := mkServerTx {
  s_req : Request; s_key : str; s_src : Addr; s_state : TxState;
  s_final : option Response; s_terminated : bool; s_stop : bool
}.

(** The [Transaction] interface. *)
Inductive Tx := CTx (t : ClientTx) | STx (t : ServerTx).

Definition Tx_Key (t : Tx) : str := match t with CTx c => c_key c | STx s => s_key s end.
Definition Tx_State (t : Tx) : TxState := match t with CTx c => c_state c | STx s => s_state s end.

Inductive task :=
| TRetransmit (p : nat) (interval capInterval elapsed : Z)  (* the goroutine of ClientTx.startRetransmit *)
| TFinal (p : nat) (interval : Z)                           (* the goroutine of startFinalRetransmit *)
| TFinish (p : nat).                                        (* schedule(d, t.finish) *)

Inductive effect :=
| ESend (msg : Message) (dst : Addr) (sent : bool)
| EOnRequest (req : Request) (src : Addr) (stx : option nat)
| EOnResponse (resp : Response) (src : Addr) (ctx : nat)
| EOnError (e : GoError) (src : Addr)
| EDeliver (p : nat) (e : TxEvent)
| EInc (name : str)
| EPanic.

Record TxManager := mkTxManager {
  cfg : TxConfig;
  viaHost : str;
  viaPort : Z;
  heap : gmap nat Tx;
  next_ptr : nat;
  txs : gmap str nat;
  tasks : list (Z * task);
  now : Z;
  trace : list effect
}.

Definition NewTxManager (viaHost : str) (viaPort : Z) : TxManager :=
  mkTxManager DefaultTxConfig viaHost viaPort ∅ 0 ∅ [] 0 [].

Abbreviation M := (state TxManager).

(** ** Field updates *)

Definition with_cfg (c : TxConfig) (m : TxManager) : TxManager :=
  mkTxManager c (viaHost m) (viaPort m) (heap m) (next_ptr m) (txs m) (tasks m) (now m) (trace m).
Definition with_heap (h : gmap nat Tx) (m : TxManager) : TxManager :=
  mkTxManager (cfg m) (viaHost m) (viaPort m) h (next_ptr m) (txs m) (tasks m) (now m) (trace m).
Definition with_txs (t : gmap str nat) (m : TxManager) : TxManager :=
  mkTxManager (cfg m) (viaHost m) (viaPort m) (heap m) (next_ptr m) t (tasks m) (now m) (trace m).
Definition with_tasks (l : list (Z * task)) (m : TxManager) : TxManager :=
  mkTxManager (cfg m) (viaHost m) (viaPort m) (heap m) (next_ptr m) (txs m) l (now m) (trace m).
Definition with_now (t : Z) (m : TxManager) : TxManager :=
  mkTxManager (cfg m) (viaHost m) (viaPort m) (heap m) (next_ptr m) (txs m) (tasks m) t (trace m).
Definition with_trace (l : list effect) (m : TxManager) : TxManager :=
  mkTxManager (cfg m) (viaHost m) (viaPort m) (heap m) (next_ptr m) (txs m) (tasks m) (now m) l.

(** A new object, and the pointer to it. *)
Definition alloc (t : Tx) : M nat := λ m,
  (next_ptr m,
   mkTxManager (cfg m) (viaHost m) (viaPort m) (<[next_ptr m := t]> (heap m)) (S (next_ptr m)) (txs m)
     (tasks m) (now m) (trace m)).

Definition put_tx (p : nat) (t : Tx) : M () := modify (λ m, with_heap (<[p := t]> (heap m)) m).
Definition emit (e : effect) : M () := modify (λ m, with_trace (trace m ++ [e]) m).
Definition add_task (d : Z) (k : task) : M () := modify (λ m, with_tasks (tasks m ++ [((now m + d)%Z, k)]) m).

Definition get_client (p : nat) : M (option ClientTx) :=
  gets (λ m, match heap m !! p with Some (CTx t) => Some t | _ => None end).
Definition get_server (p : nat) : M (option ServerTx) :=
  gets (λ m, match heap m !! p with Some (STx t) => Some t | _ => None end).

(** The type assertions on [m.txs[key]]: the pointer, when it is of that type. *)
Definition lookup_client (key : str) : M (option nat) :=
  gets (λ m, p ← txs m !! key; match heap m !! p with Some (CTx _) => Some p | _ => None end).
Definition lookup_server (key : str) : M (option nat) :=
  gets (λ m, p ← txs m !! key; match heap m !! p with Some (STx _) => Some p | _ => None end).

Definition set_table (key : str) (p : nat) : M () := modify (λ m, with_txs (<[key := p]> (txs m)) m).

Definition remove (key : str) : M () := modify (λ m, with_txs (delete key (txs m)) m).

Definition SetConfig (c : TxConfig) : M () := modify (with_cfg c).

(** [schedule]: a duration that is not positive runs at once. *)
Definition schedule (d : Z) (k : task) : M () := add_task (Z.max 0 d) k.

(** ** Keys *)

Definition viaBranch (h : Headers) : str :=
  match via_of h with Some v => Branch v | None => [] end.

Definition cseq_method (h : Headers) : Method :=
  match cseq_of h with Some c => CSeq_Method c | None => [] end.

Definition tx_key (side : str) (h : Headers) : str :=
  side ++ viaBranch h ++ "|"%char :: cseq_method h.

Definition serverTxKey (req : Request) : str := tx_key "S|" (Req_headers req).
Definition clientTxKey (req : Request) : str := tx_key "C|" (Req_headers req).

(** The key of a response; empty without a Via. *)
Definition clientTxKeyOf (resp : Response) : str :=
  match via_of (Resp_headers resp) with
  | None => []
  | Some _ => tx_key "C|" (Resp_headers resp)
  end.

Definition inviteKey (req : Request) : str := "S|" ++ viaBranch (Req_headers req) ++ "|INVITE".

(** ** Source addresses *)

Definition sameHost (a b : str) : bool :=
  if EqualFold a b then true
  else match ParseIP a, ParseIP b with
       | Some ia, Some ib => ia == ib
       | _, _ => false
       end.

Definition sameAddr (a b : Addr) : bool :=
  if a == b then true else (Addr_Port a == Addr_Port b) && sameHost (Addr_Host a) (Addr_Host b).

(** ** Copies of headers *)

(** [for _, h := range src.All(name) { dst.Add(h.Clone()) }] *)
Definition copy_all (name : str) (src dst : Headers) : Headers :=
  dst ++ map Header_Clone (Headers_All src name).

(** [if h := src.Get(name); h != nil { dst.Add(h.Clone()) }] *)
Definition copy_first (name : str) (src dst : Headers) : Headers :=
  match Headers_Get src name with Some h => Headers_Add dst (Header_Clone h) | None => dst end.

(** [Set(NewHeader("Call-ID", ...))], the CSeq with another method when there is
    one, and [Set(MaxForwards(70))]. *)
Definition set_common (src : Headers) (m : Method) (dst : Headers) : Headers :=
  let dst := Headers_Set dst (NewHeader "Call-ID" (callid_of src)) in
  let dst := match cseq_of src with Some c => Headers_Set dst (HCSeq (mkCSeq (Seq c) m)) | None => dst end in
  Headers_Set dst (HMaxForwards 70).

(** The ACK of [sendACK]; [None] when cloning the missing Via panics. *)
Definition build_ack (req : Request) (resp : Response) : option Request :=
  let h := Req_headers req in
  via ← via_of h;
  let ack := Headers_Add [] (HVia via) in
  let ack := copy_all "Route" h ack in
  let ack := copy_first "From" h ack in
  let ack := copy_first "To" (Resp_headers resp) ack in
  Some (req_with_headers (NewRequest ACK (Req_Uri req)) (set_common h ACK ack)).

(** The CANCEL of [Cancel]. *)
Definition build_cancel (req : Request) : Request :=
  let h := Req_headers req in
  let c := match via_of h with Some v => Headers_Add [] (HVia v) | None => [] end in
  let c := copy_first "From" h c in
  let c := copy_first "To" h c in
  req_with_headers (NewRequest CANCEL (Req_Uri req)) (set_common h CANCEL c).

(** The headers [Respond] fills in from the request. *)
Definition fill_response (req : Request) (resp : Response) : Response :=
  let q := Req_headers req in
  let h := Resp_headers resp in
  let h := match cseq_of q with Some c => Headers_Set h (HCSeq c) | None => h end in
  let h := match via_of q with Some v => Headers_Prepend h (HVia v) | None => h end in
  let missing n h := bool_decide (Headers_Get h n = None) in
  let h := if missing "From" h then copy_first "From" q h else h in
  let h := if missing "To" h then copy_first "To" q h else h in
  let h := if missing "Call-ID" h then Headers_Set h (NewHeader "Call-ID" (callid_of q)) else h in
  let h := if length (Headers_All h "Record-Route") =? 0 then copy_all "Record-Route" q h else h in
  resp_with_headers resp h.

Section Manager.
(** The transport of the manager: whether there is one, its listeners, and the
    outcome of its sends, which the number of the send lets vary. *)
Class Sender := mkSender {
  tp_set : bool;
  tp_udp : bool;
  tp_tcp : bool;
  tp_Send : nat → str → Addr → Message → result unit
}.

Context `{Sender}.

Definition defaultTransport : str :=
  if tp_set then (if tp_udp then "UDP" else if tp_tcp then "TCP" else "UDP") else "UDP".

(** The address [send] passes to the transport. *)
Definition route (msg : Message) (dst : Addr) : Addr :=
  let target := match msg with MReq r => TransportFor <$> Req_Uri r | MResp _ => None end in
  let network := if Network dst == [] then
                   match target with Some (n, _, _) => n | None => lit "udp" end
                 else Network dst in
  match (if Addr_Port dst == 0%Z then target else None) with
  | Some (_, host, port) => mkAddr network host port
  | None => mkAddr network (Addr_Host dst) (Addr_Port dst)
  end.

Definition send (msg : Message) (dst : Addr) : M (result unit) :=
  if negb tp_set then mret (Err ErrTransportClosed)
  else
    let a := route msg dst in
    n ← gets (λ m, length (trace m));
    let r := tp_Send n (Network a) a msg in
    emit (ESend msg a (is_ok r));;
    mret r.

(** ** ClientTx *)

Definition set_client_state (p : nat) (s : TxState) : M () :=
  t ← get_client p;
  match t with
  | Some t => put_tx p (CTx (mkClientTx (c_req t) (c_key t) (c_dst t) s (c_events t) (c_terminated t) (c_stop t)))
  | None => mret ()
  end.

(** A send on the buffered channel, dropped when it is full. *)
Definition deliver (p : nat) (e : TxEvent) : M () :=
  t ← get_client p;
  match t with
  | Some t =>
    if length (c_events t) <? events_cap then
      put_tx p (CTx (mkClientTx (c_req t) (c_key t) (c_dst t) (c_state t) (c_events t ++ [e])
                       (c_terminated t) (c_stop t)));;
      emit (EDeliver p e)
    else emit (EInc "tx_events_dropped")
  | None => mret ()
  end.

(** [finish] of either kind: the entry of the key leaves the table, whichever
    transaction it names. *)
Definition finish (p : nat) : M () :=
  t ← gets (λ m, heap m !! p);
  match t with
  | Some (CTx t) =>
    remove (c_key t);;
    put_tx p (CTx (mkClientTx (c_req t) (c_key t) (c_dst t) (c_state t) (c_events t) true true))
  | Some (STx t) =>
    remove (s_key t);;
    put_tx p (STx (mkServerTx (s_req t) (s_key t) (s_src t) (s_state t) (s_final t) true true))
  | None => mret ()
  end.

Definition over (s : TxState) : bool := (s == TxStateCompleted) || (s == TxStateTerminated).

(** [timeout] does not count a dropped event. *)
Definition timeout (p : nat) : M () :=
  t ← get_client p;
  match t with
  | Some t =>
    if over (c_state t) then mret ()
    else
      when (length (c_events t) <? events_cap) (deliver p (EvErr ErrTimeout));;
      finish p
  | None => mret ()
  end.

(** The two halves of [timeout]: the test under the lock, and what it does once the
    lock is released; a response can be handled in between. *)
Definition timeout_check (p : nat) : M bool :=
  t ← get_client p;
  mret (match t with Some t => negb (over (c_state t)) | None => false end).

Definition timeout_end (p : nat) : M () :=
  t ← get_client p;
  match t with
  | Some t => when (length (c_events t) <? events_cap) (deliver p (EvErr ErrTimeout));; finish p
  | None => mret ()
  end.

(** A request without a Via is dereferenced: [EPanic] is the end of the program, and
    what runs the manager's handler makes a panic of it. *)
Definition sendACK (p : nat) (resp : Response) : M () :=
  t ← get_client p;
  match t with
  | Some t =>
    match build_ack (c_req t) resp with
    | Some ack => _ ← send (MReq ack) (c_dst t); mret ()
    | None => emit EPanic
    end
  | None => mret ()
  end.

Definition receive (p : nat) (resp : Response) : M () :=
  t ← get_client p;
  match t with
  | None => mret ()
  | Some t =>
    c ← gets cfg;
    if (StatusCode resp <? 200)%Z then
      if over (c_state t) then mret ()
      else set_client_state p TxStateProceeding;; deliver p (EvResponse resp)
    else if (StatusCode resp <? 300)%Z then
      if Req_Method (c_req t) == INVITE then
        let wasCompleted := c_state t == TxStateCompleted in
        set_client_state p TxStateCompleted;;
        when (negb wasCompleted)
          (deliver p (EvResponse resp);; schedule (TimerD c) (TFinish p));;
        sendACK p resp
      else
        deliver p (EvResponse resp);; finish p
    else if over (c_state t) then mret ()
    else
      set_client_state p TxStateCompleted;;
      deliver p (EvResponse resp);;
      sendACK p resp;;
      schedule (TimerD c) (TFinish p)
  end.

Definition Cancel (p : nat) : M (result unit) :=
  t ← get_client p;
  match t with
  | Some t =>
    if (c_state t == TxStateProceeding) || (c_state t == TxStateCalling)
    then send (MReq (build_cancel (c_req t))) (c_dst t)
    else mret (Err ErrUnsupported)
  | None => mret (Err ErrUnsupported)
  end.

Definition startRetransmit (p : nat) : M () :=
  t ← get_client p;
  c ← gets cfg;
  match t with
  | Some t => add_task (T1 c) (TRetransmit p (T1 c) (if Req_Method (c_req t) == INVITE then T1 c * 2 else T2 c) 0)
  | None => mret ()
  end.

(** The loop body of [startRetransmit] once its timer fires; a closed [stop]
    wins.  [expired] is what it does after TimerF. *)
Definition retransmit_round (expired : M ()) (p : nat) (interval capInterval elapsed : Z) : M () :=
  t ← get_client p;
  match t with
  | None => mret ()
  | Some t =>
    if c_stop t then mret ()
    else if over (c_state t) then mret ()
    else if (Req_Method (c_req t) == INVITE) && (c_state t == TxStateProceeding) then mret ()
    else
      _ ← send (MReq (c_req t)) (c_dst t);
      c ← gets cfg;
      let elapsed := (elapsed + interval)%Z in
      if (TimerF c <=? elapsed)%Z then expired
      else
        let interval := Z.min (interval * 2) capInterval in
        add_task interval (TRetransmit p interval capInterval elapsed)
  end.

Definition fire_retransmit (p : nat) (interval capInterval elapsed : Z) : M () :=
  retransmit_round (timeout p) p interval capInterval elapsed.

(** ** ServerTx *)

Definition isInvite (t : ServerTx) : bool := Req_Method (s_req t) == INVITE.

Definition put_server (p : nat) (t : ServerTx) (s : TxState) (final : option Response) : M () :=
  put_tx p (STx (mkServerTx (s_req t) (s_key t) (s_src t) s final (s_terminated t) (s_stop t))).

Definition receiveRetransmission (p : nat) : M () :=
  t ← get_server p;
  match t with
  | Some t =>
    match s_final t with
    | Some final =>
      if (s_state t == TxStateCompleted) || (s_state t == TxStateConfirmed)
      then _ ← send (MResp final) (s_src t); mret ()
      else mret ()
    | None => mret ()
    end
  | None => mret ()
  end.

Definition receiveACK (p : nat) : M () :=
  t ← get_server p;
  c ← gets cfg;
  match t with
  | Some t =>
    if negb (isInvite t) then mret ()
    else if s_state t == TxStateCompleted then
      put_server p t TxStateConfirmed (s_final t);;
      schedule (T1 c * 4) (TFinish p)
    else mret ()
  | None => mret ()
  end.

Definition startFinalRetransmit (p : nat) : M () :=
  c ← gets cfg; add_task (T1 c) (TFinal p (T1 c)).

Definition fire_final (p : nat) (interval : Z) : M () :=
  t ← get_server p;
  match t with
  | None => mret ()
  | Some t =>
    if s_stop t then mret ()
    else if s_state t != TxStateCompleted then mret ()
    else match s_final t with
         | None => mret ()
         | Some final =>
           _ ← send (MResp final) (s_src t);
           c ← gets cfg;
           let interval := Z.min (interval * 2) (T2 c) in
           add_task interval (TFinal p interval)
         end
  end.

Definition Respond (p : nat) (resp : Response) : M (result unit) :=
  t ← get_server p;
  c ← gets cfg;
  match t with
  | None => mret (Err ErrTxNotFound)
  | Some t =>
    if (StatusCode resp <? 100)%Z || (699 <? StatusCode resp)%Z then mret (Err ErrInvalidResponse)
    else
      let resp := fill_response (s_req t) resp in
      if (StatusCode resp <? 200)%Z then
        if (s_state t == TxStateCompleted) || (s_state t == TxStateConfirmed) || (s_state t == TxStateTerminated)
        then mret (Err ErrTxTerminated)
        else put_server p t TxStateProceeding (s_final t);; send (MResp resp) (s_src t)
      else match s_final t with
      | Some _ => mret (Ok ())
      | None =>
        put_server p t TxStateCompleted (Some resp);;
        r ← send (MResp resp) (s_src t);
        if isInvite t then
          match r with
          | Err e => mret (Err e)
          | Ok _ => startFinalRetransmit p;; schedule (TimerJ c) (TFinish p);; mret (Ok ())
          end
        else schedule (TimerJ c) (TFinish p);; mret r
      end
  end.

(** ** The manager *)

Definition handleRequest (req : Request) (src : Addr) : M () :=
  let method := cseq_method (Req_headers req) in
  if method == ACK then
    stx ← lookup_server (inviteKey req);
    match stx with
    | Some p => receiveACK p
    | None => emit (EOnRequest req src None)
    end
  else
    spoofed ← (if method == CANCEL then
                 stx ← lookup_server (inviteKey req);
                 match stx with
                 | Some p => t ← get_server p;
                             mret (match t with Some t => negb (sameAddr src (s_src t)) | None => false end)
                 | None => mret false
                 end
               else mret false);
    if spoofed : bool then emit (EOnError ErrTxNotFound src)
    else
      let key := serverTxKey req in
      stx ← lookup_server key;
      match stx with
      | Some p => receiveRetransmission p
      | None =>
        if key == [] then mret ()
        else
          p ← alloc (STx (mkServerTx req key src TxStateProceeding None false false));
          set_table key p;;
          emit (EOnRequest req src (Some p))
      end.

Definition handleResponse (resp : Response) (src : Addr) : M () :=
  let key := clientTxKeyOf resp in
  if key == [] then mret ()
  else
    ctx ← lookup_client key;
    match ctx with
    | Some p => receive p resp;; emit (EOnResponse resp src p)
    | None => emit (EOnError ErrTxNotFound src)
    end.

Definition handlePacket (pkt : Packet) : M () :=
  emit (EInc "packets_received");;
  match Msg pkt with
  | MReq r => handleRequest r (Src pkt)
  | MResp r => handleResponse r (Src pkt)
  end.

(** The headers [Request] fills in; the branch and the call identifier are the
    random ones. *)
Definition prepare_request (req : Request) (branch callid : str) (vh : str) (vp : Z) : Request :=
  let h := Req_headers req in
  let missing n h := bool_decide (Headers_Get h n = None) in
  let h := if bool_decide (via_of h = None) && missing "Via" h then
             let proto := "SIP/2.0/" ++ defaultTransport in
             Headers_Add h (HVia (SetBranch (mkVia proto [] vh vp (Some NewParams)) branch))
           else h in
  let h := if missing "Max-Forwards" h then Headers_Set h (HMaxForwards 70) else h in
  let h := if missing "Call-ID" h then Headers_Set h (NewHeader "Call-ID" callid) else h in
  let h := if missing "CSeq" h then Headers_Set h (HCSeq (mkCSeq 1 (Req_Method req))) else h in
  req_with_headers req h.

(** [Request] up to the send: the transaction is in the table, idle. *)
Definition Request_send (req : Request) (dst : Addr) (branch callid : str) : M (result nat) :=
  vh ← gets viaHost; vp ← gets viaPort;
  let req := prepare_request req branch callid vh vp in
  let key := clientTxKey req in
  exists_ ← gets (λ m, bool_decide (is_Some (txs m !! key)));
  if exists_ : bool then mret (Err ErrTxExists)
  else
    p ← alloc (CTx (mkClientTx req key dst TxStateIdle [] false false));
    set_table key p;;
    r ← send (MReq req) dst;
    match r with
    | Err e => remove key;; mret (Err e)
    | Ok _ => mret (Ok p)
    end.

(** The rest of [Request]. *)
Definition Request_started (p : nat) : M () :=
  t ← get_client p;
  match t with
  | Some t =>
    set_client_state p (if Req_Method (c_req t) == INVITE then TxStateCalling else TxStateTrying);;
    startRetransmit p
  | None => mret ()
  end.

Definition TxManager_Request (req : Request) (dst : Addr) (branch callid : str) : M (result nat) :=
  r ← Request_send req dst branch callid;
  match r with
  | Ok p => Request_started p;; mret (Ok p)
  | Err e => mret (Err e)
  end.

(** ** Steps

    [LRequest] is a call of [Request] that no other goroutine interleaves with;
    [LSend] and [LStarted] are its two halves, for the schedules in which a
    response is handled between them.  [LFire] runs a task to its end; [LExpire] runs
    a retransmission goroutine up to the unlock of its [timeout], and [LTimedOut] the
    rest of it. *)

Definition run_task (k : task) : M () :=
  match k with
  | TRetransmit p i c e => fire_retransmit p i c e
  | TFinal p i => fire_final p i
  | TFinish p => finish p
  end.

(** The [i]-th task runs, when it is due. *)
Definition fire (i : nat) : M () :=
  l ← gets tasks; t ← gets now;
  match l !! i with
  | Some (due, k) => if (due <=? t)%Z then modify (with_tasks (delete i l));; run_task k else mret ()
  | None => mret ()
  end.

(** The [i]-th task, a retransmission goroutine, runs up to the unlock of [timeout]. *)
Definition expire (i : nat) : M () :=
  l ← gets tasks; t ← gets now;
  match l !! i with
  | Some (due, TRetransmit p interval capInterval elapsed) =>
    if (due <=? t)%Z then
      modify (with_tasks (delete i l));;
      retransmit_round (_ ← timeout_check p; mret ()) p interval capInterval elapsed
    else mret ()
  | _ => mret ()
  end.

(** The reader of [Events] takes the oldest event. *)
Definition consume (p : nat) : M () :=
  t ← get_client p;
  match t with
  | Some t => put_tx p (CTx (mkClientTx (c_req t) (c_key t) (c_dst t) (c_state t) (tail (c_events t))
                               (c_terminated t) (c_stop t)))
  | None => mret ()
  end.

Inductive label :=
| LPacket (pkt : Packet)
| LRequest (req : Request) (dst : Addr) (branch callid : str)
| LSend (req : Request) (dst : Addr) (branch callid : str)
| LStarted (p : nat)
| LRespond (p : nat) (resp : Response)
| LCancel (p : nat)
| LConsume (p : nat)
| LConfig (c : TxConfig)
| LFire (i : nat)
| LExpire (i : nat)
| LTimedOut (p : nat)
| LTick (d : Z).

Definition step (l : label) : M () :=
  match l with
  | LPacket pkt => handlePacket pkt
  | LRequest req dst b c => _ ← TxManager_Request req dst b c; mret ()
  | LSend req dst b c => _ ← Request_send req dst b c; mret ()
  | LStarted p => Request_started p
  | LRespond p r => _ ← Respond p r; mret ()
  | LCancel p => _ ← Cancel p; mret ()
  | LConsume p => consume p
  | LConfig c => SetConfig c
  | LFire i => fire i
  | LExpire i => expire i
  | LTimedOut p => timeout_end p
  | LTick d => modify (λ m, with_now (now m + Z.max 0 d)%Z m)
  end.

(** Schedules in which every [Request] and every [timeout] runs undisturbed. *)
Definition undisturbed (l : label) : bool :=
  match l with LSend _ _ _ _ | LStarted _ | LExpire _ | LTimedOut _ => false | _ => true end.

(** The manager after a sequence of steps. *)
Definition exec (m : TxManager) (l : label) : TxManager := snd (step l m).
Definition run (m : TxManager) (ls : list label) : TxManager := fold_left exec ls m.

(** The loop of [Run]: the packets the channel delivers, one after the other; what
    else happens comes between them as labels of [run]. *)
Definition TxManager_Run (m : TxManager) (pkts : list Packet) : TxManager :=
  fold_left (λ m pkt, snd (handlePacket pkt m)) pkts m.

Inductive reachable (vh : str) (vp : Z) : TxManager → Prop :=
| reach_init : reachable vh vp (NewTxManager vh vp)
| reach_step m l : reachable vh vp m → reachable vh vp (exec m l).
End Manager.

(** [timeout] is its two halves, with nothing in between. *)
Lemma timeout_halves p m : timeout p m = (go ← timeout_check p; when go (timeout_end p)) m.
Proof.
  unfold timeout, timeout_check, timeout_end, get_client, gets, mbind, state_bind, mret, state_ret. cbn beta iota.
  destruct (heap m !! p) as [[t|t]|] eqn:Hp; [|done..]. destruct (over (c_state t)); [done|]. cbn [negb when]. by rewrite Hp.
Qed.

(** [Run] makes the steps of its packets. *)
Lemma TxManager_Run_run `{Sender} m pkts : TxManager_Run m pkts = run m (map LPacket pkts).
Proof. unfold run. revert m. induction pkts as [|pkt pkts IH]; intros m; [done|]. cbn. by rewrite <-IH. Qed.

(** ** A logic of invariants

    [keeps I m]: the computation [m] preserves [I].  Sequencing composes; the
    database [keeps] holds the rules. *)

Definition keeps {S A} (I : S → Prop) (m : state S A) : Prop := ∀ s, I s → I (snd (m s)).

Lemma keeps_ret {S A} (I : S → Prop) (a : A) : keeps I (mret a).
Proof. by intros s. Qed.

Lemma keeps_bind {S A B} (I : S → Prop) (m : state S A) (k : A → state S B) :
  keeps I m → (∀ a, keeps I (k a)) → keeps I (m ≫= k).
Proof.
  intros Hm Hk s Hs. unfold mbind, state_bind. specialize (Hm s Hs). destruct (m s) as [a s']. by apply Hk.
Qed.

Lemma run_bind {S A B} (I : S → Prop) (m : state S A) (k : A → state S B) s :
  I (snd (m s)) → (∀ a, keeps I (k a)) → I (snd ((m ≫= k) s)).
Proof. intros Hm Hk. unfold mbind, state_bind. destruct (m s) as [a s']. by apply Hk. Qed.

Lemma run_gets {S A B} (f : S → A) (k : A → state S B) s : (gets f ≫= k) s = k (f s) s.
Proof. done. Qed.

Lemma keeps_gets {S A} (I : S → Prop) (f : S → A) : keeps I (gets f).
Proof. by intros s. Qed.

Lemma keeps_when {S} (I : S → Prop) b (m : state S ()) : keeps I m → keeps I (when b m).
Proof. intros H. destruct b; [exact H|apply keeps_ret]. Qed.

Lemma keeps_modify {S} (I : S → Prop) (f : S → S) : (∀ s, I s → I (f s)) → keeps I (modify f).
Proof. intros H s Hs. by apply H. Qed.

(** Reading an object: the rest may use what was read. *)
Lemma keeps_get_client {A} (I : TxManager → Prop) p (k : option ClientTx → M A) :
  (∀ t s, I s → heap s !! p = Some (CTx t) → I (snd (k (Some t) s))) → keeps I (k None) →
  keeps I (get_client p ≫= k).
Proof.
  intros HS HN s Hs. unfold mbind, state_bind, get_client, gets.
  destruct (heap s !! p) as [[t|t]|] eqn:E; [by apply HS|by apply HN..].
Qed.

Lemma keeps_get_server {A} (I : TxManager → Prop) p (k : option ServerTx → M A) :
  (∀ t s, I s → heap s !! p = Some (STx t) → I (snd (k (Some t) s))) → keeps I (k None) →
  keeps I (get_server p ≫= k).
Proof.
  intros HS HN s Hs. unfold mbind, state_bind, get_server, gets.
  destruct (heap s !! p) as [[t|t]|] eqn:E; [by apply HN|by apply HS|by apply HN].
Qed.

Create HintDb keeps.
#[export] Hint Resolve keeps_ret keeps_gets : keeps.
#[export] Hint Extern 1 (keeps _ (get_client _)) => apply keeps_gets : keeps.
#[export] Hint Extern 1 (keeps _ (get_server _)) => apply keeps_gets : keeps.
#[export] Hint Extern 1 (keeps _ (lookup_client _)) => apply keeps_gets : keeps.
#[export] Hint Extern 1 (keeps _ (lookup_server _)) => apply keeps_gets : keeps.

(** Follow the structure of a computation. *)
Ltac keeps_step :=
  match goal with
  | |- keeps _ (mret _) => apply keeps_ret
  | |- keeps _ (gets _) => apply keeps_gets
  | |- keeps _ (when _ _) => apply keeps_when
  | |- keeps _ (mbind _ _) => apply keeps_bind; [|intros ?]
  | |- keeps _ (if ?b then _ else _) => destruct b
  | |- keeps _ (match ?x with _ => _ end) => destruct x
  end.
Ltac keeps_auto := repeat first [solve [auto with keeps] | keeps_step].
