(* ===== verification/TxMachines.v ===== *)
(** * What the manager writes to its transactions

    The single writes of the manager to an object: [client_write] and [server_move].
    Whatever the manager does is a sequence of them, and objects are only ever added
    ([closed_step]); invariants of the manager are proved by showing them closed
    under these writes.  The machine that a client follows, whose steps are groups
    of writes, is in TxRefinement. *)

From S2P Require Import Prelude GoStrings Params Uri Headers HeadersMap Message Net Transport Ids Transaction.

Definition client_with (t : ClientTx) (s : TxState) (ev : list TxEvent) (stop : bool) : ClientTx :=
  mkClientTx (c_req t) (c_key t) (c_dst t) s ev (c_terminated t || stop) (c_stop t || stop).

Definition client_invite (t : ClientTx) : bool := Req_Method (c_req t) == INVITE.

(** Moves of a client that deliver nothing: the reader takes an event; the
    transaction finishes. *)
Inductive client_quiet (t : ClientTx) : ClientTx → Prop :=
| cq_read : client_quiet t (client_with t (c_state t) (tail (c_events t)) false)
| cq_finish : client_quiet t (client_with t (c_state t) (c_events t) true).

(** One write to a client object.  What guards a write is in the operation that makes
    it: here only what holds of each write on its own. *)
Inductive client_write (t : ClientTx) : ClientTx → Prop :=
| cw_quiet t' : client_quiet t t' → client_write t t'
| cw_started :
    client_write t (client_with t (if client_invite t then TxStateCalling else TxStateTrying) (c_events t) false)
| cw_proceeding :
    over (c_state t) = false → client_write t (client_with t TxStateProceeding (c_events t) false)
| cw_completed :
    client_invite t ∨ over (c_state t) = false →
    client_write t (client_with t TxStateCompleted (c_events t) false)
| cw_event e :
    length (c_events t) < events_cap → client_write t (client_with t (c_state t) (c_events t ++ [e]) false).

Definition server_with (t : ServerTx) (s : TxState) (final : option Response) (stop : bool) : ServerTx :=
  mkServerTx (s_req t) (s_key t) (s_src t) s final (s_terminated t || stop) (s_stop t || stop).

(** The server machine: one final response, then, for an INVITE, the ACK. *)
Inductive server_act (t : ServerTx) : ServerTx → Prop :=
| sa_provisional :
    s_state t ∉ [TxStateCompleted; TxStateConfirmed; TxStateTerminated] →
    server_act t (server_with t TxStateProceeding (s_final t) false)
| sa_final r :
    s_final t = None → (200 ≤ StatusCode r ≤ 699)%Z →
    server_act t (server_with t TxStateCompleted (Some r) false)
| sa_ack :
    isInvite t → s_state t = TxStateCompleted →
    server_act t (server_with t TxStateConfirmed (s_final t) false).

Definition server_stopped (t : ServerTx) : ServerTx := server_with t (s_state t) (s_final t) true.
Definition client_stopped (t : ClientTx) : ClientTx := client_with t (c_state t) (c_events t) true.

Inductive server_move (t : ServerTx) : ServerTx → Prop :=
| sm_act t' : server_act t t' → server_move t t'
| sm_finish : server_move t (server_stopped t).

(** What a transaction is when it enters the table under its key. *)
Inductive fresh_tx : Tx → Prop :=
| fresh_client req dst : fresh_tx (CTx (mkClientTx req (clientTxKey req) dst TxStateIdle [] false false))
| fresh_server req src : fresh_tx (STx (mkServerTx req (serverTxKey req) src TxStateProceeding None false false)).

Definition add_tx (t : Tx) (m : TxManager) : TxManager :=
  snd ((p ← alloc t; set_table (Tx_Key t) p) m).

Definition set_tx (p : nat) (t : Tx) (m : TxManager) : TxManager := with_heap (<[p := t]> (heap m)) m.

Definition is_delivery (e : effect) : bool := match e with EDeliver _ _ => true | _ => false end.

(** The events put into the channels so far. *)
Definition deliveries (m : TxManager) : list effect := List.filter is_delivery (trace m).

(** A property of managers that every write without a delivery preserves, the stop
    of a transaction excepted. *)
Record calm_closed (I : TxManager → Prop) : Prop := {
  q_ext m m' : heap m' = heap m → txs m' = txs m → next_ptr m' = next_ptr m → deliveries m' = deliveries m → I m → I m';
  q_remove m k : I m → I (with_txs (delete k (txs m)) m);
  q_read m p t : I m → heap m !! p = Some (CTx t) → I (set_tx p (CTx (client_with t (c_state t) (tail (c_events t)) false)) m);
  q_act m p t t' : I m → heap m !! p = Some (STx t) → server_act t t' → I (set_tx p (STx t') m);
  q_new m t : I m → fresh_tx t → I (add_tx t m)
}.

(** The stop included. *)
Record quiet_closed (I : TxManager → Prop) : Prop := {
  q_calm :> calm_closed I;
  q_stop_client m p t : I m → heap m !! p = Some (CTx t) → I (set_tx p (CTx (client_stopped t)) m);
  q_stop_server m p t : I m → heap m !! p = Some (STx t) → I (set_tx p (STx (server_stopped t)) m)
}.

Lemma q_client I (HI : quiet_closed I) m p t t' :
  I m → heap m !! p = Some (CTx t) → client_quiet t t' → I (set_tx p (CTx t') m).
Proof. intros Hm Hp []; [by apply (q_read _ HI)|by apply (q_stop_client _ HI)]. Qed.

Lemma q_server I (HI : quiet_closed I) m p t t' :
  I m → heap m !! p = Some (STx t) → server_move t t' → I (set_tx p (STx t') m).
Proof. intros Hm Hp []; [by eapply (q_act _ HI)|by apply (q_stop_server _ HI)]. Qed.

Lemma quiet_intro (I : TxManager → Prop) :
  (∀ m m', heap m' = heap m → txs m' = txs m → next_ptr m' = next_ptr m → deliveries m' = deliveries m → I m → I m') →
  (∀ m k, I m → I (with_txs (delete k (txs m)) m)) →
  (∀ m p t t', I m → heap m !! p = Some (CTx t) → client_quiet t t' → I (set_tx p (CTx t') m)) →
  (∀ m p t t', I m → heap m !! p = Some (STx t) → server_move t t' → I (set_tx p (STx t') m)) →
  (∀ m t, I m → fresh_tx t → I (add_tx t m)) → quiet_closed I.
Proof.
  intros H1 H2 H3 H4 H5. split; [split; try done|..].
  - intros m p t Hm Hp. eapply H3; [done..|]. apply cq_read.
  - intros m p t t' Hm Hp Ht. eapply H4; [done..|]. by apply sm_act.
  - intros m p t Hm Hp. eapply H3; [done..|]. apply cq_finish.
  - intros m p t Hm Hp. eapply H4; [done..|]. apply sm_finish.
Qed.

(** A property that every move preserves, whatever is delivered. *)
Record tx_closed (I : TxManager → Prop) : Prop := {
  cl_ext m m' : heap m' = heap m → txs m' = txs m → next_ptr m' = next_ptr m → I m → I m';
  cl_remove m k : I m → I (with_txs (delete k (txs m)) m);
  cl_client m p t t' : I m → heap m !! p = Some (CTx t) → client_write t t' → I (set_tx p (CTx t') m);
  cl_server m p t t' : I m → heap m !! p = Some (STx t) → server_move t t' → I (set_tx p (STx t') m);
  cl_new m t : I m → fresh_tx t → I (add_tx t m)
}.

Lemma tx_closed_quiet I : tx_closed I → quiet_closed I.
Proof. intros [H1 H2 H3 H4 H5]. apply quiet_intro; eauto using client_write. Qed.

Lemma client_with_self t s ev :
  client_with t s ev false = mkClientTx (c_req t) (c_key t) (c_dst t) s ev (c_terminated t) (c_stop t).
Proof. unfold client_with. by rewrite !orb_false_r. Qed.

Lemma server_with_self t s f :
  server_with t s f false = mkServerTx (s_req t) (s_key t) (s_src t) s f (s_terminated t) (s_stop t).
Proof. unfold server_with. by rewrite !orb_false_r. Qed.

Lemma client_with_stop t :
  client_with t (c_state t) (c_events t) true = mkClientTx (c_req t) (c_key t) (c_dst t) (c_state t) (c_events t) true true.
Proof. unfold client_with. by rewrite !orb_true_r. Qed.

Lemma server_with_stop t :
  server_with t (s_state t) (s_final t) true = mkServerTx (s_req t) (s_key t) (s_src t) (s_state t) (s_final t) true true.
Proof. unfold server_with. by rewrite !orb_true_r. Qed.

Section Calm.
Context `{Sender} (I : TxManager → Prop) (HI : calm_closed I).

Lemma quiet_emit e : is_delivery e = false → keeps I (emit e).
Proof.
  intros He. apply keeps_modify. intros s Hs. apply (q_ext _ HI s); [done..| |done].
  unfold deliveries. simpl. rewrite List.filter_app. simpl. by rewrite He, app_nil_r.
Qed.

Lemma quiet_add_task d k : keeps I (add_task d k).
Proof. apply keeps_modify. intros s Hs. by apply (q_ext _ HI s). Qed.

Lemma quiet_schedule d k : keeps I (schedule d k).
Proof. apply quiet_add_task. Qed.

Lemma quiet_remove k : keeps I (remove k).
Proof. apply keeps_modify. intros s Hs. by apply (q_remove _ HI). Qed.

Hint Extern 1 (keeps I (emit _)) => apply quiet_emit; reflexivity : keeps.

Lemma quiet_send msg dst : keeps I (send msg dst).
Proof. unfold send. keeps_auto. Qed.

Hint Resolve quiet_add_task quiet_schedule quiet_remove quiet_send : keeps.

Lemma quiet_sendACK p r : keeps I (sendACK p r).
Proof. unfold sendACK. keeps_auto. Qed.

Lemma quiet_Cancel p : keeps I (Cancel p).
Proof. unfold Cancel. keeps_auto. Qed.

Lemma quiet_startRetransmit p : keeps I (startRetransmit p).
Proof. unfold startRetransmit. keeps_auto. Qed.

Lemma quiet_receiveRetransmission p : keeps I (receiveRetransmission p).
Proof. unfold receiveRetransmission. keeps_auto. Qed.

Lemma quiet_fire_final p i : keeps I (fire_final p i).
Proof. unfold fire_final. keeps_auto. Qed.

Lemma run_put_server p s f t m :
  I m → heap m !! p = Some (STx t) → server_act t (server_with t s f false) →
  I (snd (put_server p t s f m)).
Proof. intros Hm Hp Ht. unfold put_server. rewrite <-server_with_self. by eapply (q_act _ HI). Qed.

Lemma quiet_receiveACK p : keeps I (receiveACK p).
Proof.
  apply keeps_get_server; [|keeps_auto]. intros t m Hm Hp. rewrite run_gets.
  destruct (negb (isInvite t)) eqn:Hi; [done|]. apply negb_false_iff in Hi.
  destruct (s_state t == TxStateCompleted) eqn:Hs; [|done]. apply bool_decide_eq_true in Hs.
  apply (run_bind I); [|intros; keeps_auto]. eapply run_put_server; [done..|].
  constructor; [by rewrite Hi|done].
Qed.

Lemma fill_response_status q r : StatusCode (fill_response q r) = StatusCode r.
Proof. done. Qed.

Lemma quiet_Respond p r : keeps I (Respond p r).
Proof.
  apply keeps_get_server; [|keeps_auto]. intros t m Hm Hp. rewrite run_gets.
  destruct ((StatusCode r <? 100)%Z || _) eqn:Hrange; [done|]. cbv zeta. rewrite !fill_response_status.
  apply orb_false_iff in Hrange as [Hlo Hhi]. destruct (StatusCode r <? 200)%Z eqn:Hcode.
  - destruct (_ || _) eqn:Hover; [done|]. apply (run_bind I); [|intros; keeps_auto].
    eapply run_put_server; [done..|]. constructor. intros Hin.
    rewrite !elem_of_cons in Hin. destruct Hin as [E|[E|[E|E]]]; [..|by apply not_elem_of_nil in E];
      by rewrite E in Hover.
  - destruct (s_final t) as [f|] eqn:Hf; [done|].
    apply (run_bind I); [|intros; unfold startFinalRetransmit; keeps_auto].
    eapply run_put_server; [done..|]. constructor; [done|]. rewrite fill_response_status. lia.
Qed.

Lemma quiet_new_tx {A} t (k : nat → M A) :
  fresh_tx t → (∀ p, keeps I (k p)) → keeps I (p ← alloc t; set_table (Tx_Key t) p;; k p).
Proof. intros Ht Hr m Hm. apply (Hr (next_ptr m)). by apply (q_new _ HI). Qed.

Hint Resolve quiet_sendACK quiet_Cancel quiet_startRetransmit quiet_receiveRetransmission
  quiet_fire_final quiet_receiveACK quiet_Respond : keeps.

Lemma quiet_handleRequest req src : keeps I (handleRequest req src).
Proof.
  unfold handleRequest. destruct (_ == ACK); [keeps_auto|]. apply keeps_bind; [keeps_auto|]. intros spoofed.
  destruct spoofed; [keeps_auto|]. apply keeps_bind; [keeps_auto|]. intros [p|]; [keeps_auto|].
  destruct (_ == []); [keeps_auto|]. apply quiet_new_tx; [constructor|intros; keeps_auto].
Qed.

Lemma quiet_Request_send req dst b c : keeps I (Request_send req dst b c).
Proof.
  unfold Request_send. do 2 (apply keeps_bind; [keeps_auto|intros ?]).
  apply keeps_bind; [keeps_auto|]. intros [|]; [keeps_auto|].
  apply quiet_new_tx; [constructor|intros; keeps_auto].
Qed.

Lemma quiet_consume p : keeps I (consume p).
Proof.
  apply keeps_get_client; [|keeps_auto]. intros t m Hm Hp. rewrite <-client_with_self. by apply (q_read _ HI).
Qed.

(** A round of the retransmission goroutine, whatever ends it. *)
Lemma quiet_round x p i c e : keeps I x → keeps I (retransmit_round x p i c e).
Proof. intros Hx. unfold retransmit_round. keeps_auto. Qed.

Lemma quiet_expire i : keeps I (expire i).
Proof.
  unfold expire. do 2 (apply keeps_bind; [keeps_auto|intros ?]). destruct (_ !! i) as [[due k]|]; [|keeps_auto].
  destruct k; [|keeps_auto..]. destruct (due <=? _)%Z; [|keeps_auto].
  apply keeps_bind; [apply keeps_modify; intros s Hs; by apply (q_ext _ HI s)|].
  intros _. apply quiet_round. unfold timeout_check. keeps_auto.
Qed.

Hint Resolve quiet_handleRequest quiet_consume quiet_expire : keeps.

(** A step preserves the property when the operations that deliver, stop or start
    do. *)
Lemma calm_step l :
  (∀ resp src, keeps I (handleResponse resp src)) →
  (∀ i, keeps I (fire i)) →
  match l with
  | LRequest req dst b c => keeps I (TxManager_Request req dst b c)
  | LStarted p => keeps I (Request_started p)
  | LTimedOut p => keeps I (timeout_end p)
  | _ => True
  end → keeps I (step l).
Proof.
  intros Hresp Hfire Hreq. destruct l as [[msg src]|req dst b c|req dst b c|p|p r|p|p|c|i|i|p|d]; simpl in *; try (by keeps_auto).
  - unfold handlePacket. simpl. keeps_auto.
  - apply keeps_bind; [apply quiet_Request_send|intros; keeps_auto].
  - apply keeps_modify. intros s Hs. by apply (q_ext _ HI s).
  - apply keeps_modify. intros s Hs. by apply (q_ext _ HI s).
Qed.
End Calm.

Section Quiet.
Context `{Sender} (I : TxManager → Prop) (HI : quiet_closed I).

Lemma quiet_finish p : keeps I (finish p).
Proof.
  intros m Hm. unfold finish. rewrite run_gets. destruct (heap m !! p) as [[t|t]|] eqn:Hp; [..|done].
  - pose proof (quiet_remove I HI (c_key t) m Hm) as Hm'. rewrite <-client_with_stop.
    by apply (q_stop_client _ HI _ _ _ Hm').
  - pose proof (quiet_remove I HI (s_key t) m Hm) as Hm'. rewrite <-server_with_stop.
    by apply (q_stop_server _ HI _ _ _ Hm').
Qed.

Lemma quiet_fire i : (∀ p, keeps I (timeout p)) → keeps I (fire i).
Proof.
  intros Ht. unfold fire. do 2 (apply keeps_bind; [apply keeps_gets|intros ?]).
  destruct (_ !! i) as [[due k]|]; [|apply keeps_ret]. destruct (due <=? _)%Z; [|apply keeps_ret].
  apply keeps_bind; [apply keeps_modify; intros s Hs; by apply (q_ext _ HI s)|]. intros _.
  destruct k as [p j c e|p j|p]; [by apply (quiet_round I HI)|by apply (quiet_fire_final I HI)|apply quiet_finish].
Qed.

(** A step preserves the property when the operations that deliver or start do. *)
Lemma quiet_step l :
  (∀ resp src, keeps I (handleResponse resp src)) → (∀ p, keeps I (timeout p)) →
  match l with
  | LRequest req dst b c => keeps I (TxManager_Request req dst b c)
  | LStarted p => keeps I (Request_started p)
  | LTimedOut p => keeps I (timeout_end p)
  | _ => True
  end → keeps I (step l).
Proof. intros Hresp Ht Hreq. apply (calm_step I HI); [done|intros i; by apply quiet_fire|done]. Qed.
End Quiet.

Section Closed.
Context `{Sender} (I : TxManager → Prop) (HI : tx_closed I).

Let HQ : quiet_closed I := tx_closed_quiet I HI.

Hint Extern 1 (keeps I (finish _)) => apply (quiet_finish I HQ) : keeps.
Hint Extern 1 (keeps I (send _ _)) => apply (quiet_send I HQ) : keeps.
Hint Extern 1 (keeps I (sendACK _ _)) => apply (quiet_sendACK I HQ) : keeps.
Hint Extern 1 (keeps I (schedule _ _)) => apply (quiet_schedule I HQ) : keeps.
Hint Extern 1 (keeps I (add_task _ _)) => apply (quiet_add_task I HQ) : keeps.
Hint Extern 1 (keeps I (startRetransmit _)) => apply (quiet_startRetransmit I HQ) : keeps.

Lemma closed_emit e : keeps I (emit e).
Proof. apply keeps_modify. intros s Hs. by apply (cl_ext _ HI s). Qed.
Hint Resolve closed_emit : keeps.

Lemma run_set_client_state p s t m :
  I m → heap m !! p = Some (CTx t) → client_write t (client_with t s (c_events t) false) →
  I (snd (set_client_state p s m)).
Proof.
  intros Hm Hp Ht. unfold set_client_state, get_client. rewrite run_gets, Hp, <-client_with_self.
  by eapply (cl_client _ HI).
Qed.

Lemma closed_deliver p e : keeps I (deliver p e).
Proof.
  apply keeps_get_client; [|keeps_auto]. intros t m Hm Hp.
  destruct (length (c_events t) <? events_cap) eqn:Hlen; [|by apply closed_emit].
  apply Nat.ltb_lt in Hlen. apply (run_bind I); [|intros; keeps_auto].
  rewrite <-client_with_self. eapply (cl_client _ HI); [done..|]. by apply cw_event.
Qed.
Hint Resolve closed_deliver : keeps.

Lemma closed_timeout p : keeps I (timeout p).
Proof. unfold timeout. keeps_auto. Qed.

Lemma closed_timeout_end p : keeps I (timeout_end p).
Proof. unfold timeout_end. keeps_auto. Qed.

Lemma closed_receive p r : keeps I (receive p r).
Proof.
  apply keeps_get_client; [|keeps_auto]. intros t m Hm Hp. rewrite run_gets.
  destruct (_ <? 200)%Z; [|destruct (_ <? 300)%Z].
  - destruct (over (c_state t)) eqn:Ho; [done|]. apply (run_bind I); [|intros; keeps_auto].
    eapply run_set_client_state; [done..|by apply cw_proceeding].
  - destruct (_ == INVITE) eqn:Hi; [|apply (run_bind I); [by apply closed_deliver|intros; keeps_auto]].
    apply (run_bind I); [|intros; keeps_auto].
    eapply run_set_client_state; [done..|]. apply cw_completed. left. unfold client_invite. by rewrite Hi.
  - destruct (over (c_state t)) eqn:Ho; [done|]. apply (run_bind I); [|intros; keeps_auto].
    eapply run_set_client_state; [done..|]. apply cw_completed. by right.
Qed.
Hint Resolve closed_receive : keeps.

Lemma closed_handleResponse resp src : keeps I (handleResponse resp src).
Proof. unfold handleResponse. keeps_auto. Qed.

Lemma closed_Request_started p : keeps I (Request_started p).
Proof.
  apply keeps_get_client; [|keeps_auto]. intros t m Hm Hp. apply (run_bind I); [|intros; keeps_auto].
  eapply run_set_client_state; [done..|]. apply cw_started.
Qed.

Lemma closed_Request req dst b c : keeps I (TxManager_Request req dst b c).
Proof.
  unfold TxManager_Request. apply keeps_bind; [apply (quiet_Request_send I HQ)|]. intros [p|]; [|keeps_auto].
  apply keeps_bind; [apply closed_Request_started|intros; keeps_auto].
Qed.

Lemma closed_step l : keeps I (step l).
Proof.
  apply (quiet_step I HQ); [apply closed_handleResponse|apply closed_timeout|].
  destruct l; try done; [apply closed_Request|apply closed_Request_started|apply closed_timeout_end].
Qed.

Lemma closed_run m ls : I m → I (run m ls).
Proof. unfold run. revert m. induction ls as [|l ls IH]; intros m Hm; [done|]. apply IH. by apply closed_step. Qed.

Lemma closed_reachable vh vp m : I (NewTxManager vh vp) → reachable vh vp m → I m.
Proof. intros H0. induction 1 as [|m l Hm IH]; [done|]. by apply closed_step. Qed.
End Closed.
