(* ===== verification/TxInvariants.v ===== *)
(** * Invariants of the transaction layer

    The table and the store agree, and every transaction object is in one of the
    states its kind has; [TxStateTerminated] is not among them: no step sets it. *)

From S2P Require Import Prelude GoStrings Params Uri Headers HeadersMap Message Net Transport Ids Transaction TxMachines.

Definition client_states : list TxState :=
  [TxStateIdle; TxStateCalling; TxStateTrying; TxStateProceeding; TxStateCompleted].

(** A final response answers with a status of 200 to 699. *)
Definition final_ok (r : Response) : Prop := (200 ≤ StatusCode r ≤ 699)%Z.

Definition client_ok (t : ClientTx) : Prop :=
  HasPrefix (c_key t) "C|" ∧ c_state t ∈ client_states ∧ length (c_events t) ≤ events_cap ∧
  c_terminated t = c_stop t.

(** Proceeding without a final response, then Completed with one; only an INVITE
    is ever confirmed. *)
Definition server_ok (t : ServerTx) : Prop :=
  HasPrefix (s_key t) "S|" ∧ s_terminated t = s_stop t ∧
  match s_state t, s_final t with
  | TxStateProceeding, None => True
  | TxStateCompleted, Some r => final_ok r
  | TxStateConfirmed, Some r => final_ok r ∧ isInvite t
  | _, _ => False
  end.

Definition tx_ok (t : Tx) : Prop := match t with CTx c => client_ok c | STx s => server_ok s end.

Record tx_inv (m : TxManager) : Prop := {
  inv_table k p : txs m !! k = Some p → ∃ t, heap m !! p = Some t ∧ Tx_Key t = k;
  inv_heap p t : heap m !! p = Some t → p < next_ptr m ∧ tx_ok t
}.

Lemma tx_inv_put m p t old :
  tx_inv m → heap m !! p = Some old → Tx_Key t = Tx_Key old → tx_ok t → tx_inv (set_tx p t m).
Proof.
  intros [H1 H2] Hp Hk Ht. split; simpl.
  - intros k q Hq. destruct (H1 k q Hq) as (u & Hu & Hku). destruct (decide (p = q)) as [<-|Hne].
    + exists t. rewrite lookup_insert_eq. split; [done|]. congruence.
    + exists u. by rewrite lookup_insert_ne.
  - intros q u. destruct (decide (p = q)) as [<-|Hne].
    + rewrite lookup_insert_eq. intros [= <-]. split; [by eapply H2|done].
    + rewrite lookup_insert_ne by done. apply H2.
Qed.

(** A new transaction enters the store and the table. *)
Lemma tx_inv_new m t : tx_inv m → tx_ok t → tx_inv (add_tx t m).
Proof.
  intros [H1 H2] Ht. split; simpl.
  - intros k p Hp. destruct (decide (Tx_Key t = k)) as [<-|Hne].
    + rewrite lookup_insert_eq in Hp. simplify_eq. exists t. by rewrite lookup_insert_eq.
    + rewrite lookup_insert_ne in Hp by done. destruct (H1 k p Hp) as (u & Hu & Hku). exists u.
      rewrite lookup_insert_ne; [done|]. intros <-. apply H2 in Hu as [Hlt _]. lia.
  - intros p u. destruct (decide (next_ptr m = p)) as [<-|Hne].
    + rewrite lookup_insert_eq. intros [= <-]. split; [lia|done].
    + rewrite lookup_insert_ne by done. intros Hu. apply H2 in Hu as [? ?]. split; [lia|done].
Qed.

Lemma client_ok_quiet t t' : client_ok t → client_quiet t t' → client_ok t'.
Proof.
  intros (Hk & Hs & Hl & Hst) Hm. destruct Hm; split_and!; simpl; rewrite ?Hst; try done.
  destruct (c_events t); simpl in *; lia.
Qed.

Lemma client_ok_move t t' : client_ok t → client_write t t' → client_ok t'.
Proof.
  intros Hok Hm. destruct Hm as [t' Hm| | | |e He]; [by eapply client_ok_quiet| | | |];
    destruct Hok as (Hk & Hs & Hl & Hst); split_and!; simpl; rewrite ?Hst; try done.
  - destruct (client_invite t); set_solver.
  - set_solver.
  - set_solver.
  - rewrite length_app. simpl. lia.
Qed.

Lemma server_ok_move t t' : server_ok t → server_move t t' → server_ok t'.
Proof.
  intros (Hk & Hst & Hs) Hm. destruct Hm as [? [Hn|r Hf Hr|Hi Hc]|]; split_and!; simpl; rewrite ?Hst; try done.
  - destruct (s_state t), (s_final t); try done; set_solver.
  - rewrite Hc in Hs. by destruct (s_final t).
Qed.

Lemma tx_key_prefix side h : HasPrefix (tx_key side h) side.
Proof. apply Is_true_true, HasPrefix_app. Qed.

Lemma fresh_ok t : fresh_tx t → tx_ok t.
Proof. intros []; split_and!; try done; [set_solver|simpl; lia]. Qed.

Lemma client_write_key t t' : client_write t t' → c_key t' = c_key t.
Proof. intros [? []| | | |]; done. Qed.

Lemma server_move_key t t' : server_move t t' → s_key t' = s_key t.
Proof. by intros [? []|]. Qed.

Lemma tx_inv_closed : tx_closed tx_inv.
Proof.
  split.
  - intros m m' E1 E2 E3 [H1 H2]. by split; rewrite ?E1, ?E2, ?E3.
  - intros m k [H1 H2]. split; simpl; [|done]. intros k' p Hp. apply lookup_delete_Some in Hp as [_ Hp]. by apply H1.
  - intros m p t t' Hm Hp Ht. eapply tx_inv_put; [done..|by apply client_write_key|].
    apply Hm in Hp as [_ Hok]. by eapply client_ok_move.
  - intros m p t t' Hm Hp Ht. eapply tx_inv_put; [done..|by apply server_move_key|].
    apply Hm in Hp as [_ Hok]. by eapply server_ok_move.
  - intros m t Hm Ht. apply tx_inv_new; [done|by apply fresh_ok].
Qed.

Lemma tx_inv_init vh vp : tx_inv (NewTxManager vh vp).
Proof. split; simpl; intros *; by rewrite lookup_empty. Qed.

(** ** Refinement: the manager runs the machines *)

Inductive tx_move : Tx → Tx → Prop :=
| move_client t t' : client_write t t' → tx_move (CTx t) (CTx t')
| move_server t t' : server_move t t' → tx_move (STx t) (STx t').

(** The object at [p] is still there, some moves further. *)
Definition moved (p : nat) (t : Tx) (m : TxManager) : Prop :=
  tx_inv m ∧ ∃ t', heap m !! p = Some t' ∧ rtc tx_move t t'.

Lemma moved_put p t m q u u' :
  moved p t m → heap m !! q = Some u → tx_move u u' → tx_inv (set_tx q u' m) → moved p t (set_tx q u' m).
Proof.
  intros (_ & t' & Ht' & Hmv) Hq Hu Hinv. split; [done|]. simpl. destruct (decide (q = p)) as [->|Hne].
  - exists u'. rewrite lookup_insert_eq. split; [done|]. simplify_eq. eapply rtc_r; eauto.
  - exists t'. by rewrite lookup_insert_ne.
Qed.

Lemma moved_closed p t : tx_closed (moved p t).
Proof.
  pose proof tx_inv_closed as HC. split.
  - intros m m' E1 E2 E3 [Hm Ht]. split; [by apply (cl_ext _ HC m)|]. by rewrite E1.
  - intros m k [Hm Ht]. split; [by apply (cl_remove _ HC)|done].
  - intros m q u u' Hm Hq Hu. eapply moved_put; [done..|by constructor|]. destruct Hm. by eapply (cl_client _ HC).
  - intros m q u u' Hm Hq Hu. eapply moved_put; [done..|by constructor|]. destruct Hm. by eapply (cl_server _ HC).
  - intros m u [Hm (t' & Ht & Hmv)] Hu. split; [by apply (cl_new _ HC)|]. exists t'. simpl.
    rewrite lookup_insert_ne; [done|]. intros <-. apply Hm in Ht as [Hlt _]. lia.
Qed.

(** ** What the machines guarantee *)

(** The order in which a server goes through its states. *)
Definition server_rank (s : TxState) : nat :=
  match s with TxStateProceeding => 0 | TxStateCompleted => 1 | TxStateConfirmed => 2 | _ => 3 end.

(** What can only grow: the identity stays, states go forward, the final response
    is never replaced, a stopped transaction stays stopped. *)
Record server_le (t t' : ServerTx) : Prop := {
  le_req : s_req t' = s_req t;
  le_key : s_key t' = s_key t;
  le_src : s_src t' = s_src t;
  le_rank : server_rank (s_state t) ≤ server_rank (s_state t');
  le_final r : s_final t = Some r → s_final t' = Some r;
  le_stop : s_stop t → s_stop t'
}.

#[export] Instance server_le_preorder : PreOrder server_le.
Proof.
  split; [intros t; by split|]. intros t1 t2 t3 [] []. split; try congruence; try lia; auto.
Qed.

Lemma server_move_le t t' : server_ok t → server_move t t' → server_le t t'.
Proof.
  intros (_ & _ & Hs) Hm. destruct Hm as [? [Hn|r Hf Hr|Hi Hc]|]; split; simpl; try done; rewrite ?orb_false_r, ?orb_true_r; try done.
  - destruct (s_state t); simpl; try lia; set_solver.
  - destruct (s_state t); simpl; try lia; by rewrite Hf in Hs.
  - intros r'. by rewrite Hf.
  - rewrite Hc. simpl. lia.
Qed.

Lemma server_moves t u :
  rtc tx_move (STx t) u → server_ok t → ∃ t', u = STx t' ∧ server_ok t' ∧ server_le t t'.
Proof.
  intros H. remember (STx t) as x eqn:Hx. revert t Hx.
  induction H as [x|x y z Hxy Hyz IH]; intros t -> Hok; [by exists t|].
  inversion Hxy as [|t1 t2 Hm]; subst. destruct (IH t2 eq_refl) as (t' & -> & Hok' & Hle).
  { by eapply server_ok_move. }
  exists t'. split_and!; [done..|]. etransitivity; [by apply server_move_le|done].
Qed.

(** A client keeps its request, key and destination, and stays stopped. *)
Record client_le (t t' : ClientTx) : Prop := {
  cle_req : c_req t' = c_req t;
  cle_key : c_key t' = c_key t;
  cle_dst : c_dst t' = c_dst t;
  cle_stop : c_stop t → c_stop t'
}.

#[export] Instance client_le_preorder : PreOrder client_le.
Proof. split; [intros t; by split|]. intros t1 t2 t3 [] []. split; try congruence; auto. Qed.

Lemma client_write_le t t' : client_write t t' → client_le t t'.
Proof. intros [? []| | | |]; split; simpl; try done; by rewrite ?orb_false_r, ?orb_true_r. Qed.

Lemma client_writes t u : rtc tx_move (CTx t) u → ∃ t', u = CTx t' ∧ client_le t t'.
Proof.
  intros H. remember (CTx t) as x eqn:Hx. revert t Hx.
  induction H as [x|x y z Hxy Hyz IH]; intros t ->; [by exists t|].
  inversion Hxy as [t1 t2 Hm|]; subst. destruct (IH t2 eq_refl) as (t' & -> & Hle).
  exists t'. split; [done|]. etransitivity; [by apply client_write_le|done].
Qed.

Section Runs.
Context `{Sender}.

Lemma run_moved m ls p t : tx_inv m → heap m !! p = Some t → moved p t (run m ls).
Proof. intros Hm Hp. apply closed_run; [apply moved_closed|]. split; [done|]. by exists t. Qed.

Lemma reachable_inv vh vp m : reachable vh vp m → tx_inv m.
Proof. apply closed_reachable; [apply tx_inv_closed|apply tx_inv_init]. Qed.

Lemma run_server m ls p t :
  tx_inv m → heap m !! p = Some (STx t) →
  ∃ t', heap (run m ls) !! p = Some (STx t') ∧ server_ok t' ∧ server_le t t'.
Proof.
  intros Hm Hp. destruct (run_moved m ls p _ Hm Hp) as (_ & u & Hu & Hmv). apply Hm in Hp as [_ Hok].
  destruct (server_moves _ _ Hmv Hok) as (t' & -> & Hok' & Hle). by exists t'.
Qed.

Lemma run_client m ls p t :
  tx_inv m → heap m !! p = Some (CTx t) →
  ∃ t', heap (run m ls) !! p = Some (CTx t') ∧ client_le t t'.
Proof.
  intros Hm Hp. destruct (run_moved m ls p _ Hm Hp) as (_ & u & Hu & Hmv).
  destruct (client_writes _ _ Hmv) as (t' & -> & Hle). by exists t'.
Qed.
End Runs.
