(* ===== verification/TxGrowth.v ===== *)
(** * What the transaction layer never takes back

    [tx_grows m0 m]: a server transaction keeps its request and its source, what
    was delivered to a reader stays delivered, and the events in a channel are
    among what was delivered.  The clients of the manager that keep pointers to
    transactions rely on it. *)

From S2P Require Import Prelude GoStrings Params Uri Headers HeadersMap Message Net Transport Ids Transaction TxMachines.

(** The events in the channels were delivered, and pointers are handed out once. *)
Record tx_sound (m : TxManager) : Prop := mkSound {
  sd_events : ∀ x t ev, heap m !! x = Some (CTx t) → ev ∈ c_events t → EDeliver x ev ∈ deliveries m;
  sd_next : ∀ x, is_Some (heap m !! x) → x < next_ptr m
}.

Record tx_grows (m0 m : TxManager) : Prop := mkTxGrows {
  tg_sound : tx_sound m;
  tg_server : ∀ x t, heap m0 !! x = Some (STx t) →
    ∃ t', heap m !! x = Some (STx t') ∧ s_req t' = s_req t ∧ s_src t' = s_src t;
  tg_delivered : ∀ e, e ∈ deliveries m0 → e ∈ deliveries m
}.

Lemma tx_grows_refl m : tx_sound m → tx_grows m m.
Proof. intros Hm. split; [done|eauto|done]. Qed.

Lemma tx_sound_init vh vp : tx_sound (NewTxManager vh vp).
Proof. split; simpl; [intros x t ev|intros x [t Ht]; revert Ht]; by rewrite lookup_empty. Qed.

(** An object changes, or enters the store. *)
Lemma tx_grows_set m0 m p t t' :
  tx_grows m0 m → heap m !! p = Some t →
  match t, t' with
  | CTx c, CTx c' => ∀ ev, ev ∈ c_events c' → EDeliver p ev ∈ deliveries m
  | STx s, STx s' => s_req s' = s_req s ∧ s_src s' = s_src s
  | _, _ => False
  end → tx_grows m0 (set_tx p t' m).
Proof.
  intros [[He Hn] Hs Hd] Hp Ht. split; [split| |done]; simpl.
  - intros x u ev. destruct (decide (p = x)) as [<-|Hne]; [|rewrite lookup_insert_ne by done; apply He].
    rewrite lookup_insert_eq. intros [= ->]. destruct t as [c|s]; [apply Ht|done].
  - intros x. destruct (decide (p = x)) as [<-|Hne]; [intros _; apply Hn; by eexists|].
    rewrite lookup_insert_ne by done. apply Hn.
  - intros x u Hu. destruct (Hs x u Hu) as (u' & Hu' & Hr & Hsrc). destruct (decide (p = x)) as [<-|Hne].
    + rewrite Hp in Hu'. injection Hu' as ->. destruct t' as [c|s]; [done|]. exists s. rewrite lookup_insert_eq.
      destruct Ht as [-> ->]. done.
    + exists u'. by rewrite lookup_insert_ne.
Qed.

Lemma tx_grows_new m0 m t :
  tx_grows m0 m → match t with CTx c => c_events c = [] | STx _ => True end → tx_grows m0 (add_tx t m).
Proof.
  intros [[He Hn] Hs Hd] Ht. split; [split| |done]; simpl.
  - intros x u ev. destruct (decide (next_ptr m = x)) as [<-|Hne]; [|rewrite lookup_insert_ne by done; apply He].
    rewrite lookup_insert_eq. intros [= ->]. rewrite Ht. by intros ?%not_elem_of_nil.
  - intros x. destruct (decide (next_ptr m = x)) as [<-|Hne]; [lia|]. rewrite lookup_insert_ne by done.
    intros Hx%Hn. lia.
  - intros x u Hu. destruct (Hs x u Hu) as (u' & Hu' & Hr). exists u'. rewrite lookup_insert_ne; [done|].
    intros <-. assert (next_ptr m < next_ptr m) by (apply Hn; by eexists). lia.
Qed.

Lemma tx_grows_quiet m0 : quiet_closed (tx_grows m0).
Proof.
  apply quiet_intro.
  - intros m m' E1 _ E2 E3 [[He Hn] Hs Hd]. split; [split|..]; by rewrite ?E1, ?E2, ?E3.
  - intros m k [[He Hn] Hs Hd]. by split; [split|..].
  - intros m p t t' Hm Hp Ht. eapply tx_grows_set; [done..|]. intros ev Hev. eapply sd_events; [apply Hm|exact Hp|].
    destruct Ht; [|done]. cbn in Hev. destruct (c_events t); [done|]. by constructor.
  - intros m p t t' Hm Hp Ht. eapply tx_grows_set; [done..|]. by destruct Ht as [? []|].
  - intros m t Hm Ht. apply tx_grows_new; [done|]. by destruct Ht.
Qed.

Section Manager.
Context `{Sender} (m0 : TxManager).

Let HQ : quiet_closed (tx_grows m0) := tx_grows_quiet m0.

Lemma grows_tx_state p s : keeps (tx_grows m0) (set_client_state p s).
Proof.
  apply keeps_get_client; [|keeps_auto]. intros t m Hm Hp. eapply tx_grows_set; [done..|].
  intros ev Hev. by eapply sd_events; [apply Hm|exact Hp|].
Qed.

Lemma deliveries_emit m e : deliveries (snd (emit e m)) = deliveries m ++ (if is_delivery e then [e] else []).
Proof. unfold deliveries. cbn. rewrite List.filter_app. cbn. by destruct (is_delivery e). Qed.

Lemma grows_tx_deliver p e : keeps (tx_grows m0) (deliver p e).
Proof.
  apply keeps_get_client; [|keeps_auto]. intros t m Hm Hp. destruct (_ <? _); [|by apply (quiet_emit _ HQ)].
  change (tx_grows m0 (snd (emit (EDeliver p e)
    (set_tx p (CTx (mkClientTx (c_req t) (c_key t) (c_dst t) (c_state t) (c_events t ++ [e]) (c_terminated t) (c_stop t))) m)))).
  assert (tx_grows m0 (snd (emit (EDeliver p e) m))) as Hm'.
  { destruct Hm as [[He Hn] Hs Hd]. split; [split|done|].
    - intros x u ev Hu Hev. rewrite deliveries_emit. apply elem_of_app. left. by eapply He.
    - apply Hn.
    - intros ev Hev%Hd. rewrite deliveries_emit. apply elem_of_app. by left. }
  eapply (tx_grows_set _ _ p _ _ Hm' Hp). intros ev. cbn [c_events]. rewrite elem_of_app, list_elem_of_singleton.
  intros Hev. rewrite deliveries_emit. apply elem_of_app. destruct Hev as [Hev| ->]; [left|right; by constructor].
  by eapply sd_events; [apply Hm|..].
Qed.

Hint Resolve grows_tx_state grows_tx_deliver : keeps.
Hint Extern 1 (keeps _ (finish _)) => apply (quiet_finish _ HQ) : keeps.
Hint Extern 1 (keeps _ (send _ _)) => apply (quiet_send _ HQ) : keeps.
Hint Extern 1 (keeps _ (sendACK _ _)) => apply (quiet_sendACK _ HQ) : keeps.
Hint Extern 1 (keeps _ (schedule _ _)) => apply (quiet_schedule _ HQ) : keeps.
Hint Extern 1 (keeps _ (add_task _ _)) => apply (quiet_add_task _ HQ) : keeps.
Hint Extern 1 (keeps _ (startRetransmit _)) => apply (quiet_startRetransmit _ HQ) : keeps.
Hint Extern 1 (keeps _ (Request_send _ _ _ _)) => apply (quiet_Request_send _ HQ) : keeps.
Hint Extern 1 (keeps _ (emit _)) => apply (quiet_emit _ HQ); reflexivity : keeps.

Lemma grows_tx_timeout p : keeps (tx_grows m0) (timeout p).
Proof. unfold timeout. keeps_auto. Qed.
Hint Resolve grows_tx_timeout : keeps.

Lemma grows_tx_receive p r : keeps (tx_grows m0) (receive p r).
Proof. unfold receive. keeps_auto. Qed.
Hint Resolve grows_tx_receive : keeps.

Lemma grows_tx_response resp src : keeps (tx_grows m0) (handleResponse resp src).
Proof. unfold handleResponse. keeps_auto. Qed.

Lemma grows_tx_started p : keeps (tx_grows m0) (Request_started p).
Proof. unfold Request_started. keeps_auto. Qed.
Hint Resolve grows_tx_started : keeps.

Lemma grows_tx_request req dst b c : keeps (tx_grows m0) (TxManager_Request req dst b c).
Proof. unfold TxManager_Request. keeps_auto. Qed.

Lemma grows_tx_timeout_end p : keeps (tx_grows m0) (timeout_end p).
Proof. unfold timeout_end. keeps_auto. Qed.

Lemma grows_tx_step l : keeps (tx_grows m0) (step l).
Proof.
  apply (quiet_step _ HQ); [apply grows_tx_response|apply grows_tx_timeout|].
  destruct l; try done; [apply grows_tx_request|apply grows_tx_started|apply grows_tx_timeout_end].
Qed.
End Manager.
