(* ===== verification/TxOnce.v ===== *)
(** * At most one outcome per INVITE client

    The reader of an INVITE transaction is told of one final response or of one
    timeout, never of two.  This is an invariant of the schedules in which every
    [Request] and every [timeout] runs undisturbed. *)

From S2P Require Import Prelude GoStrings Params Uri Headers HeadersMap Message Net Transport Ids Transaction TxMachines TxInvariants.

(** A final response, or an error. *)
Definition terminal (e : TxEvent) : bool :=
  match e with EvResponse r => (200 <=? StatusCode r)%Z | EvErr _ => true end.

(** How many outcomes were delivered to [p]. *)
Definition outcome_of (p : nat) (e : effect) : bool :=
  match e with EDeliver q ev => (q == p) && terminal ev | _ => false end.

Definition outcomes (p : nat) (m : TxManager) : nat := length (List.filter (outcome_of p) (deliveries m)).

(** The outcome is known: completed, or stopped and out of the table. *)
Definition settled (p : nat) (t : ClientTx) (m : TxManager) : Prop :=
  c_state t = TxStateCompleted ∨ (c_stop t ∧ txs m !! c_key t ≠ Some p).

Record once (m : TxManager) : Prop := {
  once_inv : tx_inv m;
  once_old p ev : EDeliver p ev ∈ deliveries m → p < next_ptr m;
  once_client p t : heap m !! p = Some (CTx t) → client_invite t →
    outcomes p m ≤ 1 ∧ (outcomes p m = 1 → settled p t m)
}.

Lemma outcomes_fresh m p : once m → next_ptr m ≤ p → outcomes p m = 0.
Proof.
  intros Hm Hp. unfold outcomes. destruct (List.filter (outcome_of p) (deliveries m)) as [|e l] eqn:E; [done|].
  assert (In e (List.filter (outcome_of p) (deliveries m))) as [Hin He]%filter_In by (rewrite E; by left).
  destruct e as [| | | |q ev| |]; try done. cbn [outcome_of] in He. apply andb_true_iff in He as [Hq _].
  apply bool_decide_eq_true in Hq as ->. apply list_elem_of_In, (once_old _ Hm) in Hin. lia.
Qed.

Definition count_terminal (evs : list TxEvent) : nat := length (List.filter terminal evs).

Lemma outcomes_app m m' p q evs :
  deliveries m' = deliveries m ++ map (EDeliver p) evs →
  outcomes q m' = outcomes q m + (if p == q then count_terminal evs else 0).
Proof.
  intros E. unfold outcomes. rewrite E, List.filter_app, length_app. f_equal. clear E. unfold count_terminal.
  destruct (p == q) eqn:Hpq; induction evs as [|e evs IH]; cbn [map List.filter outcome_of]; try done;
    rewrite Hpq; cbn [andb]; [|exact IH]. destruct (terminal e); cbn [length]; by rewrite ?IH.
Qed.

(** One client object changes, and events may be delivered to it. *)
Lemma once_update m m' p t t' evs :
  once m → tx_inv m' → heap m !! p = Some (CTx t) → heap m' = <[p := CTx t']> (heap m) →
  c_req t' = c_req t → next_ptr m' = next_ptr m →
  (∀ k q, txs m' !! k = Some q → txs m !! k = Some q) →
  deliveries m' = deliveries m ++ map (EDeliver p) evs →
  (client_invite t → outcomes p m + count_terminal evs ≤ 1 ∧
                     (outcomes p m + count_terminal evs = 1 → settled p t' m')) →
  once m'.
Proof.
  intros Hm Hinv Hp Hh Hreq Hnext Htxs Hd Hc. split; [done|..].
  - intros q ev Hin. rewrite Hd in Hin. rewrite Hnext. apply elem_of_app in Hin as [Hin|Hin]; [by apply (once_old _ Hm) in Hin|].
    apply list_elem_of_In, in_map_iff in Hin as (e & [= <- <-] & _). by apply (once_inv _ Hm) in Hp as [? _].
  - intros q u Hq Hi. rewrite (outcomes_app m m' p q evs Hd). rewrite Hh in Hq.
    destruct (decide (p = q)) as [<-|Hne].
    + rewrite lookup_insert_eq in Hq. injection Hq as <-. rewrite bool_decide_true by done.
      apply Hc. unfold client_invite in *. by rewrite <-Hreq.
    + rewrite lookup_insert_ne in Hq by done. rewrite bool_decide_false, Nat.add_0_r by done.
      destruct (once_client _ Hm q u Hq Hi) as [H1 H2]. split; [done|]. intros Ho.
      destruct (H2 Ho) as [?|[? Ht]]; [by left|]. right. split; [done|]. intros E. by apply Htxs in E.
Qed.

Lemma once_quiet : quiet_closed once.
Proof.
  pose proof (tx_closed_quiet _ tx_inv_closed) as HQ. apply quiet_intro.
  - intros m m' E1 E2 E3 E4 [H1 H2 H3]. split; unfold outcomes, settled; rewrite ?E1, ?E2, ?E3, ?E4; try done.
    by apply (q_ext _ HQ m).
  - intros m k [H1 H2 H3]. split; [by apply (q_remove _ HQ)|done|]. intros p t Hp Hi.
    destruct (H3 p t Hp Hi) as [Ho Hs]. split; [done|]. intros E. destruct (Hs E) as [?|[? Ht]]; [by left|].
    right. split; [done|]. simpl. intros E'. by apply lookup_delete_Some in E' as [_ E'].
  - intros m p t t' Hm Hp Ht. apply (once_update m _ p t t' []); try done.
    + destruct Hm as [Hm _ _]. by apply (q_client _ HQ _ _ t).
    + by destruct Ht.
    + by rewrite app_nil_r.
    + intros Hi. rewrite Nat.add_0_r. destruct (once_client _ Hm p t Hp Hi) as [Ho Hs]. split; [done|].
      intros E. destruct (Hs E) as [Hc|[Hst Htx]].
      * left. by destruct Ht.
      * right. destruct Ht; simpl; rewrite ?orb_false_r, ?orb_true_r; by split.
  - intros m p t t' Hm Hp Ht. destruct Hm as [H1 H2 H3]. split; [by apply (q_server _ HQ _ _ t)|done|].
    intros q u Hq. simpl in Hq. destruct (decide (p = q)) as [<-|Hne]; [by rewrite lookup_insert_eq in Hq|].
    rewrite lookup_insert_ne in Hq by done. apply H3, Hq.
  - intros m t Hm Ht. pose proof Hm as [H1 H2 H3]. split; [by apply (q_new _ HQ)| |].
    + intros p ev Hin. apply H2 in Hin. simpl. lia.
    + intros p u Hp Hi. simpl in Hp. destruct (decide (next_ptr m = p)) as [<-|Hne].
      * change (outcomes (next_ptr m) (add_tx t m)) with (outcomes (next_ptr m) m). rewrite outcomes_fresh by done. lia.
      * rewrite lookup_insert_ne in Hp by done. destruct (H3 p u Hp Hi) as [Ho Hs]. split; [done|]. intros E.
        destruct (Hs E) as [?|[? Htx]]; [by left|]. right. split; [done|]. simpl.
        destruct (decide (Tx_Key t = c_key u)) as [->|Hk]; [rewrite lookup_insert_eq; congruence|by rewrite lookup_insert_ne].
Qed.

Lemma once_init vh vp : once (NewTxManager vh vp).
Proof.
  split; [apply tx_inv_init| |].
  - intros p ev H. by apply not_elem_of_nil in H.
  - intros p t H. simpl in H. by rewrite lookup_empty in H.
Qed.

(** What delivering an event leaves. *)
Lemma deliver_spec m p t ev :
  heap m !! p = Some (CTx t) →
  let m' := snd (deliver p ev m) in
  ∃ evs t', (evs = [ev] ∨ evs = []) ∧ heap m' = <[p := CTx t']> (heap m) ∧ c_req t' = c_req t ∧ c_key t' = c_key t ∧
            c_state t' = c_state t ∧ c_stop t' = c_stop t ∧ txs m' = txs m ∧ next_ptr m' = next_ptr m ∧
            deliveries m' = deliveries m ++ map (EDeliver p) evs.
Proof.
  intros Hp. unfold deliver, get_client, gets, put_tx, emit, modify, mbind, state_bind.
  rewrite Hp. simpl. destruct (_ <? events_cap); simpl.
  - eexists [ev], _. split_and!; [by left|done..|]. unfold deliveries. simpl. by rewrite List.filter_app.
  - exists [], t. split_and!; [by right|by rewrite insert_id|done..|]. unfold deliveries. simpl. by rewrite List.filter_app.
Qed.

(** What setting the state and delivering an event leaves. *)
Lemma set_deliver_spec m p t s ev :
  heap m !! p = Some (CTx t) →
  let m' := snd ((set_client_state p s;; deliver p ev) m) in
  ∃ evs t', (evs = [ev] ∨ evs = []) ∧ heap m' = <[p := CTx t']> (heap m) ∧ c_req t' = c_req t ∧
            c_state t' = s ∧ txs m' = txs m ∧ next_ptr m' = next_ptr m ∧
            deliveries m' = deliveries m ++ map (EDeliver p) evs.
Proof.
  intros Hp. set (t1 := mkClientTx (c_req t) (c_key t) (c_dst t) s (c_events t) (c_terminated t) (c_stop t)).
  set (m1 := snd (put_tx p (CTx t1) m)).
  assert ((set_client_state p s;; deliver p ev) m = deliver p ev m1) as ->.
  { unfold set_client_state, get_client, gets, mbind, state_bind. by rewrite Hp. }
  destruct (deliver_spec m1 p t1 ev ltac:(by simpl; rewrite lookup_insert_eq)) as (evs & t' & Hevs & Hh & Hr & _ & Hs & _ & Htx & Hn & Hd).
  exists evs, t'. split_and!; [done| |exact Hr|exact Hs|exact Htx|exact Hn|exact Hd].
  etransitivity; [exact Hh|]. simpl. apply insert_insert_eq.
Qed.

Section Steps.
Context `{Sender}.

Lemma run_assoc {A B C} (x : M A) (f : A → M B) (g : B → M C) m :
  ((x ≫= f) ≫= g) m = (x ≫= λ a, f a ≫= g) m.
Proof. unfold mbind, state_bind. by destruct (x m). Qed.

(** The state is set, an event delivered, and the rest delivers nothing. *)
Lemma once_set_deliver m p t s ev {A} (k : () → M A) :
  once m → heap m !! p = Some (CTx t) → client_write t (client_with t s (c_events t) false) →
  (client_invite t → outcomes p m = 0 ∧ (terminal ev → s = TxStateCompleted)) →
  (∀ a, keeps once (k a)) →
  once (snd ((set_client_state p s;; deliver p ev ≫= k) m)).
Proof.
  intros Hm Hp Hmv Hc Hk. rewrite <-(run_assoc (set_client_state p s) (λ _, deliver p ev)).
  apply (run_bind once); [|done].
  destruct (set_deliver_spec m p t s ev Hp) as (evs & t' & Hevs & Hh & Hr & Hs & Htx & Hn & Hd).
  apply (once_update m _ p t t' evs); try done.
  - apply (run_bind tx_inv); [|intros; by apply closed_deliver, tx_inv_closed].
    eapply run_set_client_state; [apply tx_inv_closed|apply Hm|done..].
  - by rewrite Htx.
  - intros Hi. destruct (Hc Hi) as [-> Hterm]. destruct Hevs as [->| ->]; unfold count_terminal; cbn [List.filter length]; [|lia].
    destruct (terminal ev) eqn:He; cbn [length]; [|lia]. split; [lia|]. intros _. left.
    rewrite Hs. apply Hterm. done.
Qed.

Lemma once_set m p t s :
  once m → heap m !! p = Some (CTx t) → client_write t (client_with t s (c_events t) false) →
  (client_invite t → outcomes p m = 0 ∨ s = TxStateCompleted) →
  once (snd (set_client_state p s m)).
Proof.
  intros Hm Hp Hmv Hs. assert (tx_inv (snd (set_client_state p s m))) as Hinv.
  { eapply run_set_client_state; [apply tx_inv_closed|apply Hm|done..]. }
  revert Hinv. unfold set_client_state, get_client. rewrite run_gets, Hp. intros Hinv.
  eapply (once_update m _ p t _ []); [done|exact Hinv|done|reflexivity|done..| |].
  - by rewrite app_nil_r.
  - intros Hi. rewrite Nat.add_0_r. destruct (once_client _ Hm p t Hp Hi) as [Ho _]. split; [done|].
    intros E. destruct (Hs Hi) as [E'|Hsc]; [lia|]. by left.
Qed.

Hint Resolve keeps_ret keeps_gets : keeps.
Hint Extern 1 (keeps once (finish _)) => apply (quiet_finish once once_quiet) : keeps.
Hint Extern 1 (keeps once (sendACK _ _)) => apply (quiet_sendACK once once_quiet) : keeps.
Hint Extern 1 (keeps once (send _ _)) => apply (quiet_send once once_quiet) : keeps.
Hint Extern 1 (keeps once (schedule _ _)) => apply (quiet_schedule once once_quiet) : keeps.
Hint Extern 1 (keeps once (add_task _ _)) => apply (quiet_add_task once once_quiet) : keeps.
Hint Extern 1 (keeps once (emit _)) => apply (quiet_emit once once_quiet); reflexivity : keeps.
Hint Extern 1 (keeps once (startRetransmit _)) => apply (quiet_startRetransmit once once_quiet) : keeps.

(** A delivery to a transaction that is no INVITE does not count. *)
Lemma once_deliver_other m p t ev :
  once m → heap m !! p = Some (CTx t) → client_invite t = false → once (snd (deliver p ev m)).
Proof.
  intros Hm Hp Hi. destruct (deliver_spec m p t ev Hp) as (evs & t' & Hevs & Hh & Hr & _ & _ & _ & Htx & Hn & Hd).
  apply (once_update m _ p t t' evs); try done; [|by rewrite Htx|by rewrite Hi].
  apply closed_deliver; [apply tx_inv_closed|apply Hm].
Qed.

(** An outcome is not in the way of a transaction that is in the table and not
    completed. *)
Lemma no_outcome m p t :
  once m → heap m !! p = Some (CTx t) → client_invite t → txs m !! c_key t = Some p →
  c_state t ≠ TxStateCompleted → outcomes p m = 0.
Proof.
  intros Hm Hp Hi Ht Hs. destruct (once_client _ Hm p t Hp Hi) as [Ho Hset].
  destruct (outcomes p m) as [|[|n]]; [done| |lia]. destruct (Hset eq_refl) as [?|[_ ?]]; done.
Qed.

Lemma over_completed s : over s = false → s ≠ TxStateCompleted.
Proof. by intros Ho ->. Qed.

Lemma once_receive m p t resp :
  once m → heap m !! p = Some (CTx t) → txs m !! c_key t = Some p → once (snd (receive p resp m)).
Proof.
  intros Hm Hp Ht. unfold receive. unfold get_client at 1. rewrite run_gets, Hp, run_gets.
  pose proof (no_outcome m p t Hm Hp) as Hno.
  destruct (StatusCode resp <? 200)%Z eqn:H200; [|destruct (StatusCode resp <? 300)%Z].
  - destruct (over (c_state t)) eqn:Ho; [done|]. apply over_completed in Ho as Hc.
    pose proof (once_set_deliver m p t TxStateProceeding (EvResponse resp) mret Hm Hp (cw_proceeding t Ho)) as E.
    assert ((set_client_state p TxStateProceeding;; deliver p (EvResponse resp)) m =
            (set_client_state p TxStateProceeding;; deliver p (EvResponse resp) ≫= mret) m) as ->.
    { unfold mbind, state_bind. destruct (set_client_state _ _ m) as [? s']. by destruct (deliver _ _ s'). }
    apply E; [|intros; keeps_auto]. intros Hi. split; [by apply Hno|]. cbn [terminal]. intros Hterm.
    apply Is_true_true, Z.leb_le in Hterm. apply Z.ltb_lt in H200. lia.
  - destruct (Req_Method (c_req t) == INVITE) eqn:Hi.
    + assert (Is_true (client_invite t)) as Hinv by (unfold client_invite; by rewrite Hi).
      destruct (c_state t == TxStateCompleted) eqn:Hs; cbn [negb when].
      * apply (run_bind once); [|intros; keeps_auto].
        eapply once_set; [done..|apply cw_completed; by left|by right].
      * apply bool_decide_eq_false in Hs.
        pose proof (once_set_deliver m p t TxStateCompleted (EvResponse resp)
          (λ _, schedule (TimerD (cfg m)) (TFinish p);; sendACK p resp) Hm Hp
          (cw_completed t (or_introl Hinv))) as E.
        match goal with |- once (snd ?x) => replace x with
          ((set_client_state p TxStateCompleted;; deliver p (EvResponse resp) ≫=
              λ _, schedule (TimerD (cfg m)) (TFinish p);; sendACK p resp) m) end.
        { apply E; [|intros; keeps_auto]. intros _. split; [by apply Hno|done]. }
        unfold mbind, state_bind. destruct (set_client_state _ _ m) as [? s1]. by destruct (deliver _ _ s1).
    + unfold client_invite in Hno. assert (client_invite t = false) as Hni by done.
      apply (run_bind once); [by apply (once_deliver_other m p t)|intros; keeps_auto].
  - destruct (over (c_state t)) eqn:Ho; [done|]. apply over_completed in Ho as Hc.
    apply (once_set_deliver m p t); [done..|apply cw_completed; by right| |intros; keeps_auto].
    intros Hi. by split; [apply Hno|].
Qed.

Lemma once_handleResponse resp src : keeps once (handleResponse resp src).
Proof.
  unfold handleResponse. destruct (_ == []); [keeps_auto|]. intros m Hm. unfold lookup_client. rewrite run_gets.
  destruct (txs m !! clientTxKeyOf resp) as [p|] eqn:Ht; simpl; [|by apply (quiet_emit once once_quiet)].
  destruct (heap m !! p) as [[t|t]|] eqn:Hp; [|by apply (quiet_emit once once_quiet)..].
  apply (run_bind once); [|intros; keeps_auto]. apply (once_receive m p t); [done..|].
  destruct (inv_table _ (once_inv _ Hm) _ _ Ht) as (u & Hu & Hk). rewrite Hp in Hu. injection Hu as <-.
  simpl in Hk. by rewrite Hk.
Qed.

Lemma once_timeout m p t :
  once m → heap m !! p = Some (CTx t) → c_stop t = false → c_state t ≠ TxStateCompleted → once (snd (timeout p m)).
Proof.
  intros Hm Hp Hst Hs. unfold timeout. unfold get_client at 1. rewrite run_gets, Hp.
  destruct (over (c_state t)); [done|].
  assert (client_invite t → outcomes p m = 0) as Hno.
  { intros Hi. destruct (once_client _ Hm p t Hp Hi) as [Ho Hset].
    destruct (outcomes p m) as [|[|n]]; [done| |lia]. destruct (Hset eq_refl) as [?|[Hst' _]]; [done|by rewrite Hst in Hst']. }
  destruct (_ <? events_cap); cbn [when]; [|by apply (run_bind once); [|intros; keeps_auto]].
  destruct (deliver_spec m p t (EvErr ErrTimeout) Hp) as (evs & t' & Hevs & Hh & Hr & Hk & Hs' & Hst' & Htx & Hn & Hd).
  assert (tx_inv (snd (deliver p (EvErr ErrTimeout) m))) as Hinv1.
  { apply closed_deliver; [apply tx_inv_closed|apply Hm]. }
  assert (tx_inv (snd (finish p (snd (deliver p (EvErr ErrTimeout) m))))) as Hinv.
  { apply (quiet_finish tx_inv); [apply tx_closed_quiet, tx_inv_closed|done]. }
  unfold mbind, state_bind. destruct (deliver p (EvErr ErrTimeout) m) as [u m1]. simpl in Hh, Htx, Hn, Hd, Hinv1, Hinv.
  revert Hinv. unfold finish. rewrite run_gets, Hh, lookup_insert_eq. intros Hinv.
  eapply (once_update m _ p t _ evs); [done|exact Hinv|done|simpl; rewrite Hh; by apply insert_insert_eq|done|by simpl| |done|].
  - simpl. intros k q Hq. apply lookup_delete_Some in Hq as [_ Hq]. by rewrite <-Htx.
  - intros Hi. rewrite Hno by done. unfold count_terminal. split.
    + destruct Hevs as [->| ->]; simpl; lia.
    + intros _. right. simpl. split; [done|]. by rewrite lookup_delete_eq.
Qed.

Lemma once_fire_retransmit p i c e : keeps once (fire_retransmit p i c e).
Proof.
  intros m Hm. unfold fire_retransmit, retransmit_round. unfold get_client at 1. rewrite run_gets.
  destruct (heap m !! p) as [[t|t]|] eqn:Hp; [|done..].
  destruct (c_stop t) eqn:Hst; [done|]. destruct (over (c_state t)) eqn:Ho; [done|].
  destruct (_ && _); [done|]. unfold mbind at 1, state_bind at 1.
  pose proof (quiet_send once once_quiet (MReq (c_req t)) (c_dst t) m Hm) as Hm1.
  assert (heap (snd (send (MReq (c_req t)) (c_dst t) m)) = heap m) as Hh.
  { unfold send. by destruct (negb tp_set). }
  destruct (send (MReq (c_req t)) (c_dst t) m) as [r m1]. simpl in Hm1, Hh. rewrite run_gets.
  destruct (TimerF (cfg m1) <=? e + i)%Z.
  - eapply once_timeout; [done|by rewrite Hh|done|by apply over_completed].
  - by apply (quiet_add_task once once_quiet).
Qed.

(** [Request] sends under a fresh pointer and delivers nothing. *)
Lemma Request_send_spec req dst b c m :
  let r := Request_send req dst b c m in
  deliveries (snd r) = deliveries m ∧ (∀ p, fst r = Ok p → p = next_ptr m).
Proof.
  split.
  - apply (quiet_Request_send (λ s, deliveries s = deliveries m)); [|done]. split; try done.
    intros m1 m2 _ _ _ E ?. congruence.
  - unfold Request_send. rewrite !run_gets. destruct (bool_decide _); [done|].
    unfold alloc, mbind, state_bind, set_table, modify. destruct (send _ _ _) as [[u|er] s']; simpl; congruence.
Qed.

Lemma once_Request req dst b c : keeps once (TxManager_Request req dst b c).
Proof.
  intros m Hm. pose proof (quiet_Request_send once once_quiet req dst b c m Hm) as Hm1.
  destruct (Request_send_spec req dst b c m) as [Hd Hp]. unfold TxManager_Request.
  unfold mbind at 1, state_bind at 1. destruct (Request_send req dst b c m) as [[p|er] m1]; [|done].
  simpl in Hm1, Hd, Hp. specialize (Hp p eq_refl). apply (run_bind once); [|intros; keeps_auto].
  unfold Request_started. unfold get_client at 1. rewrite run_gets.
  destruct (heap m1 !! p) as [[t|t]|] eqn:Ht; [|done..]. apply (run_bind once); [|intros; keeps_auto].
  eapply once_set; [done..|apply cw_started|]. intros _. left.
  unfold outcomes. rewrite Hd. apply (outcomes_fresh m p Hm). lia.
Qed.

Lemma once_fire i : keeps once (fire i).
Proof.
  unfold fire. do 2 (apply keeps_bind; [apply keeps_gets|intros ?]).
  destruct (_ !! i) as [[due k]|]; [|apply keeps_ret]. destruct (due <=? _)%Z; [|apply keeps_ret].
  apply keeps_bind; [apply keeps_modify; intros s Hs; by apply (q_ext _ once_quiet s)|]. intros _.
  destruct k; [apply once_fire_retransmit|apply (quiet_fire_final once once_quiet)|apply (quiet_finish once once_quiet)].
Qed.

Lemma once_step l : undisturbed l → keeps once (step l).
Proof.
  intros Hl. apply (calm_step once once_quiet); [apply once_handleResponse|apply once_fire|].
  destruct l; try done. apply once_Request.
Qed.

Lemma once_run m ls : once m → forallb undisturbed ls → once (run m ls).
Proof.
  unfold run. revert m. induction ls as [|l ls IH]; intros m Hm Hls; [done|]. cbn [forallb fold_left] in *.
  apply andb_True in Hls as [Hl Hls]. apply IH; [|done]. by apply once_step.
Qed.
End Steps.
