(* ===== verification/TxTimers.v ===== *)
(** * No transaction is left without a timer

    Whoever waits for a timer has one pending: a client that is sent again, a
    completed client, a server that answered.  This is an invariant of the
    schedules in which every [Request] and [timeout] runs undisturbed and the configured
    intervals are positive; from it, the passage of time alone ends each of these
    transactions. *)

From S2P Require Import Prelude GoStrings Params Uri Headers HeadersMap Message Net Transport Ids Transaction TxMachines TxInvariants.

Definition sane (c : TxConfig) : bool := (0 <? T1 c)%Z && (0 <? T2 c)%Z.

Definition sane_label (l : label) : bool := match l with LConfig c => sane c | _ => undisturbed l end.

(** The request is sent again in this state: an INVITE is not, once it is
    Proceeding. *)
Definition rearms (t : ClientTx) : bool :=
  match c_state t with
  | TxStateCalling | TxStateTrying => true
  | TxStateProceeding => negb (client_invite t)
  | _ => false
  end.

(** A transaction that only a timer ends. *)
Definition unfinished (t : Tx) : bool :=
  match t with
  | CTx t => negb (c_stop t) && (rearms t || (c_state t == TxStateCompleted))
  | STx t => negb (s_stop t) && ((s_state t == TxStateConfirmed) || (s_state t == TxStateCompleted) && negb (isInvite t))
  end.

(** The timers that end it. *)
Definition timer_of (p : nat) (t : Tx) (k : task) : bool :=
  match t, k with
  | CTx t, TRetransmit q _ _ _ => (q == p) && rearms t
  | CTx t, TFinish q => (q == p) && (c_state t == TxStateCompleted)
  | STx t, TFinish q => q == p
  | _, _ => false
  end.

(** The states of a server that has given its final response. *)
Definition answered (s : TxState) : bool :=
  (s == TxStateCompleted) || (s == TxStateConfirmed) || (s == TxStateTerminated).

(** A pending timer: its intervals are positive, and only what has completed waits
    to be finished. *)
Definition fits (m : TxManager) (k : task) : Prop :=
  match k with
  | TRetransmit _ i c _ => (0 < i ∧ 0 < c)%Z
  | TFinal _ i => (0 < i)%Z
  | TFinish p => ∃ t, heap m !! p = Some t ∧ match t with CTx c => c_state c = TxStateCompleted | STx s => answered (s_state s) end
  end.

(** [x] is a timer that is about to be started, or has just gone off. *)
Record timed_but (x : option task) (m : TxManager) : Prop := {
  td_sane : sane (cfg m);
  td_fits due k : (due, k) ∈ tasks m → fits m k;
  td_armed p t : heap m !! p = Some t → unfinished t →
    (∃ due k, (due, k) ∈ tasks m ∧ timer_of p t k) ∨ ∃ k, x = Some k ∧ timer_of p t k;
  td_idle k p t : txs m !! k = Some p → heap m !! p = Some (CTx t) → c_state t ≠ TxStateIdle;
  td_but k : x = Some k → fits m k
}.

Abbreviation timed := (timed_but None).

Lemma timed_init vh vp : timed (NewTxManager vh vp).
Proof.
  split; [done|..].
  - intros due k Hin. by apply not_elem_of_nil in Hin.
  - intros p t Hp. simpl in Hp. by rewrite lookup_empty in Hp.
  - intros k p t Hk. simpl in Hk. by rewrite lookup_empty in Hk.
  - done.
Qed.

Lemma fits_ext m m' k : heap m' = heap m → fits m k → fits m' k.
Proof. intros Hh. by destruct k; simpl; rewrite ?Hh. Qed.

(** More tasks, the same objects and table. *)
Lemma timed_more x m m' :
  timed_but x m → cfg m' = cfg m → heap m' = heap m → (∀ k p, txs m' !! k = Some p → txs m !! k = Some p) →
  (∀ x, x ∈ tasks m → x ∈ tasks m') → (∀ due k, (due, k) ∈ tasks m' → (due, k) ∈ tasks m ∨ fits m k) → timed_but x m'.
Proof.
  intros [H1 H2 H3 H4 H5] Hc Hh Ht Hin Hpos. split.
  - by rewrite Hc.
  - intros due k Hk. apply (fits_ext m); [done|]. destruct (Hpos due k Hk); [by eapply H2|done].
  - intros p t Hp Hu. rewrite Hh in Hp. destruct (H3 p t Hp Hu) as [(due & k & Hk & Ho)|?]; [|by right].
    left. exists due, k. by split; [apply Hin|].
  - intros k p t Hk Hp. rewrite Hh in Hp. by eapply H4; [apply Ht|].
  - intros k Hk. apply (fits_ext m); [done|by apply H5].
Qed.

(** The object stays of its kind, a completed client completed, an answered server
    answered. *)
Definition same_kind (t t' : Tx) : Prop :=
  match t, t' with
  | CTx c, CTx c' => (c_state c' = TxStateIdle → c_state c = TxStateIdle) ∧
                     (c_state c = TxStateCompleted → c_state c' = TxStateCompleted)
  | STx s, STx s' => answered (s_state s) → answered (s_state s')
  | _, _ => False
  end.

Definition still_timed (p : nat) (t t' : Tx) : Prop :=
  (unfinished t' → unfinished t ∧ ∀ k, timer_of p t k → timer_of p t' k) ∧ same_kind t t'.

Lemma fits_put m p t t' k : heap m !! p = Some t → same_kind t t' → fits m k → fits (set_tx p t' m) k.
Proof.
  intros Hp Hk Hf. destruct k as [| |q]; try done. destruct Hf as (u & Hu & Hs). simpl.
  destruct (decide (p = q)) as [<-|Hne].
  - exists t'. rewrite lookup_insert_eq. split; [done|]. simplify_eq.
    destruct t, t'; try done; simpl in Hk; by apply Hk.
  - exists u. by rewrite lookup_insert_ne.
Qed.

Lemma idle_put m p t t' k q u :
  heap m !! p = Some t → same_kind t t' →
  (∀ k p c, txs m !! k = Some p → heap m !! p = Some (CTx c) → c_state c ≠ TxStateIdle) →
  txs m !! k = Some q → heap (set_tx p t' m) !! q = Some (CTx u) → c_state u ≠ TxStateIdle.
Proof.
  intros Hp Hk H4 Hq Hu. simpl in Hu. destruct (decide (p = q)) as [<-|Hne].
  - rewrite lookup_insert_eq in Hu. injection Hu as ->. destruct t as [c|]; [|done].
    intros Hs. by apply (H4 _ _ _ Hq Hp), Hk.
  - rewrite lookup_insert_ne in Hu by done. by apply (H4 _ _ _ Hq Hu).
Qed.

Lemma timed_put x m p t t' :
  timed_but x m → heap m !! p = Some t → still_timed p t t' → timed_but x (set_tx p t' m).
Proof.
  intros [H1 H2 H3 H4 H5] Hp [Hu Hi]. split; [done|..].
  - intros due k Hk. eapply fits_put; [done..|by eapply H2].
  - intros q u Hq Hun. simpl in Hq. destruct (decide (p = q)) as [<-|Hne].
    + rewrite lookup_insert_eq in Hq. injection Hq as <-. destruct (Hu Hun) as [Hun' Hk].
      destruct (H3 p t Hp Hun') as [(due & k & Hin & Ho)|(k & -> & Ho)];
        [left; exists due, k|right; exists k]; (split; [done|by apply Hk]).
    + rewrite lookup_insert_ne in Hq by done. by apply H3.
  - intros k q u Hk Hq. by eapply (idle_put m p t t').
  - intros k Hk. eapply fits_put; [done..|by apply H5].
Qed.

(** The same state, stopped or not. *)
Lemma still_client p t t' :
  c_state t' = c_state t → c_req t' = c_req t → (c_stop t → c_stop t') → still_timed p (CTx t) (CTx t').
Proof.
  intros Hs Hr Hst. split; [|simpl; by rewrite Hs].
  assert (rearms t' = rearms t) as Er by (unfold rearms, client_invite; by rewrite Hs, Hr).
  cbn [unfinished timer_of]. rewrite Er, Hs. intros Hu. apply andb_True in Hu as [Hu Ht]. split.
  - apply andb_True. split; [|done]. destruct (c_stop t); [|done]. destruct (c_stop t'); [done|by destruct Hst].
  - intros k. destruct k; done.
Qed.

Section Steps.
Context `{Sender} {x : option task}.

Lemma timed_modify_more (f : TxManager → TxManager) :
  (∀ m, cfg (f m) = cfg m ∧ heap (f m) = heap m ∧ (∀ k p, txs (f m) !! k = Some p → txs m !! k = Some p) ∧ tasks (f m) = tasks m) →
  keeps (timed_but x) (modify f).
Proof.
  intros Hf. apply keeps_modify. intros m Hm. destruct (Hf m) as (Hc & Hh & Ht & Hk).
  apply (timed_more x m); [done..| |]; rewrite Hk; auto.
Qed.

Lemma timed_emit e : keeps (timed_but x) (emit e).
Proof. by apply timed_modify_more. Qed.

Lemma timed_remove k : keeps (timed_but x) (remove k).
Proof. apply timed_modify_more. intros m. split_and!; try done. intros k' p Hk. simpl in Hk. by apply lookup_delete_Some in Hk as [_ Hk]. Qed.

Lemma timed_add m d k : timed_but x m → fits m k → timed_but x (snd (add_task d k m)).
Proof.
  intros Hm Hk. apply (timed_more x m); try done; simpl.
  - intros y Hy. apply elem_of_app. by left.
  - intros due k' Hin. apply elem_of_app in Hin as [Hin|Hin]; [by left|]. right. apply list_elem_of_singleton in Hin. by simplify_eq.
Qed.

Hint Resolve timed_emit timed_remove : keeps.

Lemma timed_send msg dst : keeps (timed_but x) (send msg dst).
Proof. unfold send. keeps_auto. Qed.

Hint Resolve timed_send : keeps.

Lemma timed_deliver p e : keeps (timed_but x) (deliver p e).
Proof.
  apply keeps_get_client; [|keeps_auto]. intros t m Hm Hp. destruct (_ <? events_cap); [|by apply timed_emit].
  apply (run_bind (timed_but x)); [|intros; keeps_auto]. eapply (timed_put x m); [done..|]. by apply still_client.
Qed.

Lemma timed_consume p : keeps (timed_but x) (consume p).
Proof.
  apply keeps_get_client; [|keeps_auto]. intros t m Hm Hp. eapply (timed_put x m); [done..|]. by apply still_client.
Qed.

Lemma timed_finish p : keeps (timed_but x) (finish p).
Proof.
  intros m Hm. unfold finish. rewrite run_gets. destruct (heap m !! p) as [[t|t]|] eqn:Hp; [..|done].
  - pose proof (timed_remove (c_key t) m Hm) as Hm'. eapply (timed_put x _ p _ _ Hm'); [exact Hp|]. by apply still_client.
  - pose proof (timed_remove (s_key t) m Hm) as Hm'. eapply (timed_put x _ p _ _ Hm'); [exact Hp|]. split; [done|]. by intros Ha.
Qed.

Hint Resolve timed_deliver timed_consume timed_finish : keeps.

Lemma timed_sendACK p r : keeps (timed_but x) (sendACK p r).
Proof. unfold sendACK. keeps_auto. Qed.

Lemma timed_Cancel p : keeps (timed_but x) (Cancel p).
Proof. unfold Cancel. keeps_auto. Qed.

Lemma timed_timeout p : keeps (timed_but x) (timeout p).
Proof. unfold timeout. keeps_auto. Qed.

Lemma timed_receiveRetransmission p : keeps (timed_but x) (receiveRetransmission p).
Proof. unfold receiveRetransmission. keeps_auto. Qed.

End Steps.

#[export] Hint Resolve timed_emit timed_remove timed_send timed_deliver timed_consume timed_finish
  timed_sendACK timed_Cancel timed_timeout timed_receiveRetransmission : keeps.

(** ** Timers that start and go off *)

(** The missing timer is started. *)
Lemma timed_start x k d m :
  timed_but (Some x) m → fits m k → (∀ p t, timer_of p t x → timer_of p t k) → timed (snd (add_task d k m)).
Proof.
  intros [H1 H2 H3 H4 H5] Hk Ho. split; [done|..|done|done]; simpl.
  - intros due k' Hin. change (fits m k'). apply elem_of_app in Hin as [Hin|Hin]; [by eapply H2|].
    apply list_elem_of_singleton in Hin. by simplify_eq.
  - intros p t Hp Hu. left. destruct (H3 p t Hp Hu) as [(due & k' & Hin & Hk')|(k' & [= <-] & Hk')].
    + exists due, k'. split; [|done]. apply elem_of_app. by left.
    + exists (now m + d)%Z, k. split; [apply elem_of_app; right; by constructor|by apply Ho].
Qed.

(** Nobody needs the missing timer. *)
Lemma timed_drop x m :
  timed_but (Some x) m → (∀ p t, heap m !! p = Some t → timer_of p t x → unfinished t = false) → timed m.
Proof.
  intros [H1 H2 H3 H4 H5] Hx. split; [done|done| |done|done]. intros p t Hp Hu. left.
  destruct (H3 p t Hp Hu) as [?|(k & [= <-] & Hk)]; [done|]. by rewrite (Hx p t Hp Hk) in Hu.
Qed.

(** An object moves to a state whose timer is still to be started. *)
Lemma timed_set k m p t t' :
  timed m → heap m !! p = Some t → (unfinished t' → timer_of p t' k) → same_kind t t' → fits (set_tx p t' m) k →
  timed_but (Some k) (set_tx p t' m).
Proof.
  intros [H1 H2 H3 H4 H5] Hp Hk Hi Hf. split; [done|..].
  - intros due k' Hk'. eapply fits_put; [done..|by eapply H2].
  - intros q u Hq Hu. simpl in Hq. destruct (decide (p = q)) as [<-|Hne].
    + rewrite lookup_insert_eq in Hq. injection Hq as <-. right. exists k. split; [done|by apply Hk].
    + rewrite lookup_insert_ne in Hq by done. left. by destruct (H3 q u Hq Hu) as [?|(? & [=] & _)].
  - intros k' q u Hk' Hq. by eapply (idle_put m p t t').
  - by intros ? [= <-].
Qed.

(** What [finish] leaves at the pointer is over. *)
Lemma finish_heap p m :
  heap (snd (finish p m)) =
    match heap m !! p with
    | Some (CTx t) => <[p := CTx (client_with t (c_state t) (c_events t) true)]> (heap m)
    | Some (STx t) => <[p := STx (server_with t (s_state t) (s_final t) true)]> (heap m)
    | None => heap m
    end.
Proof.
  unfold finish. rewrite run_gets. destruct (heap m !! p) as [[t|t]|]; [..|done].
  - by rewrite client_with_stop.
  - by rewrite server_with_stop.
Qed.

Lemma finish_over p m t : heap (snd (finish p m)) !! p = Some t → unfinished t = false.
Proof.
  rewrite finish_heap. destruct (heap m !! p) as [[u|u]|] eqn:E; rewrite ?lookup_insert_eq; [..|by rewrite E];
    intros [= <-]; cbn [unfinished client_with server_with c_stop s_stop]; by rewrite orb_true_r.
Qed.

(** Every timer is somebody's only. *)
Lemma timer_of_ptr p q t k : timer_of p t k → (∃ i c e, k = TRetransmit q i c e) ∨ k = TFinish q → p = q.
Proof.
  intros Ht [(i & c & e & ->)| ->]; destruct t; cbn [timer_of] in Ht; try done;
    repeat match goal with H : Is_true (_ && _) |- _ => apply andb_True in H as [? ?] end;
    by repeat match goal with H : Is_true (bool_decide _) |- _ => apply bool_decide_unpack in H end.
Qed.

Lemma timed_end p k m :
  (∃ i c e, k = TRetransmit p i c e) ∨ k = TFinish p → timed_but (Some k) m → timed (snd (finish p m)).
Proof.
  intros Hk Hm. apply (timed_drop k); [by apply timed_finish|]. intros q t Hq Ht.
  pose proof (timer_of_ptr _ _ _ _ Ht Hk) as ->. by eapply finish_over.
Qed.

(** ** The steps *)

(** A client moves to a new state. *)
Lemma set_client_run p s t m :
  heap m !! p = Some (CTx t) →
  snd (set_client_state p s m) = set_tx p (CTx (client_with t s (c_events t) false)) m.
Proof. intros Hp. unfold set_client_state, get_client. rewrite run_gets, Hp, client_with_self. done. Qed.

(** Completed: the timer that ends it is started later. *)
Lemma timed_completed p t m :
  timed m → heap m !! p = Some (CTx t) → timed_but (Some (TFinish p)) (snd (set_client_state p TxStateCompleted m)).
Proof.
  intros Hm Hp. rewrite (set_client_run _ _ t) by done. eapply timed_set; [done..| |done|].
  - intros _. cbn [timer_of client_with c_state]. apply andb_True. by split; apply bool_decide_pack.
  - eexists. simpl. by rewrite lookup_insert_eq.
Qed.

Lemma timed_schedule p d m : timed_but (Some (TFinish p)) m → timed (snd (schedule d (TFinish p) m)).
Proof. intros Hm. apply (timed_start (TFinish p)); [done|by eapply td_but|done]. Qed.

(** Proceeding, from a state that is not over. *)
Lemma timed_proceeding p t m :
  timed m → heap m !! p = Some (CTx t) → client_ok t → c_state t ≠ TxStateIdle → over (c_state t) = false →
  timed (snd (set_client_state p TxStateProceeding m)).
Proof.
  intros Hm Hp (_ & Hs & _) Hi Ho. rewrite (set_client_run _ _ t) by done. eapply (timed_put None); [done..|].
  split; [|split; [done|by intros E; rewrite E in Ho]]. cbn [unfinished client_with c_stop c_state]. rewrite !orb_false_r.
  change (rearms (client_with t TxStateProceeding (c_events t) false)) with (negb (client_invite t)).
  intros Hu. apply andb_True in Hu as [Hst Hn].
  assert (rearms t) as Hr.
  { unfold rearms. unfold client_states in Hs. destruct (c_state t); try done; set_solver. }
  split; [by rewrite (Is_true_true_1 _ Hr), (Is_true_true_1 _ Hst)|]. intros k Hk. unfold timer_of in *.
  change (rearms (client_with t TxStateProceeding (c_events t) false)) with (negb (client_invite t)).
  destruct k; try done; apply andb_True in Hk as [Hk Hk']; apply andb_True; (split; [done|]).
  - done.
  - apply bool_decide_unpack in Hk'. by rewrite Hk' in Ho.
Qed.

(** Sequencing, with a property in between. *)
Lemma run_to {A B} (I J : TxManager → Prop) (a : M A) (k : A → M B) m :
  I (snd (a m)) → (∀ x s, I s → J (snd (k x s))) → J (snd ((a ≫= k) m)).
Proof. intros Ha Hk. unfold mbind, state_bind. destruct (a m) as [x s]. by apply Hk. Qed.

Definition timed_inv (m : TxManager) : Prop := tx_inv m ∧ timed m.

Section Invariant.
Context `{Sender}.

Lemma send_trace msg dst m : ∃ l, snd (send msg dst m) = with_trace l m.
Proof. unfold send. destruct (negb tp_set); [exists (trace m); by destruct m|by eexists]. Qed.

Lemma send_heap msg dst m : heap (snd (send msg dst m)) = heap m.
Proof. by destruct (send_trace msg dst m) as [l ->]. Qed.

Lemma timed_receive p t resp m :
  timed m → heap m !! p = Some (CTx t) → client_ok t → c_state t ≠ TxStateIdle → timed (snd (receive p resp m)).
Proof.
  intros Hm Hp Hok Hi. unfold receive. unfold get_client at 1. rewrite run_gets, Hp, run_gets.
  destruct (_ <? 200)%Z; [|destruct (_ <? 300)%Z].
  - destruct (over (c_state t)) eqn:Ho; [done|]. apply (run_bind timed); [by eapply timed_proceeding|intros; keeps_auto].
  - destruct (_ == INVITE); [|apply (run_bind timed); [by apply timed_deliver|intros; keeps_auto]].
    destruct (c_state t == TxStateCompleted) eqn:Hs; cbn [negb when].
    + apply bool_decide_eq_true in Hs. apply (run_bind timed); [|intros; keeps_auto].
      rewrite (set_client_run _ _ t) by done. eapply (timed_put None); [done..|]. rewrite <-Hs. apply still_client; [done..|].
      cbn. by rewrite orb_false_r.
    + apply (run_to (timed_but (Some (TFinish p)))); [by eapply timed_completed|]. intros _ s Hs'.
      apply (run_bind timed); [|intros; keeps_auto].
      apply (run_to (timed_but (Some (TFinish p)))); [by apply timed_deliver|]. intros _ s' Hs''. by apply timed_schedule.
  - destruct (over (c_state t)); [done|].
    apply (run_to (timed_but (Some (TFinish p)))); [by eapply timed_completed|]. intros _ s1 H1.
    apply (run_to (timed_but (Some (TFinish p)))); [by apply timed_deliver|]. intros _ s2 H2.
    apply (run_to (timed_but (Some (TFinish p)))); [by apply timed_sendACK|]. intros _ s3 H3. by apply timed_schedule.
Qed.

Lemma timed_handleResponse resp src m : tx_inv m → timed m → timed (snd (handleResponse resp src m)).
Proof.
  intros Hinv Hm. unfold handleResponse. destruct (_ == []); [done|]. unfold lookup_client. rewrite run_gets.
  destruct (txs m !! clientTxKeyOf resp) as [p|] eqn:Ht; simpl; [|by apply timed_emit].
  destruct (heap m !! p) as [[t|t]|] eqn:Hp; [|by apply timed_emit..].
  apply (run_bind timed); [|intros; keeps_auto]. eapply timed_receive; [done..| |by eapply td_idle].
  by apply Hinv in Hp as [_ ?].
Qed.

(** ** Servers *)

Lemma timed_server_set p t s f m :
  timed m → heap m !! p = Some (STx t) → answered s → timed_but (Some (TFinish p)) (snd (put_server p t s f m)).
Proof.
  intros Hm Hp Hs. unfold put_server. eapply (timed_set _ m p); [done..| | |].
  - intros _. by apply bool_decide_pack.
  - by intros _.
  - eexists. simpl. by rewrite lookup_insert_eq.
Qed.

Lemma timed_receiveACK p : keeps timed (receiveACK p).
Proof.
  apply keeps_get_server; [|keeps_auto]. intros t m Hm Hp. rewrite run_gets.
  destruct (negb (isInvite t)); [done|]. destruct (_ == TxStateCompleted); [|done].
  apply (run_to (timed_but (Some (TFinish p)))); [by apply timed_server_set|]. intros _ s Hs. by apply timed_schedule.
Qed.

Lemma timed_startFinal x p m : timed_but x m → timed_but x (snd (startFinalRetransmit p m)).
Proof.
  intros Hm. unfold startFinalRetransmit. rewrite run_gets. pose proof (td_sane _ _ Hm) as Hs.
  apply timed_add; [done|]. unfold sane in Hs. num_hyps. simpl. lia.
Qed.

(** A server that is still proceeding, and an INVITE that is completed, wait for
    no timer. *)
Lemma timed_server_free p t s f m :
  timed m → heap m !! p = Some (STx t) →
  s = TxStateProceeding ∧ answered (s_state t) = false ∨ s = TxStateCompleted ∧ isInvite t →
  timed (snd (put_server p t s f m)).
Proof.
  intros Hm Hp Hs. unfold put_server. eapply (timed_put None m p (STx t)); [done..|].
  split; [|intros Ha; destruct Hs as [[_ E]|[-> _]]; [by rewrite E in Ha|done]].
  cbn [unfinished s_stop s_state]. unfold isInvite in *. cbn [s_req]. intros Hu. exfalso.
  apply andb_True in Hu as [_ Hu]. destruct Hs as [[-> _]|[-> Hi]]; [done|]. apply Is_true_true_1 in Hi. by rewrite Hi in Hu.
Qed.

Lemma timed_Respond p r : keeps timed (Respond p r).
Proof.
  apply keeps_get_server; [|keeps_auto]. intros t m Hm Hp. rewrite run_gets.
  destruct ((StatusCode r <? 100)%Z || _); [done|]. cbv zeta. destruct (_ <? 200)%Z.
  - destruct (_ || _) eqn:Ha; [done|]. apply (run_bind timed); [|intros; keeps_auto].
    eapply timed_server_free; [done..|]. by left.
  - destruct (s_final t) as [f|]; [done|]. destruct (isInvite t) eqn:Hi.
    + set (m1 := snd (put_server p t TxStateCompleted (Some (fill_response (s_req t) r)) m)).
      assert (timed m1) as H1 by (eapply timed_server_free; [done..|]; right; by rewrite Hi).
      assert (fits m1 (TFinish p)) as Hf by (eexists; simpl; by rewrite lookup_insert_eq).
      apply (run_to (λ s, s = m1)); [done|]. intros _ s ->.
      apply (run_to (λ s, timed s ∧ fits s (TFinish p))).
      { split; [by apply timed_send|]. eapply fits_ext; [apply send_heap|done]. }
      intros [u|e] s [Hs Hfs]; [|done].
      apply (run_to (λ s, timed s ∧ fits s (TFinish p))); [split; [by apply timed_startFinal|done]|].
      intros _ s' [Hs' Hfs']. apply (run_bind timed); [by apply timed_add|intros; keeps_auto].
    + apply (run_to (timed_but (Some (TFinish p)))); [by apply timed_server_set|]. intros _ s1 H1.
      apply (run_to (timed_but (Some (TFinish p)))); [by apply timed_send|]. intros a s2 H2.
      apply (run_to timed); [by apply timed_schedule|]. by destruct a.
Qed.

(** ** New transactions *)

(** An object at a fresh pointer; an idle one is not in the table. *)
Lemma timed_new x m m' t :
  tx_inv m → timed m → heap m' = <[next_ptr m := t]> (heap m) → cfg m' = cfg m → tasks m' = tasks m →
  (∀ k p, txs m' !! k = Some p → p ≠ next_ptr m → txs m !! k = Some p) →
  (∀ k c, t = CTx c → c_state c = TxStateIdle → txs m' !! k ≠ Some (next_ptr m)) →
  (unfinished t → ∃ k, x = Some k ∧ timer_of (next_ptr m) t k) → (∀ k, x = Some k → fits m' k) → timed_but x m'.
Proof.
  intros Hinv [H1 H2 H3 H4 H5] Hh Hc Hk Ht Hi Hu Hx.
  assert (∀ q u, heap m !! q = Some u → q ≠ next_ptr m) as Hne by (intros q u Hq; apply Hinv in Hq as [? _]; lia).
  split; [by rewrite Hc|..].
  - intros due k Hin. rewrite Hk in Hin. apply H2 in Hin. destruct k as [| |q]; [done..|].
    destruct Hin as (u & Hq & Hs). exists u. rewrite Hh, lookup_insert_ne; [done|]. by apply not_eq_sym, (Hne q u).
  - intros q u Hq Hun. rewrite Hh in Hq. rewrite Hk. destruct (decide (next_ptr m = q)) as [<-|Hd].
    + rewrite lookup_insert_eq in Hq. injection Hq as <-. right. by apply Hu.
    + rewrite lookup_insert_ne in Hq by done. left. by destruct (H3 q u Hq Hun) as [?|(? & [=] & _)].
  - intros k q u Hq Hs Hid. rewrite Hh in Hs. destruct (decide (next_ptr m = q)) as [<-|Hd].
    + rewrite lookup_insert_eq in Hs. injection Hs as ->. by apply (Hi k u).
    + rewrite lookup_insert_ne in Hs by done. by apply (H4 k q u); [apply Ht|..].
  - done.
Qed.

Lemma timed_handleRequest req src m : tx_inv m → timed m → timed (snd (handleRequest req src m)).
Proof.
  intros Hinv Hm. unfold handleRequest. destruct (_ == ACK).
  { clear Hinv. revert m Hm. change (keeps timed (lookup_server (inviteKey req) ≫= λ stx,
      match stx with Some p => receiveACK p | None => emit (EOnRequest req src None) end)).
    keeps_auto. apply timed_receiveACK. }
  match goal with |- timed (snd ((?a ≫= _) m)) => assert (snd (a m) = m) as Ha end.
  { destruct (_ == CANCEL); [|done]. unfold lookup_server. rewrite run_gets.
    destruct (txs m !! inviteKey req ≫= _) as [p|]; [|done]. unfold get_server. by rewrite run_gets. }
  apply (run_to (λ s, s = m)); [done|]. intros spoofed s ->. destruct spoofed; [by apply timed_emit|].
  unfold lookup_server. rewrite run_gets.
  destruct (txs m !! serverTxKey req ≫= _) as [p|]; [by apply timed_receiveRetransmission|].
  destruct (_ == []); [done|].
  eapply (timed_new None m); [done..| | |done|done]; simpl.
  - intros k p Hk Hne. destruct (decide (serverTxKey req = k)) as [<-|Hd]; [|by rewrite lookup_insert_ne in Hk].
    rewrite lookup_insert_eq in Hk. congruence.
  - done.
Qed.

Definition idle_client (q : Request) (dst : Addr) : ClientTx :=
  mkClientTx q (clientTxKey q) dst TxStateIdle [] false false.

(** The three ways [Request] can go up to the send. *)
Lemma Request_send_cases req dst b c m :
  let r := Request_send req dst b c m in
  (∃ e, fst r = Err e ∧ snd r = m) ∨
  ∃ q l, let m1 := with_trace l (add_tx (CTx (idle_client q dst)) m) in
    (fst r = Ok (next_ptr m) ∧ snd r = m1) ∨
    (∃ e, fst r = Err e ∧ snd r = with_txs (delete (clientTxKey q) (txs m1)) m1).
Proof.
  cbv zeta. unfold Request_send. rewrite !run_gets. set (q := prepare_request req b c _ _).
  destruct (bool_decide _); [left; by eexists|]. right. exists q.
  match goal with |- context [fst (?x m)] =>
    change (x m) with ((r ← send (MReq q) dst;
      match r with Err e => remove (clientTxKey q);; mret (Err e) | Ok _ => mret (Ok (next_ptr m)) end)
      (add_tx (CTx (idle_client q dst)) m)) end.
  destruct (send_trace (MReq q) dst (add_tx (CTx (idle_client q dst)) m)) as [l Hl]. exists l.
  unfold mbind, state_bind. destruct (send _ _ _) as [[u|e] s]; simpl in Hl; subst s; [by left|right; by exists e].
Qed.

Lemma timed_Request req dst b c m : tx_inv m → timed m → timed (snd (TxManager_Request req dst b c m)).
Proof.
  intros Hinv Hm. unfold TxManager_Request.
  pose proof (Request_send_cases req dst b c m) as Hc. cbv zeta in Hc. unfold mbind at 1, state_bind at 1.
  destruct (Request_send req dst b c m) as [r m1]. cbn [fst snd] in Hc.
  destruct Hc as [(e & -> & ->)|(q & l & [[-> ->]|(e & -> & ->)])]; [done|..].
  - apply (run_bind timed); [|intros; keeps_auto]. set (n := next_ptr m). set (m1 := with_trace l _).
    assert (heap m1 !! n = Some (CTx (idle_client q dst))) as Hn by (simpl; by rewrite lookup_insert_eq).
    unfold Request_started. unfold get_client at 1. rewrite run_gets, Hn.
    set (s := if _ == INVITE then _ else _). assert (s = TxStateCalling ∨ s = TxStateTrying) as Hs.
    { unfold s. destruct (_ == INVITE); [by left|by right]. }
    apply (run_to (λ m', m' = set_tx n (CTx (client_with (idle_client q dst) s [] false)) m1)).
    { by rewrite (set_client_run _ _ _ _ Hn). }
    intros _ m2 ->. unfold startRetransmit, get_client. rewrite run_gets. simpl (heap _ !! _). rewrite lookup_insert_eq, run_gets.
    pose proof (td_sane _ _ Hm) as Hsane. unfold sane in Hsane. num_hyps. set (cap := (if _ == INVITE then T1 _ * 2 else T2 _)%Z).
    assert (0 < cap)%Z as Hcap by (unfold cap; case_match; simpl; lia).
    assert (∀ d, fits d (TRetransmit n (T1 (cfg m)) cap 0)) as Hfit by (simpl; intros; lia).
    apply (timed_start (TRetransmit n (T1 (cfg m)) cap 0)); [|done..].
    eapply (timed_new _ m); [done..|simpl; by rewrite insert_insert_eq|done|done| | | |].
    + intros k p Hk Hne. simpl in Hk. destruct (decide (clientTxKey q = k)) as [<-|Hd].
      * rewrite lookup_insert_eq in Hk. congruence.
      * by rewrite lookup_insert_ne in Hk.
    + intros k u [= <-]. simpl. by destruct Hs as [-> | ->].
    + intros _. eexists. split; [done|]. unfold timer_of. rewrite bool_decide_true by done.
      unfold rearms. simpl. by destruct Hs as [-> | ->].
    + by intros ? [= <-].
  - eapply (timed_new None m); [done..| | |done|done]; simpl.
    + intros k p Hk Hne. apply lookup_delete_Some in Hk as [Hd Hk]. by rewrite lookup_insert_ne in Hk.
    + intros k u [= <-] _ Hk. apply lookup_delete_Some in Hk as [Hd Hk]. rewrite lookup_insert_ne in Hk by done.
      apply Hinv in Hk as (v & Hv & _). apply Hinv in Hv as [? _]. lia.
Qed.

(** ** Timers that go off *)

Lemma elem_of_deleted {A} (l : list A) i x y : l !! i = Some y → x ∈ l → x = y ∨ x ∈ delete i l.
Proof. intros Hi Hx. rewrite (delete_Permutation l i y Hi) in Hx. by apply elem_of_cons in Hx. Qed.

(** A task leaves the list. *)
Lemma timed_taken m i due k :
  timed m → tasks m !! i = Some (due, k) → timed_but (Some k) (with_tasks (delete i (tasks m)) m).
Proof.
  intros [H1 H2 H3 H4 H5] Hi. assert (fits m k) as Hf by by eapply H2, list_elem_of_lookup_2. split; [done|..]; simpl.
  - intros d k' Hin. change (fits m k'). apply (H2 d). rewrite (delete_Permutation _ _ _ Hi). by right.
  - intros p t Hp Hu. destruct (H3 p t Hp Hu) as [(d & k' & Hin & Hk)|(? & [=] & _)].
    destruct (elem_of_deleted _ _ _ _ Hi Hin) as [[= -> ->]|Hin']; [right; by exists k|left; by exists d, k'].
  - done.
  - by intros ? [= <-].
Qed.

Lemma timed_fire_final p i m :
  timed m → fits m (TFinal p i) → timed (snd (fire_final p i m)).
Proof.
  intros Hm Hi. unfold fire_final, get_server. rewrite run_gets.
  destruct (heap m !! p) as [[t|t]|]; [done| |done]. destruct (s_stop t); [done|].
  destruct (_ != _); [done|]. destruct (s_final t) as [f|]; [|done].
  apply (run_to (λ s, timed s ∧ cfg s = cfg m)).
  { split; [by apply timed_send|]. by destruct (send_trace (MResp f) (s_src t) m) as [l ->]. }
  intros _ s [Hs _]. rewrite run_gets. pose proof (td_sane _ _ Hs) as Hsane. unfold sane in Hsane. num_hyps.
  apply timed_add; [done|]. simpl in *. lia.
Qed.

Lemma timed_fire_retransmit p i c e m :
  timed_but (Some (TRetransmit p i c e)) m → timed (snd (fire_retransmit p i c e m)).
Proof.
  intros Hm. pose proof (td_but _ _ Hm _ eq_refl) as Hf. unfold fire_retransmit, retransmit_round, get_client. rewrite run_gets.
  assert (∀ t, heap m !! p = Some (CTx t) → c_stop t || negb (rearms t) → timed m) as Hdrop.
  { intros t Hp Ht. apply (timed_drop (TRetransmit p i c e)); [done|]. intros q u Hq Hk.
    pose proof (timer_of_ptr q p u _ Hk ltac:(left; eauto)) as ->. rewrite Hp in Hq. injection Hq as <-.
    cbn [timer_of] in Hk. apply andb_True in Hk as [_ Hr]. apply Is_true_true_1 in Hr. rewrite Hr, orb_false_r in Ht.
    cbn [unfinished]. apply Is_true_true_1 in Ht. by rewrite Ht. }
  assert ((∀ t, heap m !! p ≠ Some (CTx t)) → timed m) as Hno.
  { intros Hp. apply (timed_drop (TRetransmit p i c e)); [done|]. intros q u Hq Hk.
    pose proof (timer_of_ptr q p u _ Hk ltac:(left; eauto)) as ->. destruct u as [u|u]; [by destruct (Hp u)|done]. }
  destruct (heap m !! p) as [[t|t]|] eqn:Hp; [|apply Hno; intros ? [=]..].
  destruct (c_stop t) eqn:Hst; [by apply (Hdrop t); rewrite ?Hst|].
  destruct (over (c_state t)) eqn:Ho.
  { apply (Hdrop t); [done|]. unfold rearms. apply orb_True. right. by destruct (c_state t). }
  destruct ((_ == INVITE) && _) eqn:Hip.
  { apply (Hdrop t); [done|]. apply orb_True. right. apply andb_true_iff in Hip as [Hi Hs].
    apply bool_decide_eq_true in Hs. unfold rearms, client_invite. by rewrite Hs, Hi. }
  apply (run_to (λ s, timed_but (Some (TRetransmit p i c e)) s ∧ heap s !! p = Some (CTx t))).
  { split; [by apply timed_send|]. by rewrite send_heap. }
  intros _ s [Hs Hps]. rewrite run_gets. destruct (_ <=? _)%Z.
  - unfold timeout, get_client. rewrite run_gets, Hps, Ho.
    apply (run_to (timed_but (Some (TRetransmit p i c e)))).
    { destruct (_ <? _); [by apply timed_deliver|done]. }
    intros _ s' Hs'. apply (timed_end p (TRetransmit p i c e)); [left; eauto|done].
  - apply (timed_start (TRetransmit p i c e)); [done|simpl in *; lia|]. intros q [u|u]; done.
Qed.

Lemma timed_fire i m : timed m → timed (snd (fire i m)).
Proof.
  intros Hm. unfold fire. rewrite !run_gets. destruct (tasks m !! i) as [[due k]|] eqn:Hi; [|done].
  destruct (due <=? now m)%Z; [|done].
  apply (run_to (timed_but (Some k))); [by eapply timed_taken|]. intros _ s Hs.
  destruct k as [p j c e|p j|p]; simpl.
  - by apply timed_fire_retransmit.
  - apply timed_fire_final; [|by apply (td_but _ _ Hs)]. apply (timed_drop (TFinal p j)); [done|]. by intros q [u|u].
  - apply (timed_end p (TFinish p)); [by right|done].
Qed.

Lemma timed_step l m : tx_inv m → timed m → sane_label l → timed (snd (step l m)).
Proof.
  intros Hinv Hm Hl. destruct l as [[msg src]|req dst b c|req dst b c|p|p r|p|p|c|i|i|p|d]; try done; cbn [step].
  - unfold handlePacket. cbn [Msg Src].
    apply (run_to timed_inv); [split; [by apply (closed_emit tx_inv tx_inv_closed)|by apply timed_emit]|].
    intros _ s [Hs Hs']. destruct msg; [by apply timed_handleRequest|by apply timed_handleResponse].
  - by apply (run_bind timed); [apply timed_Request|intros; keeps_auto].
  - by apply (run_bind timed); [apply timed_Respond|intros; keeps_auto].
  - by apply (run_bind timed); [apply timed_Cancel|intros; keeps_auto].
  - by apply timed_consume.
  - destruct Hm as [H1 H2 H3 H4 H5]. by split.
  - by apply timed_fire.
  - destruct Hm as [H1 H2 H3 H4 H5]. by split.
Qed.

Lemma timed_run m ls : timed_inv m → forallb sane_label ls → timed_inv (run m ls).
Proof.
  unfold run. revert m. induction ls as [|l ls IH]; intros m [Hinv Hm] Hls; [done|]. cbn [forallb fold_left] in *.
  apply andb_True in Hls as [Hl Hls]. apply IH; [|done].
  split; [by apply (closed_step tx_inv tx_inv_closed)|by apply timed_step].
Qed.
End Invariant.
