(* ===== verification/TxRefinement.v ===== *)
(** * The manager runs two machines

    [client_step] and [server_step] are the machines of the two kinds of transaction,
    each step with the condition under which the program takes it.  Here every step
    of the manager moves every object by steps of its machine, in the schedules in
    which no other goroutine comes between the send and the start of a [Request] or
    between the halves of a [timeout]; outside them it does not (the lemmas of
    TxTheorems give the schedules). *)

From S2P Require Import Prelude GoStrings Params Uri Headers HeadersMap Message Net Transport Ids Transaction TxMachines TxInvariants TxTimers.

(** ** The machines *)

(** The reader's channel after an event: what does not fit is lost. *)
Definition with_event (t : ClientTx) (e : TxEvent) : list TxEvent :=
  if length (c_events t) <? events_cap then c_events t ++ [e] else c_events t.

(** What a client answers to: its response ([cs_provisional], [cs_success],
    [cs_answered], [cs_failure]), the end of its time ([cs_timeout]), the end of its
    lingering ([cs_finish]); and its reader takes an event.  A client that is stopped
    only has its events read. *)
Inductive client_step (t : ClientTx) : ClientTx → Prop :=
| cs_provisional r :
    c_stop t = false → c_state t ≠ TxStateIdle → over (c_state t) = false → (StatusCode r < 200)%Z →
    client_step t (client_with t TxStateProceeding (with_event t (EvResponse r)) false)
| cs_success r :
    c_stop t = false → c_state t ≠ TxStateIdle → client_invite t → c_state t ≠ TxStateCompleted →
    (200 ≤ StatusCode r < 300)%Z →
    client_step t (client_with t TxStateCompleted (with_event t (EvResponse r)) false)
| cs_answered r :
    c_stop t = false → c_state t ≠ TxStateIdle → client_invite t = false → (200 ≤ StatusCode r < 300)%Z →
    client_step t (client_with t (c_state t) (with_event t (EvResponse r)) true)
| cs_failure r :
    c_stop t = false → c_state t ≠ TxStateIdle → over (c_state t) = false → (300 ≤ StatusCode r)%Z →
    client_step t (client_with t TxStateCompleted (with_event t (EvResponse r)) false)
| cs_timeout :
    c_stop t = false → over (c_state t) = false → (client_invite t → c_state t ≠ TxStateProceeding) →
    client_step t (client_with t (c_state t) (with_event t (EvErr ErrTimeout)) true)
| cs_finish : c_state t = TxStateCompleted → client_step t (client_stopped t)
| cs_read : client_step t (client_with t (c_state t) (tail (c_events t)) false).

(** A server gives its final response once ([server_act]), and stops only after
    it. *)
Inductive server_step (t : ServerTx) : ServerTx → Prop :=
| ss_act t' : server_act t t' → server_step t t'
| ss_finish : is_Some (s_final t) → server_step t (server_stopped t).

Inductive tx_step : Tx → Tx → Prop :=
| step_client t t' : client_step t t' → tx_step (CTx t) (CTx t')
| step_server t t' : server_step t t' → tx_step (STx t) (STx t').

(** *** What the client machine guarantees *)

Definition client_rank (s : TxState) : nat :=
  match s with TxStateIdle => 0 | TxStateCalling | TxStateTrying => 1 | TxStateCompleted | TxStateTerminated => 3 | _ => 2 end.

(** A client never goes back either: its state only advances, a stopped one keeps
    its state. *)
Lemma client_step_forward t t' :
  client_step t t' →
  client_rank (c_state t) ≤ client_rank (c_state t') ∧ (c_stop t → c_stop t' ∧ c_state t' = c_state t).
Proof.
  intros Hm. split; [|intros Hst; apply Is_true_true in Hst; destruct Hm; try congruence; split; cbn; rewrite ?Hst; done].
  destruct Hm as [r _ _ Ho _|r _ _ _ Hc _| |r _ _ Ho _| | |]; cbn; [..|done|done]; try done.
  - destruct (c_state t); cbn in *; (done || lia).
  - destruct (c_state t); cbn; lia.
  - destruct (c_state t); cbn; lia.
Qed.

Lemma client_steps_forward t u :
  rtc tx_step (CTx t) u →
  ∃ t', u = CTx t' ∧ client_rank (c_state t) ≤ client_rank (c_state t') ∧ (c_stop t → c_stop t' ∧ c_state t' = c_state t).
Proof.
  intros H. remember (CTx t) as x eqn:Hx. revert t Hx.
  induction H as [x|x y z Hxy _ IH]; intros t ->; [by exists t|].
  inversion Hxy as [? t2 Hm|]; subst. destruct (IH t2 eq_refl) as (t' & -> & Hle & Hst).
  apply client_step_forward in Hm as [Hle2 Hst2]. exists t'. split; [done|]. split; [lia|].
  intros Hs. destruct (Hst2 Hs) as [H2 E2]. destruct (Hst H2) as [H3 E3]. split; [done|congruence].
Qed.

(** ** Only what runs is in the table *)

Definition running (t : Tx) : Prop := match t with CTx c => c_stop c = false | STx s => s_stop s = false end.

Definition live (m : TxManager) : Prop :=
  ∀ k p, txs m !! k = Some p → p < next_ptr m ∧ ∃ t, heap m !! p = Some t ∧ Tx_Key t = k ∧ running t.

Lemma live_put m p t t' :
  live m → heap m !! p = Some t → Tx_Key t' = Tx_Key t → (running t → running t') ∨ txs m !! Tx_Key t = None →
  live (set_tx p t' m).
Proof.
  intros Hm Hp Hk Hr k q Hq. destruct (Hm k q Hq) as (Hlt & u & Hu & Hku & Hrun). split; [done|]. simpl in *.
  destruct (decide (p = q)) as [<-|Hne].
  - exists t'. rewrite lookup_insert_eq. assert (u = t) as -> by congruence. split_and!; [done|congruence|].
    destruct Hr as [Hr|Hr]; [auto|congruence].
  - exists u. by rewrite lookup_insert_ne.
Qed.

Lemma live_remove m k : live m → live (with_txs (delete k (txs m)) m).
Proof. intros Hm k' p Hp. simpl in Hp. apply lookup_delete_Some in Hp as [_ Hp]. by apply Hm. Qed.

Lemma live_calm : calm_closed live.
Proof.
  split.
  - intros m m' E1 E2 E3 E4 Hm k p. rewrite E1, E2, E3. apply Hm.
  - intros m k. apply live_remove.
  - intros m p t Hm Hp. eapply live_put; [done..|]. left. cbn. by rewrite orb_false_r.
  - intros m p t t' Hm Hp Ht. eapply live_put; [done..| |]; [by destruct Ht|]. left. destruct Ht; cbn; by rewrite orb_false_r.
  - intros m t Hm Ht k p Hk. simpl in *. destruct (decide (Tx_Key t = k)) as [<-|Hd].
    + rewrite lookup_insert_eq in Hk. injection Hk as <-. split; [lia|]. exists t. rewrite lookup_insert_eq. by destruct Ht.
    + rewrite lookup_insert_ne in Hk by done. destruct (Hm k p Hk) as (Hlt & u & Hu). split; [lia|]. exists u.
      rewrite lookup_insert_ne; [done|lia].
Qed.

Lemma live_init vh vp : live (NewTxManager vh vp).
Proof. intros k p Hk. simpl in Hk. by rewrite lookup_empty in Hk. Qed.

Section Live.
Context `{Sender}.

#[local] Hint Extern 1 (keeps live (send _ _)) => apply (quiet_send live live_calm) : keeps.
#[local] Hint Extern 1 (keeps live (sendACK _ _)) => apply (quiet_sendACK live live_calm) : keeps.
#[local] Hint Extern 1 (keeps live (schedule _ _)) => apply (quiet_schedule live live_calm) : keeps.
#[local] Hint Extern 1 (keeps live (startRetransmit _)) => apply (quiet_startRetransmit live live_calm) : keeps.
#[local] Hint Extern 1 (keeps live (fire_final _ _)) => apply (quiet_fire_final live live_calm) : keeps.
#[local] Hint Extern 1 (keeps live (Request_send _ _ _ _)) => apply (quiet_Request_send live live_calm) : keeps.
#[local] Hint Extern 1 (keeps live (emit _)) => by apply keeps_modify : keeps.

(** Any write that does not stop. *)
Lemma live_set_state p s : keeps live (set_client_state p s).
Proof.
  apply keeps_get_client; [|keeps_auto]. intros t m Hm Hp. eapply live_put; [done..|]. by left.
Qed.

Lemma live_deliver p e : keeps live (deliver p e).
Proof.
  apply keeps_get_client; [|keeps_auto]. intros t m Hm Hp. destruct (_ <? events_cap); [|exact Hm].
  apply (run_bind live); [|intros; keeps_auto]. eapply live_put; [done..|]. by left.
Qed.

Lemma live_finish p : keeps live (finish p).
Proof.
  intros m Hm. unfold finish. rewrite run_gets.
  destruct (heap m !! p) as [[t|t]|] eqn:Hp; [..|done];
    (eapply live_put; [by apply live_remove|exact Hp|done|right; apply lookup_delete_eq]).
Qed.

#[local] Hint Resolve live_set_state live_deliver live_finish : keeps.

Lemma live_timeout p : keeps live (timeout p).
Proof. unfold timeout. keeps_auto. Qed.

Lemma live_receive p r : keeps live (receive p r).
Proof. unfold receive. keeps_auto. Qed.

Lemma live_started p : keeps live (Request_started p).
Proof. unfold Request_started. keeps_auto. Qed.

#[local] Hint Resolve live_timeout live_receive live_started : keeps.

Lemma live_fire i : keeps live (fire i).
Proof.
  unfold fire. do 2 (apply keeps_bind; [apply keeps_gets|intros ?]).
  destruct (_ !! i) as [[due k]|]; [|apply keeps_ret]. destruct (due <=? _)%Z; [|apply keeps_ret].
  apply keeps_bind; [by apply keeps_modify|]. intros _.
  destruct k as [p j c e|p j|p]; cbn [run_task]; [|keeps_auto..]. apply (quiet_round live live_calm), live_timeout.
Qed.

Lemma live_step l : keeps live (step l).
Proof.
  apply (calm_step live live_calm); [|apply live_fire|].
  - intros resp src. unfold handleResponse. keeps_auto.
  - destruct l; try done; [unfold TxManager_Request|apply live_started|unfold timeout_end]; keeps_auto.
Qed.
End Live.

(** ** Every object moves as its machine *)

Definition advances (m m' : TxManager) : Prop :=
  ∀ p t, heap m !! p = Some t → ∃ t', heap m' !! p = Some t' ∧ rtc tx_step t t'.

#[export] Instance advances_preorder : PreOrder advances.
Proof.
  split; [by intros m p t Hp; exists t|]. intros m1 m2 m3 H1 H2 p t Hp.
  destruct (H1 p t Hp) as (u & Hu & Hs). destruct (H2 p u Hu) as (v & Hv & Hs'). exists v. split; [done|by etransitivity].
Qed.

Lemma advances_same m m' : heap m' = heap m → advances m m'.
Proof. intros E p t Hp. exists t. by rewrite E. Qed.

Lemma advances_put m m' p t t' : heap m !! p = Some t → heap m' = <[p := t']> (heap m) → tx_step t t' → advances m m'.
Proof.
  intros Hp E Ht q u Hq. rewrite E. destruct (decide (p = q)) as [<-|Hne].
  - exists t'. rewrite lookup_insert_eq. assert (u = t) as -> by congruence. split; [done|by apply rtc_once].
  - exists u. by rewrite lookup_insert_ne.
Qed.

Lemma advances_calm m0 : calm_closed (λ m, tx_inv m ∧ advances m0 m).
Proof.
  pose proof (tx_closed_quiet _ tx_inv_closed) as HQ. split.
  - intros m m' E1 E2 E3 E4 [H1 H2]. split; [by apply (q_ext _ HQ m)|]. etransitivity; [done|by apply advances_same].
  - intros m k [H1 H2]. by split; [apply (q_remove _ HQ)|].
  - intros m p t [H1 H2] Hp. split; [by apply (q_read _ HQ)|]. etransitivity; [done|].
    eapply advances_put; [done..|]. constructor. constructor.
  - intros m p t t' [H1 H2] Hp Ht. split; [by apply (q_act _ HQ m p t)|]. etransitivity; [done|].
    eapply advances_put; [done..|]. by do 2 constructor.
  - intros m t [H1 H2] Ht. split; [by apply (q_new _ HQ)|]. etransitivity; [done|]. intros p u Hp. exists u. split; [|done].
    simpl. rewrite lookup_insert_ne; [done|]. apply (inv_heap _ H1) in Hp as [? _]. lia.
Qed.

Section Advance.
Context `{Sender}.

(** What touches no object. *)
Abbreviation heap_is h := (λ m, heap m = h).

#[local] Hint Extern 1 (keeps (heap_is _) (emit _)) => by apply keeps_modify : keeps.
#[local] Hint Extern 1 (keeps (heap_is _) (remove _)) => by apply keeps_modify : keeps.
#[local] Hint Extern 1 (keeps (heap_is _) (add_task _ _)) => by apply keeps_modify : keeps.
#[local] Hint Extern 1 (keeps (heap_is _) (schedule _ _)) => by apply keeps_modify : keeps.

Lemma heap_send h msg dst : keeps (heap_is h) (send msg dst).
Proof. unfold send. keeps_auto. Qed.
#[local] Hint Resolve heap_send : keeps.

Lemma heap_sendACK h p r : keeps (heap_is h) (sendACK p r).
Proof. unfold sendACK. keeps_auto. Qed.
#[local] Hint Resolve heap_sendACK : keeps.

Lemma heap_final h p i : keeps (heap_is h) (fire_final p i).
Proof. unfold fire_final. keeps_auto. Qed.

Lemma client_with_twice t s ev s' ev' b : client_with (client_with t s ev false) s' ev' b = client_with t s' ev' b.
Proof. unfold client_with. cbn. by rewrite !orb_false_r. Qed.

Lemma client_with_id t : client_with t (c_state t) (c_events t) false = t.
Proof. rewrite client_with_self. by destruct t. Qed.

(** Delivering an event, and setting the state before. *)
Lemma deliver_heap p t e m :
  heap m !! p = Some (CTx t) →
  heap (snd (deliver p e m)) = <[p := CTx (client_with t (c_state t) (with_event t e) false)]> (heap m).
Proof.
  intros Hp. unfold deliver, get_client. rewrite run_gets, Hp. unfold with_event. destruct (_ <? events_cap).
  - by rewrite client_with_self.
  - cbn. by rewrite client_with_id, insert_id.
Qed.

Lemma set_deliver_heap p t s e m :
  heap m !! p = Some (CTx t) →
  heap (snd ((set_client_state p s;; deliver p e) m)) = <[p := CTx (client_with t s (with_event t e) false)]> (heap m).
Proof.
  intros Hp. apply (run_to (λ m', m' = set_tx p (CTx (client_with t s (c_events t) false)) m) (heap_is _)).
  { by apply set_client_run. }
  intros _ s' ->. rewrite (deliver_heap p (client_with t s (c_events t) false)) by (simpl; by rewrite lookup_insert_eq).
  rewrite client_with_twice. simpl. by rewrite insert_insert_eq.
Qed.

(** ... and what follows touches no object. *)
Lemma set_deliver_then {A} p t s e (k : () → M A) m :
  heap m !! p = Some (CTx t) → (∀ h a, keeps (heap_is h) (k a)) →
  heap (snd ((set_client_state p s;; deliver p e ≫= k) m)) = <[p := CTx (client_with t s (with_event t e) false)]> (heap m).
Proof.
  intros Hp Hk. pose proof (set_deliver_heap p t s e m Hp) as E. assert ((set_client_state p s;; deliver p e ≫= k) m = ((set_client_state p s;; deliver p e) ≫= k) m) as ->.
  { unfold mbind, state_bind. by destruct (set_client_state p s m). }
  by apply (run_bind (heap_is _)).
Qed.

(** [finish] after an event. *)
Lemma deliver_finish_heap p t e m :
  heap m !! p = Some (CTx t) →
  heap (snd ((deliver p e;; finish p) m)) = <[p := CTx (client_with t (c_state t) (with_event t e) true)]> (heap m).
Proof.
  intros Hp.
  apply (run_to (heap_is (<[p := CTx (client_with t (c_state t) (with_event t e) false)]> (heap m))) (heap_is _)).
  { by apply deliver_heap. }
  intros _ s E. rewrite finish_heap, E, lookup_insert_eq, insert_insert_eq. by rewrite client_with_twice.
Qed.
End Advance.

(** ** The steps *)

Section Refines.
Context `{Sender}.

Abbreviation heap_is h := (λ m, heap m = h).

#[local] Hint Extern 1 (keeps (heap_is _) (emit _)) => by apply keeps_modify : keeps.
#[local] Hint Extern 1 (keeps (heap_is _) (add_task _ _)) => by apply keeps_modify : keeps.
#[local] Hint Extern 1 (keeps (heap_is _) (schedule _ _)) => by apply keeps_modify : keeps.
#[local] Hint Resolve heap_send heap_sendACK heap_final : keeps.

Lemma advances_receive p t r m :
  heap m !! p = Some (CTx t) → c_stop t = false → c_state t ≠ TxStateIdle → advances m (snd (receive p r m)).
Proof.
  intros Hp Hst Hi. unfold receive. unfold get_client at 1. rewrite run_gets, Hp, run_gets.
  destruct (Z.ltb_spec (StatusCode r) 200); [|destruct (Z.ltb_spec (StatusCode r) 300)].
  - destruct (over (c_state t)) eqn:Ho; [done|]. eapply advances_put; [done|by apply set_deliver_heap|].
    by constructor; apply cs_provisional.
  - destruct (Req_Method (c_req t) == INVITE) eqn:Hinv.
    + destruct (c_state t == TxStateCompleted) eqn:Hc; cbn [negb when].
      * apply advances_same. apply bool_decide_eq_true in Hc.
        apply (run_bind (heap_is (heap m))); [|intros; keeps_auto].
        rewrite (set_client_run _ _ t) by done. cbn. rewrite <-Hc, client_with_id. by apply insert_id.
      * apply bool_decide_eq_false in Hc. eapply advances_put; [done| |].
        -- etransitivity; [|apply (set_deliver_then p t TxStateCompleted (EvResponse r)
             (λ _, schedule (TimerD (cfg m)) (TFinish p);; sendACK p r)); [done|intros; keeps_auto]].
           unfold mbind, state_bind. destruct (set_client_state p _ m) as [[] m1].
           by destruct (deliver p _ m1) as [[] m2].
        -- constructor. apply (cs_success t r); try done. unfold client_invite. by rewrite Hinv.
    + eapply advances_put; [done|by apply deliver_finish_heap|]. constructor. by apply cs_answered.
  - destruct (over (c_state t)) eqn:Ho; [done|].
    eapply advances_put; [done|apply set_deliver_then; [done|intros; keeps_auto]|]. constructor. by apply cs_failure.
Qed.

Lemma advances_handleResponse resp src m :
  tx_inv m → timed m → live m → advances m (snd (handleResponse resp src m)).
Proof.
  intros Hinv Hm Hl. unfold handleResponse. destruct (_ == []); [done|]. unfold lookup_client. rewrite run_gets.
  destruct (txs m !! clientTxKeyOf resp) as [p|] eqn:Ht; simpl; [|by apply advances_same].
  destruct (Hl _ _ Ht) as (_ & u & Hp & _ & Hrun). rewrite Hp. destruct u as [t|t]; [|by apply advances_same].
  apply (run_bind (advances m)); [|intros _ s Hs; etransitivity; [exact Hs|by apply advances_same]].
  apply (advances_receive p t); [done|done|]. by eapply td_idle.
Qed.

(** The last round of the retransmissions. *)
Lemma advances_timeout p t m :
  heap m !! p = Some (CTx t) → c_stop t = false → (client_invite t → c_state t ≠ TxStateProceeding) →
  advances m (snd (timeout p m)).
Proof.
  intros Hp Hst Hi. unfold timeout, get_client. rewrite run_gets, Hp. destruct (over (c_state t)) eqn:Ho; [done|].
  eapply advances_put; [done| |constructor; by apply cs_timeout].
  destruct (length (c_events t) <? events_cap) eqn:Hf; [by apply deliver_finish_heap|].
  etransitivity; [apply (finish_heap p m)|]. rewrite Hp. unfold with_event. by rewrite Hf.
Qed.

Lemma advances_run_task k m : tx_inv m → fits m k → advances m (snd (run_task k m)).
Proof.
  intros Hinv Hf. destruct k as [p i c e|p i|p]; cbn [run_task].
  - unfold fire_retransmit, retransmit_round, get_client. rewrite run_gets.
    destruct (heap m !! p) as [[t|t]|] eqn:Hp; [|done..]. destruct (c_stop t) eqn:Hst; [done|].
    destruct (over (c_state t)) eqn:Ho; [done|]. destruct (_ && _) eqn:Hi; [done|].
    apply (run_to (heap_is (heap m)) (advances m)); [by apply heap_send|]. intros _ s E. rewrite run_gets. cbv zeta.
    etransitivity; [by apply (advances_same m s)|]. destruct (_ <=? _)%Z; [|by apply advances_same].
    apply (advances_timeout p t); [by rewrite E|done|]. intros Hc Hs. unfold client_invite in Hc.
    apply Is_true_true in Hc. by rewrite Hc, Hs in Hi.
  - apply advances_same. by apply heap_final.
  - destruct Hf as (u & Hp & Hu). pose proof (finish_heap p m) as E. rewrite Hp in E.
    destruct u as [t|t]; (eapply advances_put; [done|exact E|]); constructor; [by apply cs_finish|].
    apply ss_finish. destruct (inv_heap _ Hinv p _ Hp) as [_ (_ & _ & Hs)].
    destruct (s_final t); [by eexists|]. by destruct (s_state t).
Qed.

Lemma advances_fire i m : tx_inv m → timed m → advances m (snd (fire i m)).
Proof.
  intros Hinv Hm. unfold fire. rewrite !run_gets. destruct (tasks m !! i) as [[due k]|] eqn:Hi; [|done].
  destruct (due <=? now m)%Z; [|done].
  apply (advances_run_task k (with_tasks (delete i (tasks m)) m)); [by apply (cl_ext _ tx_inv_closed m)|].
  apply (fits_ext m); [done|]. eapply (td_fits _ _ Hm). by eapply list_elem_of_lookup_2.
Qed.

(** A request starts in its first state; what was there stays. *)
Lemma advances_Request req dst b c m : tx_inv m → advances m (snd (TxManager_Request req dst b c m)).
Proof.
  intros Hinv. unfold TxManager_Request.
  assert (∀ p s, p = next_ptr m → advances m s → advances m (snd (Request_started p s))) as Hgo.
  { intros p s -> Hs q u Hq. destruct (Hs q u Hq) as (u' & Hu' & Hst). exists u'. split; [|done]. rewrite <-Hu'.
    assert (q ≠ next_ptr m) as Hne by (apply Hinv in Hq as [? _]; lia).
    assert (keeps (λ m', heap m' !! q = heap s !! q) (Request_started (next_ptr m))) as Hk; [|by apply Hk].
    assert (∀ f : TxManager → TxManager, (∀ s, heap (f s) !! q = heap s !! q) → keeps (λ m', heap m' !! q = heap s !! q) (modify f)) as Hmod.
    { intros f Hf. apply keeps_modify. intros s' E. by rewrite Hf. }
    unfold Request_started, set_client_state, startRetransmit, put_tx, add_task.
    repeat first [keeps_step | apply Hmod; intros; cbn; rewrite ?lookup_insert_ne by done; done | solve [auto with keeps]]. }
  assert (advances m (snd (Request_send req dst b c m)) ∧ ∀ p, fst (Request_send req dst b c m) = Ok p → p = next_ptr m) as [Hs Hp].
  { split; [by apply (quiet_Request_send _ (advances_calm m))|]. intros p E.
    destruct (Request_send_cases req dst b c m) as [(e & E' & _)|(q & l & [[E' _]|(e & E' & _)])]; congruence. }
  unfold mbind at 1, state_bind at 1. destruct (Request_send req dst b c m) as [[p|e] s]; cbn [fst snd] in *; [|done].
  apply (run_bind (advances m)); [|by intros; apply keeps_ret]. by apply Hgo; [apply Hp|].
Qed.

Lemma advances_step l m : tx_inv m → timed m → live m → sane_label l → advances m (exec m l).
Proof.
  intros Hinv Hm Hl Hs. pose proof (advances_calm m) as Hcalm. assert (tx_inv m ∧ advances m m) as H0 by done.
  unfold exec. destruct l as [[msg src]|req dst b c|req dst b c|p|p r|p|p|c|i|i|p|d]; try done; cbn [step].
  - unfold handlePacket. cbn [Msg Src]. unfold emit at 1, modify. unfold mbind, state_bind. destruct msg as [r|r].
    + apply (quiet_handleRequest _ Hcalm). split; [by apply (cl_ext _ tx_inv_closed m)|by apply advances_same].
    + etransitivity; [|apply advances_handleResponse]; [by apply advances_same|by apply (cl_ext _ tx_inv_closed m)|..].
      * destruct Hm as [H1 H2 H3 H4 H5]. by split.
      * exact Hl.
  - apply (run_bind (advances m)); [by apply advances_Request|intros; apply keeps_ret].
  - apply (run_bind (advances m)); [by apply (quiet_Respond _ Hcalm)|intros; apply keeps_ret].
  - apply (run_bind (advances m)); [by apply (quiet_Cancel _ Hcalm)|intros; apply keeps_ret].
  - by apply (quiet_consume _ Hcalm).
  - by apply advances_same.
  - by apply advances_fire.
  - by apply advances_same.
Qed.

(** Every schedule of these steps. *)
Lemma advances_run ls m : timed_inv m → live m → forallb sane_label ls → advances m (run m ls) ∧ live (run m ls).
Proof.
  unfold run. revert m. induction ls as [|l ls IH]; intros m Hm Hl Hls; [done|]. cbn [forallb fold_left] in *.
  apply andb_True in Hls as [Hs Hls]. destruct (IH (exec m l)) as [Ha Hl']; [|by apply live_step|done|].
  - apply (timed_run m [l] Hm). cbn. by rewrite (Is_true_true_1 _ Hs).
  - split; [|done]. etransitivity; [|exact Ha]. destruct Hm. by apply advances_step.
Qed.

Lemma advances_sane vh vp ls1 ls2 p t :
  forallb sane_label ls1 → forallb sane_label ls2 → heap (run (NewTxManager vh vp) ls1) !! p = Some t →
  ∃ t', heap (run (run (NewTxManager vh vp) ls1) ls2) !! p = Some t' ∧ rtc tx_step t t'.
Proof.
  intros H1 H2. assert (timed_inv (NewTxManager vh vp)) as H0 by (split; [apply tx_inv_init|apply timed_init]).
  destruct (advances_run ls1 _ H0 (live_init vh vp) H1) as [_ Hl].
  destruct (advances_run ls2 _ (timed_run _ ls1 H0 H1) Hl H2) as [Ha _]. apply Ha.
Qed.
End Refines.
