(* ===== verification/TxLiveness.v ===== *)
(** * Time ends every transaction that waits for a timer

    [elapse] lets time pass to the earliest due task and runs one of the tasks due
    then; [inevitably P] holds when [P] is reached whichever of them runs each
    time.  A transaction with a pending timer inevitably ends: the timers that go
    off before its own are bounded by [weights], and a client is sent again only
    until TimerF. *)

From S2P Require Import Prelude GoStrings Params Uri Headers HeadersMap Message Net Transport Ids Transaction TxMachines TxInvariants TxTimers.

Section Time.
Context `{Sender}.

Inductive elapse (m : TxManager) : TxManager → Prop :=
| elapse_task i due k :
    tasks m !! i = Some (due, k) → (∀ due' k', (due', k') ∈ tasks m → (due ≤ due')%Z) →
    elapse m (run m [LTick (due - now m); LFire i]).

Inductive inevitably (P : TxManager → Prop) (m : TxManager) : Prop :=
| inevitably_now : P m → inevitably P m
| inevitably_later : (∃ m', elapse m m') → (∀ m', elapse m m' → inevitably P m') → inevitably P m.

(** ** One timer *)

Definition task_ptr (k : task) : nat := match k with TRetransmit p _ _ _ | TFinal p _ | TFinish p => p end.

(** What a task leaves besides its own object: at most one later task. *)
Record task_frame (k : task) (m m' : TxManager) : Prop := {
  tf_heap p : p ≠ task_ptr k → heap m' !! p = heap m !! p;
  tf_cfg : cfg m' = cfg m;
  tf_now : now m' = now m;
  tf_tasks : tasks m' = tasks m ∨
    ∃ d k', tasks m' = tasks m ++ [((now m + d)%Z, k')] ∧ (0 < d)%Z ∧ task_ptr k' = task_ptr k
}.

Lemma finish_frame p m :
  cfg (snd (finish p m)) = cfg m ∧ now (snd (finish p m)) = now m ∧ tasks (snd (finish p m)) = tasks m ∧
  ∀ q, q ≠ p → heap (snd (finish p m)) !! q = heap m !! q.
Proof.
  split_and!; [..|intros q Hq; rewrite finish_heap; destruct (heap m !! p) as [[t|t]|]; [..|done];
                  by rewrite lookup_insert_ne];
    unfold finish; rewrite run_gets; by destruct (heap m !! p) as [[t|t]|].
Qed.

Lemma deliver_frame p e m :
  cfg (snd (deliver p e m)) = cfg m ∧ now (snd (deliver p e m)) = now m ∧ tasks (snd (deliver p e m)) = tasks m ∧
  txs (snd (deliver p e m)) = txs m ∧ ∀ q, q ≠ p → heap (snd (deliver p e m)) !! q = heap m !! q.
Proof.
  unfold deliver, get_client. rewrite run_gets. destruct (heap m !! p) as [[t|t]|]; [|done..].
  destruct (_ <? events_cap); [|done]. split_and!; [done..|]. intros q Hq. simpl. by rewrite lookup_insert_ne.
Qed.

Lemma timeout_frame p m :
  cfg (snd (timeout p m)) = cfg m ∧ now (snd (timeout p m)) = now m ∧ tasks (snd (timeout p m)) = tasks m ∧
  ∀ q, q ≠ p → heap (snd (timeout p m)) !! q = heap m !! q.
Proof.
  unfold timeout, get_client. rewrite run_gets. destruct (heap m !! p) as [[t|t]|]; [|done..].
  destruct (over _); [done|]. destruct (deliver_frame p (EvErr ErrTimeout) m) as (E1 & E2 & E3 & _ & E4).
  destruct (_ <? events_cap); cbn [when]; [|apply finish_frame].
  unfold mbind, state_bind. destruct (deliver _ _ m) as [u s]. cbn [snd] in *.
  destruct (finish_frame p s) as (F1 & F2 & F3 & F4). split_and!; [congruence..|]. intros q Hq. rewrite F4, E4 by done. done.
Qed.

(** Sending does not get in the way. *)
Lemma after_send {A} (P : TxManager → Prop) msg dst (k : result unit → M A) m :
  (∀ r l, P (snd (k r (with_trace l m)))) → P (snd ((send msg dst ≫= k) m)).
Proof.
  intros HP. destruct (send_trace msg dst m) as [l Hl]. unfold mbind, state_bind. destruct (send msg dst m) as [r s].
  simpl in Hl. subst s. apply HP.
Qed.

Lemma run_task_frame k m : sane (cfg m) → fits m k → task_frame k m (snd (run_task k m)).
Proof.
  intros Hs Hf. unfold sane in Hs. num_hyps. destruct k as [p i c e|p i|p]; cbn [run_task].
  - unfold fire_retransmit, retransmit_round, get_client. rewrite run_gets. destruct (heap m !! p) as [[t|t]|]; [|by split; [..|left]..].
    destruct (c_stop t); [by split; [..|left]|]. destruct (over _); [by split; [..|left]|].
    destruct (_ && _); [by split; [..|left]|]. apply after_send. intros _ l. rewrite run_gets.
    destruct (_ <=? _)%Z.
    + destruct (timeout_frame p (with_trace l m)) as (E1 & E2 & E3 & E4). split; [by intros; apply E4|done..|by left].
    + split; [done..|]. right. simpl in *. eexists _, _. split_and!; [done|lia|done].
  - unfold fire_final, get_server. rewrite run_gets. destruct (heap m !! p) as [[t|t]|]; [by split; [..|left]| |by split; [..|left]].
    destruct (s_stop t); [by split; [..|left]|]. destruct (_ != _); [by split; [..|left]|].
    destruct (s_final t); [|by split; [..|left]]. apply after_send. intros _ l. rewrite run_gets.
    split; [done..|]. right. simpl in *. eexists _, _. split_and!; [done|lia|done].
  - destruct (finish_frame p m) as (E1 & E2 & E3 & E4). split; [by intros; apply E4|done..|by left].
Qed.

(** ** The end of a transaction *)

Definition stopped (t : Tx) : bool := match t with CTx c => c_stop c | STx s => s_stop s end.

(** A client that was still sent again has been told of the timeout, unless its
    reader let the channel fill up. *)
Definition told (t t' : Tx) : Prop :=
  match t, t' with
  | CTx c, CTx c' => rearms c → EvErr ErrTimeout ∈ c_events c' ∨ events_cap ≤ length (c_events c')
  | STx _, STx _ => True
  | _, _ => False
  end.

Definition ended (p : nat) (t : Tx) (m : TxManager) : Prop :=
  ∃ t', heap m !! p = Some t' ∧ stopped t' ∧ txs m !! Tx_Key t = None ∧ told t t'.

(** How far a client is from its last retransmission. *)
Definition remaining (F : Z) (k : task) : nat := match k with TRetransmit _ _ _ e => Z.to_nat (F - e) | _ => 0 end.

Lemma finish_ended p t m :
  heap m !! p = Some t → (∀ t', heap (snd (finish p m)) !! p = Some t' → told t t') → ended p t (snd (finish p m)).
Proof.
  intros Hp Ht. pose proof (finish_heap p m) as Hh. rewrite Hp in Hh.
  assert (txs (snd (finish p m)) !! Tx_Key t = None) as Hx.
  { unfold finish. rewrite run_gets, Hp. destruct t; simpl; by rewrite lookup_delete_eq. }
  destruct t as [t|t]; eexists; (split; [by rewrite Hh, lookup_insert_eq|]);
    (split; [by simpl; rewrite orb_true_r|]); (split; [exact Hx|]); [|done].
  apply Ht. by rewrite Hh, lookup_insert_eq.
Qed.

Lemma timeout_ended p t m :
  heap m !! p = Some (CTx t) → over (c_state t) = false → ended p (CTx t) (snd (timeout p m)).
Proof.
  intros Hp Ho. unfold timeout, get_client. rewrite run_gets, Hp, Ho.
  assert (∃ m1 t1, snd ((when (length (c_events t) <? events_cap) (deliver p (EvErr ErrTimeout));; finish p) m) =
                   snd (finish p m1) ∧ heap m1 !! p = Some (CTx t1) ∧ c_key t1 = c_key t ∧
                   (EvErr ErrTimeout ∈ c_events t1 ∨ events_cap ≤ length (c_events t1))) as (m1 & t1 & -> & H1 & Hk & He).
  { destruct (length (c_events t) <? events_cap) eqn:Hl; cbn [when].
    - eexists _, _. split; [|split; [|split]].
      + unfold mbind at 1, state_bind at 1. unfold deliver, get_client. rewrite run_gets, Hp, Hl. reflexivity.
      + simpl. by rewrite lookup_insert_eq.
      + done.
      + left. simpl. apply elem_of_app. right. by constructor.
    - exists m, t. split_and!; [done..|]. right. by apply Nat.ltb_ge in Hl. }
  assert (ended p (CTx t1) (snd (finish p m1))) as (t' & Ht' & Hst & Hx & _).
  { apply finish_ended; [done|]. rewrite finish_heap, H1, lookup_insert_eq. intros ? [= <-] _. exact He. }
  exists t'. split; [done|]. split; [done|]. simpl in *. rewrite Hk in Hx. split; [done|].
  rewrite finish_heap, H1, lookup_insert_eq in Ht'. injection Ht' as <-. intros _. exact He.
Qed.

(** A task of the transaction's own ends it or leaves it as it was, and a timer
    that ends nothing is followed by another, closer to the end. *)
Lemma own_task k t m :
  let p := task_ptr k in let m' := snd (run_task k m) in
  heap m !! p = Some t → unfinished t → fits m k →
  ended p t m' ∨
  (heap m' !! p = Some t ∧
   (timer_of p t k → ∃ d k', (d, k') ∈ tasks m' ∧ timer_of p t k' ∧ remaining (TimerF (cfg m)) k' < remaining (TimerF (cfg m)) k)).
Proof.
  intros p m' Hp Hu Hf. destruct k as [q i c e|q i|q]; subst m'; cbn [task_ptr run_task] in *; subst p.
  - unfold fire_retransmit, retransmit_round, get_client. rewrite run_gets, Hp. destruct t as [t|t]; [|by right].
    simpl in Hu. apply andb_True in Hu as [Hst Hu]. apply Is_true_true_1, negb_true_iff in Hst. rewrite Hst.
    destruct (rearms t) eqn:Hr; cycle 1.
    { simpl in Hu. apply bool_decide_unpack in Hu. rewrite Hu. right. split; [done|]. cbn [timer_of]. by rewrite Hr, andb_false_r. }
    assert (over (c_state t) = false) as Ho by (unfold rearms in Hr; by destruct (c_state t)). rewrite Ho.
    assert ((Req_Method (c_req t) == INVITE) && (c_state t == TxStateProceeding) = false) as ->.
    { unfold rearms, client_invite in Hr. destruct (c_state t); [done|by rewrite andb_false_r..| |done|done|done].
      apply negb_true_iff in Hr. by rewrite Hr. }
    apply after_send. intros _ l. rewrite run_gets. destruct (_ <=? _)%Z eqn:HF.
    + left. by apply timeout_ended.
    + right. split; [done|]. intros _. eexists _, _. split; [|split].
      * simpl. apply elem_of_app. right. by constructor.
      * cbn [timer_of]. by rewrite Hr, bool_decide_true.
      * simpl in *. apply Z.leb_gt in HF. lia.
  - right. split.
    + unfold fire_final, get_server. rewrite run_gets, Hp. destruct t as [t|t]; [done|].
      destruct (s_stop t); [done|]. destruct (_ != _); [done|]. destruct (s_final t); [|done]. by apply after_send.
    + by destruct t.
  - left. apply finish_ended; [done|]. intros t' Ht'. destruct Hf as (u & Hu' & Hs). rewrite Hp in Hu'. injection Hu' as <-.
    rewrite finish_heap, Hp in Ht'. destruct t as [t|t]; rewrite lookup_insert_eq in Ht'; injection Ht' as <-; [|done]. simpl. intros Hr. unfold rearms in Hr. by rewrite Hs in Hr.
Qed.

(** ** Time passes *)

(** How often a timer can still go off up to [D], at most. *)
Definition weight (D : Z) (x : Z * task) : nat := Z.to_nat (D + 1 - x.1).
Definition weights (D : Z) (l : list (Z * task)) : nat := sum_list_with (weight D) l.

Lemma weights_taken D l i x : l !! i = Some x → weights D l = weight D x + weights D (delete i l).
Proof. intros Hi. apply (sum_list_with_Permutation_proper (weight D) _ (x :: delete i l)). by apply delete_Permutation. Qed.

Lemma earliest (l : list (Z * task)) x :
  x ∈ l → ∃ i d k, l !! i = Some (d, k) ∧ ∀ d' k', (d', k') ∈ l → (d ≤ d')%Z.
Proof.
  revert x. induction l as [|[d k] l IH]; intros x Hx; [by apply not_elem_of_nil in Hx|].
  destruct l as [|y l].
  - exists 0, d, k. split; [done|]. intros d' k' Hin. apply list_elem_of_singleton in Hin. by simplify_eq.
  - destruct (IH y) as (i & d1 & k1 & Hi & Hmin); [by constructor|]. destruct (decide (d ≤ d1)%Z) as [Hle|Hgt].
    + exists 0, d, k. split; [done|]. intros d' k' Hin. apply elem_of_cons in Hin as [[= -> ->]|Hin]; [done|].
      apply Hmin in Hin. lia.
    + exists (S i), d1, k1. split; [done|]. intros d' k' Hin. apply elem_of_cons in Hin as [[= -> ->]|Hin]; [lia|].
      by eapply Hmin.
Qed.

(** The manager when the task [i] runs. *)
Definition at_task (i : nat) (due : Z) (m : TxManager) : TxManager :=
  with_tasks (delete i (tasks m)) (with_now (now m + Z.max 0 (due - now m))%Z m).

Lemma elapse_run m i due k :
  tasks m !! i = Some (due, k) → run m [LTick (due - now m); LFire i] = snd (run_task k (at_task i due m)).
Proof.
  intros Hi. unfold run, exec. cbn [fold_left step]. unfold fire. rewrite !run_gets. simpl. rewrite Hi.
  assert ((due <=? now m + Z.max 0 (due - now m))%Z = true) as -> by lia. done.
Qed.

Lemma inevitably_ends p t F A W m due k :
  timed_inv m → heap m !! p = Some t → unfinished t → TimerF (cfg m) = F → (due, k) ∈ tasks m → timer_of p t k →
  remaining F k = A → weights due (tasks m) = W → inevitably (ended p t) m.
Proof.
  intros Hm Hp Hu HF Hin Hk HA HW. revert W m due k Hm Hp Hu HF Hin Hk HA HW.
  induction (lt_wf A) as [A _ IHA]. intros W. induction (lt_wf W) as [W _ IHW].
  intros m due k Hm Hp Hu HF Hin Hk HA HW. apply inevitably_later.
  { destruct (earliest _ _ Hin) as (i & d & k1 & Hi & Hmin). eexists. by econstructor. }
  intros m' He. destruct He as [i d k1 Hi Hmin].
  assert (timed_inv (run m [LTick (d - now m); LFire i])) as Hm' by by apply timed_run.
  rewrite (elapse_run m i d k1 Hi) in Hm' |- *. set (m1 := at_task i d m) in *. set (m' := snd _) in *.
  destruct Hm as [Hinv Htm].
  assert (fits m1 k1) as Hfit.
  { apply (fits_ext m); [done|]. eapply (td_fits _ _ Htm). by eapply list_elem_of_lookup_2. }
  destruct (run_task_frame k1 m1 (td_sane _ _ Htm) Hfit) as [Hheap Hcfg Hnow Htasks]. fold m' in Hheap, Hcfg, Hnow, Htasks.
  assert (ended p t m' ∨ heap m' !! p = Some t ∧ (timer_of p t k1 → ∃ d' k', (d', k') ∈ tasks m' ∧ timer_of p t k' ∧
            remaining F k' < remaining F k1)) as [Hend|[Hp' Hnext]]; [|by apply inevitably_now|].
  { destruct (decide (p = task_ptr k1)) as [->|Hne].
    - destruct (own_task k1 t m1) as [?|[? Hn]]; [done..|by left|]. right. split; [done|]. by rewrite <-HF.
    - right. rewrite Hheap by done. split; [done|]. intros Hk1. destruct Hne.
      by destruct t, k1; simpl in Hk1; try done; try apply andb_True in Hk1 as [Hk1 _]; apply bool_decide_unpack in Hk1. }
  destruct (elem_of_deleted _ _ _ _ Hi Hin) as [[= -> ->]|Hin'].
  - destruct (Hnext Hk) as (d' & k' & Hin' & Hk' & Hlt). rewrite HA in Hlt.
    eapply (IHA _ Hlt _ m' d' k'); try done. by rewrite Hcfg.
  - assert ((due, k) ∈ tasks m') as Hin2.
    { destruct Htasks as [->|(j & k' & -> & _ & _)]; [done|]. apply elem_of_app. by left. }
    eapply (IHW (weights due (tasks m'))); try done; [|by rewrite Hcfg].
    pose proof (Hmin _ _ Hin) as Hd. rewrite <-HW, (weights_taken due _ _ _ Hi). unfold weight at 1. cbn [fst].
    destruct Htasks as [->|(j & k' & -> & Hj & _)].
    + change (tasks m1) with (delete i (tasks m)). lia.
    + change (tasks m1) with (delete i (tasks m)). unfold weights at 1. rewrite sum_list_with_app. fold (weights due (delete i (tasks m))).
      simpl. unfold weight. simpl. lia.
Qed.

Lemma unfinished_ends p t m :
  timed_inv m → heap m !! p = Some t → unfinished t → inevitably (ended p t) m.
Proof.
  intros Hm Hp Hu. destruct (td_armed _ _ (proj2 Hm) p t Hp Hu) as [(due & k & Hin & Hk)|(? & [=] & _)].
  by eapply inevitably_ends.
Qed.

Lemma unfinished_ends_run vh vp ls p t :
  forallb sane_label ls → let m := run (NewTxManager vh vp) ls in
  heap m !! p = Some t → unfinished t → inevitably (ended p t) m.
Proof. intros Hls m. apply unfinished_ends. apply timed_run; [|done]. split; [apply tx_inv_init|apply timed_init]. Qed.
End Time.
