(* ===== verification/TxSchedule.v ===== *)
(** * When a request is sent again, and when its sender gives up

    [resend_times] are the times, from the start of a client transaction, at which
    it sends its request again while nothing answers; at the last one it gives up.
    Here the passage of time ([elapse]) is shown to follow them exactly, whatever
    else the manager holds. *)

From S2P Require Import Prelude GoStrings Params Uri Headers HeadersMap Message Net Transport Ids Transaction TxMachines TxInvariants TxTimers TxLiveness.

(** The goroutine of [startRetransmit] from interval [i] on, [e] after the start;
    [cap] bounds the interval and [F] is TimerF. *)
Fixpoint times_from (n : nat) (F cap i e : Z) : list Z :=
  (e + i)%Z :: match n with
               | 0 => []
               | S n => if (F <=? e + i)%Z then [] else times_from n F cap (Z.min (i * 2) cap) (e + i)
               end.

Definition retransmit_cap (c : TxConfig) (req : Request) : Z := if Req_Method req == INVITE then (T1 c * 2)%Z else T2 c.

Definition resend_times (c : TxConfig) (req : Request) : list Z :=
  times_from (S (Z.to_nat (TimerF c / T1 c))) (TimerF c) (retransmit_cap c req) (T1 c) 0.

(** In half seconds: with the default configuration an INVITE is sent again every
    second until 32.5 s, any other request at 0.5, 1.5 and 3.5 s and then every four
    seconds until 35.5 s. *)
Definition halves (l : list Z) : list Z := map (λ t, t / (500 * Millisecond))%Z l.

Example times_invite :
  halves (resend_times DefaultTxConfig (NewRequest INVITE None)) = map (λ i, 2 * Z.of_nat i + 1)%Z (seq 0 33).
Proof. vm_compute. reflexivity. Qed.

Example times_other :
  halves (resend_times DefaultTxConfig (NewRequest MESSAGE None)) = [1; 3; 7; 15; 23; 31; 39; 47; 55; 63; 71]%Z.
Proof. vm_compute. reflexivity. Qed.

(** [n] rounds of at least [u] are enough. *)
Definition enough (n : nat) (F u e : Z) : Prop := (F - e ≤ Z.of_nat n * u)%Z.

Lemma enough_next n F u e i : (u ≤ i)%Z → enough (S n) F u e → enough n F u (e + i).
Proof. unfold enough. rewrite Nat2Z.inj_succ, Z.mul_succ_l. lia. Qed.

Lemma enough_all F u : (0 < u)%Z → enough (S (Z.to_nat (F / u))) F u 0.
Proof.
  intros Hu. unfold enough. pose proof (Z.div_mod F u ltac:(lia)). pose proof (Z.mod_pos_bound F u Hu).
  destruct (decide (0 ≤ F / u)%Z); [|nia]. rewrite Nat2Z.inj_succ, Z2Nat.id by done. lia.
Qed.

Lemma times_from_last n F cap u i e :
  (0 < u ≤ i)%Z → (i ≤ cap)%Z → enough n F u e →
  ∃ D, last (times_from n F cap i e) = Some D ∧ (F ≤ D)%Z ∧ (e + i ≤ D)%Z ∧ (e < F → D < F + cap)%Z.
Proof.
  revert i e. induction n as [|n IH]; intros i e Hu Hi Hn; cbn [times_from].
  - unfold enough in Hn. exists (e + i)%Z. split_and!; [done|lia..].
  - destruct (Z.leb_spec F (e + i)); [exists (e + i)%Z; split_and!; [done|lia..]|].
    destruct (IH (Z.min (i * 2) cap) (e + i)%Z) as (D & HD & H1 & H2 & H3); [lia|lia|by apply enough_next; [lia|]|].
    exists D. split_and!; [|lia..]. by destruct n.
Qed.

Lemma times_from_first n F cap u i e o :
  (0 < u ≤ i)%Z → (i ≤ cap)%Z → o ∈ times_from n F cap i e → (e + i ≤ o)%Z.
Proof.
  revert i e. induction n as [|n IH]; intros i e Hu Hi; cbn [times_from]; rewrite elem_of_cons.
  - intros [->|?%not_elem_of_nil]; [lia|done].
  - intros [->|Ho]; [lia|]. destruct (_ <=? _)%Z; [by apply not_elem_of_nil in Ho|]. apply IH in Ho; lia.
Qed.

Lemma times_from_head n F cap i e : (e + i)%Z ∈ times_from n F cap i e.
Proof. destruct n; by constructor. Qed.

(** ** Tasks belong to objects *)

Definition tasks_known (m : TxManager) : Prop := ∀ d k, (d, k) ∈ tasks m → is_Some (heap m !! task_ptr k).

(** And so does [p]. *)
Definition known_with (p : nat) (m : TxManager) : Prop := tasks_known m ∧ is_Some (heap m !! p).

Section Known.
Context `{Sender}.

(** [I] is kept by what neither adds a task nor loses an object. *)
Record owning (I : TxManager → Prop) : Prop := mkOwning {
  ow_mono m m' : tasks m' = tasks m → (∀ q, is_Some (heap m !! q) → is_Some (heap m' !! q)) → I m → I m'
}.

Lemma owning_known : owning tasks_known.
Proof. split. intros m m' Et Hh Hm d k. rewrite Et. intros Hk. by eapply Hh, Hm. Qed.

Lemma owning_with p : owning (known_with p).
Proof. split. intros m m' Et Hh [Hm Hp]. split; [by eapply owning_known|by apply Hh]. Qed.

Section Owning.
Context (I : TxManager → Prop) (HI : owning I).

Lemma own_modify (f : TxManager → TxManager) :
  (∀ m, tasks (f m) = tasks m ∧ ∀ q, is_Some (heap m !! q) → is_Some (heap (f m) !! q)) → keeps I (modify f).
Proof. intros Hf. apply keeps_modify. intros m. by apply (ow_mono _ HI); apply Hf. Qed.

Lemma own_same (f : TxManager → TxManager) : (∀ m, tasks (f m) = tasks m ∧ heap (f m) = heap m) → keeps I (modify f).
Proof. intros Hf. apply own_modify. intros m. destruct (Hf m) as [-> ->]. done. Qed.

Lemma insert_some (h : gmap nat Tx) p t q : is_Some (h !! q) → is_Some (<[p := t]> h !! q).
Proof. rewrite lookup_insert_is_Some. destruct (decide (p = q)); auto. Qed.

Lemma own_put p t : keeps I (put_tx p t).
Proof. apply own_modify. intros m. split; [done|]. intros q. cbn. apply insert_some. Qed.

Lemma own_alloc t : keeps I (alloc t).
Proof. intros m Hm. apply (ow_mono _ HI m); [done| |done]. intros q. simpl. apply insert_some. Qed.

Hint Extern 1 (keeps I (put_tx _ _)) => apply own_put : keeps.
Hint Extern 1 (keeps I (put_server _ _ _ _)) => apply own_put : keeps.
Hint Extern 1 (keeps I (alloc _)) => apply own_alloc : keeps.
Hint Extern 1 (keeps I (emit _)) => by apply own_same : keeps.
Hint Extern 1 (keeps I (remove _)) => by apply own_same : keeps.
Hint Extern 1 (keeps I (set_table _ _)) => by apply own_same : keeps.
Hint Extern 1 (keeps I (modify _)) => by apply own_same : keeps.

Lemma own_send msg dst : keeps I (send msg dst).
Proof. unfold send. keeps_auto. Qed.

Lemma own_deliver p e : keeps I (deliver p e).
Proof. unfold deliver. keeps_auto. Qed.

Lemma own_finish p : keeps I (finish p).
Proof. unfold finish. keeps_auto. Qed.

Lemma own_state p s : keeps I (set_client_state p s).
Proof. unfold set_client_state. keeps_auto. Qed.

Hint Resolve own_send own_deliver own_finish own_state : keeps.

Lemma own_timeout p : keeps I (timeout p).
Proof. unfold timeout. keeps_auto. Qed.

Lemma own_sendACK p r : keeps I (sendACK p r).
Proof. unfold sendACK. keeps_auto. Qed.

Lemma own_Cancel p : keeps I (Cancel p).
Proof. unfold Cancel. keeps_auto. Qed.

Lemma own_receiveRetransmission p : keeps I (receiveRetransmission p).
Proof. unfold receiveRetransmission. keeps_auto. Qed.

Lemma own_consume p : keeps I (consume p).
Proof. unfold consume. keeps_auto. Qed.

Lemma own_Request_send req dst b c : keeps I (Request_send req dst b c).
Proof. unfold Request_send. keeps_auto. Qed.
End Owning.
End Known.

Section Arming.
Context `{Sender}.

Lemma known_add p d k : task_ptr k = p → keeps (known_with p) (add_task d k).
Proof.
  intros Hk. apply keeps_modify. intros m [Hm Hp]. split; [|done]. intros d' k'. cbn.
  rewrite elem_of_app, list_elem_of_singleton. intros [Hin|[= -> ->]]; [by eapply Hm|by rewrite Hk].
Qed.

(** A method that found its object. *)
Lemma known_client {A} p (k : option ClientTx → M A) :
  (∀ t, keeps (known_with p) (k (Some t))) → keeps tasks_known (k None) → keeps tasks_known (get_client p ≫= k).
Proof.
  intros HS HN. apply keeps_get_client; [|done]. intros t m Hm Hp. apply (HS t m). split; [done|]. by rewrite Hp.
Qed.

Lemma known_server {A} p (k : option ServerTx → M A) :
  (∀ t, keeps (known_with p) (k (Some t))) → keeps tasks_known (k None) → keeps tasks_known (get_server p ≫= k).
Proof.
  intros HS HN. apply keeps_get_server; [|done]. intros t m Hm Hp. apply (HS t m). split; [done|]. by rewrite Hp.
Qed.

Ltac own_auto I HI :=
  repeat first
    [ apply (own_send I HI) | apply (own_deliver I HI) | apply (own_finish I HI) | apply (own_state I HI)
    | apply (own_timeout I HI) | apply (own_sendACK I HI) | apply (own_Cancel I HI)
    | apply (own_receiveRetransmission I HI) | apply (own_consume I HI) | apply (own_Request_send I HI)
    | apply (own_put I HI) | apply (own_alloc I HI) | apply known_add; reflexivity
    | solve [auto with keeps] | keeps_step | progress cbv zeta | apply (own_same I HI); done ].

Lemma known_with_start p : keeps (known_with p) (startRetransmit p).
Proof. unfold startRetransmit. own_auto (known_with p) (owning_with p). Qed.

Lemma known_receive p r : keeps tasks_known (receive p r).
Proof.
  apply known_client; [|apply keeps_ret]. intros t. unfold schedule. own_auto (known_with p) (owning_with p).
Qed.

Lemma known_started p : keeps tasks_known (Request_started p).
Proof.
  apply known_client; [|apply keeps_ret]. intros t. apply keeps_bind; [apply (own_state _ (owning_with p))|].
  intros _. apply known_with_start.
Qed.

Lemma known_round x p i c e : keeps (known_with p) x → keeps tasks_known (retransmit_round x p i c e).
Proof.
  intros Hx. apply known_client; [|apply keeps_ret]. intros t. own_auto (known_with p) (owning_with p).
Qed.

Lemma known_retransmit p i c e : keeps tasks_known (fire_retransmit p i c e).
Proof. apply known_round. apply (own_timeout _ (owning_with p)). Qed.

Lemma known_receiveACK p : keeps tasks_known (receiveACK p).
Proof. apply known_server; [|own_auto tasks_known owning_known]. intros t. unfold put_server, schedule. own_auto (known_with p) (owning_with p). Qed.

Lemma known_final p i : keeps tasks_known (fire_final p i).
Proof. apply known_server; [|apply keeps_ret]. intros t. own_auto (known_with p) (owning_with p). Qed.

Lemma known_Respond p r : keeps tasks_known (Respond p r).
Proof.
  apply known_server; [|own_auto tasks_known owning_known]. intros t. unfold put_server, schedule, startFinalRetransmit.
  own_auto (known_with p) (owning_with p).
Qed.

Lemma known_handleRequest req src : keeps tasks_known (handleRequest req src).
Proof.
  unfold handleRequest.
  repeat first [apply known_receiveACK | apply (own_receiveRetransmission _ owning_known) | apply (own_alloc _ owning_known)
               | solve [auto with keeps] | keeps_step | apply (own_same _ owning_known); done].
Qed.

Lemma known_Request req dst b c : keeps tasks_known (TxManager_Request req dst b c).
Proof.
  unfold TxManager_Request. apply keeps_bind; [apply (own_Request_send _ owning_known)|].
  intros [p|]; [apply keeps_bind; [apply known_started|intros; apply keeps_ret]|apply keeps_ret].
Qed.

Lemma known_run_task k : keeps tasks_known (run_task k).
Proof. destruct k; [apply known_retransmit|apply known_final|apply (own_finish _ owning_known)]. Qed.

Lemma known_fire i : keeps tasks_known (fire i).
Proof.
  intros m Hm. unfold fire. rewrite !run_gets. destruct (tasks m !! i) as [[due k]|] eqn:Hi; [|done].
  destruct (due <=? now m)%Z; [|done]. apply (known_run_task k (with_tasks (delete i (tasks m)) m)).
  intros d k' Hin. apply (Hm d). rewrite (delete_Permutation _ _ _ Hi). by right.
Qed.

Lemma known_expire i : keeps tasks_known (expire i).
Proof.
  intros m Hm. unfold expire. rewrite !run_gets. destruct (tasks m !! i) as [[due [p j c e| |]]|] eqn:Hi; [|done..].
  destruct (due <=? now m)%Z; [|done].
  apply (known_round (_ ← timeout_check p; mret ()) p j c e); [|].
  { unfold timeout_check. own_auto (known_with p) (owning_with p). }
  intros d k' Hin. apply (Hm d). rewrite (delete_Permutation _ _ _ Hi). by right.
Qed.

Lemma known_timeout_end p : keeps tasks_known (timeout_end p).
Proof. unfold timeout_end. own_auto tasks_known owning_known. Qed.

Lemma known_step l : keeps tasks_known (step l).
Proof.
  destruct l as [[[r|r] src]|req dst b c|req dst b c|p|p r|p|p|c|i|i|p|d]; cbn [step].
  - apply keeps_bind; [by apply (own_same _ owning_known)|]. intros _. apply known_handleRequest.
  - apply keeps_bind; [by apply (own_same _ owning_known)|]. intros _. cbn. unfold handleResponse.
    repeat first [apply known_receive | solve [auto with keeps] | keeps_step | apply (own_same _ owning_known); done].
  - apply keeps_bind; [apply known_Request|intros; apply keeps_ret].
  - apply keeps_bind; [apply (own_Request_send _ owning_known)|intros; apply keeps_ret].
  - apply known_started.
  - apply keeps_bind; [apply known_Respond|intros; apply keeps_ret].
  - apply keeps_bind; [apply (own_Cancel _ owning_known)|intros; apply keeps_ret].
  - apply (own_consume _ owning_known).
  - by apply (own_same _ owning_known).
  - apply known_fire.
  - apply known_expire.
  - apply known_timeout_end.
  - by apply (own_same _ owning_known).
Qed.

Lemma known_run vh vp ls : tasks_known (run (NewTxManager vh vp) ls).
Proof.
  assert (tasks_known (NewTxManager vh vp)) as H0 by by intros d k ?%not_elem_of_nil.
  unfold run. revert H0. generalize (NewTxManager vh vp). induction ls as [|l ls IH]; intros m Hm; [done|].
  cbn. apply IH. by apply known_step.
Qed.
End Arming.

(** ** An unanswered request *)

Section Unanswered.
Context `{Sender}.

(** Time has given it up: it is stopped, its key is free, its reader has been told,
    unless it let the channel fill up. *)
Definition gave_up (p : nat) (t : ClientTx) (m : TxManager) : Prop :=
  ∃ t', heap m !! p = Some (CTx t') ∧ c_stop t' ∧ txs m !! c_key t = None ∧
        (EvErr ErrTimeout ∈ c_events t' ∨ events_cap ≤ length (c_events t')).

(** What is sent: the request of the transaction, to its destination. *)
Definition resent (t : ClientTx) (m m' : TxManager) : Prop :=
  ∃ ok rest, trace m' = trace m ++ ESend (MReq (c_req t)) (route (MReq (c_req t)) (c_dst t)) ok :: rest.

(** The step to [m'] is the firing of the timer of [p] at the time [τ], and it sends
    the request. *)
Definition sent_again (p : nat) (t : ClientTx) (τ : Z) (m m' : TxManager) : Prop :=
  ∃ j i cap e, tasks m !! j = Some (τ, TRetransmit p i cap e) ∧ m' = run m [LTick (τ - now m); LFire j] ∧
    now m' = τ ∧ resent t m m'.

(** It was one of the steps from [m0] to [m]. *)
Definition resent_at (m0 m : TxManager) (p : nat) (t : ClientTx) (τ : Z) : Prop :=
  ∃ a b, rtc elapse m0 a ∧ elapse a b ∧ rtc elapse b m ∧ sent_again p t τ a b.

Definition extends (l : list effect) (m : TxManager) : Prop := ∃ more, trace m = l ++ more.

Lemma extends_timeout l p : keeps (extends l) (timeout p).
Proof.
  assert (∀ e, keeps (extends l) (emit e)) as He.
  { intros e. apply keeps_modify. intros s [more E]. exists (more ++ [e]). cbn. by rewrite E, app_assoc. }
  assert (∀ f : TxManager → TxManager, (∀ s, trace (f s) = trace s) → keeps (extends l) (modify f)) as Hmod.
  { intros f Hf. apply keeps_modify. intros s Hs. unfold extends. by rewrite Hf. }
  unfold timeout, deliver, finish, remove, put_tx, get_client.
  repeat first [apply He | apply Hmod; done | keeps_step].
Qed.

Lemma send_set msg dst m :
  tp_set = true → ∃ ok, snd (send msg dst m) = with_trace (trace m ++ [ESend msg (route msg dst) ok]) m.
Proof. intros Hs. unfold send. rewrite Hs. by eexists. Qed.

(** A round that sends. *)
Lemma round_resends p i cap e t m :
  tp_set = true → heap m !! p = Some (CTx t) → c_stop t = false → rearms t →
  resent t m (snd (fire_retransmit p i cap e m)).
Proof.
  intros Htp Hp Hst Hr. unfold fire_retransmit, retransmit_round, get_client. rewrite run_gets, Hp, Hst.
  assert (over (c_state t) = false) as -> by (unfold rearms in Hr; by destruct (c_state t)).
  assert ((Req_Method (c_req t) == INVITE) && (c_state t == TxStateProceeding) = false) as ->.
  { unfold rearms, client_invite in Hr. destruct (c_state t); [done|by rewrite andb_false_r..| |done|done|done].
    apply Is_true_true_1, negb_true_iff in Hr. by rewrite Hr. }
  destruct (send_set (MReq (c_req t)) (c_dst t) m Htp) as [ok Hs].
  unfold mbind at 1, state_bind at 1. destruct (send _ _ m) as [r s]. cbn [snd] in Hs. subst s. rewrite run_gets.
  set (l := trace m ++ _). assert (∀ s, extends l s → resent t m s) as Hext.
  { intros s [more E]. exists ok, more. rewrite E. unfold l. by rewrite <-app_assoc. }
  apply Hext. destruct (_ <=? _)%Z; [|exists []; by rewrite app_nil_r].
  apply extends_timeout. exists []. by rewrite app_nil_r.
Qed.

(** The firing of its timer. *)
Lemma fire_waiting p i cap e t m :
  heap m !! p = Some (CTx t) → c_stop t = false → rearms t →
  let m' := snd (fire_retransmit p i cap e m) in
  if (TimerF (cfg m) <=? e + i)%Z then gave_up p t m'
  else heap m' = heap m ∧ now m' = now m ∧
       tasks m' = tasks m ++ [((now m + Z.min (i * 2) cap)%Z, TRetransmit p (Z.min (i * 2) cap) cap (e + i))].
Proof.
  intros Hp Hst Hr m'. subst m'. unfold fire_retransmit, retransmit_round, get_client. rewrite run_gets, Hp, Hst.
  assert (over (c_state t) = false) as Ho by (unfold rearms in Hr; by destruct (c_state t)). rewrite Ho.
  assert ((Req_Method (c_req t) == INVITE) && (c_state t == TxStateProceeding) = false) as ->.
  { unfold rearms, client_invite in Hr. destruct (c_state t); [done|by rewrite andb_false_r..| |done|done|done].
    apply Is_true_true_1, negb_true_iff in Hr. by rewrite Hr. }
  apply (after_send (λ s, if (TimerF (cfg m) <=? e + i)%Z then gave_up p t s else heap s = heap m ∧ now s = now m ∧
    tasks s = tasks m ++ [((now m + Z.min (i * 2) cap)%Z, TRetransmit p (Z.min (i * 2) cap) cap (e + i))])).
  intros _ l. rewrite run_gets. simpl (cfg _). destruct (_ <=? _)%Z; [|done].
  destruct (timeout_ended p t (with_trace l m)) as (t' & Ht' & Hs & Hx & Htold); [done..|].
  destruct t' as [t'|t']; [|done]. exists t'. split_and!; [done..|by apply Htold].
Qed.

(** Nothing the tasks do brings it back. *)
Lemma task_key_free k key : keeps (λ m, txs m !! key = None) (run_task k).
Proof.
  assert (∀ k', keeps (λ m, txs m !! key = None) (remove k')) as Hrm.
  { intros k'. apply keeps_modify. intros s Hs. cbn. by apply lookup_delete_None; right. }
  assert (∀ f : TxManager → TxManager, (∀ s, txs (f s) = txs s) → keeps (λ m, txs m !! key = None) (modify f)) as Hmod.
  { intros f Hf. apply keeps_modify. intros s Hs. by rewrite Hf. }
  destruct k; unfold run_task, fire_retransmit, retransmit_round, fire_final, timeout, deliver, finish, send, emit, put_tx, add_task, get_client,
    get_server; repeat first [apply Hrm | apply Hmod; done | progress cbv zeta | keeps_step].
Qed.

Lemma task_gave_up k p t m : gave_up p t m → gave_up p t (snd (run_task k m)).
Proof.
  intros (t' & Hp & Hs & Hx & He). assert (txs (snd (run_task k m)) !! c_key t = None) as Hx' by by apply task_key_free.
  destruct (decide (p = task_ptr k)) as [->|Hne].
  - destruct k as [q i c e|q i|q]; cbn [run_task task_ptr] in *.
    + exists t'. split_and!; [|done..]. unfold fire_retransmit, retransmit_round, get_client. rewrite run_gets, Hp.
      apply Is_true_true in Hs. by rewrite Hs.
    + exists t'. split_and!; [|done..]. unfold fire_final, get_server. by rewrite run_gets, Hp.
    + eexists. rewrite finish_heap, Hp, lookup_insert_eq. split; [done|]. cbn. rewrite orb_true_r. done.
  - exists t'. split_and!; [|done..]. rewrite <-Hp.
    assert (∀ m1, keeps (λ m, heap m !! p = heap m1 !! p) (run_task k)) as Hk; [|by apply (Hk m m)].
    intros m1. assert (∀ f : TxManager → TxManager, (∀ s, heap (f s) !! p = heap s !! p) →
      keeps (λ m, heap m !! p = heap m1 !! p) (modify f)) as Hmod.
    { intros f Hf. apply keeps_modify. intros s E. by rewrite Hf. }
    destruct k; cbn [task_ptr] in Hne; unfold run_task, fire_retransmit, retransmit_round, fire_final, timeout, deliver, finish, send, emit, put_tx, remove,
      add_task, get_client, get_server;
      repeat first [apply Hmod; first [done | intros; cbn; by rewrite lookup_insert_ne] | progress cbv zeta | keeps_step].
Qed.

(** Where a client that nothing answers stands: its one timer is the next of the
    times [T], or it has given up at the last of them; [Q] holds of the times that
    have passed. *)
Inductive on_schedule (Q : Z → Prop) (T : list Z) (t0 F cap u : Z) (p : nat) (t : ClientTx) (m : TxManager) : Prop :=
| waits past n i e rest :
    T = past ++ times_from n F cap i e → Forall Q past →
    (0 < u ≤ i)%Z → (i ≤ cap)%Z → enough n F u e → (now m ≤ t0 + (e + i))%Z →
    heap m !! p = Some (CTx t) →
    tasks m ≡ₚ ((t0 + (e + i))%Z, TRetransmit p i cap e) :: rest → Forall (λ x, task_ptr x.2 ≠ p) rest →
    on_schedule Q T t0 F cap u p t m
| gives_up D : last T = Some D → (t0 + D ≤ now m)%Z → Forall Q T → gave_up p t m → on_schedule Q T t0 F cap u p t m.

(** Its own timer goes off, on time. *)
Lemma schedule_own Q T t0 F cap u p t m past n i e rest :
  TimerF (cfg m) = F → c_stop t = false → rearms t →
  T = past ++ times_from n F cap i e → Forall Q past → Q (e + i)%Z →
  (0 < u ≤ i)%Z → (i ≤ cap)%Z → enough n F u e → now m = (t0 + (e + i))%Z → heap m !! p = Some (CTx t) →
  tasks m ≡ₚ rest → Forall (λ x, task_ptr x.2 ≠ p) rest →
  now (snd (fire_retransmit p i cap e m)) = now m →
  on_schedule Q T t0 F cap u p t (snd (fire_retransmit p i cap e m)).
Proof.
  intros HF Hst Hr HT Hpast Hnew Hu Hi Hn Hat Hp Hts Hrest Hnow.
  pose proof (fire_waiting p i cap e t m Hp Hst Hr) as Hf. cbv zeta in Hf. rewrite HF in Hf.
  destruct (F <=? e + i)%Z eqn:HFe.
  - assert (T = past ++ [e + i]%Z) as -> by (rewrite HT; destruct n; cbn [times_from]; rewrite ?HFe; done).
    apply (gives_up _ _ _ _ _ _ _ _ _ (e + i)%Z); [by apply last_snoc|rewrite Hnow; lia| |done].
    apply Forall_app. by rewrite Forall_singleton.
  - destruct Hf as (Hh & Hno & Hta). destruct n as [|n]; [unfold enough in Hn; lia|].
    apply (waits _ _ _ _ _ _ _ _ _ (past ++ [e + i]%Z) n (Z.min (i * 2) cap) (e + i) rest).
    + rewrite HT. cbn [times_from]. by rewrite HFe, <-app_assoc.
    + apply Forall_app. by rewrite Forall_singleton.
    + lia.
    + lia.
    + by apply enough_next; [lia|].
    + rewrite Hno, Hat. lia.
    + by rewrite Hh.
    + rewrite Hta, Hts, Hat, (Permutation_app_comm rest). cbn. by rewrite <-Z.add_assoc.
    + done.
Qed.

#[local] Instance task_eq_dec : EqDecision task.
Proof. solve_decision. Defined.

(** The first of two tasks of a list is taken, and it is the other one. *)
Lemma take_other {A} (x y : A) l rest : x ≠ y → x :: l ≡ₚ y :: rest → ∃ rest', rest ≡ₚ x :: rest' ∧ l ≡ₚ y :: rest'.
Proof.
  intros Hxy Hl. assert (x ∈ y :: rest) as Hin by (rewrite <-Hl; constructor).
  apply elem_of_cons in Hin as [?|Hin]; [done|]. apply elem_of_Permutation in Hin as [rest' Hr]. exists rest'. split; [done|].
  rewrite Hr, (Permutation_swap x) in Hl. by apply (inj (cons _)) in Hl.
Qed.

(** The time [t0 + o] is over, and the request was sent then. *)
Definition passed (m0 : TxManager) (p : nat) (t : ClientTx) (t0 : Z) (m : TxManager) (o : Z) : Prop :=
  (t0 + o ≤ now m)%Z ∧ resent_at m0 m p t (t0 + o).

Lemma passed_elapse m0 p t t0 m m' o :
  (now m ≤ now m')%Z → elapse m m' → passed m0 p t t0 m o → passed m0 p t t0 m' o.
Proof.
  intros Hle He [Ho (a & b & Ha & Hab & Hb & Hs)]. split; [lia|]. exists a, b. split_and!; [done..| |done]. by eapply rtc_r.
Qed.

Lemma elapse_schedule m0 T t0 F cap u p t m m' :
  tp_set = true → rtc elapse m0 m →
  timed_inv m → TimerF (cfg m) = F → c_stop t = false → rearms t →
  on_schedule (passed m0 p t t0 m) T t0 F cap u p t m → elapse m m' → on_schedule (passed m0 p t t0 m') T t0 F cap u p t m'.
Proof.
  intros Htp H0 [Hinv Htm] HF Hst Hr Hs He. pose proof He as Hel. destruct He as [j due k Hj Hmin].
  assert (∀ o, (now m ≤ now (run m [LTick (due - now m); LFire j]))%Z → passed m0 p t t0 m o →
    passed m0 p t t0 (run m [LTick (due - now m); LFire j]) o) as Hmono by (intros o Hle; by apply passed_elapse).
  assert (∀ τ i cap e, due = τ → k = TRetransmit p i cap e → now (run m [LTick (due - now m); LFire j]) = τ →
    resent t m (run m [LTick (due - now m); LFire j]) → resent_at m0 (run m [LTick (due - now m); LFire j]) p t τ) as Hnew.
  { intros τ i c e -> -> Hn Hsent. exists m, (run m [LTick (τ - now m); LFire j]). split_and!; [done|done|done|].
    exists j, i, c, e. by split_and!. }
  clear Hel. revert Hmono Hnew. rewrite (elapse_run m j due k Hj). intros Hmono Hnew.
  set (m1 := at_task j due m) in *.
  assert (fits m1 k) as Hfit.
  { apply (fits_ext m); [done|]. eapply (td_fits _ _ Htm). by eapply list_elem_of_lookup_2. }
  destruct (run_task_frame k m1 (td_sane _ _ Htm) Hfit) as [Hheap Hcfg Hnow Htasks].
  assert (now m ≤ now m1)%Z as Hle by (cbn; lia). rewrite Hnow in Hmono, Hnew.
  destruct Hs as [past n i e rest HT Hpast Hu Hi Hn Hnow1 Hp Hts Hrest|D HD Hnow1 HQ Hg].
  2: { apply (gives_up _ _ _ _ _ _ _ _ _ D); [done|rewrite Hnow; lia| |by apply task_gave_up].
       eapply Forall_impl; [exact HQ|]. intros o. by apply Hmono. }
  assert (due ≤ t0 + (e + i))%Z as Hdue by (eapply (Hmin _ (TRetransmit p i cap e)); rewrite Hts; by constructor).
  assert ((due, k) :: delete j (tasks m) ≡ₚ ((t0 + (e + i))%Z, TRetransmit p i cap e) :: rest) as Hsplit
    by (by rewrite <-Hts, <-(delete_Permutation _ j)).
  assert (Forall (passed m0 p t t0 (snd (run_task k m1))) past) as Hpast1
    by (eapply Forall_impl; [exact Hpast|]; intros o; by apply Hmono).
  destruct (decide ((due, k) = ((t0 + (e + i))%Z, TRetransmit p i cap e))) as [[= -> ->]|Hne].
  - apply (inj (cons _)) in Hsplit. cbn [run_task] in *. assert (now m1 = t0 + (e + i))%Z as Hat by (cbn; lia).
    apply (schedule_own _ _ _ _ _ u _ _ m1 past n i e rest); try done. split; [lia|].
    apply (Hnew _ i cap e); [done..|]. by apply (round_resends p i cap e t m1).
  - destruct (take_other _ _ _ _ Hne Hsplit) as (rest' & Hr' & Hdel).
    rewrite Hr' in Hrest. apply Forall_cons in Hrest as [Hk Hrest]. cbn [snd] in Hk.
    assert (∃ more, tasks (snd (run_task k m1)) = delete j (tasks m) ++ more ∧ Forall (λ x, task_ptr x.2 ≠ p) more) as (more & Hta & Hmore).
    { destruct Htasks as [->|(d & k' & -> & _ & Hk')]; [exists []; by rewrite app_nil_r|]. eexists. split; [done|].
      apply Forall_singleton. cbn. by rewrite Hk'. }
    apply (waits _ _ _ _ _ _ _ _ _ past n i e (rest' ++ more)); rewrite ?Hnow; try done; [cbn; lia| | |].
    + by rewrite Hheap by congruence.
    + by rewrite Hta, Hdel.
    + by apply Forall_app.
Qed.

Lemma elapse_keeps m m' : timed_inv m → elapse m m' → timed_inv m' ∧ cfg m' = cfg m.
Proof.
  intros Hm He. destruct He as [j due k Hj Hmin]. split; [by apply timed_run|]. rewrite (elapse_run m j due k Hj).
  destruct Hm as [_ Htm]. change (cfg m) with (cfg (at_task j due m)). eapply tf_cfg, run_task_frame; [apply (td_sane _ _ Htm)|].
  apply (fits_ext m); [done|]. eapply (td_fits _ _ Htm). by eapply list_elem_of_lookup_2.
Qed.

Lemma elapses_schedule m0 T t0 F cap u p t m m' :
  tp_set = true → rtc elapse m0 m → rtc elapse m m' →
  timed_inv m → TimerF (cfg m) = F → c_stop t = false → rearms t →
  on_schedule (passed m0 p t t0 m) T t0 F cap u p t m → on_schedule (passed m0 p t t0 m') T t0 F cap u p t m'.
Proof.
  intros Htp H0 Hr. revert H0. induction Hr as [m|m1 m2 m3 He _ IH]; intros H0 Hm HF Hst Hre Hs; [done|].
  destruct (elapse_keeps m1 m2 Hm He) as [Hm2 Hc]. apply IH; [by eapply rtc_r|done|by rewrite Hc|done..|].
  exact (elapse_schedule _ _ _ _ _ _ _ _ _ _ Htp H0 Hm HF Hst Hre Hs He).
Qed.
End Unanswered.

(** ** From [Request] on *)

Section Request.
Context `{Sender}.

(** What a [Request] that is sent leaves. *)
Lemma Request_started_state req dst b c m p m1 :
  TxManager_Request req dst b c m = (Ok p, m1) →
  p = next_ptr m ∧ cfg m1 = cfg m ∧ now m1 = now m ∧
  ∃ t, heap m1 !! p = Some (CTx t) ∧ c_stop t = false ∧ rearms t ∧
       tasks m1 = tasks m ++ [((now m + T1 (cfg m))%Z, TRetransmit p (T1 (cfg m)) (retransmit_cap (cfg m) (c_req t)) 0)].
Proof.
  unfold TxManager_Request. pose proof (Request_send_cases req dst b c m) as Hc. cbv zeta in Hc.
  unfold mbind at 1, state_bind at 1. destruct (Request_send req dst b c m) as [r m2]. cbn [fst snd] in Hc.
  destruct Hc as [(e & -> & ->)|(q & l & [[-> ->]|(e & -> & ->)])]; [done| |done].
  set (n := next_ptr m). set (m2 := with_trace l _).
  assert (heap m2 !! n = Some (CTx (idle_client q dst))) as Hn by (simpl; by rewrite lookup_insert_eq).
  unfold Request_started. unfold get_client at 1. unfold mbind at 1 2, state_bind at 1 2. cbn beta iota.
  unfold gets at 1. rewrite Hn. set (s := if _ == INVITE then _ else _). 
  assert (s = TxStateCalling ∨ s = TxStateTrying) as Hs by (unfold s; destruct (_ == INVITE); auto).
  pose proof (set_client_run n s _ m2 Hn) as Hset. unfold mbind at 1, state_bind at 1.
  destruct (set_client_state n s m2) as [[] m3]. cbn [snd] in Hset. subst m3.
  set (t := client_with (idle_client q dst) s _ false). set (m3 := set_tx n (CTx t) m2).
  assert (heap m3 !! n = Some (CTx t)) as Hn3 by (cbn; by rewrite lookup_insert_eq).
  unfold startRetransmit, get_client. rewrite run_gets, Hn3, run_gets. intros [= <- <-]. split_and!; [done..|].
  exists t. split_and!; [done|done| |done]. unfold rearms. cbn. by destruct Hs as [-> | ->].
Qed.

(** There was a transport to send it with. *)
Lemma Request_sent_tp req dst b c m p m1 : TxManager_Request req dst b c m = (Ok p, m1) → tp_set = true.
Proof.
  unfold TxManager_Request, Request_send, send. destruct tp_set eqn:E; [done|]. cbn [negb].
  unfold mbind, state_bind, gets, alloc, set_table, modify, remove, mret, state_ret. cbn beta iota zeta. by destruct (bool_decide _).
Qed.

(** ** The theorem's parts *)

(** A time of the schedule that is over. *)
Lemma schedule_passed (Q : Z → Prop) T t0 F cap u p t m o :
  on_schedule Q T t0 F cap u p t m → o ∈ T → (t0 + o < now m)%Z → Q o.
Proof.
  intros [past n i e rest HT Hpast Hu Hi Hn Hnow Hp Hts Hrest|D HD Hle HQ _] Ho Hlt.
  - rewrite HT, elem_of_app in Ho. rewrite Forall_forall in Hpast. destruct Ho as [Ho|Ho]; [by apply Hpast|].
    apply (times_from_first _ _ _ u) in Ho; [lia|done..].
  - rewrite Forall_forall in HQ. by apply HQ.
Qed.

(** The request is sent at no other time. *)
Lemma schedule_only Q T t0 F cap u p t τ a b :
  on_schedule Q T t0 F cap u p t a → sent_again p t τ a b → ∃ o, o ∈ T ∧ τ = (t0 + o)%Z.
Proof.
  intros Hs (j & i' & c' & e' & Hj & -> & Hnow & ok & l & Htr).
  destruct Hs as [past n i e rest HT Hpast Hu Hi Hn Hnow1 Hp Hts Hrest|D HD Hle HQ (t' & Hp & Hst & _)].
  - apply list_elem_of_lookup_2 in Hj as Hin. rewrite Hts, elem_of_cons in Hin. destruct Hin as [[= -> -> -> ->]|Hin].
    + exists (e + i)%Z. split; [|done]. rewrite HT, elem_of_app. right. apply times_from_head.
    + rewrite Forall_forall in Hrest. by apply Hrest in Hin.
  - exfalso. rewrite (elapse_run a j τ _ Hj) in Htr. cbn [run_task] in Htr.
    unfold fire_retransmit, retransmit_round, get_client in Htr. rewrite run_gets in Htr. cbn in Htr.
    rewrite Hp in Htr. apply Is_true_true in Hst. rewrite Hst in Htr. cbn in Htr.
    apply (f_equal length) in Htr. rewrite length_app in Htr. cbn in Htr. lia.
Qed.

Lemma schedule_waiting Q T t0 F cap u p t m D :
  last T = Some D → (now m < t0 + D)%Z → on_schedule Q T t0 F cap u p t m →
  heap m !! p = Some (CTx t) ∧
  ∃ o, o ∈ T ∧ (now m ≤ t0 + o)%Z ∧ (∀ o', o' ∈ T → (o' < o)%Z → Q o') ∧
       (∃ i e, ((t0 + o)%Z, TRetransmit p i cap e) ∈ tasks m) ∧
       ∀ d k, (d, k) ∈ tasks m → task_ptr k = p → d = (t0 + o)%Z.
Proof.
  intros HD Hlt [past n i e rest HT Hpast Hu Hi Hn Hnow Hp Hts Hrest|D' HD' Hle _ _].
  2: { assert (D' = D) as -> by congruence. lia. }
  split; [done|]. exists (e + i)%Z.
  pose proof (λ o', times_from_first n F cap u i e o' Hu Hi) as Hmin.
  split_and!.
  - rewrite HT, elem_of_app. right. destruct n; by constructor.
  - done.
  - intros o' Ho Hlto. rewrite HT, elem_of_app in Ho. destruct Ho as [Ho|Ho]; [|apply Hmin in Ho; lia].
    rewrite Forall_forall in Hpast. by apply Hpast.
  - exists i, e. rewrite Hts. by constructor.
  - intros d k. rewrite Hts, elem_of_cons. intros [[= -> ->]|Hin] Hk; [done|].
    rewrite Forall_forall in Hrest. by apply Hrest in Hin.
Qed.

Lemma schedule_over Q T t0 F cap u p t m D :
  last T = Some D → (t0 + D < now m)%Z → on_schedule Q T t0 F cap u p t m → gave_up p t m.
Proof.
  intros HD Hlt [past n i e rest HT Hpast Hu Hi Hn Hnow Hp Hts Hrest|D' HD' Hle _ Hg]; [|done].
  destruct (times_from_last n F cap u i e Hu Hi Hn) as (D' & HD' & _ & Hge & _).
  rewrite HT, last_app, HD' in HD. injection HD as ->. lia.
Qed.
End Request.
