(* ===== verification/Proc.v ===== *)
(** * Computations that change a state and may panic

    A method of the upper layers changes shared objects and can dereference a nil
    pointer, which ends the process: [proc S A] takes a state to a result and a
    new state, or panics.  [always I m] says that [m] preserves [I] whenever it
    returns; the database [proc] holds its rules. *)

From S2P Require Import Prelude Transaction.

Definition proc (S A : Type) : Type := S → outcome (A * S).

#[export] Instance proc_ret {S} : MRet (proc S) := λ A a s, Ret (a, s).
#[export] Instance proc_bind {S} : MBind (proc S) := λ A B f m s,
  match m s with Ret (a, s') => f a s' | Panic => Panic end.

Definition asks {S A} (f : S → A) : proc S A := λ s, Ret (f s, s).
Definition update {S} (f : S → S) : proc S () := λ s, Ret ((), f s).
Definition panic {S A} : proc S A := λ _, Panic.
Definition unless {S} (b : bool) (m : proc S ()) : proc S () := if b then mret () else m.
Definition whenp {S} (b : bool) (m : proc S ()) : proc S () := if b then m else mret ().

(** A call on a component of the state. *)
Definition on {S T A} (get : S → T) (put : T → S → S) (m : state T A) : proc S A := λ s,
  let '(a, t) := m (get s) in Ret (a, put t s).

Definition onp {S T A} (get : S → T) (put : T → S → S) (m : proc T A) : proc S A := λ s,
  match m (get s) with Ret (a, t) => Ret (a, put t s) | Panic => Panic end.

(** The calls of a loop over a list, in its order. *)
Fixpoint each {S A} (f : A → proc S ()) (l : list A) : proc S () :=
  match l with
  | [] => mret ()
  | a :: l' => f a;; each f l'
  end.

(** ** Rules *)

Section Rules.
Context {S : Type}.
Implicit Type I : S → Prop.

Definition always {A} (I : S → Prop) (m : proc S A) : Prop :=
  ∀ s a s', I s → m s = Ret (a, s') → I s'.

Lemma always_ret {A} I (a : A) : always I (mret a).
Proof. by intros s b s' Hs [= <- <-]. Qed.

Lemma always_bind {A B} I (m : proc S A) (k : A → proc S B) :
  always I m → (∀ a, always I (k a)) → always I (m ≫= k).
Proof.
  intros Hm Hk s b s' Hs. unfold mbind, proc_bind. destruct (m s) as [[a s1]|] eqn:E; [|done].
  apply Hk. by eapply Hm.
Qed.

Lemma always_on {T A} I (get : S → T) (put : T → S → S) (m : state T A) :
  (∀ t s, I s → I (put t s)) → always I (on get put m).
Proof. intros H s a s' Hs. unfold on. destruct (m (get s)) as [b t]. intros [= _ <-]. by apply H. Qed.

(** A loop that panics does so in one of its rounds. *)
Lemma each_panic {A} I (f : A → proc S ()) l s :
  (∀ a, always I (f a)) → I s → each f l s = Panic → ∃ a s1, a ∈ l ∧ I s1 ∧ f a s1 = Panic.
Proof.
  intros Hf. revert s. induction l as [|a l IH]; intros s Hs; [done|]. cbn [each].
  unfold mbind, proc_bind. destruct (f a s) as [[[] s1]|] eqn:E.
  - intros Hl. destruct (IH s1) as (b & s2 & Hb & Hs2 & Hp); [by eapply Hf|done|]. exists b, s2. set_solver.
  - intros _. exists a, s. set_solver.
Qed.

Lemma always_asks {A} I (f : S → A) : always I (asks f).
Proof. by intros s b s' Hs [= <- <-]. Qed.

Lemma always_panic {A} I : always I (panic (A := A)).
Proof. by intros s b s' Hs ?. Qed.

Lemma always_update I (f : S → S) : (∀ s, I s → I (f s)) → always I (update f).
Proof. intros H s b s' Hs [= <- <-]. by apply H. Qed.

Lemma always_whenp I b (m : proc S ()) : always I m → always I (whenp b m).
Proof. intros H. destruct b; [done|apply always_ret]. Qed.

Lemma always_each {A} I (f : A → proc S ()) l : (∀ a, always I (f a)) → always I (each f l).
Proof. intros H. induction l as [|a l IH]; [apply always_ret|]. by apply always_bind. Qed.

(** What was read may be used by the rest. *)
Lemma always_asks_bind {A B} I (f : S → A) (k : A → proc S B) :
  (∀ s a s', I s → k (f s) s = Ret (a, s') → I s') → always I (asks f ≫= k).
Proof. intros H s b s' Hs Hk. by eapply H. Qed.

Lemma run_asks {A B} (f : S → A) (k : A → proc S B) s : (asks f ≫= k) s = k (f s) s.
Proof. done. Qed.

Lemma run_update {B} (f : S → S) (k : () → proc S B) s : (update f ≫= k) s = k () (f s).
Proof. done. Qed.

Lemma run_ret {A B} (a : A) (k : A → proc S B) s : (mret a ≫= k) s = k a s.
Proof. done. Qed.

Lemma run_ext {A B} (m : proc S A) (k k' : A → proc S B) s :
  (∀ a s', m s = Ret (a, s') → k a s' = k' a s') → (m ≫= k) s = (m ≫= k') s.
Proof. unfold mbind, proc_bind. destruct (m s) as [[a s']|]; [auto|done]. Qed.

Lemma run_inv {A B} (m : proc S A) (k : A → proc S B) s r :
  (m ≫= k) s = Ret r → ∃ a s1, m s = Ret (a, s1) ∧ k a s1 = Ret r.
Proof. unfold mbind, proc_bind. destruct (m s) as [[a s1]|] eqn:E; [|done]. intros Hk. by exists a, s1. Qed.
End Rules.

Create HintDb proc.
#[export] Hint Resolve always_ret always_asks always_panic : proc.

Ltac always_step :=
  match goal with
  | |- always _ (mret _) => apply always_ret
  | |- always _ (asks _) => apply always_asks
  | |- always _ panic => apply always_panic
  | |- always _ (whenp _ _) => apply always_whenp
  | |- always _ (each _ _) => apply always_each; intros ?
  | |- always _ (mbind _ _) => apply always_bind; [|intros ?]
  | |- always _ (if ?b then _ else _) => destruct b
  | |- always _ (match ?x with _ => _ end) => destruct x
  end.
Ltac always_auto := repeat first [solve [auto with proc] | always_step].
