(* ===== verification/Dialog.v ===== *)
(** * [dialog.go]: dialogs and the dialog table

    A dialog is a shared object: the manager keeps a store of dialogs by pointer
    and the table from identifiers to pointers, filled with the identifier a
    dialog has when it is added.  Sequence numbers are 32-bit and wrap.  A nil
    address where the code dereferences one is a panic. *)

From S2P Require Import Prelude GoStrings Params Uri Headers HeadersMap Message Ids.

Inductive DialogState := DialogEarly | DialogConfirmed | DialogTerminated.

#[export] Instance DialogState_eq_dec : EqDecision DialogState.
Proof. solve_decision. Defined.

Definition DialogState_String (s : DialogState) : str :=
  match s with DialogEarly => "early" | DialogConfirmed => "confirmed" | DialogTerminated => "terminated" end.

Record Dialog := mkDialog {
  d_CallID : str;
  LocalTag : str;
  RemoteTag : str;
  Local : option Address;
  Remote : option Address;
  RemoteTarget : option Uri;
  RouteSet : list (option Uri);
  d_State : DialogState;
  LocalSeq : Z;
  RemoteSeq : Z
}.

(** ** Field updates *)

Definition with_State (s : DialogState) (d : Dialog) : Dialog :=
  mkDialog (d_CallID d) (LocalTag d) (RemoteTag d) (Local d) (Remote d) (RemoteTarget d) (RouteSet d) s
    (LocalSeq d) (RemoteSeq d).
Definition with_LocalSeq (n : Z) (d : Dialog) : Dialog :=
  mkDialog (d_CallID d) (LocalTag d) (RemoteTag d) (Local d) (Remote d) (RemoteTarget d) (RouteSet d) (d_State d)
    n (RemoteSeq d).
Definition with_RemoteSeq (n : Z) (d : Dialog) : Dialog :=
  mkDialog (d_CallID d) (LocalTag d) (RemoteTag d) (Local d) (Remote d) (RemoteTarget d) (RouteSet d) (d_State d)
    (LocalSeq d) n.
Definition with_remote (tag : str) (target : option Uri) (routes : list (option Uri)) (d : Dialog) : Dialog :=
  mkDialog (d_CallID d) (LocalTag d) tag (Local d) (Remote d) target routes (d_State d) (LocalSeq d) (RemoteSeq d).

(** ** Methods of a dialog *)

Definition dialog_key (callID localTag remoteTag : str) : str := callID ++ ";" ++ localTag ++ ";" ++ remoteTag.

Definition Dialog_ID (d : Dialog) : str := dialog_key (d_CallID d) (LocalTag d) (RemoteTag d).

Definition NextLocalSeq (d : Dialog) : Dialog * Z :=
  let d := with_LocalSeq ((LocalSeq d + 1) mod 2 ^ 32) d in (d, LocalSeq d).

(** [from.Params] with the tag deleted and set again. *)
Definition set_local_tag (a : Address) (tag : str) : Address :=
  with_Params a (Some (Params_Set (items_Del (default NewParams (Address_Params a)) "tag") "tag" tag)).

Definition set_remote_tag (a : Address) (tag : str) : Address :=
  with_Params a (Some (let p := default NewParams (Address_Params a) in
                       if tag != [] then Params_Set p "tag" tag else p)).

(** The URI a request of the dialog is sent to: [None] when there is neither a
    remote target nor a remote address. *)
Definition request_uri (d : Dialog) : option (option Uri) :=
  match RemoteTarget d with
  | Some u => Some (Some u)
  | None => Address_Uri <$> Remote d
  end.

(** The headers of a request, the route set from its last entry to its first. *)
Definition dialog_headers (d : Dialog) (from to : Address) (method : Method) (seq : Z) : Headers :=
  let h := Headers_Set [] (NewHeader "Call-ID" (d_CallID d)) in
  let h := Headers_Set h (HAddr (set_local_tag from (LocalTag d)) "From") in
  let h := Headers_Set h (HAddr (set_remote_tag to (RemoteTag d)) "To") in
  let h := Headers_Set h (HCSeq (mkCSeq seq method)) in
  let h := Headers_Set h (HMaxForwards 70) in
  fold_left (λ h u, Headers_Add h (NewHeader "Route" (Uri_String u))) (reverse (RouteSet d)) h.

Definition CreateRequest (d : Dialog) (method : Method) (contentType : str) (body : option str) :
  outcome (result (Dialog * Request)) :=
  if d_State d == DialogTerminated then Ret (Err ErrDialogNotFound)
  else
    match request_uri d with
    | None => Ret (Err ErrDialogNotFound)
    | Some uri =>
      match Local d, Remote d with
      | Some from, Some to =>
        let '(d', seq) := NextLocalSeq d in
        let req := req_with_headers (NewRequest method (Uri_Clone uri)) (dialog_headers d from to method seq) in
        Ret (Ok (d', Request_SetBody req contentType body))
      | _, _ => Panic
      end
    end.

(** The URIs of every Record-Route header, in order. *)
Definition recordRouteSet (h : Headers) : list (option Uri) :=
  flat_map (λ hdr, match nameAddrListOf (Some hdr) with
                   | Some l => map (λ a, Uri_Clone (Address_Uri a)) (Addresses l)
                   | None => []
                   end) (Headers_All h "Record-Route").

Definition updateFromResponse (d : Dialog) (resp : Response) : Dialog :=
  let h := Resp_headers resp in
  let tag := if Tag (to_of h) != [] then Tag (to_of h) else RemoteTag d in
  let target := match First (contact_of h) with Some c => Uri_Clone (Address_Uri c) | None => RemoteTarget d end in
  with_remote tag target (recordRouteSet h) d.

Definition updateFromRequest (d : Dialog) (req : Request) : Dialog :=
  match cseq_of (Req_headers req) with
  | Some c => if (RemoteSeq d <? Seq c)%Z then with_RemoteSeq (Seq c) d else d
  | None => d
  end.

Definition Terminate (d : Dialog) : Dialog := with_State DialogTerminated d.

Definition NewClientDialog (callID localTag remoteTag : str) (from to : option Address) (seq : Z) : Dialog :=
  mkDialog callID localTag remoteTag from to None [] DialogEarly seq 0.

Definition NewServerDialog (req : Request) (localTag : str) : Dialog :=
  let h := Req_headers req in
  let rseq := match cseq_of h with Some c => Seq c | None => 0%Z end in
  mkDialog (callid_of h) localTag (Tag (from_of h)) (to_of h) (from_of h) (Uri_Clone (Req_Uri req))
    (recordRouteSet h) DialogEarly 0 rseq.

(** ** The dialog table *)

Record DialogManager := mkDialogManager {
  dm_heap : gmap nat Dialog;
  dm_next : nat;
  dialogs : gmap str nat
}.

Definition NewDialogManager : DialogManager := mkDialogManager ∅ 0 ∅.

(** A new dialog object. *)
Definition dm_alloc (d : Dialog) (dm : DialogManager) : nat * DialogManager :=
  (dm_next dm, mkDialogManager (<[dm_next dm := d]> (dm_heap dm)) (S (dm_next dm)) (dialogs dm)).

(** A method that changes the dialog in place. *)
Definition dm_modify (f : Dialog → Dialog) (p : nat) (dm : DialogManager) : DialogManager :=
  mkDialogManager (alter f p (dm_heap dm)) (dm_next dm) (dialogs dm).

Definition DM_Add (p : nat) (dm : DialogManager) : DialogManager :=
  match dm_heap dm !! p with
  | Some d => mkDialogManager (dm_heap dm) (dm_next dm) (<[Dialog_ID d := p]> (dialogs dm))
  | None => dm
  end.

Definition DM_Get (callID localTag remoteTag : str) (dm : DialogManager) : option nat :=
  dialogs dm !! dialog_key callID localTag remoteTag.

Definition DM_Remove (p : nat) (dm : DialogManager) : DialogManager :=
  match dm_heap dm !! p with
  | Some d => mkDialogManager (dm_heap dm) (dm_next dm) (delete (Dialog_ID d) (dialogs dm))
  | None => dm
  end.

Definition DM_Len (dm : DialogManager) : nat := size (dialogs dm).

(** ** Requests of a dialog *)

(** Appending headers of another name does not change what is found. *)
Lemma routes_get l h name :
  CanonicalName name ≠ lit "Route" →
  Headers_Get (fold_left (λ h u, Headers_Add h (NewHeader "Route" (Uri_String u))) l h) name = Headers_Get h name.
Proof.
  intros Hn. revert h. induction l as [|u l IH]; intros h; [done|]. cbn [fold_left]. rewrite IH, Headers_Get_Add.
  destruct (Headers_Get h name); [done|]. change (cname (NewHeader "Route" _)) with (lit "Route").
  by rewrite bool_decide_false.
Qed.

Lemma routes_all l h :
  Headers_All (fold_left (λ h u, Headers_Add h (NewHeader "Route" (Uri_String u))) l h) "Route" =
  Headers_All h "Route" ++ map (λ u, NewHeader "Route" (Uri_String u)) l.
Proof.
  revert h. induction l as [|u l IH]; intros h; cbn [fold_left map]; [by rewrite app_nil_r|].
  unfold Headers_Add at 2. by rewrite IH, Headers_All_app, <-app_assoc.
Qed.

Lemma items_Get_set_tag p tag : items_Get (Params_Set p "tag" tag) "tag" = (tag, true).
Proof. unfold Params_Set. by rewrite items_Get_set. Qed.

Lemma Tag_set_local a tag : Tag (Some (set_local_tag a tag)) = tag.
Proof. unfold set_local_tag, Tag, with_Params. cbn [Address_Params Params_Get]. by rewrite items_Get_set_tag. Qed.

Lemma Tag_set_remote a tag : tag ≠ [] → Tag (Some (set_remote_tag a tag)) = tag.
Proof.
  intros Ht. unfold set_remote_tag, Tag, with_Params. rewrite bool_decide_false by done.
  cbn [negb Address_Params Params_Get]. by rewrite items_Get_set_tag.
Qed.

(** What the headers of a request hold, before and after its body is set. *)
Definition request_headers_ok (d : Dialog) (from to : Address) (m : Method) (seq : Z) (h : Headers) : Prop :=
  cseq_of h = Some (mkCSeq seq m) ∧ callid_of h = d_CallID d ∧
  from_of h = Some (set_local_tag from (LocalTag d)) ∧ to_of h = Some (set_remote_tag to (RemoteTag d)) ∧
  Headers_Values h "Route" = map Uri_String (reverse (RouteSet d)).

Lemma dialog_headers_ok d from to m seq :
  request_headers_ok d from to m seq (dialog_headers d from to m seq).
Proof.
  unfold dialog_headers. set (h := Headers_Set (Headers_Set _ _) (HMaxForwards 70)).
  unfold request_headers_ok, cseq_of, callid_of, from_of, to_of, Headers_Values.
  rewrite routes_all, !routes_get by done.
  split_and!; [unfold h; rewrite ?Headers_Get_Set; done..|].
  assert (Headers_All h "Route" = []) as -> by by unfold h; rewrite !Headers_All_Set.
  cbn [app]. rewrite map_map. done.
Qed.

Lemma request_headers_body d from to m seq h ct body :
  request_headers_ok d from to m seq h → request_headers_ok d from to m seq (set_body_headers h ct body).
Proof.
  unfold request_headers_ok, cseq_of, callid_of, from_of, to_of, Headers_Values.
  rewrite set_body_all, !set_body_get by by apply (bool_decide_unpack _); vm_compute. done.
Qed.

(** [CreateRequest] on every branch. *)
Lemma CreateRequest_inv d m ct body d' req :
  CreateRequest d m ct body = Ret (Ok (d', req)) →
  d_State d ≠ DialogTerminated ∧ d' = with_LocalSeq ((LocalSeq d + 1) mod 2 ^ 32) d ∧
  ∃ from to uri, Local d = Some from ∧ Remote d = Some to ∧ request_uri d = Some uri ∧
    Req_Method req = m ∧ Req_Uri req = uri ∧ Req_body req = body ∧
    request_headers_ok d from to m (LocalSeq d') (Req_headers req).
Proof.
  unfold CreateRequest. case_test; [done|]. destruct (request_uri d) as [uri|] eqn:Hu; [|done].
  destruct (Local d) as [from|] eqn:Hl; [|done]. destruct (Remote d) as [to|] eqn:Hr; [|done].
  cbn [NextLocalSeq]. intros [= <- <-]. split; [done|]. split; [done|]. exists from, to, uri. split_and!; try done.
  apply request_headers_body, dialog_headers_ok.
Qed.

Lemma CreateRequest_ok d m ct body :
  d_State d ≠ DialogTerminated → is_Some (Local d) → is_Some (Remote d) →
  ∃ req, CreateRequest d m ct body = Ret (Ok (with_LocalSeq ((LocalSeq d + 1) mod 2 ^ 32) d, req)).
Proof.
  intros Hs [from Hl] [to Hr]. unfold CreateRequest. rewrite bool_decide_false by done.
  unfold request_uri. rewrite Hl, Hr. destruct (RemoteTarget d); cbn; by eexists.
Qed.

(** A request with the methods, content types and bodies of a list, one after the other. *)
Fixpoint CreateRequests (d : Dialog) (l : list (Method * str * option str)) : outcome (result (Dialog * list Request)) :=
  match l with
  | [] => Ret (Ok (d, []))
  | (m, ct, body) :: l' =>
    match CreateRequest d m ct body with
    | Ret (Ok (d1, req)) =>
      match CreateRequests d1 l' with
      | Ret (Ok (d2, reqs)) => Ret (Ok (d2, req :: reqs))
      | Ret (Err e) => Ret (Err e)
      | Panic => Panic
      end
    | Ret (Err e) => Ret (Err e)
    | Panic => Panic
    end
  end.

(** The sequence numbers after [s]. *)
Definition next_seqs (s : Z) (n : nat) : list Z := map (λ i, (s + 1 + Z.of_nat i) mod 2 ^ 32)%Z (seq 0 n).

Lemma next_seqs_S s n : next_seqs s (S n) = ((s + 1) mod 2 ^ 32)%Z :: next_seqs ((s + 1) mod 2 ^ 32) n.
Proof.
  unfold next_seqs. cbn [seq map]. f_equal; [by rewrite Z.add_0_r|].
  rewrite <-seq_shift, map_map. apply map_ext. intros i.
  rewrite <-(Zplus_mod_idemp_l (_ + _)). rewrite Zplus_mod_idemp_l, <-(Z.add_assoc (_ mod _)), Zplus_mod_idemp_l.
  f_equal. lia.
Qed.

Lemma next_seqs_NoDup s n : (Z.of_nat n ≤ 2 ^ 32)%Z → NoDup (next_seqs s n).
Proof.
  intros Hn. apply NoDup_alt. intros i j x Hi Hj. unfold next_seqs in *.
  rewrite list_lookup_fmap in Hi, Hj. destruct (seq 0 n !! i) as [a|] eqn:Ea; [|done].
  destruct (seq 0 n !! j) as [b|] eqn:Eb; [|done].
  apply lookup_seq in Ea as [-> Hi'], Eb as [-> Hj']. cbn in Hi, Hj. assert (Z.of_nat i mod 2 ^ 32 = Z.of_nat j mod 2 ^ 32)%Z as E'.
  { replace (Z.of_nat i) with ((s + 1 + Z.of_nat i) - (s + 1))%Z by lia.
    replace (Z.of_nat j) with ((s + 1 + Z.of_nat j) - (s + 1))%Z by lia.
    rewrite <-(Zminus_mod_idemp_l (_ + Z.of_nat i)), <-(Zminus_mod_idemp_l (_ + Z.of_nat j)). congruence. }
  rewrite !Z.mod_small in E' by lia. lia.
Qed.
