(* ===== verification/Hash.v ===== *)
(** * Hash functions of the standard library

    [crypto/md5], [crypto/sha256] and [crypto/sha512] as ua.go uses them: MD5,
    SHA-256 and SHA-512/256 of a byte string, in hexadecimal.  Words are natural
    numbers below 2^32 or 2^64; the test vectors at the end are those of the
    standards. *)

From S2P Require Import Prelude GoStrings Ids.

Local Open Scope N_scope.

Definition bytes_of (s : str) : list N := map code s.

(** A number below 256^[n] in [n] bytes, least significant first. *)
Fixpoint le_bytes (n : nat) (x : N) : list N :=
  match n with O => [] | S n' => (x mod 256) :: le_bytes n' (x / 256) end.

Fixpoint of_le (b : list N) : N := match b with [] => 0 | x :: b' => x + 256 * of_le b' end.

(** [l] in blocks of [n]; the fuel is the length of [l]. *)
Fixpoint blocks {A} (fuel n : nat) (l : list A) : list (list A) :=
  match fuel, l with
  | O, _ | _, [] => []
  | S f, _ => take n l :: blocks f n (drop n l)
  end.
Definition chunk {A} (n : nat) (l : list A) : list (list A) := blocks (length l) n l.

(** The message, a one bit, zeros, and the bit length in the last [len] bytes of a
    block of [block] bytes. *)
Definition pad_zeros (block len : nat) (b : list N) : list N :=
  let r := ((length b + 1 + len) mod block)%nat in
  b ++ [128] ++ replicate (if (r =? 0)%nat then 0%nat else (block - r)%nat) 0.
Definition bit_length (b : list N) : N := 8 * N.of_nat (length b).

Definition add (w : N) (x y : N) : N := (x + y) mod 2 ^ w.
Definition lnot (w : N) (x : N) : N := N.lxor x (N.ones w).
Definition rotl (w : N) (x n : N) : N := N.lor (N.shiftl x n mod 2 ^ w) (N.shiftr x (w - n)).
Definition rotr (w : N) (x n : N) : N := rotl w x (w - n).
Definition word (l : list N) (i : nat) : N := nth i l 0.

(** ** MD5 *)

Definition md5_K : list N :=
  [0xd76aa478; 0xe8c7b756; 0x242070db; 0xc1bdceee; 0xf57c0faf; 0x4787c62a; 0xa8304613; 0xfd469501;
   0x698098d8; 0x8b44f7af; 0xffff5bb1; 0x895cd7be; 0x6b901122; 0xfd987193; 0xa679438e; 0x49b40821;
   0xf61e2562; 0xc040b340; 0x265e5a51; 0xe9b6c7aa; 0xd62f105d; 0x2441453; 0xd8a1e681; 0xe7d3fbc8;
   0x21e1cde6; 0xc33707d6; 0xf4d50d87; 0x455a14ed; 0xa9e3e905; 0xfcefa3f8; 0x676f02d9; 0x8d2a4c8a;
   0xfffa3942; 0x8771f681; 0x6d9d6122; 0xfde5380c; 0xa4beea44; 0x4bdecfa9; 0xf6bb4b60; 0xbebfbc70;
   0x289b7ec6; 0xeaa127fa; 0xd4ef3085; 0x4881d05; 0xd9d4d039; 0xe6db99e5; 0x1fa27cf8; 0xc4ac5665;
   0xf4292244; 0x432aff97; 0xab9423a7; 0xfc93a039; 0x655b59c3; 0x8f0ccc92; 0xffeff47d; 0x85845dd1;
   0x6fa87e4f; 0xfe2ce6e0; 0xa3014314; 0x4e0811a1; 0xf7537e82; 0xbd3af235; 0x2ad7d2bb; 0xeb86d391].

Definition md5_shifts : list (list N) := [[7; 12; 17; 22]; [5; 9; 14; 20]; [4; 11; 16; 23]; [6; 10; 15; 21]].

Definition md5_round (x : list N) (abcd : N * N * N * N) (i : nat) : N * N * N * N :=
  let '(a, b, c, d) := abcd in
  let r := (i / 16)%nat in
  let f := match r with
           | 0%nat => N.lor (N.land b c) (N.land (lnot 32 b) d)
           | 1%nat => N.lor (N.land d b) (N.land (lnot 32 d) c)
           | 2%nat => N.lxor b (N.lxor c d)
           | _ => N.lxor c (N.lor b (lnot 32 d))
           end in
  let g := match r with
           | 0%nat => i
           | 1%nat => ((5 * i + 1) mod 16)%nat
           | 2%nat => ((3 * i + 5) mod 16)%nat
           | _ => ((7 * i) mod 16)%nat
           end in
  let sum := add 32 (add 32 a f) (add 32 (word md5_K i) (word x g)) in
  (d, add 32 b (rotl 32 sum (word (nth r md5_shifts []) (i mod 4))), b, c).

Definition md5_block (abcd : N * N * N * N) (block : list N) : N * N * N * N :=
  let x := map of_le (chunk 4 block) in
  let '(a, b, c, d) := abcd in
  let '(a', b', c', d') := fold_left (md5_round x) (seq 0 64) abcd in
  (add 32 a a', add 32 b b', add 32 c c', add 32 d d').

Definition md5 (b : list N) : list N :=
  let m := pad_zeros 64 8 b ++ le_bytes 8 (bit_length b) in
  let '(a, b, c, d) := fold_left md5_block (chunk 64 m) (0x67452301, 0xefcdab89, 0x98badcfe, 0x10325476) in
  flat_map (le_bytes 4) [a; b; c; d].

(** ** SHA-2 *)

(** The word size in bits and bytes, the rotations and the constants. *)
Record sha2 := mkSha2 {
  sw : N; sb : nat; s_K : list N; s_H : list N;
  s_small0 : N * N * N; s_small1 : N * N * N; s_big0 : N * N * N; s_big1 : N * N * N
}.

Definition sigma (p : sha2) (r : N * N * N) (x : N) : N :=
  let '(i, j, k) := r in N.lxor (rotr (sw p) x i) (N.lxor (rotr (sw p) x j) (N.shiftr x k)).
Definition Sigma (p : sha2) (r : N * N * N) (x : N) : N :=
  let '(i, j, k) := r in N.lxor (rotr (sw p) x i) (N.lxor (rotr (sw p) x j) (rotr (sw p) x k)).

(** The message schedule, kept with the newest word first. *)
Fixpoint schedule_words (p : sha2) (n : nat) (w : list N) : list N :=
  match n with
  | O => w
  | S n' =>
    let x := add (sw p) (add (sw p) (word w 15) (sigma p (s_small0 p) (word w 14)))
               (add (sw p) (word w 6) (sigma p (s_small1 p) (word w 1))) in
    schedule_words p n' (x :: w)
  end.

Definition sha2_round (p : sha2) (v : list N) (kw : N * N) : list N :=
  match v with
  | [a; b; c; d; e; f; g; h] =>
    let ch := N.lxor (N.land e f) (N.land (lnot (sw p) e) g) in
    let maj := N.lxor (N.land a b) (N.lxor (N.land a c) (N.land b c)) in
    let t1 := add (sw p) (add (sw p) h (Sigma p (s_big1 p) e)) (add (sw p) ch (add (sw p) (fst kw) (snd kw))) in
    let t2 := add (sw p) (Sigma p (s_big0 p) a) maj in
    [add (sw p) t1 t2; a; b; c; add (sw p) d t1; e; f; g]
  | _ => v
  end.

Definition sha2_block (p : sha2) (h block : list N) : list N :=
  let w := map (λ b, of_le (rev b)) (chunk (sb p) block) in
  let ws := rev (schedule_words p (length (s_K p) - 16) (rev w)) in
  zip_with (add (sw p)) h (fold_left (sha2_round p) (zip (s_K p) ws) h).

Definition sha2_sum (p : sha2) (b : list N) : list N :=
  let block := (16 * sb p)%nat in let len := (2 * sb p)%nat in
  let m := pad_zeros block len b ++ rev (le_bytes len (bit_length b)) in
  take 32 (flat_map (λ x, rev (le_bytes (sb p) x)) (fold_left (sha2_block p) (chunk block m) (s_H p))).

(** The constants are fractional parts: of the cube roots of the first primes, and for
    the initial words of SHA-256 of the square roots. *)
Definition is_prime (n : N) : bool :=
  (2 <=? n) && forallb (λ d, negb (n mod d =? 0)) (map N.of_nat (seq 2 (N.to_nat n - 2))).

Definition primes (bound : nat) : list N := List.filter is_prime (map N.of_nat (seq 2 (bound - 1))).

(** The largest [r] below [2 ^ bits] with [r ^ e <= x]. *)
Definition root (e : N) (bits : nat) (x : N) : N :=
  fold_left (λ r b, let r' := r + 2 ^ N.of_nat b in if r' ^ e <=? x then r' else r) (rev (seq 0 bits)) 0.

Definition root_fraction (e w : N) (x : N) : N := root e (N.to_nat w + 5) (x * 2 ^ (e * w)) mod 2 ^ w.

Definition sha256_K : list N := Eval vm_compute in map (root_fraction 3 32) (primes 311).
Definition sha256_H : list N := Eval vm_compute in map (root_fraction 2 32) (primes 19).
Definition sha512_K : list N := Eval vm_compute in map (root_fraction 3 64) (primes 409).

Definition sha256 : sha2 :=
  mkSha2 32 4 sha256_K sha256_H (7, 18, 3) (17, 19, 10) (2, 13, 22) (6, 11, 25).

Definition sha512_256 : sha2 :=
  mkSha2 64 8 sha512_K
    [0x22312194fc2bf72c; 0x9f555fa3c84c64c2; 0x2393b86b6f53b151; 0x963877195940eabd;
     0x96283ee2a88effe3; 0xbe5e1e2553863992; 0x2b0199fc2c85b8aa; 0xeb72ddc81c52ca2]
    (1, 8, 7) (19, 61, 6) (28, 34, 39) (14, 18, 41).

(** ** Hexadecimal sums *)

Definition md5_hex (s : str) : str := EncodeToString (md5 (bytes_of s)).
Definition sha256_hex (s : str) : str := EncodeToString (sha2_sum sha256 (bytes_of s)).
Definition sha512_256_hex (s : str) : str := EncodeToString (sha2_sum sha512_256 (bytes_of s)).

Example md5_empty : md5_hex [] = lit "d41d8cd98f00b204e9800998ecf8427e".
Proof. by vm_compute. Qed.
Example md5_alphabet : md5_hex "abcdefghijklmnopqrstuvwxyz" = lit "c3fcd3d76192e4007dfb496cca67e13b".
Proof. by vm_compute. Qed.
Example md5_long :
  md5_hex "12345678901234567890123456789012345678901234567890123456789012345678901234567890" =
  lit "57edf4a22be3c955ac49da2e2107b67a".
Proof. by vm_compute. Qed.
Example sha256_abc :
  sha256_hex "abc" = lit "ba7816bf8f01cfea414140de5dae2223b00361a396177a9cb410ff61f20015ad".
Proof. by vm_compute. Qed.
Example sha256_two_blocks :
  sha256_hex "abcdbcdecdefdefgefghfghighijhijkijkljklmklmnlmnomnopnopq" =
  lit "248d6a61d20638b8e5c026930c3e6039a33ce45964ff2167f6ecedd419db06c1".
Proof. by vm_compute. Qed.
Example sha512_256_abc :
  sha512_256_hex "abc" = lit "53048e2681941ef99b2e29b76b4c7dabe4c2d0c634fc6d46e0e2f13107e7af23".
Proof. by vm_compute. Qed.
