(* ===== verification/Digest.v ===== *)
(** * Digest authentication of [ua.go]

    The digest computations of RFC 2617 with the hash functions of Hash.v, and the
    Authorization values the user agent writes. *)

From S2P Require Import Prelude GoStrings Params Headers Message Hash.

Record Credentials := mkCredentials { Cred_Username : str; Cred_Password : str; Cred_Realm : str }.

(** A backslash and a double quote are escaped. *)
Definition escapeAuthValue (s : str) : str :=
  ReplaceAll (ReplaceAll s [BSLASH] [BSLASH; BSLASH]) [DQUOTE] [BSLASH; DQUOTE].

Definition MD5Hex (parts : list str) : str := md5_hex (concat parts).

Definition digestHashHex (algorithm : str) (parts : list str) : str :=
  let joined := Join parts [] in
  let a := ToLower algorithm in
  if a == "sha-256" then sha256_hex joined
  else if a == "sha-512-256" then sha512_256_hex joined
  else MD5Hex parts.

Definition DigestResponse (challenge : Auth) (method : Method) (uri username password cnonce nc : str) : Auth :=
  let algorithm := ToUpper (Algorithm challenge) in
  let qop := Qop challenge in
  let hash s := digestHashHex (Algorithm challenge) [s] in
  let ha1 := hash (username ++ ":" ++ Realm challenge ++ ":" ++ password) in
  let ha2 := hash (method ++ ":" ++ uri) in
  let resp := if qop == [] then hash (ha1 ++ ":" ++ Nonce challenge ++ ":" ++ ha2)
              else hash (ha1 ++ ":" ++ Nonce challenge ++ ":" ++ nc ++ ":" ++ cnonce ++ ":" ++ qop ++ ":" ++ ha2) in
  mkAuth "Digest" username (Realm challenge) (Nonce challenge) uri resp cnonce nc qop algorithm (Opaque_ challenge) None.

(** The example of RFC 2617, section 3.5. *)
Example digest_rfc2617 :
  Response_ (DigestResponse
    (mkAuth "Digest" [] "testrealm@host.com" "dcd98b7102dd2f0e8b11d0f600bfb0c093" [] [] [] [] "auth" [] [] None)
    "GET" "/dir/index.html" "Mufasa" "Circle Of Life" "0a4f113b" "00000001") = lit "6629fae49393a05397450978507c4ef1".
Proof. by vm_compute. Qed.
