(* ===== verification/Sdp.v ===== *)
(** * [gb28181/sdp.go]: GB/T 28181 media descriptions

    The SDP a platform or a device writes, and the loose parser of what it
    receives; [ParseSSRC] of gb28181/xml.go.  [SDP_of] says what the parser finds
    in a description that [Build] wrote. *)

From S2P Require Import Prelude GoStrings Params Net Ids.

Record StreamSDP := mkStreamSDP {
  S_Username : str; S_Address : str; S_SSRC : Z; S_RecvOnly : bool; S_VideoPort : Z; S_AudioPort : Z;
  S_SessionName : str; S_StartTime : str; S_EndTime : str
}.

Record SDP := mkSDP {
  Sdp_Username : str; Sdp_Address : str; Sdp_SessionName : str; Sdp_VideoPort : Z; Sdp_AudioPort : Z;
  Sdp_SSRC : Z; Sdp_RecvOnly : bool; Sdp_StartTime : str; Sdp_EndTime : str
}.

(** ** Building *)

Definition line (s : str) : str := s ++ CRLF.

(** The verb [%08x] of a 32-bit number. *)
Definition ssrc_hex (ssrc : Z) : str := pad_hex 8 (Z.to_N ssrc).

Definition session_name (s : StreamSDP) : str := if S_SessionName s == [] then "Play" else S_SessionName s.

Definition time_line (s : StreamSDP) : str :=
  if (S_StartTime s != []) || (S_EndTime s != []) then "t=" ++ S_StartTime s ++ " " ++ S_EndTime s else "t=0 0".

Definition video_lines (s : StreamSDP) (dir : str) : list str :=
  ["m=video " ++ Itoa (S_VideoPort s) ++ " RTP/AVP 96 98 97"; "a=" ++ dir; lit "a=rtpmap:96 PS/90000";
   lit "a=rtpmap:98 H264/90000"; lit "a=rtpmap:97 MPEG4/90000"; "y=" ++ ssrc_hex (S_SSRC s)].

Definition audio_lines (s : StreamSDP) (dir : str) : list str :=
  ["m=audio " ++ Itoa (S_AudioPort s) ++ " RTP/AVP 8 0"; lit "a=rtpmap:8 PCMA/8000"; lit "a=rtpmap:0 PCMU/8000";
   "a=" ++ dir; "y=" ++ ssrc_hex (S_SSRC s)].

Definition sdp_lines (s : StreamSDP) : list str :=
  let dir : str := if S_RecvOnly s then "recvonly" else "sendonly" in
  [lit "v=0"; "o=" ++ S_Username s ++ " 0 0 IN IP4 " ++ S_Address s; "s=" ++ session_name s;
   "c=IN IP4 " ++ S_Address s; time_line s] ++
  (if (0 <? S_VideoPort s)%Z then video_lines s dir else []) ++
  (if (0 <? S_AudioPort s)%Z then audio_lines s dir else []).

Definition Build (s : StreamSDP) : str := concat (map line (sdp_lines s)).

(** ** Parsing *)

(** [ParseSSRC] of gb28181/xml.go. *)
Definition ParseSSRC (s : str) : result Z :=
  let s := TrimSpace s in
  match ParseUint s 16 32 with
  | Ok v => Ok v
  | Err _ => match ParseUint s 10 32 with Ok v => Ok v | Err _ => Err ErrOther end
  end.

(** The number [strconv.Atoi] returns with or without an error: zero for a syntax
    error, the nearest [int] for a number out of range, seen before a later bad
    character once 64 bits overflow. *)
Definition clamp (neg : bool) (n : N) : Z :=
  let z := if neg then (- Z.of_N n)%Z else Z.of_N n in Z.max min_int (Z.min max_int z).

Fixpoint atoi_go (neg : bool) (s : str) (acc : N) : Z :=
  match s with
  | [] => clamp neg acc
  | c :: s' =>
    match digit_val c with
    | Some d =>
      if (d <? 10)%N then
        let acc := (acc * 10 + d)%N in
        if (2 ^ 64 <=? acc)%N then clamp neg acc else atoi_go neg s' acc
      else 0%Z
    | None => 0%Z
    end
  end.

Definition Atoi_value (s : str) : Z :=
  let '(neg, ds) := atoi_sign s in if ds == [] then 0%Z else atoi_go neg ds 0.

Definition set_o (s : SDP) (fields : list str) : SDP :=
  mkSDP (default (Sdp_Username s) (head fields))
    (if 6 <=? length fields then default (Sdp_Address s) (last fields) else Sdp_Address s)
    (Sdp_SessionName s) (Sdp_VideoPort s) (Sdp_AudioPort s) (Sdp_SSRC s) (Sdp_RecvOnly s) (Sdp_StartTime s) (Sdp_EndTime s).
Definition set_s (s : SDP) (name : str) : SDP :=
  mkSDP (Sdp_Username s) (Sdp_Address s) name (Sdp_VideoPort s) (Sdp_AudioPort s) (Sdp_SSRC s) (Sdp_RecvOnly s)
    (Sdp_StartTime s) (Sdp_EndTime s).
Definition set_c (s : SDP) (fields : list str) : SDP :=
  match fields with
  | [_; _; a] =>
    if bool_decide (is_Some (ParseIP a)) then
      mkSDP (Sdp_Username s) a (Sdp_SessionName s) (Sdp_VideoPort s) (Sdp_AudioPort s) (Sdp_SSRC s) (Sdp_RecvOnly s)
        (Sdp_StartTime s) (Sdp_EndTime s)
    else s
  | _ => s
  end.
Definition set_t (s : SDP) (fields : list str) : SDP :=
  mkSDP (Sdp_Username s) (Sdp_Address s) (Sdp_SessionName s) (Sdp_VideoPort s) (Sdp_AudioPort s) (Sdp_SSRC s)
    (Sdp_RecvOnly s) (default (Sdp_StartTime s) (fields !! 0)) (default (Sdp_EndTime s) (fields !! 1)).
Definition set_m (s : SDP) (fields : list str) : SDP :=
  match fields with
  | kind :: port :: _ =>
    let port := Atoi_value port in
    if HasPrefix kind "video" then
      mkSDP (Sdp_Username s) (Sdp_Address s) (Sdp_SessionName s) port (Sdp_AudioPort s) (Sdp_SSRC s) (Sdp_RecvOnly s)
        (Sdp_StartTime s) (Sdp_EndTime s)
    else if HasPrefix kind "audio" then
      mkSDP (Sdp_Username s) (Sdp_Address s) (Sdp_SessionName s) (Sdp_VideoPort s) port (Sdp_SSRC s) (Sdp_RecvOnly s)
        (Sdp_StartTime s) (Sdp_EndTime s)
    else s
  | _ => s
  end.
Definition set_a (s : SDP) (v : str) : SDP :=
  mkSDP (Sdp_Username s) (Sdp_Address s) (Sdp_SessionName s) (Sdp_VideoPort s) (Sdp_AudioPort s) (Sdp_SSRC s)
    (if TrimSpace v == "recvonly" then true else Sdp_RecvOnly s) (Sdp_StartTime s) (Sdp_EndTime s).
Definition set_y (s : SDP) (ssrc : Z) : SDP :=
  mkSDP (Sdp_Username s) (Sdp_Address s) (Sdp_SessionName s) (Sdp_VideoPort s) (Sdp_AudioPort s) ssrc (Sdp_RecvOnly s)
    (Sdp_StartTime s) (Sdp_EndTime s).

(** One line of the loop, cut at its first [=]. *)
Definition parse_field (s : SDP) (k v : str) : result SDP :=
  if k == "o" then Ok (set_o s (Fields v))
  else if k == "s" then Ok (set_s s (TrimSpace v))
  else if k == "c" then Ok (set_c s (Fields v))
  else if k == "t" then Ok (set_t s (Fields v))
  else if k == "m" then Ok (set_m s (Fields v))
  else if k == "a" then Ok (set_a s v)
  else if k == "y" then ssrc ← ParseSSRC v; Ok (set_y s ssrc)
  else Ok s.

Definition parse_line (s : SDP) (l : str) : result SDP :=
  let l := TrimLeft (TrimRight l [CR]) [SP; TAB] in
  let '(k, v, ok) := Cut l "=" in
  if negb ok then Ok s else parse_field s (TrimSpace k) v.

Fixpoint parse_sdp_lines (s : SDP) (ls : list str) : result SDP :=
  match ls with
  | [] => Ok s
  | l :: ls' => s' ← parse_line s l; parse_sdp_lines s' ls'
  end.

Definition empty_SDP : SDP := mkSDP [] [] [] 0 0 0 false [] [].

Definition ParseSDP (body : str) : result SDP :=
  s ← parse_sdp_lines empty_SDP (Split body [LF]);
  if Sdp_SessionName s == [] then Err ErrOther else Ok s.

Definition SSRCOf (s : SDP) : str := Itoa (Sdp_SSRC s).

(** ** What [Build] writes parses back *)

(** The fields the grammar can carry. *)
Definition token (s : str) : bool := nospace s && (s != []).

Definition wf_sdp (s : StreamSDP) : bool :=
  token (S_Username s) && token (S_Address s) && trimmed (S_SessionName s) && free LF (S_SessionName s) &&
  ((token (S_StartTime s) && token (S_EndTime s)) || ((S_StartTime s == []) && (S_EndTime s == []))) &&
  (0 <=? S_SSRC s)%Z && (S_SSRC s <? 2 ^ 32)%Z && in_int (S_VideoPort s) && in_int (S_AudioPort s).

Definition SDP_of (s : StreamSDP) : SDP :=
  let media := (0 <? S_VideoPort s)%Z || (0 <? S_AudioPort s)%Z in
  mkSDP (S_Username s) (S_Address s) (session_name s) (Z.max 0 (S_VideoPort s)) (Z.max 0 (S_AudioPort s))
    (if media then S_SSRC s else 0) (media && S_RecvOnly s)
    (if S_StartTime s == [] then "0" else S_StartTime s) (if S_EndTime s == [] then "0" else S_EndTime s).

Lemma trimmed_ends (p : ascii → bool) v :
  v ≠ [] → trimmed v → (∀ c, p c → is_space c) → trimmed_by p v.
Proof.
  intros Hv Ht Hp. unfold trimmed, trimmed_by in *. destruct v as [|c v]; [done|].
  destruct (rev (c :: v)) as [|d r]; [done|]. apply andb_True in Ht as [Hc Hd].
  apply andb_True. split; apply negb_True; intros H; [apply negb_True in Hc; apply Hc|apply negb_True in Hd; apply Hd];
    by apply Hp.
Qed.

(** A line of a one-letter field. *)
Lemma parse_line_field s c v :
  negb (is_space c) && (c != "="%char) → v ≠ [] → trimmed v →
  parse_line s ((c :: "="%char :: v) ++ [CR]) = parse_field s [c] v.
Proof.
  intros Hc Hv Ht. apply andb_True in Hc as [Hc Heq].
  assert (trimmed (c :: "="%char :: v)) as Htr.
  { change (c :: "="%char :: v) with ([c; "="%char] ++ v). apply trimmed_app; [done|done| |done].
    unfold trimmed, trimmed_by. cbn. by apply andb_True. }
  unfold parse_line, TrimRight. rewrite trim_right_app by done.
  rewrite trim_right_trimmed by (apply trimmed_ends; [done|done|by intros x; all_bytes x]).
  unfold TrimLeft. rewrite trim_left_trimmed by (apply trimmed_ends; [done|done|by intros x; all_bytes x]).
  change (c :: "="%char :: v) with ([c] ++ "="%char :: v). rewrite Cut_app.
  - change (parse_field s (TrimSpace [c]) v = parse_field s [c] v). rewrite TrimSpace_nospace; [done|].
    cbn. by rewrite andb_true_r.
  - cbn. by rewrite andb_true_r.
Qed.

Lemma sdp_Split_lines ls :
  Forall (λ l, Is_true (free LF l)) ls → Split (concat (map line ls)) [LF] = map (λ l, l ++ [CR]) ls ++ [[]].
Proof.
  induction 1 as [|l ls Hl Hls IH]; [done|]. cbn [map concat]. unfold line at 1.
  change CRLF with ([CR] ++ [LF]). rewrite <-!app_assoc, app_assoc. cbn [app].
  rewrite Split_byte_cons; [by rewrite IH|]. rewrite all_app. by apply andb_True.
Qed.

Lemma parse_sdp_app s a b : parse_sdp_lines s (a ++ b) = parse_sdp_lines s a ≫= λ s', parse_sdp_lines s' b.
Proof.
  revert s. induction a as [|l a IH]; intros s; [done|]. cbn [app parse_sdp_lines].
  destruct (parse_line s l) as [s'|e]; [|done]. apply IH.
Qed.

(** *** Numbers *)

Lemma atoi_go_digits neg s acc n :
  parse_digits 10 s acc = Some n → (n < 2 ^ 64)%N → atoi_go neg s acc = clamp neg n.
Proof.
  revert acc. induction s as [|c s IH]; intros acc; cbn [parse_digits atoi_go]; [congruence|].
  intros H Hn. apply bind_Some in H as (d & -> & H). destruct (d <? 10)%N; [|done].
  pose proof (parse_digits_bound _ _ _ _ H) as [Hle|]; [|done].
  destruct (N.leb_spec (2 ^ 64) (acc * 10 + d)); [lia|]. by apply IH.
Qed.

Lemma Atoi_value_Ok s z : Atoi s = Ok z → Atoi_value s = z.
Proof.
  intros H. pose proof (Atoi_in_int _ _ H) as Hz. unfold Atoi, Atoi_value in *. destruct (atoi_sign s) as [neg ds].
  destruct (ds == []); [done|]. destruct (parse_digits 10 ds 0) as [n|] eqn:E; [|done].
  cbv zeta in H. destruct (in_int _) eqn:Hi; [|done]. injection H as <-.
  unfold in_int, max_int, min_int in Hz. num_hyps.
  rewrite (atoi_go_digits _ _ _ _ E); [|destruct neg; lia]. unfold clamp, max_int, min_int. destruct neg; lia.
Qed.

Lemma parse_digits_zeros base k s : base ≠ 0%N → parse_digits base (replicate k "0"%char ++ s) 0 = parse_digits base s 0.
Proof.
  intros Hb. induction k as [|k IH]; [done|]. cbn [replicate app parse_digits].
  change (digit_val "0") with (Some 0%N). cbn [mbind option_bind].
  destruct (N.ltb_spec 0 base); [done|lia].
Qed.

Lemma ssrc_hex_alnum n : all is_alnum (ssrc_hex n).
Proof.
  unfold ssrc_hex, pad_hex. rewrite all_app. apply andb_True. split; [|apply FormatUint_alnum; done].
  apply all_intro. intros c Hc. apply elem_of_replicate in Hc as [-> _]. done.
Qed.

Lemma ssrc_hex_nonnil n : ssrc_hex n ≠ [].
Proof. unfold ssrc_hex, pad_hex. intros H. apply app_nil in H as [_ H]. by apply FormatUint_nonnil in H. Qed.

Lemma alnum_nospace s : all is_alnum s → nospace s.
Proof. intros H. eapply all_impl; [exact H|]. intros c. by all_bytes c. Qed.

Lemma ParseSSRC_hex n : (0 ≤ n < 2 ^ 32)%Z → ParseSSRC (ssrc_hex n) = Ok n.
Proof.
  intros Hn. unfold ParseSSRC. rewrite TrimSpace_nospace by apply alnum_nospace, ssrc_hex_alnum.
  unfold ParseUint. rewrite bool_decide_false by apply ssrc_hex_nonnil.
  unfold ssrc_hex, pad_hex. rewrite parse_digits_zeros by done. rewrite parse_FormatUint by done.
  destruct (N.ltb_spec (Z.to_N n) (2 ^ 32)); [f_equal; lia|lia].
Qed.

(** *** Fields *)

Lemma Fields_Join ws : Forall (λ w, Is_true (token w)) ws → Fields (Join ws [SP]) = ws.
Proof.
  induction 1 as [|w ws Hw Hws IH]; [done|]. unfold token in Hw. bool_hyps.
  destruct ws as [|w' ws]; [by apply Fields_single|].
  change (Join (w :: w' :: ws) [SP]) with (w ++ SP :: Join (w' :: ws) [SP]). rewrite Fields_cons; [by rewrite IH|done|done|done].
Qed.

Lemma token_trimmed w : token w → w ≠ [] ∧ trimmed w.
Proof. intros H. unfold token in H. bool_hyps. split; [done|by apply trimmed_nospace]. Qed.

Lemma Itoa_token z : token (Itoa z).
Proof.
  unfold token. apply andb_True. split; [|apply negb_True; intros H%bool_decide_unpack; by apply Itoa_nonnil in H].
  unfold Itoa. destruct (z <? 0)%Z; rewrite ?all_cons;
    try (apply andb_True; split; [done|]); by apply alnum_nospace, FormatUint_alnum.
Qed.

(** A field line whose value is a list of tokens. *)
Lemma parse_tokens s c v ws :
  negb (is_space c) && (c != "="%char) → ws ≠ [] → Forall (λ w, Is_true (token w)) ws → v = Join ws [SP] →
  parse_line s ((c :: "="%char :: v) ++ [CR]) = parse_field s [c] v ∧ Fields v = ws.
Proof.
  intros Hc Hne Hws ->. split; [|by apply Fields_Join]. apply parse_line_field; [done| |].
  - destruct Hws as [|w [|w' ws] Hw _]; [done|by apply token_trimmed in Hw as [? _]|].
    apply token_trimmed in Hw as [Hw _]. change (Join (w :: w' :: ws) [SP]) with (w ++ SP :: Join (w' :: ws) [SP]). by intros [? ?]%app_nil.
  - apply trimmed_Join. eapply Forall_impl; [exact Hws|]. intros w. apply token_trimmed.
Qed.

Ltac tokens := repeat (apply Forall_cons; split; [first [done|by vm_compute|apply Itoa_token]|]); apply Forall_nil; done.

(** [wf_sdp], taken apart. *)
Record sdp_parts (s : StreamSDP) : Prop := {
  sp_user : token (S_Username s);
  sp_addr : token (S_Address s);
  sp_name : session_name s ≠ [] ∧ trimmed (session_name s) ∧ free LF (session_name s);
  sp_time : token (S_StartTime s) ∧ token (S_EndTime s) ∨ S_StartTime s = [] ∧ S_EndTime s = [];
  sp_ssrc : (0 ≤ S_SSRC s < 2 ^ 32)%Z;
  sp_video : in_int (S_VideoPort s);
  sp_audio : in_int (S_AudioPort s)
}.

Lemma wf_sdp_parts s : wf_sdp s → sdp_parts s.
Proof.
  unfold wf_sdp. intros H. num_hyps. split; try done.
  - unfold session_name. case_test; [by split_and!; vm_compute|done].
  - match goal with H : Is_true (_ || _) |- _ => apply orb_True in H as [Ht|Ht] end; bool_hyps; [by left|by right].
Qed.

(** *** The lines one by one *)

Lemma parse_o s user addr :
  token user → token addr →
  parse_line s (("o=" ++ user ++ " 0 0 IN IP4 " ++ addr) ++ [CR]) =
  Ok (mkSDP user addr (Sdp_SessionName s) (Sdp_VideoPort s) (Sdp_AudioPort s) (Sdp_SSRC s) (Sdp_RecvOnly s)
        (Sdp_StartTime s) (Sdp_EndTime s)).
Proof.
  intros Hu Ha. destruct (parse_tokens s "o" (user ++ " 0 0 IN IP4 " ++ addr)
    [user; lit "0"; lit "0"; lit "IN"; lit "IP4"; addr]) as [E F]; [done|done|tokens|done|].
  change (("o=" ++ user ++ " 0 0 IN IP4 " ++ addr) ++ [CR])
    with (("o"%char :: "="%char :: user ++ " 0 0 IN IP4 " ++ addr) ++ [CR]).
  rewrite E. unfold parse_field. rewrite F. done.
Qed.

Lemma parse_s s name :
  name ≠ [] → trimmed name →
  parse_line s (("s=" ++ name) ++ [CR]) = Ok (set_s s name).
Proof.
  intros Hn Ht. change (("s=" ++ name) ++ [CR]) with (("s"%char :: "="%char :: name) ++ [CR]).
  rewrite parse_line_field by done. unfold parse_field. cbn. by rewrite TrimSpace_trimmed.
Qed.

Lemma parse_c s addr :
  token addr → Sdp_Address s = addr → parse_line s (("c=IN IP4 " ++ addr) ++ [CR]) = Ok s.
Proof.
  intros Ha Hs. destruct (parse_tokens s "c" ("IN IP4 " ++ addr) [lit "IN"; lit "IP4"; addr]) as [E F]; [done|done|tokens|done|].
  change (("c=IN IP4 " ++ addr) ++ [CR]) with (("c"%char :: "="%char :: "IN IP4 " ++ addr) ++ [CR]).
  rewrite E. unfold parse_field. rewrite F.
  change (Ok (set_c s [lit "IN"; lit "IP4"; addr]) = Ok s). unfold set_c. subst addr.
  destruct (bool_decide (is_Some _)); by destruct s.
Qed.

Lemma parse_t s d :
  sdp_parts d →
  parse_line s (time_line d ++ [CR]) =
  Ok (mkSDP (Sdp_Username s) (Sdp_Address s) (Sdp_SessionName s) (Sdp_VideoPort s) (Sdp_AudioPort s) (Sdp_SSRC s)
        (Sdp_RecvOnly s) (if S_StartTime d == [] then "0" else S_StartTime d)
        (if S_EndTime d == [] then "0" else S_EndTime d)).
Proof.
  intros Hd. unfold time_line. destruct (sp_time d Hd) as [[H1 H2]|[-> ->]]; [|by destruct s; vm_compute].
  rewrite !(bool_decide_false (_ = [])) by by apply token_trimmed. cbn [negb orb].
  set (a := S_StartTime d) in *. set (b := S_EndTime d) in *.
  destruct (parse_tokens s "t" (a ++ " " ++ b) [a; b]) as [E F]; [done|done|tokens|done|].
  change (("t=" ++ a ++ " " ++ b) ++ [CR]) with (("t"%char :: "="%char :: a ++ " " ++ b) ++ [CR]).
  rewrite E. unfold parse_field. by rewrite F.
Qed.

Lemma parse_m s (kind : str) port rest :
  token kind → Forall (λ w, Is_true (token w)) rest → in_int port →
  parse_line s (("m=" ++ Join (kind :: Itoa port :: rest) [SP]) ++ [CR]) =
  Ok (if HasPrefix kind "video" then
        mkSDP (Sdp_Username s) (Sdp_Address s) (Sdp_SessionName s) port (Sdp_AudioPort s) (Sdp_SSRC s)
          (Sdp_RecvOnly s) (Sdp_StartTime s) (Sdp_EndTime s)
      else if HasPrefix kind "audio" then
        mkSDP (Sdp_Username s) (Sdp_Address s) (Sdp_SessionName s) (Sdp_VideoPort s) port (Sdp_SSRC s)
          (Sdp_RecvOnly s) (Sdp_StartTime s) (Sdp_EndTime s)
      else s).
Proof.
  intros Hk Hr Hp. set (ws := kind :: Itoa port :: rest).
  assert (Forall (λ w, Is_true (token w)) ws) as Hws by (constructor; [done|]; constructor; [apply Itoa_token|done]).
  destruct (parse_tokens s "m" (Join ws [SP]) ws) as [E F]; [done|done|exact Hws|done|].
  change (("m=" ++ Join ws [SP]) ++ [CR]) with (("m"%char :: "="%char :: Join ws [SP]) ++ [CR]).
  rewrite E. unfold parse_field. rewrite F. unfold ws, set_m. cbn -[Atoi_value].
  rewrite (Atoi_value_Ok _ port) by by apply Atoi_Itoa. done.
Qed.

Lemma parse_y s n :
  (0 ≤ n < 2 ^ 32)%Z → parse_line s (("y=" ++ ssrc_hex n) ++ [CR]) = Ok (set_y s n).
Proof.
  intros Hn. change (("y=" ++ ssrc_hex n) ++ [CR]) with (("y"%char :: "="%char :: ssrc_hex n) ++ [CR]).
  rewrite parse_line_field; [|done|apply ssrc_hex_nonnil|apply trimmed_nospace, alnum_nospace, ssrc_hex_alnum].
  unfold parse_field. cbn -[ssrc_hex]. by rewrite ParseSSRC_hex.
Qed.

(** The direction line. *)
Lemma parse_dir s (recv : bool) :
  parse_line s (("a=" ++ (if recv then "recvonly" else "sendonly")) ++ [CR]) =
  Ok (if recv then
        mkSDP (Sdp_Username s) (Sdp_Address s) (Sdp_SessionName s) (Sdp_VideoPort s) (Sdp_AudioPort s) (Sdp_SSRC s)
          true (Sdp_StartTime s) (Sdp_EndTime s)
      else s).
Proof. by destruct recv, s; vm_compute. Qed.

(** *** The whole description *)

Lemma parse_sdp_cons s l ls s' : parse_line s l = Ok s' → parse_sdp_lines s (l :: ls) = parse_sdp_lines s' ls.
Proof. intros H. cbn [parse_sdp_lines]. by rewrite H. Qed.

Lemma parse_rtpmap s l :
  l ∈ [lit "a=rtpmap:96 PS/90000"; lit "a=rtpmap:98 H264/90000"; lit "a=rtpmap:97 MPEG4/90000";
       lit "a=rtpmap:8 PCMA/8000"; lit "a=rtpmap:0 PCMU/8000"] → parse_line s (l ++ [CR]) = Ok s.
Proof.
  rewrite !elem_of_cons, elem_of_nil. intros [->|[->|[->|[->|[->|[]]]]]]; by destruct s; vm_compute.
Qed.

Ltac rtpmap := apply parse_rtpmap, (bool_decide_unpack _); by vm_compute.

(** The lines of one medium. *)
Lemma parse_video s d :
  sdp_parts d →
  parse_sdp_lines s (map (λ l, l ++ [CR]) (video_lines d (if S_RecvOnly d then "recvonly" else "sendonly"))) =
  Ok (mkSDP (Sdp_Username s) (Sdp_Address s) (Sdp_SessionName s) (S_VideoPort d) (Sdp_AudioPort s) (S_SSRC d)
        (S_RecvOnly d || Sdp_RecvOnly s) (Sdp_StartTime s) (Sdp_EndTime s)).
Proof.
  intros Hd. unfold video_lines. cbn [map].
  erewrite parse_sdp_cons; [|exact (parse_m s "video" (S_VideoPort d) [lit "RTP/AVP"; lit "96"; lit "98"; lit "97"]
    ltac:(done) ltac:(tokens) (sp_video d Hd))].
  erewrite parse_sdp_cons; [|exact (parse_dir _ (S_RecvOnly d))].
  do 3 (erewrite parse_sdp_cons; [|rtpmap]).
  erewrite parse_sdp_cons; [|exact (parse_y _ _ (sp_ssrc d Hd))]. by destruct (S_RecvOnly d).
Qed.

Lemma parse_audio s d :
  sdp_parts d →
  parse_sdp_lines s (map (λ l, l ++ [CR]) (audio_lines d (if S_RecvOnly d then "recvonly" else "sendonly"))) =
  Ok (mkSDP (Sdp_Username s) (Sdp_Address s) (Sdp_SessionName s) (Sdp_VideoPort s) (S_AudioPort d) (S_SSRC d)
        (S_RecvOnly d || Sdp_RecvOnly s) (Sdp_StartTime s) (Sdp_EndTime s)).
Proof.
  intros Hd. unfold audio_lines. cbn [map].
  erewrite parse_sdp_cons; [|exact (parse_m s "audio" (S_AudioPort d) [lit "RTP/AVP"; lit "8"; lit "0"]
    ltac:(done) ltac:(tokens) (sp_audio d Hd))].
  do 2 (erewrite parse_sdp_cons; [|rtpmap]).
  erewrite parse_sdp_cons; [|exact (parse_dir _ (S_RecvOnly d))].
  erewrite parse_sdp_cons; [|exact (parse_y _ _ (sp_ssrc d Hd))]. by destruct (S_RecvOnly d).
Qed.

Lemma parse_head d rest :
  sdp_parts d →
  parse_sdp_lines empty_SDP (map (λ l, l ++ [CR]) (take 5 (sdp_lines d)) ++ rest) =
  parse_sdp_lines (mkSDP (S_Username d) (S_Address d) (session_name d) 0 0 0 false
                     (if S_StartTime d == [] then "0" else S_StartTime d)
                     (if S_EndTime d == [] then "0" else S_EndTime d)) rest.
Proof.
  intros Hd. destruct (sp_name d Hd) as (Hn1 & Hn2 & _). unfold sdp_lines. cbn [take app map].
  erewrite parse_sdp_cons; [|by vm_compute].
  erewrite parse_sdp_cons; [|exact (parse_o _ _ _ (sp_user d Hd) (sp_addr d Hd))].
  erewrite parse_sdp_cons; [|by apply parse_s].
  erewrite parse_sdp_cons; [|by apply parse_c; [apply (sp_addr d Hd)|]].
  erewrite parse_sdp_cons; [|by apply parse_t]. done.
Qed.

(** No line holds a line feed. *)
Lemma token_free w : token w → free LF w.
Proof. unfold token. intros H. bool_hyps. eapply all_impl; [eassumption|]. intros c. by all_bytes c. Qed.

Lemma sdp_lines_free d : sdp_parts d → Forall (λ l, Is_true (free LF l)) (sdp_lines d).
Proof.
  intros Hd. pose proof (token_free _ (sp_user d Hd)). pose proof (token_free _ (sp_addr d Hd)).
  destruct (sp_name d Hd) as (_ & _ & Hn).
  assert (free LF (time_line d)) as Ht.
  { unfold time_line. destruct (_ || _); [|done]. rewrite !all_app.
    destruct (sp_time d Hd) as [[H1 H2]|[-> ->]]; [|done]. apply token_free in H1, H2. by rewrite !Is_true_true in *; rewrite H1, H2. }
  assert (∀ z, Is_true (free LF (Itoa z))) as Hz by (intros z; apply token_free, Itoa_token).
  assert (∀ z, Is_true (free LF (ssrc_hex z))) as Hs.
  { intros z. eapply all_impl; [apply ssrc_hex_alnum|]. intros c. by all_bytes c. }
  unfold sdp_lines, video_lines, audio_lines. rewrite !Forall_app.
  assert (∀ a b, Is_true (free LF a) → Is_true (free LF b) → Is_true (free LF (a ++ b))) as Happ.
  { intros a b. rewrite all_app, andb_True. done. }
  split_and!; repeat match goal with |- Forall _ (if ?b then _ else _) => destruct b end;
    repeat first [apply List.Forall_nil | apply List.Forall_cons]; try done; repeat (apply Happ; [done|]); auto; by destruct (S_RecvOnly d).
Qed.

Lemma ParseSDP_Build d : wf_sdp d → ParseSDP (Build d) = Ok (SDP_of d).
Proof.
  intros Hw. apply wf_sdp_parts in Hw as Hd. unfold ParseSDP, Build.
  rewrite sdp_Split_lines by by apply sdp_lines_free.
  assert (sdp_lines d = take 5 (sdp_lines d) ++ drop 5 (sdp_lines d)) as -> by by rewrite take_drop.
  rewrite map_app, <-app_assoc, parse_head by done.
  set (dir := if S_RecvOnly d then lit "recvonly" else lit "sendonly").
  change (drop 5 (sdp_lines d)) with ((if (0 <? S_VideoPort d)%Z then video_lines d dir else []) ++
    (if (0 <? S_AudioPort d)%Z then audio_lines d dir else [])).
  rewrite map_app, <-!app_assoc. unfold SDP_of. destruct (sp_name d Hd) as (Hn & _).
  assert (∀ z, (0 <? z)%Z = true → Z.max 0 z = z) as Hpos by (intros z Hz; apply Z.ltb_lt in Hz; lia).
  assert (∀ z, (0 <? z)%Z = false → Z.max 0 z = 0%Z) as Hneg by (intros z Hz; apply Z.ltb_ge in Hz; lia).
  destruct (0 <? S_VideoPort d)%Z eqn:Hv, (0 <? S_AudioPort d)%Z eqn:Ha;
    rewrite ?(Hpos _ Hv), ?(Hneg _ Hv), ?(Hpos _ Ha), ?(Hneg _ Ha);
    cbn [map app]; unfold dir;
    repeat (rewrite parse_sdp_app; rewrite ?parse_video, ?parse_audio by done; rewrite result_bind_Ok);
    cbn -[session_name]; rewrite (bool_decide_false (session_name d = [])) by done; by destruct (S_RecvOnly d).
Qed.
