(* ===== verification/XmlToken.v ===== *)
(** * [encoding/xml]: the tokens of a decoder that is not strict

    What [gb28181.Parse] runs: [Decoder.Token] of the standard library with
    [Strict = false] and no [AutoClose], from the bytes of a body to start tags, end
    tags and text, with its stack of open elements.  Name spaces are kept as the
    prefix that was written.  Every error ends the decoding and Parse wraps it, so
    errors are all [ErrOther]; a read past the end is one too. *)

From S2P Require Import Prelude GoStrings Utf8.

(** The tables of letters ([first]) and of digits and marks ([second]) that Go's
    encoding/xml has for names, above ASCII. *)
Class XmlNames := mkXmlNames { name_first : N → bool; name_second : N → bool }.

(** [xml.Name], with the prefix for the name space. *)
Record XName := mkXName { n_space : str; n_local : str }.

#[export] Instance XName_eq_dec : EqDecision XName.
Proof. solve_decision. Defined.

Record XAttr := mkXAttr { a_name : XName; a_value : str }.

Definition bad {A} : result A := Err ErrOther.

(** [d.mustgetc]. *)
Definition mustgetc (s : str) : result (ascii * str) :=
  match s with c :: s' => Ok (c, s') | [] => bad end.

(** [d.space]. *)
Definition xml_space (c : ascii) : bool := mem c [SP; CR; LF; TAB].
Definition skip_space (s : str) : str := trim_left xml_space s.

(** ** Names *)

Section names.
Context `{XmlNames}.

Definition is_first (r : N) : bool :=
  if (r <? 128)%N
  then ((r =? 58) || (r =? 95) || ((65 <=? r) && (r <=? 90)) || ((97 <=? r) && (r <=? 122)))%N
  else name_first r.

Definition is_second (r : N) : bool :=
  if (r <? 128)%N then ((r =? 45) || (r =? 46) || ((48 <=? r) && (r <=? 57)))%N else name_second r.

Definition isNameByte (c : ascii) : bool := is_alnum c || mem c ["_"; ":"; "."; "-"]%char.

(** The runes of a name after the first. *)
Fixpoint name_rest (skip : nat) (s : str) : bool :=
  match s, skip with
  | [], _ => true
  | _ :: s', S k => name_rest k s'
  | _ :: s', O =>
    let '(r, n) := DecodeRune s in
    negb (bad_rune r n) && (is_first r || is_second r) && name_rest (n - 1) s'
  end.

Definition isName (s : str) : bool :=
  match s with
  | [] => false
  | _ :: s' => let '(r, n) := DecodeRune s in negb (bad_rune r n) && is_first r && name_rest (n - 1) s'
  end.

(** [d.readName]: the bytes of a name, which may be none; some byte must follow. *)
Fixpoint readName (s : str) : result (str * str) :=
  match s with
  | [] => bad
  | c :: s' =>
    if negb (is_ascii c) || isNameByte c then '(n, r) ← readName s'; Ok (c :: n, r) else Ok ([], s)
  end.

(** [d.name]. *)
Definition read_name (s : str) : result (str * str) :=
  '(n, r) ← readName s;
  if isName n then Ok (n, r) else bad.

Definition count_colons (s : str) : nat := length (filter (λ c, c = ":"%char) s).

(** [d.nsname]. *)
Definition nsname (s : str) : result (XName * str) :=
  '(n, r) ← read_name s;
  if 1 <? count_colons n then bad
  else
    let '(space, local, ok) := Cut n ":" in
    if negb ok || (space == []) || (local == []) then Ok (mkXName [] n, r)
    else Ok (mkXName space local, r).

(** ** Text *)

Definition entity (name : str) : option str :=
  if name == "lt" then Some (lit "<")
  else if name == "gt" then Some (lit ">")
  else if name == "amp" then Some (lit "&")
  else if name == "apos" then Some (lit "'")
  else if name == "quot" then Some [DQUOTE]
  else None.

(** A digit of a character reference. *)
Definition ref_digit (base : N) (c : ascii) : bool :=
  is_digit c || ((base =? 16)%N && (in_range 97 102 c || in_range 65 70 c)).

(** The digits, and what follows them, which is not the end. *)
Fixpoint ref_digits (base : N) (s : str) : result (str * str) :=
  match s with
  | [] => bad
  | c :: s' => if ref_digit base c then '(d, r) ← ref_digits base s'; Ok (c :: d, r) else Ok ([], s)
  end.

(** The value of a character reference: [strconv.ParseUint] and [string(rune(n))]. *)
Definition ref_text (base : N) (digits : str) : option str :=
  match ParseUint digits base 64 with
  | Ok n => if (n <=? 1114111)%Z then Some (EncodeRune (Z.to_N n)) else None
  | Err _ => None
  end.

(** What follows an ampersand: the text to write for it and for what was read,
    which is kept as it is when it is no reference. *)
Definition reference (s : str) : result (str * str) :=
  '(b, s1) ← mustgetc s;
  if b == "#"%char then
    '(b, s2) ← mustgetc s1;
    let '(base, pre, s3) := if b == "x"%char then (16%N, lit "&#x", s2) else (10%N, lit "&#", s1) in
    '(digits, r) ← ref_digits base s3;
    '(b, r') ← mustgetc r;
    if b == ";"%char then Ok (default (pre ++ digits ++ lit ";") (ref_text base digits), r')
    else Ok (pre ++ digits, r)
  else
    '(n, r) ← readName s;
    '(b, r') ← mustgetc r;
    if b == ";"%char then Ok (default ("&" ++ n ++ lit ";") (if isName n then entity n else None), r')
    else Ok ("&" ++ n, r).

(** The loop of [d.text]: [acc] is the buffer backwards, [b0] and [b1] the two bytes
    before; one step per byte is fuel enough. *)
Fixpoint text_loop (fuel : nat) (quote : option ascii) (cdata : bool) (b0 b1 : ascii) (acc s : str) :
    result (str * str) :=
  match fuel, s with
  | O, _ => bad
  | S _, [] => if cdata then bad else Ok (rev acc, [])
  | S f, b :: s' =>
    if (quote == None) && (b0 == "]"%char) && (b1 == "]"%char) && (b == ">"%char) then
      if cdata then Ok (rev (drop 2 acc), s') else bad
    else if (b == "<"%char) && negb cdata then
      if quote == None then Ok (rev acc, s) else bad
    else if quote == Some b then Ok (rev acc, s')
    else if (b == "&"%char) && negb cdata then
      '(t, r) ← reference s';
      text_loop f quote cdata NUL NUL (rev t ++ acc) r
    else
      let acc := if b == CR then LF :: acc else if (b1 == CR) && (b == LF) then acc else b :: acc in
      text_loop f quote cdata b1 b acc s'
  end.

(** [d.text]. *)
Definition d_text (quote : option ascii) (cdata : bool) (s : str) : result (str * str) :=
  '(t, r) ← text_loop (S (length s)) quote cdata NUL NUL [] s;
  if text_ok t then Ok (t, r) else bad.

(** ** Attributes *)

(** A byte of a value without quotes. *)
Definition unquoted_byte (c : ascii) : bool := is_alnum c || mem c ["_"; ":"; "-"]%char.

Fixpoint unquoted_value (s : str) : result (str * str) :=
  match s with
  | [] => bad
  | c :: s' => if unquoted_byte c then '(v, r) ← unquoted_value s'; Ok (c :: v, r) else Ok ([], s)
  end.

(** [d.attrval]. *)
Definition attrval (s : str) : result (str * str) :=
  '(b, s') ← mustgetc s;
  if (b == DQUOTE) || (b == "'"%char) then d_text (Some b) false s' else unquoted_value s.

(** The loop over the attributes of a start tag, to its end: whether it was [/>]. *)
Fixpoint attr_loop (fuel : nat) (acc : list XAttr) (s : str) : result (list XAttr * bool * str) :=
  match fuel with
  | O => bad
  | S f =>
    let s := skip_space s in
    '(b, s1) ← mustgetc s;
    if b == "/"%char then
      '(b, s2) ← mustgetc s1;
      if b == ">"%char then Ok (rev acc, true, s2) else bad
    else if b == ">"%char then Ok (rev acc, false, s1)
    else
      '(n, s2) ← nsname s;
      let s2 := skip_space s2 in
      '(b, s3) ← mustgetc s2;
      if b == "="%char then
        '(v, s4) ← attrval (skip_space s3);
        attr_loop f (mkXAttr n v :: acc) s4
      else attr_loop f (mkXAttr n (n_local n) :: acc) s2
  end.

(** ** Processing instructions, comments and directives *)

(** To the closing [?>]; what is between, backwards. *)
Fixpoint pi_loop (b0 : ascii) (acc s : str) : result (str * str) :=
  match s with
  | [] => bad
  | b :: s' => if (b0 == "?"%char) && (b == ">"%char) then Ok (rev (drop 1 acc), s') else pi_loop b (b :: acc) s'
  end.

(** [procInst]: the value of a parameter of the XML declaration. *)
Fixpoint procInst_loop (fuel : nat) (param s : str) : str :=
  match fuel, Index s param with
  | S f, Some k =>
    match drop (length param + k) s with
    | [] => []
    | c :: s' =>
      if (c == "'"%char) || (c == DQUOTE) then
        match IndexByte s' c with Some j => take j s' | None => [] end
      else procInst_loop f param s'
    end
  | _, _ => []
  end.
Definition procInst (param s : str) : str := procInst_loop (length s) (param ++ lit "=") s.

(** The declaration must be of version 1.0; its encoding is not looked at, since the
    reader that Parse sets returns its input. *)
Definition declaration_ok (target content : str) : bool :=
  (target != "xml") || (let v := procInst "version" content in (v == []) || (v == "1.0")).

(** To the closing [-->], in which no other [--] may be. *)
Fixpoint comment_loop (b0 b1 : ascii) (s : str) : result str :=
  match s with
  | [] => bad
  | b :: s' =>
    if (b0 == "-"%char) && (b1 == "-"%char) then if b == ">"%char then Ok s' else bad
    else comment_loop b1 b s'
  end.

(** Where the loop over a directive is: in its text, after an opening bracket and
    some bytes of [!--], or in a comment. *)
Inductive dir_mode := DirText | DirOpen (i : nat) | DirComment (b0 b1 : ascii).

(** The switch of the loop, on one byte of the text. *)
Definition dir_byte (inquote : option ascii) (depth : nat) (b : ascii) : option ascii * nat * dir_mode :=
  if inquote == Some b then (None, depth, DirText)
  else if inquote != None then (inquote, depth, DirText)
  else if (b == "'"%char) || (b == DQUOTE) then (Some b, depth, DirText)
  else if b == ">"%char then (None, depth - 1, DirText)
  else if b == "<"%char then (None, depth, DirOpen 0)
  else (None, depth, DirText).

Fixpoint dir_loop (inquote : option ascii) (depth : nat) (mode : dir_mode) (s : str) : result str :=
  match s with
  | [] => bad
  | b :: s' =>
    let go st := let '(q, d, m) := st in dir_loop q d m s' in
    match mode with
    | DirText =>
      if (inquote == None) && (b == ">"%char) && (depth =? 0) then Ok s' else go (dir_byte inquote depth b)
    | DirOpen i =>
      if lit "!--" !! i == Some b then dir_loop inquote depth (if i =? 2 then DirComment NUL NUL else DirOpen (S i)) s'
      else go (dir_byte inquote (S depth) b)
    | DirComment b0 b1 =>
      if (b0 == "-"%char) && (b1 == "-"%char) && (b == ">"%char) then dir_loop inquote depth DirText s'
      else dir_loop inquote depth (DirComment b1 b) s'
    end
  end.

(** ** [d.rawToken] *)

Inductive raw_token :=
| RStart (name : XName) (attrs : list XAttr) (empty : bool)
| REnd (name : XName)
| RText (data : str)
| ROther.   (* a processing instruction, a comment or a directive *)

Definition raw_end (s : str) : result (raw_token * str) :=
  '(n, s) ← nsname s;
  '(b, s) ← mustgetc (skip_space s);
  if b == ">"%char then Ok (REnd n, s) else bad.

Definition raw_pi (s : str) : result (raw_token * str) :=
  '(target, s) ← read_name s;
  '(content, s) ← pi_loop NUL [] (skip_space s);
  if declaration_ok target content then Ok (ROther, s) else bad.

(** After [<!]. *)
Definition raw_bang (s : str) : result (raw_token * str) :=
  '(b, s1) ← mustgetc s;
  if b == "-"%char then
    '(b, s2) ← mustgetc s1;
    if b == "-"%char then s3 ← comment_loop NUL NUL s2; Ok (ROther, s3) else bad
  else if b == "["%char then
    if HasPrefix s1 "CDATA[" then '(t, s2) ← d_text None true (drop 6 s1); Ok (RText t, s2) else bad
  else s2 ← dir_loop None 0 DirText s1; Ok (ROther, s2).

Definition raw_start (s : str) : result (raw_token * str) :=
  '(n, s) ← nsname s;
  '(attrs, empty, s) ← attr_loop (S (length s)) [] s;
  Ok (RStart n attrs empty, s).

Definition rawToken (s : str) : result (raw_token * str) :=
  '(b, s1) ← mustgetc s;
  if b != "<"%char then '(t, s2) ← d_text None false s; Ok (RText t, s2)
  else
    '(b, s2) ← mustgetc s1;
    if b == "/"%char then raw_end s2
    else if b == "?"%char then raw_pi s2
    else if b == "!"%char then raw_bang s2
    else raw_start s1.

(** ** [d.Token] *)

(** An entry of the decoder's stack: an open element, or a name space declared by
    the element above it. *)
Inductive stk := SStart (name : XName) | SNs.

Record decoder := mkDecoder {
  d_in : str;
  toClose : option XName;   (* set when [needClose] *)
  d_stk : list stk
}.

Inductive xml_token :=
| TStart (name : XName) (attrs : list XAttr)
| TEnd
| TText (data : str)
| TOther.

(** Declares a name space: [xmlns:p=...] or [xmlns=...]. *)
Definition declares (a : XAttr) : bool :=
  (n_space (a_name a) == "xmlns") || ((n_space (a_name a) == []) && (n_local (a_name a) == "xmlns")).

Fixpoint pop_ns (l : list stk) : list stk :=
  match l with SNs :: l' => pop_ns l' | _ => l end.

(** [d.popElement]: an end tag with another local name closes the open element and
    is looked at again. *)
Definition popElement (n : XName) (d : decoder) : result (xml_token * decoder) :=
  match d_stk d with
  | SStart m :: l =>
    if n_local m != n_local n then Ok (TEnd, mkDecoder (d_in d) (Some n) l)
    else if n_space m != n_space n then bad
    else Ok (TEnd, mkDecoder (d_in d) (toClose d) (pop_ns l))
  | _ => bad
  end.

Definition Token (d : decoder) : result (xml_token * decoder) :=
  match toClose d with
  | Some n => popElement n (mkDecoder (d_in d) None (d_stk d))
  | None =>
    '(t, s) ← rawToken (d_in d);
    match t with
    | RStart n attrs empty =>
      Ok (TStart n attrs,
          mkDecoder s (if empty then Some n else None) (SStart n :: map (λ _, SNs) (List.filter declares attrs) ++ d_stk d))
    | REnd n => popElement n (mkDecoder s None (d_stk d))
    | RText t => Ok (TText t, mkDecoder s None (d_stk d))
    | ROther => Ok (TOther, mkDecoder s None (d_stk d))
    end
  end.

(** ** Elements

    The decoder walks the tokens of one element and of what is inside.  Since an
    error drops all that was read, the walk is split here: first the tree of the
    element, then, in Xml, its fields. *)

#[warnings="-register-all"]
Inductive xml :=
| XElem (name : XName) (attrs : list XAttr) (children : list xml)
| XText (data : str).

(** An open element, its children backwards. *)
Definition open_elem : Type := XName * list XAttr * list xml.

Definition close_elem (o : open_elem) : xml := XElem o.1.1 o.1.2 (rev o.2).
Definition add_child (x : xml) (o : open_elem) : open_elem := (o.1, x :: o.2).

(** The tokens from the first start tag to the end tag it is closed by. *)
Fixpoint tree_loop (fuel : nat) (d : decoder) (open : list open_elem) : result xml :=
  match fuel with
  | O => bad
  | S f =>
    '(t, d) ← Token d;
    match t, open with
    | TStart n attrs, _ => tree_loop f d ((n, attrs, []) :: open)
    | TEnd, [] => bad
    | TEnd, [o] => Ok (close_elem o)
    | TEnd, o :: p :: l => tree_loop f d (add_child (close_elem o) p :: l)
    | TText s, o :: l => tree_loop f d (add_child (XText s) o :: l)
    | _, _ => tree_loop f d open
    end
  end.

(** A body has at most two tokens for each of its bytes ([decode_fuel]). *)
Definition decode (s : str) : result xml := tree_loop (S (2 * length s)) (mkDecoder s None []) [].

(** ** Every token uses up input

    The rest after each scan is no longer than its input, and shorter after a token. *)

Ltac ok_inv :=
  repeat match goal with
  | H : (_ ≫= _) = Ok _ |- _ => apply result_bind_inv in H; destruct H as (? & ? & H)
  | H : Ok _ = Ok _ |- _ => injection H; clear H; intros; subst
  | H : bad = Ok _ |- _ => discriminate H
  | H : (let '(_, _) := ?p in _) = Ok _ |- _ => destruct p eqn:?; subst
  | H : (if ?b then _ else _) = Ok _ |- _ => destruct b eqn:?
  | H : mustgetc ?s = Ok _ |- _ => is_var s; destruct s; [discriminate H|]; simpl in H
  | H : mustgetc ?s = Ok _ |- _ => destruct s eqn:?; [discriminate H|]; simpl in H
  end.

Lemma skip_space_le s : length (skip_space s) ≤ length s.
Proof. unfold skip_space. induction s as [|c s IH]; simpl; [lia|]. destruct (xml_space c); simpl; lia. Qed.

Lemma readName_le s n r : readName s = Ok (n, r) → length s = length n + length r.
Proof.
  revert n. induction s as [|c s IH]; intros n Hr; [done|]. cbn [readName] in Hr. ok_inv; simpl; [|done].
  by erewrite IH.
Qed.

Lemma nsname_lt s n r : nsname s = Ok (n, r) → length r < length s.
Proof.
  unfold nsname, read_name. intros Hr. ok_inv.
  all: match goal with E : readName _ = Ok (?x, _), F : isName ?x = true |- _ =>
    apply readName_le in E; destruct x; [done|simpl in *; lia] end.
Qed.

Lemma ref_digits_le base s d r : ref_digits base s = Ok (d, r) → length r ≤ length s.
Proof.
  revert d. induction s as [|c s IH]; intros d Hr; [done|]. cbn [ref_digits] in Hr. ok_inv; simpl; [|done].
  eapply Nat.le_le_succ_r, IH. done.
Qed.

Lemma reference_le s t r : reference s = Ok (t, r) → length r ≤ length s.
Proof.
  unfold reference. intros Hr. ok_inv.
  all: repeat match goal with
    | E : ref_digits _ _ = Ok _ |- _ => apply ref_digits_le in E
    | E : readName _ = Ok _ |- _ => apply readName_le in E
    | E : (if ?b then _ else _) = (_, _) |- _ => destruct b; injection E as <- <- <-
    end.
  all: simpl in *; lia.
Qed.

Lemma text_loop_le fuel q cd b0 b1 acc s t r : text_loop fuel q cd b0 b1 acc s = Ok (t, r) → length r ≤ length s.
Proof.
  revert b0 b1 acc s. induction fuel as [|f IH]; intros b0 b1 acc s Hr; [done|].
  destruct s as [|b s]; cbn [text_loop] in Hr; ok_inv; simpl; try lia.
  all: repeat match goal with
    | E : text_loop _ _ _ _ _ _ _ = Ok _ |- _ => apply IH in E
    | E : reference _ = Ok _ |- _ => apply reference_le in E
    end; lia.
Qed.

Lemma d_text_le q cd s t r : d_text q cd s = Ok (t, r) → length r ≤ length s.
Proof. unfold d_text. intros Hr. ok_inv. by eapply text_loop_le. Qed.

(** Ordinary text takes its first byte. *)
Lemma text_loop_lt fuel b0 b1 acc b s t r :
  b ≠ "<"%char → text_loop fuel None false b0 b1 acc (b :: s) = Ok (t, r) → length r < length (b :: s).
Proof.
  intros Hb. destruct fuel as [|f]; [done|]. cbn [text_loop length]. rewrite (bool_decide_eq_false_2 _ Hb).
  intros Hr. ok_inv; cbn [andb negb] in *; ok_inv.
  all: repeat match goal with
    | E : text_loop _ _ _ _ _ _ _ = Ok _ |- _ => apply text_loop_le in E
    | E : reference _ = Ok _ |- _ => apply reference_le in E
    end.
  all: done || lia.
Qed.

Lemma d_text_lt b s t r : b ≠ "<"%char → d_text None false (b :: s) = Ok (t, r) → length r < length (b :: s).
Proof. unfold d_text. intros Hb Hr. ok_inv. by eapply text_loop_lt. Qed.

Lemma unquoted_value_le s v r : unquoted_value s = Ok (v, r) → length r ≤ length s.
Proof.
  revert v. induction s as [|c s IH]; intros v Hr; [done|]. cbn [unquoted_value] in Hr. ok_inv; simpl; [|done].
  eapply Nat.le_le_succ_r, IH. done.
Qed.

Lemma attrval_le s v r : attrval s = Ok (v, r) → length r ≤ length s.
Proof.
  unfold attrval. intros Hr. ok_inv; [|by eapply unquoted_value_le].
  simpl. eapply Nat.le_le_succ_r, d_text_le. done.
Qed.

Lemma attr_loop_le fuel acc s x r : attr_loop fuel acc s = Ok (x, r) → length r ≤ length s.
Proof.
  revert acc s. induction fuel as [|f IH]; intros acc s Hr; [done|]. cbn [attr_loop] in Hr.
  pose proof (skip_space_le s). destruct (skip_space s) as [|c s0] eqn:Es; [done|].
  apply result_bind_inv in Hr as ([? ?] & [= <- <-] & Hr). ok_inv.
  all: repeat match goal with
    | E : attr_loop _ _ _ = Ok _ |- _ => apply IH in E
    | E : attrval _ = Ok _ |- _ => apply attrval_le in E
    | E : nsname _ = Ok _ |- _ => apply nsname_lt in E
    | E : skip_space ?l = _ :: _ |- _ => pose proof (skip_space_le l); rewrite E in *; clear E
    | E : _ ≤ length (skip_space ?l) |- _ => pose proof (skip_space_le l); generalize dependent (skip_space l); intros
    end.
  all: simpl in *; lia.
Qed.

Lemma pi_loop_le b0 acc s x r : pi_loop b0 acc s = Ok (x, r) → length r ≤ length s.
Proof.
  revert b0 acc. induction s as [|c s IH]; intros b0 acc Hr; [done|]. cbn [pi_loop] in Hr.
  ok_inv; simpl; [lia|]. eapply Nat.le_le_succ_r, IH. done.
Qed.

Lemma comment_loop_le b0 b1 s r : comment_loop b0 b1 s = Ok r → length r ≤ length s.
Proof.
  revert b0 b1. induction s as [|c s IH]; intros b0 b1 Hr; [done|]. cbn [comment_loop] in Hr.
  ok_inv; simpl; [lia|]. eapply Nat.le_le_succ_r, IH. done.
Qed.

Lemma dir_loop_le q d m s r : dir_loop q d m s = Ok r → length r ≤ length s.
Proof.
  revert q d m. induction s as [|c s IH]; intros q d m Hr; [done|]. cbn [dir_loop] in Hr.
  destruct m; cbv zeta in Hr; ok_inv; simpl; try lia; eapply Nat.le_le_succ_r, IH; done.
Qed.

(** Every token takes a byte, and a start tag two. *)
Definition token_size (t : raw_token) : nat := match t with RStart _ _ _ => 2 | _ => 1 end.

Lemma rawToken_lt s t r : rawToken s = Ok (t, r) → token_size t + length r ≤ length s.
Proof.
  unfold rawToken, raw_end, raw_pi, raw_bang, raw_start. intros Hr. destruct s as [|b s]; [done|].
  apply result_bind_inv in Hr as ([? ?] & [= <- <-] & Hr). destruct (b != "<"%char) eqn:Hb.
  { apply negb_true_iff, bool_decide_eq_false in Hb. ok_inv. simpl. by eapply Nat.le_succ_l, d_text_lt. }
  ok_inv; cbn [token_size length].
  all: repeat match goal with
    | E : attr_loop _ _ _ = Ok _ |- _ => apply attr_loop_le in E
    | E : nsname _ = Ok _ |- _ => apply nsname_lt in E
    | E : read_name _ = Ok _ |- _ => unfold read_name in E; ok_inv
    | E : readName _ = Ok _ |- _ => apply readName_le in E
    | E : pi_loop _ _ _ = Ok _ |- _ => apply pi_loop_le in E
    | E : comment_loop _ _ _ = Ok _ |- _ => apply comment_loop_le in E
    | E : dir_loop _ _ _ _ = Ok _ |- _ => apply dir_loop_le in E
    | E : d_text _ _ _ = Ok _ |- _ => apply d_text_le in E; rewrite length_drop in E
    | E : skip_space ?l = _ :: _ |- _ => pose proof (skip_space_le l); rewrite E in *; clear E
    | E : _ ≤ length (skip_space ?l) |- _ => pose proof (skip_space_le l); generalize dependent (skip_space l); intros
    end.
  all: simpl in *; lia.
Qed.

(** What the decoder can still deliver. *)
Definition starts (l : list stk) : nat := length (List.filter (λ e, match e with SStart _ => true | SNs => false end) l).
Definition measure (d : decoder) : nat :=
  2 * length (d_in d) + starts (d_stk d) + (match toClose d with Some _ => 1 | None => 0 end).

Lemma starts_pop_ns l : starts (pop_ns l) = starts l.
Proof. by induction l as [|[] l IH]. Qed.

Lemma starts_ns (l : list XAttr) k : starts (map (λ _, SNs) l ++ k) = starts k.
Proof. by induction l. Qed.

Lemma popElement_measure n d t d' :
  popElement n d = Ok (t, d') → toClose d = None → measure d' ≤ measure d.
Proof.
  unfold popElement, measure. intros Hr Hc. destruct (d_stk d) as [|[m|] l] eqn:El; [done| |done].
  ok_inv; simpl; [|rewrite starts_pop_ns]; unfold starts; rewrite ?Hc; simpl; lia.
Qed.

Lemma Token_measure d t d' : Token d = Ok (t, d') → measure d' < measure d.
Proof.
  unfold Token. intros Hr. destruct (toClose d) as [n|] eqn:Ec.
  { apply popElement_measure in Hr; [|done]. unfold measure in *. rewrite Ec. simpl in *. lia. }
  ok_inv. match goal with E : rawToken _ = Ok (?t, _) |- _ => apply rawToken_lt in E; destruct t end.
  2: apply popElement_measure in Hr; [|done].
  all: ok_inv; unfold measure in *; rewrite Ec; simpl in *.
  1: unfold starts at 1; simpl; fold (starts (map (λ _, SNs) (List.filter declares attrs) ++ d_stk d)); rewrite starts_ns; case_match.
  all: lia.
Qed.

(** More fuel than the measure changes nothing. *)
Lemma tree_loop_fuel fuel d o k : measure d < fuel → tree_loop (fuel + k) d o = tree_loop fuel d o.
Proof.
  revert d o. induction fuel as [|f IH]; intros d o Hf; [lia|]. cbn [tree_loop Nat.add].
  destruct (Token d) as [[t d']|e] eqn:Et; [|done]. apply Token_measure in Et. rewrite !result_bind_Ok.
  destruct t, o as [|p [|q l]]; try done; apply IH; lia.
Qed.

Lemma decode_fuel s k : tree_loop (S (2 * length s) + k) (mkDecoder s None []) [] = decode s.
Proof. apply tree_loop_fuel. unfold measure, starts. simpl. lia. Qed.

End names.
