(* ===== verification/Xml.v ===== *)
(** * [gb28181/xml.go]: MANSCDP bodies

    The envelope, its marshalling by [encoding/xml] (elements in the order of the
    struct, [omitempty], text escaped), and [Parse]: the tree of the root element
    (XmlToken) and [Decoder.unmarshal] of its children into the fields. *)

From S2P Require Import Prelude GoStrings Utf8 XmlToken.

(** ** Data *)

Definition CmdKeepalive : str := "Keepalive".
Definition CmdCatalog : str := "Catalog".
Definition CmdDeviceInfo : str := "DeviceInfo".
Definition CmdDeviceStatus : str := "DeviceStatus".
Definition CmdDeviceConfig : str := "DeviceConfig".
Definition CmdConfigDownload : str := "ConfigDownload".
Definition CmdPresetQuery : str := "PresetQuery".
Definition CmdPTZCmd : str := "PTZCmd".
Definition CmdTeleBoot : str := "TeleBoot".

Record Item := mkItem {
  it_DeviceID : str; it_Name : str; it_Manufacturer : str; it_Model : str; it_Owner : str; it_CivilCode : str;
  it_Address : str; it_Parental : str; it_ParentID : str; it_SafetyWay : str; it_RegisterWay : str; it_Secrecy : str;
  it_IPAddress : str; it_Port : str; it_Password : str; it_Status : str; it_Longitude : str; it_Latitude : str
}.

Record DeviceList := mkDeviceList { dl_Num : str; dl_Items : list Item }.

Record Envelope := mkEnvelope {
  XMLName : str;   (* the local name *)
  e_CmdType : str; e_SN : Z; e_DeviceID : str; e_SeqNum : Z;
  e_PTZCmd : str; e_TeleBoot : str; e_RecordCmd : str; e_GuardCmd : str; e_AlarmCmd : str; e_AlarmTime : str;
  e_AlarmType : str; e_AlarmPriority : str; e_AlarmMethod : str; e_AlarmDescription : str; e_Longitude : str; e_Latitude : str;
  e_DeviceList : option DeviceList;
  e_DeviceName : str; e_Manufacturer : str; e_Model : str; e_Firmware : str; e_Result : str;
  e_Status : str; e_Reason : str; e_Online : str; e_SumNum : Z
}.

(** [&Envelope{CmdType: ..., SN: ..., DeviceID: ...}] *)
Definition new_Envelope (cmd : str) (sn : Z) (id : str) : Envelope :=
  mkEnvelope [] cmd sn id 0 [] [] [] [] [] [] [] [] [] [] [] [] None [] [] [] [] [] [] [] [] 0.

Definition with_root (root : str) (e : Envelope) : Envelope :=
  mkEnvelope root (e_CmdType e) (e_SN e) (e_DeviceID e) (e_SeqNum e) (e_PTZCmd e) (e_TeleBoot e) (e_RecordCmd e)
    (e_GuardCmd e) (e_AlarmCmd e) (e_AlarmTime e) (e_AlarmType e) (e_AlarmPriority e) (e_AlarmMethod e)
    (e_AlarmDescription e) (e_Longitude e) (e_Latitude e) (e_DeviceList e) (e_DeviceName e) (e_Manufacturer e)
    (e_Model e) (e_Firmware e) (e_Result e) (e_Status e) (e_Reason e) (e_Online e) (e_SumNum e).
Definition with_SeqNum (n : Z) (e : Envelope) : Envelope :=
  mkEnvelope (XMLName e) (e_CmdType e) (e_SN e) (e_DeviceID e) n (e_PTZCmd e) (e_TeleBoot e) (e_RecordCmd e)
    (e_GuardCmd e) (e_AlarmCmd e) (e_AlarmTime e) (e_AlarmType e) (e_AlarmPriority e) (e_AlarmMethod e)
    (e_AlarmDescription e) (e_Longitude e) (e_Latitude e) (e_DeviceList e) (e_DeviceName e) (e_Manufacturer e)
    (e_Model e) (e_Firmware e) (e_Result e) (e_Status e) (e_Reason e) (e_Online e) (e_SumNum e).
Definition with_PTZCmd (cmd : str) (e : Envelope) : Envelope :=
  mkEnvelope (XMLName e) (e_CmdType e) (e_SN e) (e_DeviceID e) (e_SeqNum e) cmd (e_TeleBoot e) (e_RecordCmd e)
    (e_GuardCmd e) (e_AlarmCmd e) (e_AlarmTime e) (e_AlarmType e) (e_AlarmPriority e) (e_AlarmMethod e)
    (e_AlarmDescription e) (e_Longitude e) (e_Latitude e) (e_DeviceList e) (e_DeviceName e) (e_Manufacturer e)
    (e_Model e) (e_Firmware e) (e_Result e) (e_Status e) (e_Reason e) (e_Online e) (e_SumNum e).
Definition with_list (n : Z) (l : DeviceList) (e : Envelope) : Envelope :=
  mkEnvelope (XMLName e) (e_CmdType e) (e_SN e) (e_DeviceID e) (e_SeqNum e) (e_PTZCmd e) (e_TeleBoot e)
    (e_RecordCmd e) (e_GuardCmd e) (e_AlarmCmd e) (e_AlarmTime e) (e_AlarmType e) (e_AlarmPriority e)
    (e_AlarmMethod e) (e_AlarmDescription e) (e_Longitude e) (e_Latitude e) (Some l) (e_DeviceName e)
    (e_Manufacturer e) (e_Model e) (e_Firmware e) (e_Result e) (e_Status e) (e_Reason e) (e_Online e) n.
Definition with_info (name manufacturer model firmware result : str) (e : Envelope) : Envelope :=
  mkEnvelope (XMLName e) (e_CmdType e) (e_SN e) (e_DeviceID e) (e_SeqNum e) (e_PTZCmd e) (e_TeleBoot e)
    (e_RecordCmd e) (e_GuardCmd e) (e_AlarmCmd e) (e_AlarmTime e) (e_AlarmType e) (e_AlarmPriority e)
    (e_AlarmMethod e) (e_AlarmDescription e) (e_Longitude e) (e_Latitude e) (e_DeviceList e) name manufacturer
    model firmware result (e_Status e) (e_Reason e) (e_Online e) (e_SumNum e).
Definition with_status (status result : str) (e : Envelope) : Envelope :=
  mkEnvelope (XMLName e) (e_CmdType e) (e_SN e) (e_DeviceID e) (e_SeqNum e) (e_PTZCmd e) (e_TeleBoot e)
    (e_RecordCmd e) (e_GuardCmd e) (e_AlarmCmd e) (e_AlarmTime e) (e_AlarmType e) (e_AlarmPriority e)
    (e_AlarmMethod e) (e_AlarmDescription e) (e_Longitude e) (e_Latitude e) (e_DeviceList e) (e_DeviceName e)
    (e_Manufacturer e) (e_Model e) (e_Firmware e) result status (e_Reason e) (e_Online e) (e_SumNum e).

(** ** Marshalling *)

(** [xml.EscapeText] of one rune, of the given bytes. *)
Definition escape_rune (r : N) (raw : str) : str :=
  if (r =? 34)%N then "&#34;"
  else if (r =? 39)%N then "&#39;"
  else if (r =? 38)%N then "&amp;"
  else if (r =? 60)%N then "&lt;"
  else if (r =? 62)%N then "&gt;"
  else if (r =? 9)%N then "&#x9;"
  else if (r =? 10)%N then "&#xA;"
  else if (r =? 13)%N then "&#xD;"
  else if negb (isInCharacterRange r) || bad_rune r (length raw) then EncodeRune RuneError
  else raw.

Fixpoint escape_from (skip : nat) (s : str) : str :=
  match s, skip with
  | [], _ => []
  | _ :: s', S k => escape_from k s'
  | _ :: s', O => let '(r, n) := DecodeRune s in escape_rune r (take n s) ++ escape_from (n - 1) s'
  end.

Definition EscapeText (s : str) : str := escape_from 0 s.

Definition element (name content : str) : str := "<" ++ name ++ ">" ++ content ++ "</" ++ name ++ ">".
Definition text_element (name v : str) : str := element name (EscapeText v).
(** With [omitempty]. *)
Definition opt_element (name v : str) : str := if v == [] then [] else text_element name v.
Definition opt_int_element (name : str) (n : Z) : str := if n == 0%Z then [] else element name (Itoa n).

Definition marshal_item (i : Item) : str :=
  element "Item" (text_element "DeviceID" (it_DeviceID i) ++
    opt_element "Name" (it_Name i) ++
    opt_element "Manufacturer" (it_Manufacturer i) ++
    opt_element "Model" (it_Model i) ++
    opt_element "Owner" (it_Owner i) ++
    opt_element "CivilCode" (it_CivilCode i) ++
    opt_element "Address" (it_Address i) ++
    opt_element "Parental" (it_Parental i) ++
    opt_element "ParentID" (it_ParentID i) ++
    opt_element "SafetyWay" (it_SafetyWay i) ++
    opt_element "RegisterWay" (it_RegisterWay i) ++
    opt_element "Secrecy" (it_Secrecy i) ++
    opt_element "IPAddress" (it_IPAddress i) ++
    opt_element "Port" (it_Port i) ++
    opt_element "Password" (it_Password i) ++
    opt_element "Status" (it_Status i) ++
    opt_element "Longitude" (it_Longitude i) ++
    opt_element "Latitude" (it_Latitude i)).

Definition marshal_list (l : option DeviceList) : str :=
  match l with
  | None => []
  | Some l => "<DeviceList Num=" ++ [DQUOTE] ++ EscapeText (dl_Num l) ++ [DQUOTE] ++ ">" ++
              concat (map marshal_item (dl_Items l)) ++ "</DeviceList>"
  end.

Definition marshal_fields (e : Envelope) : str :=
  text_element "CmdType" (e_CmdType e) ++ element "SN" (Itoa (e_SN e)) ++ text_element "DeviceID" (e_DeviceID e) ++
  opt_int_element "SeqNum" (e_SeqNum e) ++
  opt_element "PTZCmd" (e_PTZCmd e) ++
  opt_element "TeleBoot" (e_TeleBoot e) ++
  opt_element "RecordCmd" (e_RecordCmd e) ++
  opt_element "GuardCmd" (e_GuardCmd e) ++
  opt_element "AlarmCmd" (e_AlarmCmd e) ++
  opt_element "AlarmTime" (e_AlarmTime e) ++
  opt_element "AlarmType" (e_AlarmType e) ++
  opt_element "AlarmPriority" (e_AlarmPriority e) ++
  opt_element "AlarmMethod" (e_AlarmMethod e) ++
  opt_element "AlarmDescription" (e_AlarmDescription e) ++
  opt_element "Longitude" (e_Longitude e) ++
  opt_element "Latitude" (e_Latitude e) ++
  marshal_list (e_DeviceList e) ++
  opt_element "DeviceName" (e_DeviceName e) ++
  opt_element "Manufacturer" (e_Manufacturer e) ++
  opt_element "Model" (e_Model e) ++
  opt_element "Firmware" (e_Firmware e) ++
  opt_element "Result" (e_Result e) ++
  opt_element "Status" (e_Status e) ++
  opt_element "Reason" (e_Reason e) ++
  opt_element "Online" (e_Online e) ++
  opt_int_element "SumNum" (e_SumNum e).

(** [xml.Header]. *)
Definition xml_header : str :=
  "<?xml version=" ++ [DQUOTE] ++ "1.0" ++ [DQUOTE] ++ " encoding=" ++ [DQUOTE] ++ "UTF-8" ++ [DQUOTE] ++ "?>" ++ [LF].

Definition Marshal (e : Envelope) : str :=
  xml_header ++ element (if XMLName e == [] then "Envelope" else XMLName e) (marshal_fields e).

Definition MarshalRoot (root : str) (e : Envelope) : str := Marshal (with_root root e).

Definition BuildNotify (e : Envelope) : str := MarshalRoot "Notify" e.
Definition BuildQuery (e : Envelope) : str := MarshalRoot "Query" e.
Definition BuildControl (e : Envelope) : str := MarshalRoot "Control" e.
Definition BuildResponse (e : Envelope) : str := MarshalRoot "Response" e.

(** ** Parsing *)

(** The character data of an element: its own text, without that of its children. *)
Definition chardata (children : list xml) : str :=
  concat (map (λ x, match x with XText s => s | XElem _ _ _ => [] end) children).

(** The children elements of a local name, with their attributes. *)
Definition elems_named (name : str) (children : list xml) : list (list XAttr * list xml) :=
  omap (λ x, match x with
             | XElem n attrs k => if n_local n == name then Some (attrs, k) else None
             | XText _ => None
             end) children.

(** A [string] field: each element of its name sets it. *)
Definition field_text (name : str) (children : list xml) : str :=
  foldl (λ _ x, chardata x.2) [] (elems_named name children).

(** [copyValue] into an [int]. *)
Definition copy_int (s : str) : result Z := if s == [] then Ok 0%Z else Atoi (TrimSpace s).

(** An [int] field. *)
Definition field_int (name : str) (children : list xml) : result Z :=
  foldl (λ r x, _ ← r; copy_int (chardata x.2)) (Ok 0%Z) (elems_named name children).

Definition unmarshal_item (children : list xml) : Item :=
  let f name := field_text name children in
  mkItem (f "DeviceID") (f "Name") (f "Manufacturer") (f "Model") (f "Owner") (f "CivilCode")
    (f "Address") (f "Parental") (f "ParentID") (f "SafetyWay") (f "RegisterWay") (f "Secrecy")
    (f "IPAddress") (f "Port") (f "Password") (f "Status") (f "Longitude") (f "Latitude").

(** One [DeviceList] element, into the list there is: the attribute [Num] is set, the
    items are appended. *)
Definition unmarshal_list (l : option DeviceList) (x : list XAttr * list xml) : option DeviceList :=
  let l := default (mkDeviceList [] []) l in
  Some (mkDeviceList (foldl (λ v a, if n_local (a_name a) == "Num" then a_value a else v) (dl_Num l) x.1)
          (dl_Items l ++ map (λ i, unmarshal_item i.2) (elems_named "Item" x.2))).

(** The fields by their tags; other elements are skipped.  An error drops the
    envelope, so the three [int] fields are read first. *)
Definition unmarshal_fields (root : str) (children : list xml) : result Envelope :=
  let f name := field_text name children in
  sn ← field_int "SN" children;
  seq ← field_int "SeqNum" children;
  sum ← field_int "SumNum" children;
  Ok (mkEnvelope root (f "CmdType") sn (f "DeviceID") seq (f "PTZCmd") (f "TeleBoot") (f "RecordCmd")
        (f "GuardCmd") (f "AlarmCmd") (f "AlarmTime") (f "AlarmType") (f "AlarmPriority") (f "AlarmMethod")
        (f "AlarmDescription") (f "Longitude") (f "Latitude")
        (foldl unmarshal_list None (elems_named "DeviceList" children))
        (f "DeviceName") (f "Manufacturer") (f "Model") (f "Firmware") (f "Result")
        (f "Status") (f "Reason") (f "Online") sum).

(** [dec.Decode(e)]: any root name. *)
Definition unmarshal (x : xml) : result Envelope :=
  match x with
  | XElem n _ children => unmarshal_fields (n_local n) children
  | XText _ => Err ErrOther
  end.

Definition xml_Parse `{XmlNames} (body : str) : result Envelope :=
  match IndexByte body "<" with
  | None => Err ErrOther
  | Some i => wrap_err ErrOther (decode (drop i body) ≫= unmarshal)
  end.

(** ** Escaping *)

(** The bytes that are markup in text and in quoted attributes. *)
Definition markup_byte (c : ascii) : bool := mem c ["<"%char; ">"%char; DQUOTE; "'"%char; CR; LF; TAB].

Lemma escape_rune_safe c s r n :
  DecodeRune (c :: s) = (r, n) → all (λ c, negb (markup_byte c)) (escape_rune r (take n (c :: s))).
Proof.
  intros Hr. destruct (DecodeRune_width _ _ _ _ Hr) as (k & -> & _ & Ht & Hc). destruct (decide (is_ascii c)) as [Ha|Ha].
  - destruct k; [|by apply Hc in Ha; [|lia]]. rewrite DecodeRune_ascii in Hr by done. injection Hr as <-.
    cbn [firstn]. clear -Ha. revert Ha. all_bytes c; vm_compute; done.
  - unfold escape_rune. repeat case_match; try by vm_compute.
    cbn [firstn]. rewrite all_cons. apply andb_True. split; [revert Ha; clear; all_bytes c; vm_compute; tauto|].
    eapply all_impl; [exact Ht|]. clear. intros d. all_bytes d; vm_compute; tauto.
Qed.

(** No value of a field can open or close an element, or end an attribute. *)
Lemma EscapeText_safe s : all (λ c, negb (markup_byte c)) (EscapeText s).
Proof.
  unfold EscapeText. generalize 0. induction s as [|c s IH]; intros [|k]; try done; cbn [escape_from]; [|apply IH].
  destruct (DecodeRune (c :: s)) as [r n] eqn:Er. rewrite all_app. apply andb_True.
  split; [by apply escape_rune_safe|apply IH].
Qed.
