(* ===== verification/XmlRead.v ===== *)
(** * Reading back what [Marshal] writes

    The decoder on escaped text, on tags and on nested elements.  [reads s l] says that
    reading [s] inside an open element, whatever follows, adds the children [l] to it; it
    is closed under concatenation and under elements. *)

From S2P Require Import Prelude GoStrings Utf8 XmlToken Xml.

(** ** Escaped text, byte by byte *)

Definition escape_byte (c : ascii) : str := if is_ascii c then escape_rune (code c) [c] else [c].

(** A byte of valid text. *)
Definition text_byte (c : ascii) : bool := negb (is_ascii c) || isInCharacterRange (code c).

Lemma in_range_code lo hi c : in_range lo hi c → (lo ≤ code c ≤ hi)%N.
Proof. unfold in_range. rewrite andb_True, !Is_true_true, !N.leb_le. done. Qed.

Lemma low6_range lo c : in_range (128 + lo) 191 c → (lo ≤ low6 c)%N.
Proof.
  intros H%in_range_code. unfold low6. assert (code c mod 64 = code c - 128)%N as ->; [|lia].
  symmetry. apply N.mod_unique with 2%N; lia.
Qed.

(** The encoding is never longer than it must be. *)
Lemma DecodeRune_high c s r n : ¬ is_ascii c → DecodeRune (c :: s) = (r, n) → (128 ≤ r)%N.
Proof.
  unfold is_ascii. intros Ha. cbn [DecodeRune]. destruct (N.ltb_spec (code c) 128) as [|Hc]; [done|].
  assert (H1 : ∀ d, second_ok 224 d → (32 ≤ low6 d)%N) by (intros d; apply (low6_range 32)).
  assert (H2 : ∀ d, second_ok 240 d → (16 ≤ low6 d)%N) by (intros d Hd; apply (low6_range 16); revert Hd; all_bytes d; done).
  unfold RuneError.
  repeat case_match; intros [= <- <-]; try lia.
  all: repeat match goal with
    | E : (_ && _) = true |- _ => apply andb_true_iff in E as [??]
    | E : (_ <? _)%N = false |- _ => apply N.ltb_ge in E
    | E : (_ <? _)%N = true |- _ => apply N.ltb_lt in E
    | E : second_ok _ _ = true |- _ => apply Is_true_true_2 in E
    end; try lia.
  - destruct (decide (code c = 224)%N) as [E|]; [rewrite E in *|lia]. match goal with E : Is_true (second_ok _ _) |- _ => apply H1 in E end. lia.
  - destruct (decide (code c = 240)%N) as [E|]; [rewrite E in *|lia]. match goal with E : Is_true (second_ok _ _) |- _ => apply H2 in E end. lia.
Qed.

Lemma escape_high r raw :
  (128 ≤ r)%N → isInCharacterRange r → ¬ bad_rune r (length raw) → escape_rune r raw = raw.
Proof.
  intros Hr Hi%Is_true_true Hb. unfold escape_rune. rewrite Hi.
  repeat match goal with |- context [(r =? ?k)%N] => rewrite (proj2 (N.eqb_neq r k)) by lia end.
  cbn [negb orb]. apply Is_true_false in Hb. by rewrite Hb.
Qed.

Lemma flat_map_escape_high s : all (λ c, negb (is_ascii c)) s → flat_map escape_byte s = s.
Proof.
  induction s as [|c s IH]; [done|]. rewrite all_cons. intros [Hc Hs]%andb_True. cbn [flat_map].
  unfold escape_byte at 1. apply negb_True, Is_true_false in Hc. by rewrite Hc, IH.
Qed.

Lemma EscapeText_bytes s : text_ok s → EscapeText s = flat_map escape_byte s ∧ all text_byte s.
Proof.
  assert (∀ k, k ≤ length s → all (λ c, negb (is_ascii c)) (take k s) → text_ok_from k s →
               escape_from k s = flat_map escape_byte (drop k s) ∧ all text_byte s) as Hgo;
    [|intros Hs; by apply Hgo; [lia| |]].
  induction s as [|c s IH]; intros [|k] Hk Ht Hs; try done.
  - cbn [escape_from text_ok_from drop flat_map] in *. destruct (DecodeRune (c :: s)) as [r n] eqn:Er.
    destruct (DecodeRune_width _ _ _ _ Er) as (k & -> & Hl & Hn & Hc). cbn [Nat.sub] in *.
    rewrite Nat.sub_0_r in *. apply andb_True in Hs as [[Hb Hi]%andb_True Hs].
    destruct (IH k Hl Hn Hs) as [-> Hall].
    assert (flat_map escape_byte s = take k s ++ flat_map escape_byte (drop k s)) as ->.
    { rewrite <-(take_drop k s) at 1. rewrite flat_map_app. by rewrite flat_map_escape_high. }
    rewrite app_assoc, all_cons. split; [f_equal|apply andb_True; split; [|done]].
    + unfold escape_byte. destruct (is_ascii c) eqn:Ea.
      * apply Is_true_true in Ea. destruct k; [|by destruct Hc; [lia|]]. rewrite DecodeRune_ascii in Er by done.
        injection Er as <-. by rewrite app_nil_r.
      * cbn [firstn]. apply escape_high; [|done|].
        -- eapply DecodeRune_high; [|exact Er]. rewrite Ea. exact id.
        -- cbn [length app]. rewrite length_take, Nat.min_l by done. by apply negb_True.
    + unfold text_byte. destruct (is_ascii c) eqn:Ea; [|done]. apply Is_true_true in Ea.
      rewrite DecodeRune_ascii in Er by done. by injection Er as <- _.
  - cbn [firstn length escape_from text_ok_from drop] in *. rewrite all_cons in *. apply andb_True in Ht as [Hc Ht].
    destruct (IH k) as [-> Hall]; [lia|done..|]. split; [done|]. apply andb_True. split; [|done].
    unfold text_byte. by apply orb_True; left.
Qed.

Section reading.
Context `{XmlNames}.

(** ** Text *)

Lemma reference_escape c :
  mem c [DQUOTE; "'"%char; "&"%char; "<"%char; ">"%char; TAB; LF; CR] →
  ∃ e, escape_byte c = "&"%char :: e ∧ ∀ t, reference (e ++ t) = Ok ([c], t).
Proof.
  clear. intros Hc. unfold escape_byte.
  revert Hc. all_bytes c; try (intros Hc; by destruct Hc); intros _; eexists; (split; [vm_compute; reflexivity|]);
    intros t; vm_compute; reflexivity.
Qed.

(** One byte of the text, from the byte or the reference it was written as. *)
Lemma text_loop_byte q f b0 b1 acc c t :
  q = None ∨ q = Some DQUOTE → text_byte c → b1 ≠ CR →
  ∃ b0' b1', b1' ≠ CR ∧ text_loop (S f) q false b0 b1 acc (escape_byte c ++ t) = text_loop f q false b0' b1' (c :: acc) t.
Proof.
  intros Hq Hc Hb. assert ((b1 == CR) = false) as Hcr by by apply bool_decide_eq_false.
  destruct (mem c [DQUOTE; "'"%char; "&"%char; "<"%char; ">"%char; TAB; LF; CR]) eqn:Em.
  - exists NUL, NUL. split; [done|]. destruct (reference_escape c) as (e & -> & Hr); [by rewrite Em|].
    cbn [app text_loop]. rewrite Hr. by destruct Hq as [-> | ->]; cbn; rewrite ?andb_false_r.
  - exists b1, c. split; [intros ->; by vm_compute in Em|].
    assert (escape_byte c = [c] ∧ (c == ">"%char) = false ∧ (c == "<"%char) = false ∧ (q == Some c) = false ∧
            (c == "&"%char) = false ∧ (c == CR) = false) as (-> & E1 & E2 & E3 & E4 & E5).
    { revert Em Hc. clear -Hq. destruct Hq as [-> | ->]; all_bytes c; by vm_compute. }
    cbn [app text_loop]. by rewrite E1, E2, E3, E4, E5, Hcr, !andb_false_r.
Qed.

Lemma text_loop_bytes q s f acc t b0 b1 :
  q = None ∨ q = Some DQUOTE → all text_byte s → b1 ≠ CR →
  ∃ b0' b1', text_loop (length s + f) q false b0 b1 acc (flat_map escape_byte s ++ t) =
             text_loop f q false b0' b1' (rev s ++ acc) t.
Proof.
  intros Hq. revert acc b0 b1. induction s as [|c s IH]; intros acc b0 b1; [by eexists _, _|].
  rewrite all_cons. intros [Hc Hs]%andb_True Hb. cbn [flat_map length Nat.add rev]. rewrite <-app_assoc.
  destruct (text_loop_byte q (length s + f) b0 b1 acc c (flat_map escape_byte s ++ t)) as (x & y & Hy & ->); try done.
  destruct (IH (c :: acc) x y) as (x' & y' & ->); try done. rewrite <-app_assoc. by eexists _, _.
Qed.

Lemma length_escape_text s : length s ≤ length (flat_map escape_byte s).
Proof.
  induction s as [|c s IH]; [done|]. cbn [flat_map length]. rewrite length_app.
  assert (1 ≤ length (escape_byte c)); [|lia]. clear. all_bytes c; vm_compute; lia.
Qed.

(** Enough fuel to read [s] and one byte more. *)
Lemma d_text_escape q s c r rest :
  q = None ∨ q = Some DQUOTE → text_ok s →
  (∀ f b0 b1, text_loop (S f) q false b0 b1 (rev s) (c :: r) = Ok (s, rest)) →
  d_text q false (EscapeText s ++ c :: r) = Ok (s, rest).
Proof.
  intros Hq Hs Hc. destruct (EscapeText_bytes s Hs) as [-> Hb]. unfold d_text.
  set (t := flat_map escape_byte s ++ c :: r).
  assert (∃ f, S (length t) = length s + S f) as [f ->].
  { unfold t. rewrite length_app. pose proof (length_escape_text s). cbn [length].
    exists (length (flat_map escape_byte s) - length s + S (length r)). lia. }
  unfold t. destruct (text_loop_bytes q s (S f) [] (c :: r) NUL NUL Hq Hb) as (x & y & ->); [done|].
  rewrite app_nil_r, Hc. rewrite result_bind_Ok. apply Is_true_true in Hs. by rewrite Hs.
Qed.

Lemma d_text_content s r : text_ok s → d_text None false (EscapeText s ++ "<"%char :: r) = Ok (s, "<"%char :: r).
Proof.
  intros Hs. apply d_text_escape; [by left|done|]. intros f b0 b1. cbn [text_loop].
  rewrite rev_involutive. rewrite (bool_decide_false ("<"%char = ">"%char)) by done. by rewrite !andb_false_r.
Qed.

Lemma d_text_quoted s r : text_ok s → d_text (Some DQUOTE) false (EscapeText s ++ DQUOTE :: r) = Ok (s, r).
Proof.
  intros Hs. apply d_text_escape; [by right|done|]. intros f b0 b1. cbn [text_loop]. by rewrite rev_involutive.
Qed.

(** ** Names and tags *)

(** A tag of ASCII letters, digits and marks, without a prefix. *)
Definition tag_byte (c : ascii) : bool := is_alnum c || mem c ["_"; "."; "-"]%char.
Definition tag_name (n : str) : bool :=
  match n with
  | [] => false
  | c :: n' => (is_upper c || is_lower c || (c == "_"%char)) && all tag_byte n'
  end.

(** A byte that ends a name. *)
Definition ends_name (c : ascii) : bool := is_ascii c && negb (isNameByte c).

Lemma readName_tag n c r : all tag_byte n → ends_name c → readName (n ++ c :: r) = Ok (n, c :: r).
Proof.
  intros Hn [Ha Hc]%andb_True. induction n as [|d n IH]; cbn [app readName].
  - apply Is_true_true in Ha. apply negb_True, Is_true_false in Hc. by rewrite Ha, Hc.
  - rewrite all_cons in Hn. apply andb_True in Hn as [Hd Hn]. rewrite IH by done.
    assert (negb (is_ascii d) || isNameByte d = true) as ->; [|done]. clear -Hd. revert Hd. all_bytes d; done.
Qed.

Lemma tag_byte_rune c s : tag_byte c →
  let '(r, n) := DecodeRune (c :: s) in n = 1 ∧ bad_rune r n = false ∧ is_first r || is_second r = true.
Proof. intros Hc. rewrite DecodeRune_ascii; revert Hc; all_bytes c; by vm_compute. Qed.

Lemma name_rest_tag n : all tag_byte n → name_rest 0 n.
Proof.
  induction n as [|c n IH]; [done|]. rewrite all_cons. intros [Hc Hn]%andb_True.
  pose proof (tag_byte_rune c n Hc) as Hr. cbn [name_rest]. destruct (DecodeRune (c :: n)) as [r k].
  destruct Hr as (-> & -> & ->). by apply IH.
Qed.

Lemma tag_name_bytes n : tag_name n → all tag_byte n ∧ isName n.
Proof.
  destruct n as [|c n]; [done|]. cbn [tag_name isName]. intros [Hc Hn]%andb_True.
  rewrite all_cons, DecodeRune_ascii by (revert Hc; clear; all_bytes c; done).
  assert (tag_byte c ∧ negb (bad_rune (code c) 1) && is_first (code c) = true) as [Ht ->]
    by (revert Hc; clear; all_bytes c; by vm_compute).
  split; [by apply andb_True|]. by apply name_rest_tag.
Qed.

Lemma count_colons_tag n : all tag_byte n → count_colons n = 0.
Proof.
  intros Hn. unfold count_colons. induction n as [|c n IH]; [done|]. rewrite all_cons in Hn.
  apply andb_True in Hn as [Hc Hn]. rewrite filter_cons_False; [by apply IH|]. intros ->. by vm_compute in Hc.
Qed.

Lemma nsname_tag n c r : tag_name n → ends_name c → nsname (n ++ c :: r) = Ok (mkXName [] n, c :: r).
Proof.
  intros Hn Hc. destruct (tag_name_bytes n Hn) as [Ht Hi]. unfold nsname, read_name.
  rewrite readName_tag by done. rewrite result_bind_Ok. apply Is_true_true in Hi. rewrite Hi, result_bind_Ok.
  rewrite count_colons_tag by done. cbn [Nat.ltb Nat.leb]. rewrite Cut_free; [done|].
  eapply all_impl; [exact Ht|]. clear. intros d. all_bytes d; by vm_compute.
Qed.

(** A start tag, up to its name. *)
Lemma rawToken_open n c r :
  tag_name n → ends_name c →
  rawToken ("<"%char :: n ++ c :: r) =
  '(attrs, empty, s) ← attr_loop (S (S (length r))) [] (c :: r); Ok (RStart (mkXName [] n) attrs empty, s).
Proof.
  intros Hn Hc. unfold rawToken, raw_start. destruct n as [|d n]; [done|].
  cbn [app mustgetc lit String.list_ascii_of_string]. rewrite !result_bind_Ok.
  rewrite (bool_decide_true ("<"%char = "<"%char)) by done. cbn [negb mustgetc]. rewrite result_bind_Ok.
  assert ((d == "/"%char) = false ∧ (d == "?"%char) = false ∧ (d == "!"%char) = false) as (-> & -> & ->).
  { cbn [tag_name] in Hn. apply andb_True in Hn as [Hd _]. clear -Hd. revert Hd. all_bytes d; by vm_compute. }
  change (d :: n ++ c :: r) with ((d :: n) ++ c :: r). by rewrite nsname_tag.
Qed.

Lemma attr_loop_close f acc r : attr_loop (S f) acc (">"%char :: r) = Ok (rev acc, false, r).
Proof. done. Qed.

Lemma attr_loop_attr f acc a v r :
  tag_name a → text_ok v →
  attr_loop (S f) acc (" "%char :: a ++ "="%char :: DQUOTE :: EscapeText v ++ DQUOTE :: r) =
  attr_loop f (mkXAttr (mkXName [] a) v :: acc) r.
Proof.
  intros Ha Hv. destruct a as [|d a]; [done|].
  assert (xml_space d = false ∧ (d == "/"%char) = false ∧ (d == ">"%char) = false) as (E0 & E1 & E2).
  { cbn [tag_name] in Ha. apply andb_True in Ha as [Hd _]. clear -Hd. revert Hd. all_bytes d; by vm_compute. }
  cbn [attr_loop app skip_space trim_left]. unfold skip_space. cbn [trim_left].
  change (xml_space " ") with true. cbn [trim_left]. rewrite E0. cbn [mustgetc]. rewrite result_bind_Ok, E1, E2.
  change (d :: a ++ "="%char :: DQUOTE :: EscapeText v ++ DQUOTE :: r)
    with ((d :: a) ++ "="%char :: DQUOTE :: EscapeText v ++ DQUOTE :: r).
  rewrite nsname_tag by done. rewrite result_bind_Ok. cbn [trim_left]. change (xml_space "=") with false. cbn [mustgetc].
  rewrite result_bind_Ok. rewrite (bool_decide_true ("="%char = "="%char)) by done. cbn [trim_left].
  change (xml_space DQUOTE) with false. unfold attrval. cbn [mustgetc]. rewrite result_bind_Ok.
  rewrite (bool_decide_true (DQUOTE = DQUOTE)) by done. cbn [orb]. by rewrite d_text_quoted.
Qed.

Lemma rawToken_start n r : tag_name n → rawToken ("<" ++ n ++ ">" ++ r) = Ok (RStart (mkXName [] n) [] false, r).
Proof.
  intros Hn. cbn [app lit String.list_ascii_of_string]. rewrite (rawToken_open n ">"%char) by done.
  by rewrite attr_loop_close.
Qed.

(** A start tag with one attribute. *)
Lemma rawToken_attr n a v r :
  tag_name n → tag_name a → text_ok v →
  rawToken ("<" ++ n ++ " " ++ a ++ "=" ++ [DQUOTE] ++ EscapeText v ++ [DQUOTE] ++ ">" ++ r) =
  Ok (RStart (mkXName [] n) [mkXAttr (mkXName [] a) v] false, r).
Proof.
  intros Hn Ha Hv. cbn [app lit String.list_ascii_of_string]. rewrite (rawToken_open n " "%char) by done.
  rewrite attr_loop_attr by done. rewrite length_app. cbn [length]. rewrite Nat.add_succ_r. by rewrite attr_loop_close.
Qed.

Lemma rawToken_end n r : tag_name n → rawToken ("</" ++ n ++ ">" ++ r) = Ok (REnd (mkXName [] n), r).
Proof.
  intros Hn. unfold rawToken, raw_end. cbn [app mustgetc lit String.list_ascii_of_string]. rewrite !result_bind_Ok.
  rewrite (bool_decide_true ("<"%char = "<"%char)) by done. cbn [negb mustgetc]. rewrite result_bind_Ok.
  rewrite (bool_decide_true ("/"%char = "/"%char)) by done. by rewrite nsname_tag.
Qed.

Lemma rawToken_text v r :
  v ≠ [] → text_ok v → rawToken (EscapeText v ++ "<"%char :: r) = Ok (RText v, "<"%char :: r).
Proof.
  intros Hv Hok. pose proof (d_text_content v r Hok) as Ht. unfold rawToken.
  pose proof (EscapeText_safe v) as Hs. destruct (EscapeText v) as [|c t] eqn:E.
  { destruct (EscapeText_bytes v Hok) as [E' _]. rewrite E in E'. pose proof (length_escape_text v) as Hl.
    rewrite <-E' in Hl. destruct v; [done|simpl in Hl; lia]. }
  cbn [app mustgetc] in *. rewrite result_bind_Ok, Ht, result_bind_Ok.
  rewrite all_cons in Hs. apply andb_True in Hs as [Hc _]. rewrite bool_decide_false; [done|]. intros ->. by vm_compute in Hc.
Qed.

(** ** Elements *)

(** Reading [s] inside an open element adds the children [l]. *)
Definition reads (s : str) (l : list xml) : Prop := ∀ r m k o p,
  ∃ c, ∀ f, tree_loop (c + f) (mkDecoder (s ++ r) None (SStart m :: k)) (o :: p) =
            tree_loop f (mkDecoder r None (SStart m :: k)) ((o.1, rev l ++ o.2) :: p).

Lemma reads_nil : reads [] [].
Proof. intros r m k [o l] p. by exists 0. Qed.

Lemma reads_app s t l l' : reads s l → reads t l' → reads (s ++ t) (l ++ l').
Proof.
  intros Hs Ht r m k o p. destruct (Hs (t ++ r) m k o p) as [c Hc].
  destruct (Ht r m k (o.1, rev l ++ o.2) p) as [c' Hc']. exists (c + c'). intros f.
  rewrite <-app_assoc, <-Nat.add_assoc, Hc, Hc'. cbn [fst snd]. by rewrite rev_app_distr, app_assoc.
Qed.

Lemma tree_loop_step f d o : tree_loop (1 + f) d o =
  '(t, d) ← Token d;
  match t, o with
  | TStart n attrs, _ => tree_loop f d ((n, attrs, []) :: o)
  | TEnd, [] => bad
  | TEnd, [o] => Ok (close_elem o)
  | TEnd, o :: p :: l => tree_loop f d (add_child (close_elem o) p :: l)
  | TText s, o :: l => tree_loop f d (add_child (XText s) o :: l)
  | _, _ => tree_loop f d o
  end.
Proof. done. Qed.

Lemma Token_end n r k :
  tag_name n → Token (mkDecoder ("</" ++ n ++ ">" ++ r) None (SStart (mkXName [] n) :: k)) =
               Ok (TEnd, mkDecoder r None (pop_ns k)).
Proof.
  intros Hn. unfold Token. cbn [toClose d_in d_stk]. rewrite rawToken_end by done. rewrite result_bind_Ok.
  unfold popElement. cbn [d_stk n_local n_space toClose d_in]. by rewrite !bool_decide_true.
Qed.

(** Non-empty text before a tag. *)
Lemma reads_text v : v ≠ [] → text_ok v → ∀ r m k o p f,
  tree_loop (1 + f) (mkDecoder (EscapeText v ++ "<"%char :: r) None (SStart m :: k)) (o :: p) =
  tree_loop f (mkDecoder ("<"%char :: r) None (SStart m :: k)) (add_child (XText v) o :: p).
Proof.
  intros Hv Hok r m k o p f. rewrite tree_loop_step. unfold Token. cbn [toClose d_in d_stk].
  by rewrite rawToken_text, !result_bind_Ok.
Qed.

(** Reading [s] before the end tag of the open element. *)
Definition content (s : str) (l : list xml) : Prop := ∀ r m k o p,
  ∃ c, ∀ f, tree_loop (c + f) (mkDecoder (s ++ "<"%char :: r) None (SStart m :: k)) (o :: p) =
            tree_loop f (mkDecoder ("<"%char :: r) None (SStart m :: k)) ((o.1, rev l ++ o.2) :: p).

Lemma reads_content s l : reads s l → content s l.
Proof. intros Hs r. apply Hs. Qed.

(** The children of an element with the text [v]. *)
Definition text_kids (v : str) : list xml := if v == [] then [] else [XText v].

Lemma content_text v : text_ok v → content (EscapeText v) (text_kids v).
Proof.
  intros Hv r m k [o l] p. unfold text_kids. case_test.
  - subst. by exists 0.
  - exists 1. intros f. by apply reads_text.
Qed.

(** An attribute without a prefix that declares no name space. *)
Definition plain_attr (a : XAttr) : Prop := n_space (a_name a) = [] ∧ n_local (a_name a) ≠ "xmlns".

Lemma declares_none attrs : Forall plain_attr attrs → List.filter declares attrs = [].
Proof.
  induction 1 as [|a attrs [E1 E2] _ IH]; [done|]. cbn [List.filter].
  assert (declares a = false) as ->; [|done]. unfold declares.
  rewrite E1, (bool_decide_false (n_local _ = _)) by done. by rewrite andb_false_r.
Qed.

(** An element, from its start tag, its contents and its end tag. *)
Lemma reads_tag n attrs tag s l :
  tag_name n → Forall plain_attr attrs →
  (∀ r, rawToken (tag ++ r) = Ok (RStart (mkXName [] n) attrs false, r)) → content s l →
  reads (tag ++ s ++ "</" ++ n ++ ">") [XElem (mkXName [] n) attrs l].
Proof.
  intros Hn Ha Ht Hs r m k o p.
  destruct (Hs ("/"%char :: n ++ ">" ++ r) (mkXName [] n) (SStart m :: k) (mkXName [] n, attrs, []) (o :: p)) as [c Hc].
  exists (1 + (c + 1)). intros f. rewrite <-!Nat.add_assoc, tree_loop_step. unfold Token at 1. cbn [toClose d_in d_stk].
  rewrite <-!app_assoc, Ht, !result_bind_Ok.
  rewrite declares_none by done.
  cbn [map app]. cbn [app lit String.list_ascii_of_string] in *. rewrite Hc, tree_loop_step.
  change ("<"%char :: "/"%char :: n ++ ">"%char :: r) with ("</" ++ n ++ ">" ++ r). rewrite Token_end by done.
  rewrite result_bind_Ok. cbn [fst snd]. rewrite app_nil_r. unfold close_elem, add_child. cbn [fst snd pop_ns].
  by rewrite rev_involutive.
Qed.

Lemma reads_element n s l : tag_name n → content s l → reads (element n s) [XElem (mkXName [] n) [] l].
Proof.
  intros Hn Hs. unfold element. change ("<" ++ n ++ ">" ++ s ++ "</" ++ n ++ ">") with (["<"%char] ++ n ++ ">" ++ s ++ "</" ++ n ++ ">").
  rewrite (app_assoc n), app_assoc. apply reads_tag; [done|constructor| |done].
  intros r. rewrite <-!app_assoc. by apply rawToken_start.
Qed.

(** An element of one text. *)
Definition leaf (n v : str) : xml := XElem (mkXName [] n) [] (text_kids v).

Lemma reads_text_element n v : tag_name n → text_ok v → reads (text_element n v) [leaf n v].
Proof. intros Hn Hv. by apply reads_element, content_text. Qed.

Definition opt_leaf (n v : str) : list xml := if v == [] then [] else [leaf n v].

Lemma reads_opt_element n v : tag_name n → text_ok v → reads (opt_element n v) (opt_leaf n v).
Proof. intros Hn Hv. unfold opt_element, opt_leaf. case_test; [apply reads_nil|by apply reads_text_element]. Qed.

Lemma Itoa_bytes z : all (λ c, is_digit c || (c == "-"%char)) (Itoa z).
Proof.
  unfold Itoa. case_match; rewrite ?all_cons; [apply andb_True; split; [done|]|];
    (eapply all_impl; [apply FormatUint_digits|]); intros c; all_bytes c; done.
Qed.

Lemma text_ok_Itoa z : text_ok (Itoa z).
Proof. apply printable_text_ok. eapply all_impl; [apply Itoa_bytes|]. intros c. all_bytes c; done. Qed.

Lemma EscapeText_Itoa z : EscapeText (Itoa z) = Itoa z.
Proof.
  rewrite (proj1 (EscapeText_bytes _ (text_ok_Itoa z))). pose proof (Itoa_bytes z) as Hz.
  induction (Itoa z) as [|c s IH]; [done|]. rewrite all_cons in Hz. apply andb_True in Hz as [Hc Hs].
  cbn [flat_map]. rewrite IH by done. revert Hc. clear. all_bytes c; done.
Qed.

Lemma element_Itoa n z : element n (Itoa z) = text_element n (Itoa z).
Proof. unfold text_element. by rewrite EscapeText_Itoa. Qed.

Definition opt_int_leaf (n : str) (z : Z) : list xml := if z == 0%Z then [] else [leaf n (Itoa z)].

Lemma reads_opt_int n z : tag_name n → reads (opt_int_element n z) (opt_int_leaf n z).
Proof.
  intros Hn. unfold opt_int_element, opt_int_leaf. case_test; [apply reads_nil|]. rewrite element_Itoa.
  apply reads_text_element; [done|apply text_ok_Itoa].
Qed.

Lemma reads_concat (ss : list str) (ls : list (list xml)) :
  Forall2 reads ss ls → reads (concat ss) (concat ls).
Proof. induction 1 as [|s l ss ls Hs _ IH]; [apply reads_nil|by apply reads_app]. Qed.

(** ** A body *)

Lemma Token_header r : Token (mkDecoder (xml_header ++ r) None []) = Ok (TOther, mkDecoder (LF :: r) None []).
Proof. vm_compute. reflexivity. Qed.

Lemma Token_newline r :
  Token (mkDecoder (LF :: "<"%char :: r) None []) = Ok (TText [LF], mkDecoder ("<"%char :: r) None []).
Proof. vm_compute. reflexivity. Qed.

(** The root element of a body. *)
Lemma decode_body n s l :
  tag_name n → content s l → decode (xml_header ++ element n s) = Ok (XElem (mkXName [] n) [] l).
Proof.
  intros Hn Hs. destruct (Hs ("/"%char :: n ++ ">") (mkXName [] n) [] (mkXName [] n, [], []) []) as [c Hc].
  rewrite <-(decode_fuel _ (4 + c)). generalize (S (2 * length (xml_header ++ element n s))). intros f.
  replace (f + (4 + c)) with (1 + (1 + (1 + (c + (1 + f))))) by lia.
  rewrite tree_loop_step, Token_header, result_bind_Ok. unfold element. cbn [app lit String.list_ascii_of_string].
  rewrite tree_loop_step, Token_newline, result_bind_Ok.
  rewrite tree_loop_step. unfold Token at 1. cbn [toClose d_in d_stk].
  pose proof (rawToken_start n (s ++ "<"%char :: "/"%char :: n ++ [">"%char]) Hn) as Hr.
  pose proof (Token_end n [] [] Hn) as He.
  cbn [app lit String.list_ascii_of_string] in *. rewrite Hr, !result_bind_Ok.
  cbn [List.filter map app]. rewrite Hc, tree_loop_step, He, result_bind_Ok.
  unfold close_elem. cbn [fst snd]. by rewrite app_nil_r, rev_involutive.
Qed.
End reading.
