(* ===== verification/XmlRoundTrip.v ===== *)
(** * Bodies read back: [Parse] after [Marshal]

    The fields of an item and of an envelope as tables of names and values, in the order
    of the structs.  An element of a table is found by its name alone, since the names
    differ, so every field reads back; the list of devices does by its own table. *)

From S2P Require Import Prelude GoStrings Utf8 XmlToken Xml XmlRead.

(** A field: text, text or a number that may be left out, and the device list. *)
Inductive field :=
| FText (v : str)
| FOpt (v : str)
| FInt (z : Z)
| FOptInt (z : Z)
| FList (l : option DeviceList).

Definition item_fields (i : Item) : list (str * field) :=
  [(lit "DeviceID", FText (it_DeviceID i)); (lit "Name", FOpt (it_Name i));
   (lit "Manufacturer", FOpt (it_Manufacturer i)); (lit "Model", FOpt (it_Model i));
   (lit "Owner", FOpt (it_Owner i)); (lit "CivilCode", FOpt (it_CivilCode i));
   (lit "Address", FOpt (it_Address i)); (lit "Parental", FOpt (it_Parental i));
   (lit "ParentID", FOpt (it_ParentID i)); (lit "SafetyWay", FOpt (it_SafetyWay i));
   (lit "RegisterWay", FOpt (it_RegisterWay i)); (lit "Secrecy", FOpt (it_Secrecy i));
   (lit "IPAddress", FOpt (it_IPAddress i)); (lit "Port", FOpt (it_Port i));
   (lit "Password", FOpt (it_Password i)); (lit "Status", FOpt (it_Status i));
   (lit "Longitude", FOpt (it_Longitude i)); (lit "Latitude", FOpt (it_Latitude i))].

Definition envelope_fields (e : Envelope) : list (str * field) :=
  [(lit "CmdType", FText (e_CmdType e)); (lit "SN", FInt (e_SN e)); (lit "DeviceID", FText (e_DeviceID e));
   (lit "SeqNum", FOptInt (e_SeqNum e)); (lit "PTZCmd", FOpt (e_PTZCmd e));
   (lit "TeleBoot", FOpt (e_TeleBoot e)); (lit "RecordCmd", FOpt (e_RecordCmd e));
   (lit "GuardCmd", FOpt (e_GuardCmd e)); (lit "AlarmCmd", FOpt (e_AlarmCmd e));
   (lit "AlarmTime", FOpt (e_AlarmTime e)); (lit "AlarmType", FOpt (e_AlarmType e));
   (lit "AlarmPriority", FOpt (e_AlarmPriority e)); (lit "AlarmMethod", FOpt (e_AlarmMethod e));
   (lit "AlarmDescription", FOpt (e_AlarmDescription e)); (lit "Longitude", FOpt (e_Longitude e));
   (lit "Latitude", FOpt (e_Latitude e)); (lit "DeviceList", FList (e_DeviceList e));
   (lit "DeviceName", FOpt (e_DeviceName e)); (lit "Manufacturer", FOpt (e_Manufacturer e));
   (lit "Model", FOpt (e_Model e)); (lit "Firmware", FOpt (e_Firmware e)); (lit "Result", FOpt (e_Result e));
   (lit "Status", FOpt (e_Status e)); (lit "Reason", FOpt (e_Reason e)); (lit "Online", FOpt (e_Online e));
   (lit "SumNum", FOptInt (e_SumNum e))].

Definition marshal_field (x : str * field) : str :=
  match x.2 with
  | FText v => text_element x.1 v
  | FOpt v => opt_element x.1 v
  | FInt z => element x.1 (Itoa z)
  | FOptInt z => opt_int_element x.1 z
  | FList l => marshal_list l
  end.

Lemma marshal_item_fields i : marshal_item i = element "Item" (concat (map marshal_field (item_fields i))).
Proof. cbn [map concat item_fields]. by rewrite app_nil_r. Qed.

Lemma marshal_envelope_fields e : marshal_fields e = concat (map marshal_field (envelope_fields e)).
Proof. cbn [map concat envelope_fields]. by rewrite app_nil_r. Qed.

(** ** What is written: the values XML can carry *)

Definition text_field_ok (x : str * field) : bool :=
  match x.2 with
  | FText v | FOpt v => text_ok v
  | FInt z | FOptInt z => in_int z
  | FList _ => true
  end.

Definition item_ok (i : Item) : bool := forallb text_field_ok (item_fields i).

Definition list_ok (l : option DeviceList) : bool :=
  match l with Some l => text_ok (dl_Num l) && forallb item_ok (dl_Items l) | None => true end.

(** Texts are valid UTF-8 of XML's characters, numbers are Go's [int]s. *)
Definition envelope_ok (e : Envelope) : bool :=
  forallb text_field_ok (envelope_fields e) && list_ok (e_DeviceList e).

(** ** The children that are read *)

Definition item_kids (i : Item) : list xml :=
  concat (map (λ x, match x.2 with
                    | FText v => [leaf x.1 v]
                    | FOpt v => opt_leaf x.1 v
                    | _ => []
                    end) (item_fields i)).

Definition list_kids (l : option DeviceList) : list xml :=
  match l with
  | None => []
  | Some l => [XElem (mkXName [] "DeviceList") [mkXAttr (mkXName [] "Num") (dl_Num l)]
                 (map (λ i, XElem (mkXName [] "Item") [] (item_kids i)) (dl_Items l))]
  end.

Definition field_kids (x : str * field) : list xml :=
  match x.2 with
  | FText v => [leaf x.1 v]
  | FOpt v => opt_leaf x.1 v
  | FInt z => [leaf x.1 (Itoa z)]
  | FOptInt z => opt_int_leaf x.1 z
  | FList l => list_kids l
  end.

Definition kids (l : list (str * field)) : list xml := concat (map field_kids l).

Lemma item_kids_fields i : item_kids i = kids (item_fields i).
Proof. done. Qed.

Section round_trip.
Context `{XmlNames}.

Lemma reads_fields (l : list (str * field)) :
  forallb (λ x, tag_name x.1) l → forallb text_field_ok l →
  (∀ n d, (n, FList d) ∈ l → reads (marshal_list d) (list_kids d)) →
  reads (concat (map marshal_field l)) (kids l).
Proof.
  intros Hn Hl Hd. apply reads_concat. apply Forall_forallb in Hn, Hl. rewrite Forall_forall in Hn, Hl.
  apply Forall2_fmap_2. apply Forall_Forall2_diag, Forall_forall. intros [n f] Hx.
  specialize (Hn _ Hx). specialize (Hl _ Hx). unfold marshal_field, field_kids, text_field_ok in *. cbn [fst snd] in *.
  destruct f as [v|v|z|z|d].
  - by apply reads_text_element.
  - by apply reads_opt_element.
  - rewrite element_Itoa. apply reads_text_element; [done|apply text_ok_Itoa].
  - by apply reads_opt_int.
  - by apply (Hd n).
Qed.

Lemma reads_item i : item_ok i → reads (marshal_item i) [XElem (mkXName [] "Item") [] (item_kids i)].
Proof.
  intros Hi. rewrite marshal_item_fields. apply reads_element; [done|]. apply reads_content.
  rewrite item_kids_fields. apply reads_fields; [done|exact Hi|].
  intros n d Hx. unfold item_fields in Hx. repeat (apply elem_of_cons in Hx as [[=]|Hx]). by apply elem_of_nil in Hx.
Qed.

Lemma reads_items l :
  forallb item_ok l →
  reads (concat (map marshal_item l)) (map (λ i, XElem (mkXName [] "Item") [] (item_kids i)) l).
Proof.
  induction l as [|i l IH]; [intros _; apply reads_nil|]. cbn [forallb map concat]. intros [Hi Hl]%andb_True.
  apply (reads_app _ _ [_]); [by apply reads_item|by apply IH].
Qed.

Lemma reads_list d : list_ok d → reads (marshal_list d) (list_kids d).
Proof.
  destruct d as [l|]; [|intros _; apply reads_nil]. cbn [list_ok]. intros [Hn Hl]%andb_True. unfold marshal_list, list_kids.
  pose proof (reads_tag "DeviceList" [mkXAttr (mkXName [] "Num") (dl_Num l)]
    ("<DeviceList Num=" ++ [DQUOTE] ++ EscapeText (dl_Num l) ++ [DQUOTE] ++ ">")
    (concat (map marshal_item (dl_Items l))) (map (λ i, XElem (mkXName [] "Item") [] (item_kids i)) (dl_Items l))) as Ht.
  rewrite <-!app_assoc in Ht. apply Ht; [done| | |].
  - by repeat constructor.
  - intros r. rewrite <-!app_assoc. by apply (rawToken_attr "DeviceList" "Num").
  - by apply reads_content, reads_items.
Qed.

Lemma reads_envelope e : envelope_ok e → reads (marshal_fields e) (kids (envelope_fields e)).
Proof.
  intros [He Hd]%andb_True. rewrite marshal_envelope_fields. apply reads_fields; [done|exact He|].
  intros n d Hx. unfold envelope_fields in Hx.
  repeat (apply elem_of_cons in Hx as [[=]|Hx]); [subst; by apply reads_list|by apply elem_of_nil in Hx].
Qed.

(** ** Fields by their names *)

Implicit Types (n m v : str) (x : str * field) (l : list (str * field)) (z : Z).

Lemma elems_named_app n (k k' : list xml) : elems_named n (k ++ k') = elems_named n k ++ elems_named n k'.
Proof. apply omap_app. Qed.

Lemma elems_named_leaf n m v : elems_named n [leaf m v] = if m == n then [([], text_kids v)] else [].
Proof. unfold elems_named, leaf. cbn [omap list_omap n_local]. by destruct (m == n). Qed.

Lemma elems_named_other x n : x.1 ≠ n → (∀ d, x.2 = FList d → x.1 = "DeviceList") → elems_named n (field_kids x) = [].
Proof.
  intros Hn Hd. destruct x as [m f]. unfold field_kids. cbn [fst snd] in *.
  destruct f as [v|v|z|z|d]; unfold opt_leaf, opt_int_leaf; try case_match; try done;
    rewrite ?elems_named_leaf, ?(bool_decide_false (m = n)); try done.
  rewrite (Hd _ eq_refl) in Hn. destruct d as [l|]; [|done]. unfold list_kids, elems_named. cbn [omap list_omap n_local].
  by rewrite (bool_decide_false (_ = n)).
Qed.

(** The names of a table differ, and only DeviceList holds the list. *)
Definition table_ok l : Prop :=
  NoDup l.*1 ∧ Forall (λ x, ∀ d, x.2 = FList d → x.1 = "DeviceList") l.

Lemma elems_named_none l n :
  n ∉ l.*1 → Forall (λ x, ∀ d, x.2 = FList d → x.1 = "DeviceList") l → elems_named n (kids l) = [].
Proof.
  intros Hn. induction 1 as [|x l Hx Hl IH]; [done|]. rewrite fmap_cons, not_elem_of_cons in Hn. destruct Hn as [Hn Hl'].
  change (kids (x :: l)) with (field_kids x ++ kids l). rewrite elems_named_app, elems_named_other, IH; done.
Qed.

Fixpoint find_field n l : option field :=
  match l with [] => None | x :: l => if x.1 == n then Some x.2 else find_field n l end.

Lemma find_field_elem n l f : find_field n l = Some f → n ∈ l.*1.
Proof. induction l as [|x l IH]; [done|]. simpl. case_test; [subst; left|right; by apply IH]. Qed.

Lemma elems_named_field l n f :
  table_ok l → find_field n l = Some f → elems_named n (kids l) = elems_named n (field_kids (n, f)).
Proof.
  intros [Hnd Hl] Hf. induction Hl as [|x l Hx Hl IH]; [done|].
  rewrite fmap_cons, NoDup_cons in Hnd. destruct Hnd as [Hn Hnd].
  change (kids (x :: l)) with (field_kids x ++ kids l). rewrite elems_named_app. simpl in Hf.
  destruct (bool_decide_reflect (x.1 = n)).
  - injection Hf as <-. subst. rewrite elems_named_none by done. rewrite app_nil_r. by destruct x.
  - by rewrite elems_named_other, (IH Hnd Hf).
Qed.

Lemma field_text_at l n v :
  table_ok l → find_field n l = Some (FOpt v) ∨ find_field n l = Some (FText v) → field_text n (kids l) = v.
Proof.
  intros Hl Hi. assert (elems_named n (kids l) = [] ∧ v = [] ∨ elems_named n (kids l) = [([], text_kids v)]) as Hk.
  { destruct Hi as [Hi|Hi]; rewrite (elems_named_field _ _ _ Hl Hi); unfold field_kids, opt_leaf; cbn [fst snd];
      [case_test; [by left|]|]; right; by rewrite elems_named_leaf, bool_decide_true. }
  unfold field_text. destruct Hk as [[-> ->]| ->]; [done|]. cbn [foldl snd]. unfold text_kids, chardata.
  case_test; [done|]. cbn [map concat]. apply app_nil_r.
Qed.

Lemma Itoa_trimmed z : TrimSpace (Itoa z) = Itoa z.
Proof. apply TrimSpace_nospace. eapply all_impl; [apply Itoa_bytes|]. intros c. all_bytes c; done. Qed.

Lemma field_int_at l n z :
  table_ok l → find_field n l = Some (FOptInt z) ∨ find_field n l = Some (FInt z) → in_int z → field_int n (kids l) = Ok z.
Proof.
  intros Hl Hi Hz.
  assert (elems_named n (kids l) = [] ∧ z = 0%Z ∨ elems_named n (kids l) = [([], text_kids (Itoa z))]) as Hk.
  { destruct Hi as [Hi|Hi]; rewrite (elems_named_field _ _ _ Hl Hi); unfold field_kids, opt_int_leaf; cbn [fst snd];
      [case_test; [by left|]|]; right; by rewrite elems_named_leaf, bool_decide_true. }
  unfold field_int. destruct Hk as [[-> ->]| ->]; [done|]. cbn [foldl snd]. rewrite result_bind_Ok.
  unfold text_kids, chardata. rewrite (bool_decide_false (Itoa z = [])) by apply Itoa_nonnil. cbn [map concat].
  rewrite app_nil_r. unfold copy_int. rewrite (bool_decide_false (Itoa z = [])) by apply Itoa_nonnil.
  by rewrite Itoa_trimmed, Atoi_Itoa.
Qed.

Lemma item_table_ok i : table_ok (item_fields i).
Proof.
  split; [|by repeat (constructor; [done|])].
  change (NoDup (map fst (item_fields (mkItem [] [] [] [] [] [] [] [] [] [] [] [] [] [] [] [] [] [])))).
  apply (bool_decide_unpack _). by vm_compute.
Qed.

Lemma envelope_table_ok e : table_ok (envelope_fields e).
Proof.
  split; [|by repeat (constructor; [done|])].
  change (NoDup (map fst (envelope_fields (new_Envelope [] 0 [])))). apply (bool_decide_unpack _). by vm_compute.
Qed.

Lemma unmarshal_item_kids i : unmarshal_item (item_kids i) = i.
Proof.
  rewrite item_kids_fields. pose proof (item_table_ok i) as Hi. unfold unmarshal_item. cbv zeta.
  destruct i. f_equal; apply (field_text_at _ _ _ Hi); first [left; reflexivity|right; reflexivity].
Qed.

Lemma unmarshal_list_kids d : foldl unmarshal_list None (elems_named "DeviceList" (list_kids d)) = d.
Proof.
  destruct d as [[num items]|]; [|done]. unfold list_kids, elems_named. cbn [omap list_omap n_local dl_Num dl_Items].
  rewrite bool_decide_true by done. cbn [foldl]. unfold unmarshal_list. cbn [default dl_Num dl_Items fst snd foldl].
  cbn [a_name n_local a_value]. rewrite bool_decide_true by done. do 2 f_equal. simpl.
  induction items as [|i items IH]; [done|]. unfold elems_named in *. cbn [map omap list_omap n_local].
  rewrite bool_decide_true by done. cbn [map snd]. by rewrite unmarshal_item_kids, IH.
Qed.

Lemma unmarshal_envelope root e :
  envelope_ok e → unmarshal_fields root (kids (envelope_fields e)) = Ok (with_root root e).
Proof.
  unfold envelope_ok. intros [He _]%andb_True. pose proof (envelope_table_ok e) as Ht.
  apply Forall_forallb in He. rewrite Forall_forall in He. unfold unmarshal_fields. cbv zeta.
  assert (∀ n f, (n, f) ∈ envelope_fields e → text_field_ok (n, f)) as Hok by (intros n f Hx; by apply He).
  rewrite (field_int_at _ "SN" (e_SN e) Ht); [|right; reflexivity|apply (Hok "SN" (FInt _)); set_solver].
  rewrite (field_int_at _ "SeqNum" (e_SeqNum e) Ht); [|left; reflexivity|apply (Hok "SeqNum" (FOptInt _)); set_solver].
  rewrite (field_int_at _ "SumNum" (e_SumNum e) Ht); [|left; reflexivity|apply (Hok "SumNum" (FOptInt _)); set_solver].
  rewrite !result_bind_Ok. f_equal. unfold with_root.
  f_equal; try (apply (field_text_at _ _ _ Ht); first [left; reflexivity|right; reflexivity]).
  rewrite (elems_named_field _ "DeviceList" (FList (e_DeviceList e)) Ht) by reflexivity. apply unmarshal_list_kids.
Qed.

(** The root name [Marshal] writes. *)
Definition root_name (e : Envelope) : str := if XMLName e == [] then "Envelope" else XMLName e.

Lemma Parse_Marshal e :
  envelope_ok e → tag_name (root_name e) → xml_Parse (Marshal e) = Ok (with_root (root_name e) e).
Proof.
  intros He Hr. unfold xml_Parse, Marshal. fold (root_name e).
  change (IndexByte (xml_header ++ element (root_name e) (marshal_fields e)) "<") with (Some 0).
  cbv beta iota. rewrite drop_0.
  rewrite (decode_body _ _ _ Hr (reads_content _ _ (reads_envelope e He))), result_bind_Ok. cbn [unmarshal n_local].
  by rewrite unmarshal_envelope.
Qed.

(** The builders of the package, which name the root. *)
Lemma Parse_MarshalRoot root e :
  envelope_ok e → root ≠ [] → tag_name root → xml_Parse (MarshalRoot root e) = Ok (with_root root e).
Proof.
  intros He Hne Hr. unfold MarshalRoot. assert (root_name (with_root root e) = root) as E.
  { unfold root_name. cbn [XMLName with_root]. by rewrite bool_decide_false. }
  rewrite Parse_Marshal; rewrite ?E; done.
Qed.

Lemma Parse_BuildQuery e : envelope_ok e → xml_Parse (BuildQuery e) = Ok (with_root "Query" e).
Proof. intros He. by apply Parse_MarshalRoot. Qed.

Lemma Parse_BuildResponse e : envelope_ok e → xml_Parse (BuildResponse e) = Ok (with_root "Response" e).
Proof. intros He. by apply Parse_MarshalRoot. Qed.
End round_trip.

(** A query of a command, a number and a device. *)
Lemma query_ok cmd sn id : text_ok cmd → in_int sn → text_ok id → envelope_ok (new_Envelope cmd sn id).
Proof. intros Hc Hs Hi. unfold envelope_ok, envelope_fields, text_field_ok. cbn. rewrite !andb_True. by split_and!. Qed.

(** C22: whatever envelope is marshalled under a root XML can name, [Parse] reads the same
    envelope back: every field, the device list and its items, whatever their text. *)
Theorem body_round_trip `{XmlNames} (e : Envelope) :
  envelope_ok e → tag_name (root_name e) → xml_Parse (Marshal e) = Ok (with_root (root_name e) e).
Proof. apply Parse_Marshal. Qed.

(** Names of letters only. *)
Definition ex_names : XmlNames := mkXmlNames (λ _, true) (λ _, false).

(** A catalog whose channel has markup, a line break and Chinese text in its name. *)
Definition ex_channel : Item :=
  mkItem "34020000001320000002" ([byte 228; byte 184; byte 173; "<"%char; "&"%char; LF; "]"%char; "]"%char; ">"%char] ++ "1")
    "maker" [] [] [] [] "0" [] [] [] [] [] [] [] "ON" [] [].

Definition ex_catalog : Envelope :=
  with_root "Response" (with_list 1 (mkDeviceList "1" [ex_channel]) (new_Envelope CmdCatalog 17 "34020000001320000001")).

Lemma body_round_trip_witness :
  envelope_ok ex_catalog = true ∧ xml_Parse (H := ex_names) (Marshal ex_catalog) = Ok ex_catalog.
Proof.
  split; [by vm_compute|]. change (Ok ex_catalog) with (Ok (with_root (root_name ex_catalog) ex_catalog)).
  apply (body_round_trip (H := ex_names) ex_catalog); by vm_compute.
Defined.

(** A body in the declared GB2312 is refused when it holds a Chinese character: the
    decoder takes its bytes for UTF-8. *)
Definition gb2312_body : str :=
  "<?xml version='1.0' encoding='GB2312'?><Notify><CmdType>Alarm</CmdType><AlarmDescription>" ++
  [byte 214; byte 208] ++ "</AlarmDescription></Notify>".

Lemma gb2312_refused `{XmlNames} : xml_Parse gb2312_body = Err ErrOther.
Proof. by vm_compute. Qed.
