(* ===== verification/Ua.v ===== *)
(** * [ua.go]: the user agent

    A user agent owns a transaction manager and a dialog table.  Its request
    handler runs in the goroutine of the packet, after the manager's part of
    [handlePacket]; the application's callbacks are recorded as [calls], in their
    order, because every handler calls one last.  A blocking wait for an answer
    takes the answer as an argument.  The random identifiers come from the class
    [Entropy]; a nil transaction or dialog that is dereferenced is a panic. *)

From S2P Require Import Prelude GoStrings Params Uri Headers HeadersMap Message Net Transport Ids Transaction Proc Dialog Digest.

(** Every read of the random source, with the clock, process id and counter of the
    fallbacks. *)
Class Entropy := mkEntropy {
  rand_read : nat → nat → result (list N);   (* the read's number, the bytes wanted *)
  clock : nat → N;
  pid : N;
  fallback : nat → N
}.

(** ** State *)

Record UACallbacks := mkUACallbacks {
  OnInvite : bool; OnRegister : bool; OnBye : bool; OnMessage : bool;
  OnInfo : bool; OnNotify : bool; OnSubscribe : bool
}.

(** A call of a callback, transactions and dialogs by pointer. *)
Inductive call :=
| CallInvite (req : Request) (stx : option nat) (dlg : nat)
| CallRegister (req : Request) (stx : option nat)
| CallBye (req : Request) (dlg : nat) (stx : option nat)
| CallMessage (req : Request) (stx : option nat)
| CallInfo (req : Request) (stx : option nat) (dlg : nat)
| CallNotify (req : Request) (stx : option nat)
| CallSubscribe (req : Request) (stx : option nat).

Record ClientInviteSession := mkSession {
  ss_ctx : nat; ss_dlg : nat; Done : bool; Final : option Response; ss_Err : option GoError
}.

Record UA := mkUA {
  ua_tm : TxManager;
  ua_Host : str;
  ua_port : Z;
  UserAgent : str;
  ua_dialogs : DialogManager;
  ua_cb : UACallbacks;
  calls : list call;
  sessions : gmap nat ClientInviteSession;
  next_session : nat;
  reads : nat                     (* reads of the random source so far *)
}.

Definition NewUA (host : str) (port : Z) : UA :=
  mkUA (NewTxManager host port) host port "go-sip/1.0" NewDialogManager
    (mkUACallbacks false false false false false false false) [] ∅ 0 0.

(** [SetCallbacks]: a callback that is set stays set. *)
Definition merge_cb (old cb : UACallbacks) : UACallbacks :=
  mkUACallbacks (OnInvite cb || OnInvite old) (OnRegister cb || OnRegister old) (OnBye cb || OnBye old)
    (OnMessage cb || OnMessage old) (OnInfo cb || OnInfo old) (OnNotify cb || OnNotify old)
    (OnSubscribe cb || OnSubscribe old).

Definition with_tm (m : TxManager) (u : UA) : UA :=
  mkUA m (ua_Host u) (ua_port u) (UserAgent u) (ua_dialogs u) (ua_cb u) (calls u) (sessions u) (next_session u) (reads u).
Definition with_dialogs (d : DialogManager) (u : UA) : UA :=
  mkUA (ua_tm u) (ua_Host u) (ua_port u) (UserAgent u) d (ua_cb u) (calls u) (sessions u) (next_session u) (reads u).
Definition with_cb (c : UACallbacks) (u : UA) : UA :=
  mkUA (ua_tm u) (ua_Host u) (ua_port u) (UserAgent u) (ua_dialogs u) c (calls u) (sessions u) (next_session u) (reads u).
Definition with_calls (l : list call) (u : UA) : UA :=
  mkUA (ua_tm u) (ua_Host u) (ua_port u) (UserAgent u) (ua_dialogs u) (ua_cb u) l (sessions u) (next_session u) (reads u).
Definition with_sessions (s : gmap nat ClientInviteSession) (n : nat) (u : UA) : UA :=
  mkUA (ua_tm u) (ua_Host u) (ua_port u) (UserAgent u) (ua_dialogs u) (ua_cb u) (calls u) s n (reads u).
Definition with_reads (n : nat) (u : UA) : UA :=
  mkUA (ua_tm u) (ua_Host u) (ua_port u) (UserAgent u) (ua_dialogs u) (ua_cb u) (calls u) (sessions u) (next_session u) n.

Definition SetCallbacks (cb : UACallbacks) : proc UA () := update (λ u, with_cb (merge_cb (ua_cb u) cb) u).

(** ** Access to the parts *)

Definition on_tm {A} (m : M A) : proc UA A := on ua_tm with_tm m.

Definition add_call (c : call) : proc UA () := update (λ u, with_calls (calls u ++ [c]) u).

Definition get_dialog (p : nat) : proc UA (option Dialog) := asks (λ u, dm_heap (ua_dialogs u) !! p).
Definition modify_dialog (f : Dialog → Dialog) (p : nat) : proc UA () :=
  update (λ u, with_dialogs (dm_modify f p (ua_dialogs u)) u).
Definition new_dialog (d : Dialog) : proc UA nat := λ u,
  let '(p, dm) := dm_alloc d (ua_dialogs u) in Ret (p, with_dialogs dm u).
Definition add_dialog (p : nat) : proc UA () := update (λ u, with_dialogs (DM_Add p (ua_dialogs u)) u).
Definition remove_dialog (p : nat) : proc UA () := update (λ u, with_dialogs (DM_Remove p (ua_dialogs u)) u).

Definition put_session (i : nat) (s : ClientInviteSession) : proc UA () :=
  update (λ u, with_sessions (<[i := s]> (sessions u)) (next_session u) u).

Section Agent.
Context `{Sender} `{Entropy}.

(** The next identifier, from a fresh read of the random source. *)
Definition fresh_id {A} (f : nat → A) : proc UA A := i ← asks reads; update (with_reads (S i));; mret (f i).
Definition fresh_tag : proc UA str := fresh_id (λ i, NewTag (rand_read i 8) (clock i)).
Definition fresh_callid : proc UA str := fresh_id (λ i, NewCallID (rand_read i 10) (clock i)).
Definition fresh_branch : proc UA str := fresh_id (λ i, NewBranch (rand_read i 12) (clock i) pid (fallback i)).

(** [tm.Request], with the identifiers it may draw. *)
Definition tm_Request (req : Request) (dst : Addr) : proc UA (result nat) :=
  b ← fresh_branch; c ← fresh_callid; on_tm (TxManager_Request req dst b c).

(** [stx.Respond]: the status is looked at before the transaction is. *)
Definition stx_Respond (stx : option nat) (resp : Response) : proc UA (result unit) :=
  if (StatusCode resp <? 100)%Z || (699 <? StatusCode resp)%Z then mret (Err ErrInvalidResponse)
  else match stx with
       | None => panic
       | Some p => on_tm (Respond p resp)
       end.

(** [tp.Send], past the manager. *)
Definition tp_send (network : str) (a : Addr) (msg : Message) : M (result unit) :=
  n ← gets (λ m, length (trace m));
  let r := tp_Send n network a msg in
  emit (ESend msg a (is_ok r));;
  mret r.

(** The destination [TransportFor] gives for a target, nil or not. *)
Definition target_addr (target : option Uri) : proc UA Addr :=
  match target with
  | None => panic
  | Some u => let '(network, host, port) := TransportFor u in mret (mkAddr network host port)
  end.

(** ** Incoming requests *)

Definition findDialog (req : Request) : proc UA (option nat) :=
  let h := Req_headers req in
  match to_of h, from_of h with
  | Some to, Some from =>
    d ← asks (λ u, DM_Get (callid_of h) (Tag (Some to)) (Tag (Some from)) (ua_dialogs u));
    match d with
    | Some p => modify_dialog (λ d, updateFromRequest d req) p;; mret (Some p)
    | None => mret None
    end
  | _, _ => mret None
  end.

(** [dialogSourceAllowed] of ua.go. *)
Definition ua_dialogSourceAllowed (dlg : option Dialog) (src : Addr) : bool :=
  match dlg with
  | None => false
  | Some d =>
    let host := match RemoteTarget d with
                | Some u => Uri_Host u
                | None => match Address_Uri <$> Remote d with Some (Some u) => Uri_Host u | _ => [] end
                end in
    if host == [] then true else sameHost (Addr_Host src) host
  end.

Definition handleBye (req : Request) (src : Addr) (stx : option nat) : proc UA () :=
  p ← findDialog req;
  match p with
  | None => _ ← stx_Respond stx (NewResponse 481 []); mret ()
  | Some p =>
    d ← get_dialog p;
    if negb (ua_dialogSourceAllowed d src) then _ ← stx_Respond stx (NewResponse 403 []); mret ()
    else
      let old := match cseq_of (Req_headers req), d with
                 | Some c, Some d => (Seq c <? RemoteSeq d)%Z
                 | _, _ => false
                 end in
      if old then _ ← stx_Respond stx (NewResponse 500 []); mret ()
      else
        modify_dialog Terminate p;;
        remove_dialog p;;
        _ ← stx_Respond stx (NewResponse 200 []);
        cb ← asks ua_cb;
        whenp (OnBye cb) (add_call (CallBye req p stx))
  end.

Definition handleInvite (req : Request) (stx : option nat) : proc UA () :=
  cb ← asks ua_cb;
  if negb (OnInvite cb) then _ ← stx_Respond stx (NewResponse 501 []); mret ()
  else
    localTag ← fresh_tag;
    p ← new_dialog (NewServerDialog req localTag);
    add_dialog p;;
    add_call (CallInvite req stx p).

Definition allow_header : Header :=
  HTokens (ParseTokenList "Allow" "INVITE, ACK, CANCEL, BYE, REGISTER, OPTIONS, MESSAGE, INFO, NOTIFY, SUBSCRIBE").

Definition UA_handleRequest (req : Request) (src : Addr) (stx : option nat) : proc UA () :=
  cb ← asks ua_cb;
  let m := Req_Method req in
  let has_stx := bool_decide (is_Some stx) in
  let unsupported :=
    whenp has_stx (_ ← stx_Respond stx (resp_with_headers (NewResponse 501 []) [HMaxForwards 70]); mret ()) in
  if (m == ACK) || (m == CANCEL) then mret ()
  else if m == BYE then handleBye req src stx
  else if m == INVITE then handleInvite req stx
  else if m == MESSAGE then (if OnMessage cb then add_call (CallMessage req stx) else unsupported)
  else if m == OPTIONS then
    whenp has_stx (_ ← stx_Respond stx (resp_with_headers (NewResponse 200 []) [allow_header]); mret ())
  else if m == INFO then
    dlg ← findDialog req;
    match dlg with
    | Some p => if OnInfo cb then add_call (CallInfo req stx p) else unsupported
    | None => unsupported
    end
  else if m == NOTIFY then (if OnNotify cb then add_call (CallNotify req stx) else unsupported)
  else if m == SUBSCRIBE then (if OnSubscribe cb then add_call (CallSubscribe req stx) else unsupported)
  else if m == REGISTER then (if OnRegister cb then add_call (CallRegister req stx) else unsupported)
  else unsupported.

(** What a packet makes the agent do: the manager handles it, and calls the
    agent's handler for the request it reports; when the manager dereferenced nil,
    the agent's process is gone. *)
Definition on_effect (e : effect) : proc UA () :=
  match e with EOnRequest req src stx => UA_handleRequest req src stx | EPanic => panic | _ => mret () end.

Definition UA_handlePacket (pkt : Packet) : proc UA () :=
  n ← asks (λ u, length (trace (ua_tm u)));
  on_tm (handlePacket pkt);;
  new ← asks (λ u, drop n (trace (ua_tm u)));
  each on_effect new.

(** ** Responses *)

(** [Respond] of ua.go up to the transaction: the To of the dialog with its local
    tag, the Contact of a 2xx. *)
Definition ua_response (dlg : option Dialog) (status : Z) (contentType : str) (body : option str) : Response :=
  let h : Headers :=
    match dlg with
    | Some d =>
      match Local d with
      | Some to =>
        let to := if (100 <=? status)%Z && (LocalTag d != []) && (Tag (Some to) == []) then SetTag to (LocalTag d)
                  else to in
        [HAddr to "To"]
      | None => []
      end
    | None => []
    end in
  let h := match dlg with
           | Some d =>
             match RemoteTarget d with
             | Some u => if (200 <=? status)%Z && (status <? 300)%Z
                         then Headers_Set h (NewHeader "Contact" (Address_String (mkAddress [] false (Some u) None)))
                         else h
             | None => h
             end
           | None => h
           end in
  Response_SetBody (resp_with_headers (NewResponse status []) h) contentType body.

Definition UA_Respond (dlg : option nat) (stx : option nat) (status : Z) (contentType : str) (body : option str) :
  proc UA (result unit) :=
  d ← (match dlg with Some p => get_dialog p | None => mret None end);
  let resp := ua_response d status contentType body in
  match stx with
  | None => mret (Err ErrUnsupported)
  | Some _ => stx_Respond stx resp
  end.

(** ** Outgoing requests *)

Definition quoted (s : str) : str := [DQUOTE] ++ s ++ [DQUOTE].

Definition authHeaders (h : Headers) (uri : option Uri) (creds : Credentials) : Headers :=
  Headers_Set h (NewHeader "Authorization"
    ("Digest username=" ++ quoted (escapeAuthValue (Cred_Username creds)) ++
     ", realm=" ++ quoted (escapeAuthValue (Cred_Realm creds)) ++
     ", uri=" ++ quoted (escapeAuthValue (Uri_String uri)))).

(** The headers of a REGISTER. *)
Definition register_headers (aor : Uri) (contact : Uri) (tag callid agent : str) (expires : Z) : Headers :=
  let from := mkAddress [] false (Some aor) (Some (Params_Set NewParams "tag" tag)) in
  let h := Headers_Set [] (HAddr from "From") in
  let h := Headers_Set h (HAddr (mkAddress [] false (Some aor) None) "To") in
  let h := Headers_Set h (NewHeader "Call-ID" callid) in
  let h := Headers_Set h (HCSeq (mkCSeq 1 REGISTER)) in
  let h := Headers_Set h (HMaxForwards 70) in
  let h := Headers_Set h (NewHeader "Expires" (Itoa expires)) in
  let h := Headers_Set h (NewHeader "Contact" (uri_String contact ++ ";expires=" ++ Itoa expires)) in
  Headers_Set h (NewHeader "User-Agent" agent).

Definition UA_Register (aor : Uri) (contact : option Uri) (expires : Z) (creds : option Credentials) :
  proc UA (result nat) :=
  host ← asks ua_Host; port ← asks ua_port; agent ← asks UserAgent;
  tag ← fresh_tag; callid ← fresh_callid;
  let contact := default (mkUri (Uri_Scheme aor) (Uri_User aor) [] host port None None) contact in
  let h := register_headers aor contact tag callid agent expires in
  let h := match creds with Some c => authHeaders h (Some aor) c | None => h end in
  tm_Request (req_with_headers (NewRequest REGISTER (Some aor)) h)
    (mkAddr "udp" (Uri_Host aor) (EffectivePort (Some aor))).

(** The INVITE of [Invite]; [None] when the caller's address has no URI, which the
    code dereferences. *)
Definition invite_request (target : Uri) (from : Address) (tag callid host : str) (port : Z) (agent contentType : str)
  (body : option str) : option Request :=
  user ← Uri_User <$> Address_Uri from;
  let h := Headers_Set [] (HAddr (SetTag from tag) "From") in
  let h := Headers_Set h (HAddr (mkAddress [] false (Some target) None) "To") in
  let h := Headers_Set h (NewHeader "Call-ID" callid) in
  let h := Headers_Set h (HCSeq (mkCSeq 1 INVITE)) in
  let h := Headers_Set h (HMaxForwards 70) in
  let contact := mkAddress [] false (Some (mkUri (Uri_Scheme target) user [] host port None None)) None in
  let h := Headers_Set h (NewHeader "Contact" (Address_String contact)) in
  let h := Headers_Set h (NewHeader "User-Agent" agent) in
  Some (Request_SetBody (req_with_headers (NewRequest INVITE (Some target)) h) contentType body).

Definition new_session (s : ClientInviteSession) : proc UA nat :=
  i ← asks next_session;
  update (λ u, with_sessions (<[i := s]> (sessions u)) (S i) u);;
  mret i.

Definition UA_Invite (target : Uri) (from : Address) (contentType : str) (body : option str) : proc UA (result nat) :=
  host ← asks ua_Host; port ← asks ua_port; agent ← asks UserAgent;
  localTag ← fresh_tag; callid ← fresh_callid;
  match invite_request target from localTag callid host port agent contentType body with
  | None => panic
  | Some req =>
    r ← tm_Request req (mkAddr "udp" (Uri_Host target) (EffectivePort (Some target)));
    match r with
    | Err e => mret (Err e)
    | Ok ctx =>
      let d := NewClientDialog callid localTag [] (Some (SetTag from localTag))
                 (Some (mkAddress [] false (Some target) None)) 1 in
      p ← new_dialog d;
      add_dialog p;;
      i ← new_session (mkSession ctx p false None None);
      mret (Ok i)
    end
  end.

(** One round of the goroutine [pump]: it takes the oldest event of the
    transaction, when there is one and the session is not done. *)
Definition contactUri (resp : Response) : option Uri :=
  match First (contact_of (Resp_headers resp)) with Some c => Address_Uri c | None => None end.

Definition confirm_target (resp : Response) (d : Dialog) : Dialog :=
  match RemoteTarget d with
  | Some _ => d
  | None =>
    match contactUri resp, Remote d with
    | Some u, _ => with_remote (RemoteTag d) (Some u) (RouteSet d) d
    | None, Some a => with_remote (RemoteTag d) (Address_Uri a) (RouteSet d) d
    | None, None => d
    end
  end.

Definition pump_event (i : nat) (s : ClientInviteSession) (ev : TxEvent) : proc UA () :=
  match ev with
  | EvErr e => put_session i (mkSession (ss_ctx s) (ss_dlg s) true (Final s) (Some e))
  | EvResponse resp =>
    modify_dialog (λ d, updateFromResponse d resp) (ss_dlg s);;
    if (300 <=? StatusCode resp)%Z then
      modify_dialog Terminate (ss_dlg s);;
      remove_dialog (ss_dlg s);;
      put_session i (mkSession (ss_ctx s) (ss_dlg s) true (Some resp) (ss_Err s))
    else if (200 <=? StatusCode resp)%Z then
      modify_dialog (λ d, confirm_target resp (with_State DialogConfirmed d)) (ss_dlg s);;
      put_session i (mkSession (ss_ctx s) (ss_dlg s) true (Some resp) (ss_Err s))
    else mret ()
  end.

Definition pump (i : nat) : proc UA () :=
  s ← asks (λ u, sessions u !! i);
  match s with
  | Some s =>
    if Done s then mret ()
    else
      t ← on_tm (get_client (ss_ctx s));
      match head (default [] (c_events <$> t)) with
      | Some ev => on_tm (consume (ss_ctx s));; pump_event i s ev
      | None => mret ()
      end
  | None => mret ()
  end.

(** The ACK of a 2xx, sent past the transaction. *)
Definition ack_request (orig : Request) (resp : Response) (target : option Uri) (callid : str) : Request :=
  let o := Req_headers orig in
  let h := match via_of o with Some v => [HVia v] | None => [] end in
  let h := copy_all "Route" o h in
  let h := copy_first "From" o h in
  let h := copy_first "To" (Resp_headers resp) h in
  let h := Headers_Set h (NewHeader "Call-ID" callid) in
  let h := match cseq_of o with Some c => Headers_Set h (HCSeq (mkCSeq (Seq c) ACK)) | None => h end in
  req_with_headers (NewRequest ACK target) (Headers_Set h (HMaxForwards 70)).

(** One wake-up of [WaitResponse]: the session is done, or the time is up; [None]
    while it goes on waiting. *)
Definition WaitResponse (s : ClientInviteSession) (late : bool) : option (option Response * option GoError) :=
  if Done s then Some (Final s, ss_Err s) else if late then Some (None, Some ErrTimeout) else None.

Definition Ack (i : nat) : proc UA (result unit) :=
  s ← asks (λ u, sessions u !! i);
  match s with
  | None => panic
  | Some s =>
    match Final s with
    | None => mret (Err ErrInvalidResponse)
    | Some resp =>
      t ← on_tm (get_client (ss_ctx s)); d ← get_dialog (ss_dlg s);
      match t, d with
      | Some t, Some d =>
        let ack := ack_request (c_req t) resp (RemoteTarget d) (d_CallID d) in
        a ← target_addr (RemoteTarget d);
        on_tm (tp_send (Network a) a (MReq ack))
      | _, _ => panic
      end
    end
  end.

(** [sendAndWait]: the request goes out; [answer] is what the wait then yields, the
    first final response, a transaction error or [ErrTimeout]. *)
Definition sendAndWait (req : Request) (target : option Uri) (answer : result Response) : proc UA (result Response) :=
  dst ← target_addr target;
  r ← tm_Request req dst;
  match r with Err e => mret (Err e) | Ok _ => mret answer end.

(** [Hangup]: at most [attempts] BYEs, each with its answer; a 491 is tried again. *)
Fixpoint hangup_attempts (attempts : nat) (p : nat) (answers : list (result Response)) (lastResp : option Response) :
  proc UA (result Response) :=
  match attempts with
  | O => mret (match lastResp with Some r => Ok r | None => Err ErrTimeout end)
  | S n =>
    d ← get_dialog p;
    match d with
    | None => panic
    | Some d =>
      match CreateRequest d BYE [] None with
      | Panic => panic
      | Ret (Err e) => mret (Err e)
      | Ret (Ok (d', req)) =>
        modify_dialog (λ _, d') p;;
        r ← sendAndWait req (RemoteTarget d) (default (Err ErrTimeout) (head answers));
        match r with
        | Err e => mret (Err e)
        | Ok resp =>
          if (StatusCode resp =? 491)%Z then hangup_attempts n p (tail answers) (Some resp)
          else modify_dialog Terminate p;; mret (Ok resp)
        end
      end
    end
  end.

Definition Hangup (p : nat) (answers : list (result Response)) : proc UA (result Response) :=
  hangup_attempts 3 p answers None.
End Agent.
