(* ===== verification/UaTheorems.v ===== *)
(** * Theorems of dialogs and of the user agent

    Sequence numbers and headers of the requests of a dialog, the agreement of the
    two ends of a call, what an incoming BYE can do, and the packets that make the
    agent panic. *)

From S2P Require Import Prelude GoStrings Params Uri Headers HeadersMap Message Net Transport Ids Transaction Proc Dialog Digest Ua.

(** ** Requests of a dialog *)

(** A request that belongs to a dialog. *)
Definition in_dialog (d : Dialog) (r : Request) : Prop :=
  callid_of (Req_headers r) = d_CallID d ∧ Tag (from_of (Req_headers r)) = LocalTag d ∧
  Tag (to_of (Req_headers r)) = RemoteTag d ∧ Some (Req_Uri r) = request_uri d ∧
  Headers_Values (Req_headers r) "Route" = map Uri_String (reverse (RouteSet d)).

Lemma CreateRequest_in_dialog d m ct body d' req :
  RemoteTag d ≠ [] → CreateRequest d m ct body = Ret (Ok (d', req)) →
  in_dialog d req ∧ cseq_of (Req_headers req) = Some (mkCSeq ((LocalSeq d + 1) mod 2 ^ 32) m).
Proof.
  intros Ht H. apply CreateRequest_inv in H as (_ & -> & from & to & uri & _ & _ & Hu & _ & Hr & _ & H).
  destruct H as (H1 & H2 & H3 & H4 & H5). unfold in_dialog.
  by rewrite H2, H3, H4, H5, Hu, Hr, Tag_set_local, Tag_set_remote.
Qed.

(** C29: the requests a live dialog creates, one after the other, all succeed; they
    carry consecutive 32-bit sequence numbers, no two alike within 2^32 of them,
    the Call-ID and tags of the dialog, and its route set from last to first; only
    the dialog's own sequence number changes. *)
Theorem dialog_requests (d : Dialog) (from to : Address) (l : list (Method * str * option str)) :
  d_State d ≠ DialogTerminated → Local d = Some from → Remote d = Some to → RemoteTag d ≠ [] →
  ∃ d' reqs, CreateRequests d l = Ret (Ok (d', reqs)) ∧
    d' = with_LocalSeq (LocalSeq d') d ∧
    map (λ r, cseq_of (Req_headers r)) reqs =
      zip_with (λ n x, Some (mkCSeq n x.1.1)) (next_seqs (LocalSeq d) (length l)) l ∧
    Forall (in_dialog d) reqs ∧
    ((Z.of_nat (length l) ≤ 2 ^ 32)%Z → NoDup (next_seqs (LocalSeq d) (length l))).
Proof.
  intros Hs Hl Hr Ht. revert d Hs Hl Hr Ht. induction l as [|[[m ct] body] l IH]; intros d Hs Hl Hr Ht.
  - exists d, []. split_and!; [done|by destruct d|done|constructor|constructor].
  - destruct (CreateRequest_ok d m ct body Hs) as [req Hreq]; [by eexists..|].
    destruct (CreateRequest_in_dialog _ _ _ _ _ _ Ht Hreq) as [Hin Hc].
    destruct (IH (with_LocalSeq ((LocalSeq d + 1) mod 2 ^ 32) d)) as (d' & reqs & E & Ed & Ec & Ef & _); [done..|].
    exists d', (req :: reqs). cbn [CreateRequests]. rewrite Hreq, E.
    split_and!; [done|by rewrite Ed| |by constructor|apply next_seqs_NoDup].
    cbn [length map]. rewrite next_seqs_S. cbn [zip_with fst]. by rewrite Hc, Ec.
Qed.

Definition ua_ex_uri (user host : str) : Uri := mkUri "sip" user [] host 5060 None None.
Definition ua_ex_address (user host : str) : Address := mkAddress [] false (Some (ua_ex_uri user host)) None.

Definition ex_dialog : Dialog :=
  mkDialog "c1" "a" "b" (Some (ua_ex_address "alice" "10.0.0.1")) (Some (ua_ex_address "bob" "10.0.0.2"))
    None [Some (ua_ex_uri [] "p1"); Some (ua_ex_uri [] "p2")] DialogConfirmed (2 ^ 32 - 1) 0.

Lemma dialog_requests_witness :
  ∃ d' reqs, CreateRequests ex_dialog [(INFO, [], None); (BYE, [], None)] = Ret (Ok (d', reqs)) ∧
    map (λ r, cseq_of (Req_headers r)) reqs = [Some (mkCSeq 0 INFO); Some (mkCSeq 1 BYE)].
Proof.
  destruct (dialog_requests ex_dialog (ua_ex_address "alice" "10.0.0.1") (ua_ex_address "bob" "10.0.0.2")
              [(INFO, [], None); (BYE, [], None)]) as (d' & reqs & H1 & _ & H2 & _); [done..|].
  exists d', reqs. split; [exact H1|exact H2].
Defined.

(** ** The two ends of a call *)

(** The same call, seen from both ends. *)
Definition mirrors (a b : Dialog) : Prop :=
  d_CallID a = d_CallID b ∧ LocalTag a = RemoteTag b ∧ RemoteTag a = LocalTag b.


(** What a response has of its own stays in it. *)
Lemma fill_response_keeps req resp n x :
  CanonicalName n ∉ [lit "CSeq"; lit "Via"; lit "Call-ID"] →
  Headers_Get (Resp_headers resp) n = Some x → Headers_Get (Resp_headers (fill_response req resp)) n = Some x.
Proof.
  intros Hn Hx. unfold fill_response. cbn [Resp_headers resp_with_headers].
  assert (∀ h hdr, cname hdr ∈ [lit "CSeq"; lit "Via"; lit "Call-ID"] →
            Headers_Get h n = Some x → Headers_Get (Headers_Set h hdr) n = Some x) as Hset.
  { intros h hdr Hh E. rewrite Headers_Get_Set, bool_decide_false; [done|congruence]. }
  assert (∀ (b : bool) m h, Headers_Get h n = Some x →
            Headers_Get (if b then copy_first m (Req_headers req) h else h) n = Some x) as Hc.
  { intros [] m h E; [|done]. unfold copy_first. destruct (Headers_Get _ m); [|done]. by rewrite Headers_Get_Add, E. }
  set (h1 := match cseq_of _ with Some _ => _ | None => _ end).
  assert (Headers_Get h1 n = Some x) as H1
    by (unfold h1; destruct (cseq_of _); [apply Hset; [apply (bool_decide_unpack _); by vm_compute|]|]; done).
  set (h2 := match via_of _ with Some _ => _ | None => _ end).
  assert (Headers_Get h2 n = Some x) as H2.
  { unfold h2. destruct (via_of _) as [v|]; [|done]. rewrite Headers_Get_Prepend, bool_decide_false; [done|].
    intros E. apply Hn. rewrite <-E. apply (bool_decide_unpack _). by vm_compute. }
  set (h4 := if bool_decide (Headers_Get _ "To" = None) then _ else _).
  assert (Headers_Get h4 n = Some x) as H4 by by apply Hc, Hc.
  set (h5 := if bool_decide _ then Headers_Set h4 _ else h4).
  assert (Headers_Get h5 n = Some x) as H5
    by (unfold h5; case_test; [apply Hset; [apply (bool_decide_unpack _); by vm_compute|]|]; done).
  destruct (_ =? 0); [|done]. unfold copy_all. by rewrite Headers_Get_app, H5.
Qed.

Lemma fill_response_to req resp x :
  Headers_Get (Resp_headers resp) "To" = Some x → Headers_Get (Resp_headers (fill_response req resp)) "To" = Some x.
Proof. apply fill_response_keeps. apply (bool_decide_unpack _). by vm_compute. Qed.

(** What the caller's INVITE says about the call. *)
Lemma invite_request_get target from tag callid host port agent ct body req :
  invite_request target from tag callid host port agent ct body = Some req →
  Headers_Get (Req_headers req) "From" = Some (HAddr (SetTag from tag) "From") ∧
  Headers_Get (Req_headers req) "To" = Some (HAddr (mkAddress [] false (Some target) None) "To") ∧
  Headers_Get (Req_headers req) "Call-ID" = Some (HGeneric "Call-ID" callid).
Proof.
  unfold invite_request. destruct (Address_Uri from) as [u|]; [|done]. intros [= <-].
  cbn [Request_SetBody Req_headers req_with_headers NewRequest].
  rewrite !set_body_get by by apply (bool_decide_unpack _); vm_compute. by rewrite !Headers_Get_Set.
Qed.

Lemma Tag_SetTag a tag : Tag (Some (SetTag a tag)) = tag.
Proof. unfold SetTag, Tag, with_Params. cbn [Address_Params Params_Get]. by rewrite items_Get_set_tag. Qed.

(** The To of a response to a request whose To has no tag. *)
Lemma ua_response_to d to status ct body :
  Local d = Some to → Tag (Some to) = [] → LocalTag d ≠ [] → (100 ≤ status)%Z →
  Headers_Get (Resp_headers (ua_response (Some d) status ct body)) "To" = Some (HAddr (SetTag to (LocalTag d)) "To").
Proof.
  intros Hl Ht Hn Hs. unfold ua_response. rewrite Hl, Ht. cbn [Response_SetBody Resp_headers resp_with_headers].
  rewrite set_body_get by by apply (bool_decide_unpack _); vm_compute.
  rewrite (bool_decide_false (LocalTag d = [])), (bool_decide_true ([] = [])) by done.
  apply Z.leb_le in Hs as ->. cbn [andb negb].
  destruct (RemoteTarget d) as [u|]; [|done]. destruct (_ && _); [|done]. by rewrite Headers_Get_Set.
Qed.

(** ** Incoming BYE *)

Section Agent.
Context `{Sender} `{Entropy}.

Lemma stx_Respond_Some x resp u : ∃ r m, stx_Respond (Some x) resp u = Ret (r, with_tm m u).
Proof.
  unfold stx_Respond. destruct (_ || _); [exists (Err ErrInvalidResponse), (ua_tm u); by destruct u|].
  unfold on_tm, on. destruct (Respond x resp (ua_tm u)) as [r m]. by exists r, m.
Qed.

Lemma respond_then {B} x resp u (k : result () → proc UA B) :
  ∃ r m, (stx_Respond (Some x) resp ≫= k) u = k r (with_tm m u).
Proof.
  destruct (stx_Respond_Some x resp u) as (r & m & E). exists r, m. unfold mbind, proc_bind. by rewrite E.
Qed.

(** The dialog a request names, with its sequence number brought up to date. *)
Definition named (u : UA) (req : Request) : option nat :=
  let h := Req_headers req in
  match to_of h, from_of h with
  | Some to, Some from => DM_Get (callid_of h) (Tag (Some to)) (Tag (Some from)) (ua_dialogs u)
  | _, _ => None
  end.

(** ** Setting up a call *)

(** What [Invite] draws and builds. *)
Definition invite_tag (u : UA) : str := NewTag (rand_read (reads u) 8) (clock (reads u)).
Definition invite_callid (u : UA) : str := NewCallID (rand_read (S (reads u)) 10) (clock (S (reads u))).
Definition invite_sent (target : Uri) (from : Address) (ct : str) (body : option str) (u : UA) : option Request :=
  invite_request target from (invite_tag u) (invite_callid u) (ua_Host u) (ua_port u) (UserAgent u) ct body.
Definition invite_dialog (target : Uri) (from : Address) (u : UA) : Dialog :=
  NewClientDialog (invite_callid u) (invite_tag u) [] (Some (SetTag from (invite_tag u)))
    (Some (mkAddress [] false (Some target) None)) 1.

(** A dialog is allocated and filed. *)
Definition file_dialog (d : Dialog) (dm : DialogManager) : DialogManager := DM_Add (dm_next dm) (snd (dm_alloc d dm)).

Lemma file_dialog_spec d dm :
  dm_heap (file_dialog d dm) !! dm_next dm = Some d ∧ dialogs (file_dialog d dm) = <[Dialog_ID d := dm_next dm]> (dialogs dm).
Proof. unfold file_dialog, DM_Add, dm_alloc. cbn. rewrite lookup_insert_eq. cbn. by rewrite lookup_insert_eq. Qed.

(** [tm_Request] touches no dialog and no session. *)
Lemma tm_Request_keeps {A} (f : UA → A) req dst :
  (∀ u m, f (with_tm m u) = f u) → (∀ u n, f (with_reads n u) = f u) → ∀ x, always (λ u, f u = x) (tm_Request req dst).
Proof.
  intros Hm Hr x. unfold tm_Request, fresh_branch, fresh_callid, fresh_id, on_tm. always_auto.
  all: first [by apply always_update; intros u; rewrite Hr | apply always_on; intros t u; by rewrite Hm].
Qed.

Lemma UA_Invite_inv target from ct body u i u' :
  UA_Invite target from ct body u = Ret (Ok i, u') →
  is_Some (invite_sent target from ct body u) ∧
  ua_dialogs u' = file_dialog (invite_dialog target from u) (ua_dialogs u) ∧
  ∃ ctx, sessions u' !! i = Some (mkSession ctx (dm_next (ua_dialogs u)) false None None).
Proof.
  unfold UA_Invite. rewrite !run_asks. intros (tag & u1 & E1 & Hr)%run_inv.
  change (Ret (invite_tag u, with_reads (S (reads u)) u) = Ret (tag, u1)) in E1. injection E1 as <- <-.
  apply run_inv in Hr as (callid & u2 & E2 & Hr).
  change (Ret (invite_callid u, with_reads (S (S (reads u))) u) = Ret (callid, u2)) in E2. injection E2 as <- <-.
  change (invite_request _ _ _ _ _ _ _ _ _) with (invite_sent target from ct body u) in Hr.
  destruct (invite_sent target from ct body u) as [req|]; [|done].
  apply run_inv in Hr as (r & u3 & E3 & Hr). destruct r as [ctx|e]; [|done].
  pose proof (tm_Request_keeps ua_dialogs req _ (λ _ _, eq_refl) (λ _ _, eq_refl) (ua_dialogs u)
    (with_reads (S (S (reads u))) u) _ _ eq_refl E3) as Ed.
  cbn beta in Ed. injection Hr as <- <-. split; [by eexists|]. split.
  - cbn. by rewrite Ed.
  - exists ctx. cbn. by rewrite lookup_insert_eq, Ed.
Qed.

(** [handleInvite] with a callback. *)
Lemma handleInvite_inv inc stx u u' :
  OnInvite (ua_cb u) = true → handleInvite inc stx u = Ret ((), u') →
  ua_dialogs u' = file_dialog (NewServerDialog inc (invite_tag u)) (ua_dialogs u) ∧
  calls u' = calls u ++ [CallInvite inc stx (dm_next (ua_dialogs u))].
Proof.
  intros Hcb. unfold handleInvite. rewrite run_asks, Hcb. by intros [= <-].
Qed.

(** What the two ends know of each other after an INVITE and a response to it: [inc]
    is the INVITE as it arrives, proxies may have added to it, but kept From, To and
    Call-ID. *)
Lemma setup_mirrors target from tagA tagB callid host agent ct ct' port status body body' req inc :
  let b := NewServerDialog inc tagB in
  let a := updateFromResponse (NewClientDialog callid tagA [] (Some (SetTag from tagA))
             (Some (mkAddress [] false (Some target) None)) 1) (fill_response inc (ua_response (Some b) status ct' body')) in
  invite_request target from tagA callid host port agent ct body = Some req →
  (∀ n, n ∈ [lit "From"; lit "To"; lit "Call-ID"] → Headers_Get (Req_headers inc) n = Headers_Get (Req_headers req) n) →
  tagB ≠ [] → (100 ≤ status)%Z →
  mirrors a b ∧ d_CallID a = callid ∧ LocalTag a = tagA ∧ LocalTag b = tagB.
Proof.
  intros b a Hreq Hinc HB Hs. apply invite_request_get in Hreq as (Hf & Ht & Hc).
  assert (Headers_Get (Req_headers inc) "From" = Some (HAddr (SetTag from tagA) "From")) as If by by rewrite Hinc by set_solver.
  assert (Headers_Get (Req_headers inc) "To" = Some (HAddr (mkAddress [] false (Some target) None) "To")) as It
    by by rewrite Hinc by set_solver.
  assert (Headers_Get (Req_headers inc) "Call-ID" = Some (HGeneric "Call-ID" callid)) as Ic by by rewrite Hinc by set_solver.
  set (resp := fill_response inc (ua_response (Some b) status ct' body')) in *.
  assert (Headers_Get (Resp_headers resp) "To" = Some (HAddr (SetTag (mkAddress [] false (Some target) None) tagB) "To")) as Hto.
  { apply fill_response_to. apply (ua_response_to b); try done. unfold b, NewServerDialog. cbn [Local].
    unfold to_of. by rewrite It. }
  split; [|done]. unfold mirrors, a, b, updateFromResponse, with_remote, NewServerDialog, NewClientDialog.
  cbn [d_CallID LocalTag RemoteTag]. unfold callid_of, from_of, to_of. rewrite Ic, If, Hto. cbn [addressOf headerValue Header_Value].
  rewrite !Tag_SetTag. by rewrite bool_decide_false by done.
Qed.

(** Where a request of the one end leads at the other. *)
Lemma request_key x y m ct body x' r :
  mirrors x y → RemoteTag x ≠ [] → CreateRequest x m ct body = Ret (Ok (x', r)) →
  dialog_key (callid_of (Req_headers r)) (Tag (to_of (Req_headers r))) (Tag (from_of (Req_headers r))) = Dialog_ID y ∧
  is_Some (to_of (Req_headers r)) ∧ is_Some (from_of (Req_headers r)).
Proof.
  intros (M1 & M2 & M3) Hx Hr. pose proof Hr as Hr'. apply CreateRequest_inv in Hr' as (_ & _ & from & to & uri & _ & _ & _ & _ & _ & _ & _ & _ & Hf & Ht & _).
  rewrite Hf, Ht. split; [|by split; eexists]. rewrite <-Hf, <-Ht.
  apply CreateRequest_in_dialog in Hr as [(-> & -> & -> & _) _]; [|exact Hx]. unfold Dialog_ID. congruence.
Qed.

Lemma mirrors_sym x y : mirrors x y → mirrors y x.
Proof. intros (H1 & H2 & H3). split_and!; congruence. Qed.

(** The dialog of the caller once it has pumped the response. *)
Definition pumped (resp : Response) (d : Dialog) : Dialog :=
  let d := updateFromResponse d resp in
  if (200 <=? StatusCode resp)%Z then confirm_target resp (with_State DialogConfirmed d) else d.

Lemma pumped_mirrors resp d y : mirrors (updateFromResponse d resp) y → mirrors (pumped resp d) y.
Proof.
  unfold pumped. destruct (_ <=? _)%Z; [|done]. unfold confirm_target.
  destruct (RemoteTarget _); [done|]. by destruct (contactUri resp); [|destruct (Remote _)].
Qed.

Lemma pumped_local resp d : LocalTag (pumped resp d) = LocalTag d.
Proof.
  unfold pumped, confirm_target. destruct (_ <=? _)%Z; [|done]. destruct (RemoteTarget _); [done|].
  by destruct (contactUri resp); [|destruct (Remote _)].
Qed.

Lemma pumped_callid resp d : d_CallID (pumped resp d) = d_CallID d.
Proof.
  unfold pumped, confirm_target. destruct (_ <=? _)%Z; [|done]. destruct (RemoteTarget _); [done|].
  by destruct (contactUri resp); [|destruct (Remote _)].
Qed.

Lemma pump_event_inv i s resp u u' d :
  (StatusCode resp < 300)%Z → dm_heap (ua_dialogs u) !! ss_dlg s = Some d → pump_event i s (EvResponse resp) u = Ret ((), u') →
  dm_heap (ua_dialogs u') !! ss_dlg s = Some (pumped resp d) ∧ dialogs (ua_dialogs u') = dialogs (ua_dialogs u).
Proof.
  intros Hs Hd. unfold pump_event, modify_dialog, pumped. rewrite run_update.
  destruct (Z.leb_spec 300 (StatusCode resp)); [lia|]. destruct (200 <=? StatusCode resp)%Z; intros [= <-]; cbn;
    by rewrite ?lookup_alter_eq, Hd.
Qed.


Lemma findDialog_spec req u :
  findDialog req u = Ret (named u req,
    match named u req with
    | Some p => with_dialogs (dm_modify (λ d, updateFromRequest d req) p (ua_dialogs u)) u
    | None => u
    end).
Proof.
  unfold findDialog, named. destruct (to_of _) as [to|]; [|done]. destruct (from_of _) as [from|]; [|done].
  rewrite run_asks. by destruct (DM_Get _ _ _ _).
Qed.

(** The BYEs a dialog accepts: they name it, come from its remote host, and are
    not older than a request received before. *)
Definition bye_accepted (u : UA) (req : Request) (src : Addr) (q : nat) (e : Dialog) : Prop :=
  named u req = Some q ∧ dm_heap (ua_dialogs u) !! q = Some e ∧ ua_dialogSourceAllowed (Some e) src = true ∧
  ∀ c, cseq_of (Req_headers req) = Some c → (RemoteSeq e ≤ Seq c)%Z.

Lemma updateFromRequest_fields d req :
  ∃ n, updateFromRequest d req = with_RemoteSeq n d ∧
       match cseq_of (Req_headers req) with Some c => n = Z.max (RemoteSeq d) (Seq c) | None => n = RemoteSeq d end.
Proof.
  unfold updateFromRequest. destruct (cseq_of _) as [c|]; [|exists (RemoteSeq d); by destruct d].
  destruct (Z.ltb_spec (RemoteSeq d) (Seq c)); [exists (Seq c); split; [done|lia]|].
  exists (RemoteSeq d). split; [by destruct d|lia].
Qed.

(** The agent after its handler looked up the dialog of a request: the sequence
    number of the dialog named, when there is one, is brought up to date. *)
Definition noticed (u : UA) (req : Request) : UA :=
  match named u req with
  | Some p => with_dialogs (dm_modify (λ d, updateFromRequest d req) p (ua_dialogs u)) u
  | None => u
  end.

(** A request was refused: nothing but that happened, and an answer was given. *)
Definition refused (u u' : UA) (req : Request) : Prop := ∃ m, u' = with_tm m (noticed u req).

Lemma ua_source_RemoteSeq d n src : ua_dialogSourceAllowed (Some (with_RemoteSeq n d)) src = ua_dialogSourceAllowed (Some d) src.
Proof. done. Qed.

Lemma handleBye_spec req src x u u' :
  handleBye req src (Some x) u = Ret ((), u') →
  (∃ q e, bye_accepted u req src q e ∧
     dm_heap (ua_dialogs u') = <[q := Terminate (updateFromRequest e req)]> (dm_heap (ua_dialogs u)) ∧
     dialogs (ua_dialogs u') = delete (Dialog_ID e) (dialogs (ua_dialogs u)) ∧
     calls u' = calls u ++ (if OnBye (ua_cb u) then [CallBye req q (Some x)] else [])) ∨
  ((∀ q e, ¬ bye_accepted u req src q e) ∧ refused u u' req).
Proof.
  unfold refused, noticed, handleBye. unfold mbind at 1, proc_bind at 1. rewrite findDialog_spec.
  destruct (named u req) as [p|] eqn:Hn.
  2: { destruct (respond_then x (NewResponse 481 []) u (λ _, mret ())) as (r & m & ->). intros [= <-].
       right. split; [|by exists m]. intros q e (Hq & _). congruence. }
  set (u1 := with_dialogs _ u). unfold get_dialog. rewrite run_asks.
  destruct (dm_heap (ua_dialogs u) !! p) as [e|] eqn:He.
  2: { assert (dm_heap (ua_dialogs u1) !! p = None) as -> by (cbn; by rewrite lookup_alter_eq, He).
       cbn [ua_dialogSourceAllowed negb]. destruct (respond_then x (NewResponse 403 []) u1 (λ _, mret ())) as (r & m & ->).
       intros [= <-]. right. split; [|by exists m]. intros q e (Hq & He' & _). congruence. }
  assert (dm_heap (ua_dialogs u1) !! p = Some (updateFromRequest e req)) as -> by (cbn; by rewrite lookup_alter_eq, He).
  destruct (updateFromRequest_fields e req) as (n & Hup & Hseq). rewrite Hup, ua_source_RemoteSeq.
  destruct (ua_dialogSourceAllowed (Some e) src) eqn:Hsrc; cbn [negb].
  2: { destruct (respond_then x (NewResponse 403 []) u1 (λ _, mret ())) as (r & m & ->).
       intros [= <-]. right. split; [|by exists m]. intros q e' (Hq & He' & Ha & _). congruence. }
  destruct (match cseq_of _ with Some c => _ | None => false end) eqn:Hold.
  - destruct (respond_then x (NewResponse 500 []) u1 (λ _, mret ())) as (r & m & ->).
    intros [= <-]. right. split; [|by exists m]. intros q e' (Hq & He' & _ & Hle).
    destruct (cseq_of (Req_headers req)) as [c|]; [|done]. apply Z.ltb_lt in Hold. cbn [RemoteSeq with_RemoteSeq] in Hold.
    specialize (Hle c eq_refl). simplify_eq. lia.
  - unfold modify_dialog, remove_dialog. rewrite !run_update.
    match goal with |- (_ ≫= ?k) ?s = _ → _ => destruct (respond_then x (NewResponse 200 []) s k) as (r & m & ->) end.
    rewrite run_asks. unfold u1, DM_Remove, dm_modify.
    cbn [ua_cb with_tm with_dialogs ua_dialogs dm_heap dm_next dialogs].
    assert (alter Terminate p (alter (λ d, updateFromRequest d req) p (dm_heap (ua_dialogs u))) =
            <[p := Terminate (updateFromRequest e req)]> (dm_heap (ua_dialogs u))) as Hheap.
    { apply map_eq. intros q. destruct (decide (p = q)) as [<-|Hne].
      - by rewrite !lookup_alter_eq, lookup_insert_eq, He.
      - by rewrite !lookup_alter_ne, lookup_insert_ne. }
    rewrite Hheap, lookup_insert_eq.
    intros Hret. left. exists p, e. split.
    { split_and!; try done. intros c Hc. rewrite Hc in Hold, Hseq. apply Z.ltb_ge in Hold. cbn in Hold. lia. }
    rewrite Hup in *. unfold whenp in Hret. cbn in Hret.
    destruct (OnBye (ua_cb u)); cbn in Hret; injection Hret as <-; cbn; by rewrite ?app_nil_r.
Qed.


(** ** Packets that make the agent panic *)

(** The callbacks set are the same after any handler. *)
Lemma cb_on_tm {A} c (m : M A) : always (λ u, ua_cb u = c) (on_tm m).
Proof. by apply always_on. Qed.

Lemma cb_update c f : (∀ u, ua_cb (f u) = ua_cb u) → always (λ u, ua_cb u = c) (update f).
Proof. intros Hf. apply always_update. intros u. by rewrite Hf. Qed.

Lemma cb_stx_Respond c stx resp : always (λ u, ua_cb u = c) (stx_Respond stx resp).
Proof. unfold stx_Respond. always_auto. apply cb_on_tm. Qed.

Lemma cb_findDialog c req : always (λ u, ua_cb u = c) (findDialog req).
Proof. unfold findDialog, modify_dialog. always_auto. by apply cb_update. Qed.

Lemma cb_handleRequest c req src stx : always (λ u, ua_cb u = c) (UA_handleRequest req src stx).
Proof.
  unfold UA_handleRequest, handleBye, handleInvite, fresh_tag, fresh_id, new_dialog, add_dialog, remove_dialog,
    add_call, modify_dialog, get_dialog. always_auto;
    try first [apply cb_stx_Respond | apply cb_findDialog | by apply cb_update].
  all: intros ? ? ? Hu; cbn; intros [= <- <-]; done.
Qed.

Lemma bind_panic {S A B} (m : proc S A) (k : A → proc S B) s :
  (m ≫= k) s = Panic → m s = Panic ∨ ∃ a s1, m s = Ret (a, s1) ∧ k a s1 = Panic.
Proof. unfold mbind, proc_bind. destruct (m s) as [[a s1]|]; [right; by exists a, s1|by left]. Qed.

(** A response through a transaction never panics. *)
Lemma respond_safe x resp (u : UA) : (_ ← stx_Respond (Some x) resp; mret ()) u ≠ Panic.
Proof. by destruct (respond_then x resp u (λ _, mret ())) as (r & m & ->). Qed.

Lemma handleBye_safe req src x u : handleBye req src (Some x) u ≠ Panic.
Proof.
  intros Hp. unfold handleBye in Hp. apply bind_panic in Hp as [Hp|(p & s1 & Hf & Hp)].
  { by rewrite findDialog_spec in Hp. }
  destruct p as [p|]; [|by apply respond_safe in Hp]. unfold get_dialog in Hp. rewrite run_asks in Hp.
  destruct (negb _); [by apply respond_safe in Hp|].
  destruct (match cseq_of _ with Some _ => _ | None => _ end); [by apply respond_safe in Hp|].
  unfold modify_dialog, remove_dialog in Hp. rewrite !run_update in Hp.
  apply bind_panic in Hp as [Hp|(r & s2 & _ & Hp)].
  - destruct (stx_Respond_Some x (NewResponse 200 [])
      (with_dialogs (DM_Remove p (ua_dialogs (with_dialogs (dm_modify Terminate p (ua_dialogs s1)) s1)))
        (with_dialogs (dm_modify Terminate p (ua_dialogs s1)) s1))) as (r & m & E). congruence.
  - rewrite run_asks in Hp. by destruct (OnBye _).
Qed.

(** The requests whose handling dereferences the transaction. *)
Lemma handleRequest_panics req src stx u :
  UA_handleRequest req src stx u = Panic →
  stx = None ∧ (Req_Method req = BYE ∨ Req_Method req = INVITE ∧ OnInvite (ua_cb u) = false).
Proof.
  destruct stx as [x|].
  - intros Hp. exfalso. revert Hp. unfold UA_handleRequest. rewrite run_asks. cbv zeta.
    rewrite (bool_decide_true (is_Some (Some x))) by by eexists. cbn [whenp].
    repeat (case_test; [|clear Heq]); cbn [orb]; try done; try (intros; by eapply handleBye_safe);
      try apply respond_safe;
      try (unfold handleInvite; rewrite run_asks; by destruct (OnInvite _); [|apply respond_safe]).
    all: try (match goal with |- context [if ?b then _ else _] => destruct b end; [done|apply respond_safe]).
    intros Hp. apply bind_panic in Hp as [Hp|(p & s1 & _ & Hp)]; [by rewrite findDialog_spec in Hp|].
    destruct p; [destruct (OnInfo _); [done|]|]; by apply respond_safe in Hp.
  - unfold UA_handleRequest. rewrite run_asks. cbv zeta. rewrite (bool_decide_false (is_Some None)) by by intros [? ?].
    cbn [whenp]. repeat (case_test; [|]); cbn [orb]; try done; intros Hp; split; try done; try by left.
    + right. split; [done|]. unfold handleInvite in Hp. rewrite run_asks in Hp. by destruct (OnInvite _).
    + by destruct (OnMessage _).
    + exfalso. apply bind_panic in Hp as [Hp|(p & s1 & _ & Hp)]; [by rewrite findDialog_spec in Hp|].
      by destruct p; [destruct (OnInfo _)|].
    + by destruct (OnNotify _).
    + by destruct (OnSubscribe _).
    + by destruct (OnRegister _).
Qed.

(** A final response to a client of [m0] whose request has no Via: none at all, or
    one that is text the parser does not take. *)
Definition answers_without_via (m0 : TxManager) (pkt : Packet) : Prop :=
  ∃ resp p t, Msg pkt = MResp resp ∧ (200 ≤ StatusCode resp)%Z ∧
    txs m0 !! clientTxKeyOf resp = Some p ∧ heap m0 !! p = Some (CTx t) ∧ via_of (Req_headers (c_req t)) = None.

(** The effects a packet adds to the trace of the manager: the only request
    reported is the packet's, without a transaction only if its CSeq says ACK; and
    it crashes only on such a response. *)
Definition reported_ok (m0 : TxManager) (pkt : Packet) (e : effect) : Prop :=
  match e with
  | EOnRequest r _ stx => Msg pkt = MReq r ∧ (stx = None → cseq_method (Req_headers r) = ACK)
  | EPanic => answers_without_via m0 pkt
  | _ => True
  end.

Definition grown (pkt : Packet) (m0 m : TxManager) : Prop :=
  ∃ l, trace m = trace m0 ++ l ∧ Forall (reported_ok m0 pkt) l.

Lemma grown_emit pkt m0 e : reported_ok m0 pkt e → keeps (grown pkt m0) (emit e).
Proof.
  intros He. apply keeps_modify. intros s (l & Hl & Hok). exists (l ++ [e]). cbn [trace with_trace].
  rewrite Hl, <-app_assoc. split; [done|]. by apply Forall_app_2, Forall_singleton.
Qed.

Lemma grown_same pkt m0 f : (∀ s, trace (f s) = trace s) → keeps (grown pkt m0) (modify f).
Proof. intros Hf. apply keeps_modify. intros s (l & Hl & Hok). exists l. by rewrite Hf. Qed.

Lemma grown_alloc pkt m0 t : keeps (grown pkt m0) (alloc t).
Proof. intros s Hs. exact Hs. Qed.

Ltac grown_auto :=
  unfold put_server, set_client_state, set_table, remove, put_tx, schedule, add_task, get_client, get_server,
    lookup_client, lookup_server;
  repeat first [apply grown_emit; exact I | apply grown_same; done | apply grown_alloc | keeps_step].

Lemma grown_send pkt m0 msg dst : keeps (grown pkt m0) (send msg dst).
Proof. unfold send. grown_auto. Qed.

Lemma grown_deliver pkt m0 p e : keeps (grown pkt m0) (deliver p e).
Proof. unfold deliver. grown_auto. Qed.

Lemma grown_finish pkt m0 p : keeps (grown pkt m0) (finish p).
Proof. unfold finish. grown_auto. Qed.

(** The request of a client stays what it was. *)
Definition asked (p : nat) (q : Request) (m : TxManager) : Prop := ∃ t, heap m !! p = Some (CTx t) ∧ c_req t = q.

Lemma asked_put p q t t' m :
  asked p q m → heap m !! p = Some (CTx t) → c_req t' = c_req t → asked p q (snd (put_tx p (CTx t') m)).
Proof.
  intros (u & Hu & Hq) Hp Ht. exists t'. cbn. rewrite lookup_insert_eq. split; [done|]. congruence.
Qed.

Lemma asked_state p q s : keeps (asked p q) (set_client_state p s).
Proof. apply keeps_get_client; [|keeps_auto]. intros t m Hm Hp. by eapply asked_put. Qed.

Lemma asked_deliver p q e : keeps (asked p q) (deliver p e).
Proof.
  apply keeps_get_client; [|keeps_auto]. intros t m Hm Hp. destruct (_ <? events_cap); [|exact Hm].
  apply (run_bind (asked p q)); [by eapply asked_put|]. intros _. by apply keeps_modify.
Qed.

Definition asking (pkt : Packet) (m0 : TxManager) (p : nat) (q : Request) (m : TxManager) : Prop :=
  grown pkt m0 m ∧ asked p q m.

Lemma asking_both {A} pkt m0 p q (m : M A) : keeps (grown pkt m0) m → keeps (asked p q) m → keeps (asking pkt m0 p q) m.
Proof. intros H1 H2 s [Hg Ha]. by split; [apply H1|apply H2]. Qed.

Lemma asking_state pkt m0 p q s : keeps (asking pkt m0 p q) (set_client_state p s).
Proof. apply asking_both; [grown_auto|apply asked_state]. Qed.

Lemma asking_deliver pkt m0 p q e : keeps (asking pkt m0 p q) (deliver p e).
Proof. apply asking_both; [apply grown_deliver|apply asked_deliver]. Qed.

Lemma asking_schedule pkt m0 p q d k : keeps (asking pkt m0 p q) (schedule d k).
Proof. apply asking_both; [grown_auto|by apply keeps_modify]. Qed.

Lemma asking_sendACK pkt m0 p q resp :
  (via_of (Req_headers q) = None → answers_without_via m0 pkt) → keeps (asking pkt m0 p q) (sendACK p resp).
Proof.
  intros Hq. apply keeps_get_client; [|keeps_auto]. intros t m Hm Hp.
  assert (c_req t = q) as Ht by (destruct Hm as [_ (u & Hu & E)]; congruence).
  assert (∀ msg dst, keeps (asked p q) (send msg dst)) as Hs.
  { intros msg dst. unfold send. repeat first [by apply keeps_modify|keeps_step]. }
  destruct (build_ack (c_req t) resp) as [ack|] eqn:Ea.
  - apply (run_bind (asking pkt m0 p q)); [|intros; apply keeps_ret]. by apply asking_both; [apply grown_send|apply Hs|].
  - apply asking_both; [apply grown_emit|by apply keeps_modify|done]. apply Hq. rewrite Ht in Ea.
    unfold build_ack in Ea. by destruct (via_of _).
Qed.

Lemma grown_receive pkt m0 p resp m :
  (∀ t, heap m !! p = Some (CTx t) → (200 ≤ StatusCode resp)%Z → via_of (Req_headers (c_req t)) = None →
        answers_without_via m0 pkt) →
  grown pkt m0 m → grown pkt m0 (snd (receive p resp m)).
Proof.
  intros Hv Hm. unfold receive. unfold get_client at 1. rewrite run_gets.
  destruct (heap m !! p) as [[t|t]|] eqn:Hp; [|done..]. rewrite run_gets.
  assert (asking pkt m0 p (c_req t) m) as Hak by (split; [done|by exists t]).
  destruct (Z.ltb_spec (StatusCode resp) 200).
  { destruct (over _); [done|]. apply (run_bind (grown pkt m0)); [by apply asking_state with (q := c_req t)|]. intros _. apply grown_deliver. }
  assert (keeps (asking pkt m0 p (c_req t)) (sendACK p resp)) as Hack by (apply asking_sendACK; by apply Hv).
  enough (∀ n : M (), keeps (asking pkt m0 p (c_req t)) n → grown pkt m0 (snd (n m))) as Hgo.
  { destruct (_ <? 300)%Z; [destruct (_ == INVITE)|].
    - apply Hgo. repeat first [apply Hack | apply asking_state | apply asking_deliver | apply asking_schedule | keeps_step].
    - apply (run_bind (grown pkt m0)); [by apply grown_deliver|]. intros _. apply grown_finish.
    - destruct (over _); [done|]. apply Hgo.
      repeat first [apply Hack | apply asking_state | apply asking_deliver | apply asking_schedule | keeps_step]. }
  intros n Hn. by apply Hn.
Qed.

Lemma grown_handleRequest pkt m0 req src : Msg pkt = MReq req → keeps (grown pkt m0) (handleRequest req src).
Proof.
  intros Hp. unfold handleRequest, receiveACK, receiveRetransmission.
  destruct (bool_decide_reflect (cseq_method (Req_headers req) = ACK)) as [Ha|Ha];
    repeat first [apply grown_send | apply grown_emit; by split | progress grown_auto].
Qed.

Lemma grown_handlePacket pkt m : grown pkt m (snd (handlePacket pkt m)).
Proof.
  set (m1 := with_trace (trace m ++ [EInc "packets_received"]) m).
  assert (grown pkt m m1) as Hg0 by (eexists; split; [done|]; by apply Forall_singleton).
  change (handlePacket pkt m) with (match Msg pkt with
    MReq r => handleRequest r (Src pkt) | MResp r => handleResponse r (Src pkt) end m1).
  destruct (Msg pkt) as [r|r] eqn:E; [by apply grown_handleRequest|]. unfold handleResponse.
  destruct (_ == []); [done|]. unfold lookup_client. rewrite run_gets. cbn [txs heap with_trace m1].
  destruct (txs m !! clientTxKeyOf r) as [p|] eqn:Ht; cbn [mbind option_bind]; [|by apply grown_emit].
  destruct (heap m !! p) as [[t|t]|] eqn:Hp; [|by apply grown_emit..].
  apply (run_bind (grown pkt m)); [|intros; by apply grown_emit]. apply grown_receive; [|done].
  intros u Hu Hs Hv. by exists r, p, u.
Qed.

(** ** The callbacks a packet runs *)

Definition call_request (c : call) : Request :=
  match c with
  | CallInvite r _ _ | CallRegister r _ | CallBye r _ _ | CallMessage r _ | CallInfo r _ _ | CallNotify r _
  | CallSubscribe r _ => r
  end.

Definition called_with (P : Request → Prop) (u0 u : UA) : Prop :=
  ∃ l, calls u = calls u0 ++ l ∧ Forall (λ c, P (call_request c)) l.

Lemma called_same P u0 (f : UA → UA) : (∀ u, calls (f u) = calls u) → always (called_with P u0) (update f).
Proof. intros Hf. apply always_update. intros u (l & Hl & Hok). exists l. by rewrite Hf. Qed.

Lemma called_add P u0 c : P (call_request c) → always (called_with P u0) (add_call c).
Proof.
  intros Hc. apply always_update. intros u (l & Hl & Hok). exists (l ++ [c]). cbn [calls with_calls].
  rewrite Hl, <-app_assoc. split; [done|]. by apply Forall_app_2, Forall_singleton.
Qed.

Lemma called_tm {A} P u0 (m : M A) : always (called_with P u0) (on_tm m).
Proof. by apply always_on. Qed.

Lemma called_stx P u0 stx resp : always (called_with P u0) (stx_Respond stx resp).
Proof. unfold stx_Respond. always_auto. apply called_tm. Qed.

Lemma called_handleRequest (P : Request → Prop) u0 req src stx :
  P req → always (called_with P u0) (UA_handleRequest req src stx).
Proof.
  intros HP. unfold UA_handleRequest, handleBye, handleInvite, findDialog, fresh_tag, fresh_id, new_dialog, add_dialog,
    remove_dialog, modify_dialog, get_dialog. always_auto;
    try first [apply called_stx | by apply called_add | by apply called_same].
  all: intros ? ? ? Hu; cbn; intros [= <- <-]; done.
Qed.

Lemma packet_calls pkt u u' :
  UA_handlePacket pkt u = Ret ((), u') →
  ∃ l, calls u' = calls u ++ l ∧ Forall (λ c, Msg pkt = MReq (call_request c)) l.
Proof.
  unfold UA_handlePacket. rewrite run_asks. intros Hr.
  apply run_inv in Hr as ([] & u1 & E & Hr). rewrite run_asks in Hr. unfold on_tm, on in E.
  destruct (grown_handlePacket pkt (ua_tm u)) as (l & Hl & Hok).
  destruct (handlePacket pkt (ua_tm u)) as [[] m] eqn:Em. injection E as <-. cbn [ua_tm with_tm snd] in *.
  rewrite Hl, drop_app_length in Hr. set (P := λ r, Msg pkt = MReq r).
  assert (always (called_with P u) (each on_effect l)) as Ha.
  { clear Hr Hl. induction Hok as [|e l He Hok IH]; [apply always_ret|]. cbn [each]. apply always_bind; [|intros _; exact IH].
    destruct e as [|req src stx|?|?|?|?|]; try apply always_ret; [|apply always_panic]. destruct He as [Hm _].
    by apply called_handleRequest. }
  apply (Ha (with_tm m u) () u'); [|exact Hr]. exists []. by rewrite app_nil_r.
Qed.

(** C32: the only packets that crash the agent are requests whose CSeq says ACK and
    whose request line says BYE, or INVITE while no INVITE callback is set (the
    manager reports them without a transaction, and the handler answers through it),
    and final responses to a request that the agent sent with a Via header the
    parser does not read (the ACK is built from its Via). *)
Theorem packet_panics (pkt : Packet) (u : UA) :
  UA_handlePacket pkt u = Panic →
  (∃ req, Msg pkt = MReq req ∧ cseq_method (Req_headers req) = ACK ∧
          (Req_Method req = BYE ∨ Req_Method req = INVITE ∧ OnInvite (ua_cb u) = false)) ∨
  answers_without_via (ua_tm u) pkt.
Proof.
  intros Hp. unfold UA_handlePacket in Hp. rewrite run_asks in Hp.
  apply bind_panic in Hp as [Hp|([] & u1 & E & Hp)]; [unfold on_tm, on in Hp; by destruct (handlePacket _ _)|].
  rewrite run_asks in Hp.
  apply (each_panic (λ u', ua_cb u' = ua_cb u)) in Hp as (e & u2 & He & Hcb & Hp).
  - destruct (grown_handlePacket pkt (ua_tm u)) as (l & Hl & Hok). unfold on_tm, on in E.
    destruct (handlePacket pkt (ua_tm u)) as [[] m] eqn:Em. injection E as <-. cbn [ua_tm with_tm] in He.
    cbn [snd] in Hl. rewrite Hl, drop_app_length in He. rewrite Forall_forall in Hok. specialize (Hok e He).
    destruct e as [|req src stx|?|?|?|?|]; try done; [|by right]. apply handleRequest_panics in Hp as [-> Hp]. rewrite Hcb in Hp.
    destruct Hok as [Hm Hc]. left. exists req. auto.
  - intros e. destruct e; try apply always_ret; [apply cb_handleRequest|apply always_panic].
  - unfold on_tm, on in E. destruct (handlePacket pkt (ua_tm u)) as [[] m]. by injection E as <-.
Qed.

(** A request that is given no Via header at all gets one that reads. *)
Lemma prepared_via req b c vh vp :
  Headers_Get (Req_headers req) "Via" = None → is_Some (via_of (Req_headers (prepare_request req b c vh vp))).
Proof.
  intros Hv. unfold prepare_request. cbn [Req_headers req_with_headers].
  assert (via_of (Req_headers req) = None) as -> by (unfold via_of; by rewrite Hv). rewrite Hv, (bool_decide_true (@None Via = None)), (bool_decide_true (@None Header = None)) by done.
  cbn [andb].
  set (h0 := Headers_Add _ _).
  assert (∃ v, Headers_Get h0 "Via" = Some (HVia v)) as [v Hv0] by (unfold h0; rewrite Headers_Get_Add, Hv; eexists; reflexivity).
  assert (∀ (t : bool) h x, cname x ≠ lit "Via" → Headers_Get h "Via" = Some (HVia v) →
    Headers_Get (if t then Headers_Set h x else h) "Via" = Some (HVia v)) as Hk.
  { intros [] h x Hx E; [|done]. rewrite Headers_Get_Set, bool_decide_false; [done|]. intros Ec. by apply Hx. }
  unfold via_of. rewrite (Hk _ _ (HCSeq _)); [eexists; reflexivity|by vm_compute|].
  repeat (apply Hk; [by vm_compute|]). exact Hv0.
Qed.
End Agent.

(** ** Concrete agents *)

Definition ok_sender_ua : Sender := mkSender true true false (λ _ _ _ _, Ok ()).

(** A source of distinct bytes. *)
Definition ex_entropy : Entropy :=
  mkEntropy (λ i n, Ok (replicate n (N.of_nat (i mod 256)))) (λ _, 0%N) 1%N (λ i, N.of_nat i).

Definition ex_ua : UA := with_cb (mkUACallbacks true false true false false false false) (NewUA "10.0.0.2" 5060).

Definition ex_inbound (method cseq : Method) (branch from_tag to_tag : str) : Request :=
  mkRequest method (Some (ua_ex_uri "bob" "10.0.0.2")) SipVersion
    [HVia (SetBranch (mkVia "SIP/2.0/UDP" "UDP" "10.0.0.1" 5060 None) branch);
     HAddr (SetTag (ua_ex_address "alice" "10.0.0.1") from_tag) "From";
     HAddr (if to_tag == [] then ua_ex_address "bob" "10.0.0.2" else SetTag (ua_ex_address "bob" "10.0.0.2") to_tag) "To";
     HGeneric "Call-ID" "c1"; HCSeq (mkCSeq 2 cseq)] None.

Definition ua_step (f : proc UA ()) (u : outcome UA) : outcome UA :=
  match u with Ret u => match f u with Ret (_, u') => Ret u' | Panic => Panic end | Panic => Panic end.

Definition ua_receive (host : str) (req : Request) : outcome UA → outcome UA :=
  ua_step (UA_handlePacket (H := ok_sender_ua) (H0 := ex_entropy) (mkPacket (MReq req) (mkAddr "udp" host 5060))).

(** The statuses the manager has sent. *)
Definition statuses (u : outcome UA) : list Z :=
  match u with
  | Ret u => omap (λ e, match e with ESend (MResp r) _ _ => Some (StatusCode r) | _ => None end) (trace (ua_tm u))
  | Panic => []
  end.

Lemma packet_panics_witness :
  ∃ req, Msg (mkPacket (MReq (ex_inbound BYE ACK "z9hG4bKx" "a" "b")) (mkAddr "udp" "6.6.6.6" 9)) = MReq req ∧
    cseq_method (Req_headers req) = ACK.
Proof.
  destruct (packet_panics (H := ok_sender_ua) (H0 := ex_entropy)
    (mkPacket (MReq (ex_inbound BYE ACK "z9hG4bKx" "a" "b")) (mkAddr "udp" "6.6.6.6" 9)) ex_ua)
    as [(req & H1 & H2 & _)|(resp & _ & _ & [=] & _)]; [by vm_compute|]. exists req. split; [exact H1|exact H2].
Defined.

Definition ex_tag : str := NewTag (Ok (replicate 8 0%N)) 0.

(** The agent after an INVITE from 10.0.0.1. *)
Definition ex_called : outcome UA := ua_receive "10.0.0.1" (ex_inbound INVITE INVITE "z9hG4bK1" "a" []) (Ret ex_ua).


(** Alice's agent calls Bob's, which rings. *)
Definition ex_uaB : UA := with_cb (mkUACallbacks true false true false false false false) (NewUA "10.0.0.9" 5060).


(** ** Calls that go wrong *)

(** A stranger's BYE with a high sequence number is refused with 403, but the dialog
    remembers the number: the BYE of the peer, accepted before, is now too old. *)
Definition ex_bye (branch : str) (seq : Z) : Request :=
  let r := ex_inbound BYE BYE branch "a" ex_tag in
  req_with_headers r (Headers_Set (Req_headers r) (HCSeq (mkCSeq seq BYE))).

Lemma spoofed_bye_blocks :
  statuses (ua_receive "10.0.0.2" (ex_bye "z9hG4bK2" 3) ex_called) = [200%Z] ∧
  statuses (ua_receive "10.0.0.2" (ex_bye "z9hG4bK2" 3) (ua_receive "6.6.6.6" (ex_bye "z9hG4bK6" 4294967295) ex_called))
    = [403%Z; 500%Z].
Proof. split; by vm_compute. Qed.

(** The application sends a request with a Via that does not parse, and gets any
    failure: the acknowledgement dereferences the Via it has not. *)
Definition ex_bad_via : Request :=
  req_with_headers (NewRequest MESSAGE (Some (ua_ex_uri "bob" "10.0.0.9"))) [HGeneric "Via" "me"; HCSeq (mkCSeq 1 MESSAGE)].

Lemma unparsed_via_panics :
  let sent := ua_step (_ ← tm_Request (H := ok_sender_ua) (H0 := ex_entropy) ex_bad_via (mkAddr "udp" "10.0.0.9" 5060); mret ()) (Ret ex_ua) in
  let answer := resp_with_headers (NewResponse 404 []) [HVia (mkVia "SIP/2.0/UDP" "UDP" "10.0.0.2" 5060 None); HCSeq (mkCSeq 1 MESSAGE)] in
  sent ≠ Panic ∧
  ua_step (UA_handlePacket (H := ok_sender_ua) (H0 := ex_entropy) (mkPacket (MResp answer) (mkAddr "udp" "10.0.0.9" 5060))) sent = Panic.
Proof. split; [intros E; by vm_compute in E|by vm_compute]. Qed.

(** The server dialog takes its remote target from the request URI, which is the
    callee's own address: the caller's BYE is refused when the two hosts differ. *)
Lemma uas_bye_refused :
  statuses (ua_receive "10.0.0.1" (ex_inbound BYE BYE "z9hG4bK2" "a" ex_tag) ex_called) = [403%Z].
Proof. by vm_compute. Qed.

(** An outgoing call answered with a status and a To tag, and its event pumped. *)
Definition ex_answer (code : Z) (req : Request) : Response :=
  resp_with_headers (NewResponse code [])
    (Headers_Set (Req_headers req) (HAddr (SetTag (ua_ex_address "bob" "10.0.0.9") "b") "To")).

Definition ex_calling : outcome UA :=
  ua_step (_ ← UA_Invite (H := ok_sender_ua) (H0 := ex_entropy) (ua_ex_uri "bob" "10.0.0.9")
                 (ua_ex_address "alice" "10.0.0.2") [] None; mret ()) (Ret ex_ua).

Definition ex_sent_request (u : outcome UA) : Request :=
  match u with
  | Ret u => match trace (ua_tm u) with ESend (MReq r) _ _ :: _ => r | _ => NewRequest [] None end
  | Panic => NewRequest [] None
  end.

Definition ex_answered (code : Z) : outcome UA :=
  ua_step (pump 0) (ua_step (UA_handlePacket (H := ok_sender_ua) (H0 := ex_entropy)
    (mkPacket (MResp (ex_answer code (ex_sent_request ex_calling))) (mkAddr "udp" "10.0.0.9" 5060))) ex_calling).

Definition dialogs_left (u : outcome UA) : option nat := match u with Ret u => Some (DM_Len (ua_dialogs u)) | Panic => None end.

Definition call_id_of (u : outcome UA) : str := callid_of (Req_headers (ex_sent_request u)).

(** The dialog of an outgoing call stays in the table under the identifier it had
    without a remote tag, so the callee's BYE finds nothing. *)
Lemma uac_bye_unknown :
  let bye := req_with_headers (NewRequest BYE (Some (ua_ex_uri "alice" "10.0.0.2")))
    [HVia (SetBranch (mkVia "SIP/2.0/UDP" "UDP" "10.0.0.9" 5060 None) "z9hG4bK3");
     HAddr (SetTag (ua_ex_address "bob" "10.0.0.9") "b") "From"; HAddr (SetTag (ua_ex_address "alice" "10.0.0.2") ex_tag) "To";
     HGeneric "Call-ID" (call_id_of ex_calling); HCSeq (mkCSeq 1 BYE)] in
  dialogs_left (ex_answered 200) = Some 1 ∧
  statuses (ua_receive "10.0.0.9" bye (ex_answered 200)) = [481%Z].
Proof. by vm_compute. Qed.

(** A failed outgoing call leaves its dialog in the table: it is removed under its
    new identifier. *)
Lemma failed_invite_leaks : dialogs_left (ex_answered 486) = Some 1.
Proof. by vm_compute. Qed.

(** Hanging up a call that has had no answer dereferences the missing remote target. *)
Lemma hangup_early_panics :
  ua_step (_ ← Hangup (H := ok_sender_ua) (H0 := ex_entropy) 0 []; mret ()) ex_calling = Panic.
Proof. by vm_compute. Qed.

(** A call that was hung up stays in the table. *)
Lemma hangup_keeps_entry :
  dialogs_left (ua_step (_ ← Hangup (H := ok_sender_ua) (H0 := ex_entropy) 0 [Ok (NewResponse 200 [])]; mret ())
                  (ex_answered 200)) = Some 1.
Proof. by vm_compute. Qed.
