(* ===== verification/UaGrowth.v ===== *)
(** * What a user agent never takes back

    Dialog objects and sessions are created with fresh pointers and keep their
    identity: [grows u0 u] says what every later state [u] of an agent owes to an
    earlier one [u0].  The clients of an agent that hold dialog pointers rely on it. *)

From S2P Require Import Prelude GoStrings Params Uri Headers HeadersMap Message Net Transport Ids Transaction Proc Dialog Ua UaTheorems.

(** The dialogs of the INVITEs among some calls. *)
Definition invited (c : call) : option nat := match c with CallInvite _ _ p => Some p | _ => None end.
Definition new_dialogs (l : list call) : list nat := omap invited l.

(** The numbers of the sessions are below the next one. *)
Definition used (u : UA) : Prop := ∀ i, is_Some (sessions u !! i) → i < next_session u.

Record grows (u0 u : UA) : Prop := mkGrows {
  g_next : dm_next (ua_dialogs u0) ≤ dm_next (ua_dialogs u);
  g_used : used u;
  g_dlg : ∀ i s, sessions u0 !! i = Some s → ∃ s', sessions u !! i = Some s' ∧ ss_dlg s' = ss_dlg s;
  g_calls : ∃ l, calls u = calls u0 ++ l ∧ NoDup (new_dialogs l) ∧
    Forall (λ p, dm_next (ua_dialogs u0) ≤ p < dm_next (ua_dialogs u)) (new_dialogs l);
  g_cb : ua_cb u = ua_cb u0
}.

Lemma grows_refl u : used u → grows u u.
Proof.
  intros Hu. split; [done|done|eauto| |done]. exists []. rewrite app_nil_r. by split_and!; [|apply NoDup_nil|].
Qed.

(** A change of the agent that keeps its sessions and its calls. *)
Lemma grows_same u0 (f : UA → UA) :
  (∀ u, dm_next (ua_dialogs u) ≤ dm_next (ua_dialogs (f u)) ∧ sessions (f u) = sessions u ∧
        next_session (f u) = next_session u ∧ calls (f u) = calls u ∧ ua_cb (f u) = ua_cb u) →
  ∀ u, grows u0 u → grows u0 (f u).
Proof.
  intros Hf u [Hn Hu Hd (l & Hc & Hl & Hr) Hcb]. destruct (Hf u) as (Hn' & Hs & Hns & Hcs & Hcb'). split.
  - lia.
  - unfold used. by rewrite Hs, Hns.
  - by rewrite Hs.
  - exists l. rewrite Hcs. split_and!; [done..|]. eapply Forall_impl; [exact Hr|]. cbn. lia.
  - congruence.
Qed.

Lemma grows_update u0 (f : UA → UA) :
  (∀ u, dm_next (ua_dialogs u) ≤ dm_next (ua_dialogs (f u)) ∧ sessions (f u) = sessions u ∧
        next_session (f u) = next_session u ∧ calls (f u) = calls u ∧ ua_cb (f u) = ua_cb u) →
  always (grows u0) (update f).
Proof. intros Hf. by apply always_update, grows_same. Qed.

(** A change of one session that keeps its dialog. *)
Lemma grows_put u0 u i s s' :
  sessions u !! i = Some s → ss_dlg s' = ss_dlg s → grows u0 u →
  grows u0 (with_sessions (<[i := s']> (sessions u)) (next_session u) u).
Proof.
  intros Hi Hs [Hn Hu Hd Hc Hcb]. split; [done| | |done|done]; cbn.
  - intros j [t Hj]. cbn in *. destruct (decide (i = j)) as [<-|Hne]; [by apply Hu; eexists|].
    rewrite lookup_insert_ne in Hj by done. by apply Hu; eexists.
  - intros j t Hj. destruct (decide (i = j)) as [<-|Hne].
    + rewrite lookup_insert_eq. exists s'. split; [done|]. destruct (Hd _ _ Hj) as (t' & Ht' & <-). congruence.
    + rewrite lookup_insert_ne by done. by apply Hd.
Qed.

Section Agent.
Context `{Sender} `{Entropy}.

Lemma grows_tm {A} u0 (m : M A) : always (grows u0) (on_tm m).
Proof. apply always_on. intros m' u. by apply (grows_same u0 (with_tm m')). Qed.

Lemma grows_stx u0 stx resp : always (grows u0) (stx_Respond stx resp).
Proof. unfold stx_Respond. always_auto. apply grows_tm. Qed.

Lemma grows_fresh {A} u0 (f : nat → A) : always (grows u0) (fresh_id f).
Proof. unfold fresh_id. always_auto. by apply grows_update. Qed.

Lemma grows_modify u0 f p : always (grows u0) (modify_dialog f p).
Proof. by apply grows_update. Qed.

Lemma grows_dm_add u0 p : always (grows u0) (add_dialog p).
Proof. apply grows_update. intros u. cbn. unfold DM_Add. by destruct (_ !! _). Qed.

Lemma grows_dm_remove u0 p : always (grows u0) (remove_dialog p).
Proof. apply grows_update. intros u. cbn. unfold DM_Remove. by destruct (_ !! _). Qed.

Lemma grows_new_dialog u0 d : always (grows u0) (new_dialog d).
Proof.
  intros u p u' Hu. unfold new_dialog. cbn. intros [= <- <-].
  apply (grows_same u0 (λ u, with_dialogs (snd (dm_alloc d (ua_dialogs u))) u)); [|done]. cbn. auto.
Qed.

(** A call that is no INVITE. *)
Lemma grows_call u0 c : invited c = None → always (grows u0) (add_call c).
Proof.
  intros Hc. apply always_update. intros u [Hn Hu Hd (l & Hl & Hnd & Hr) Hcb]. split; [done..| |done].
  exists (l ++ [c]). cbn. rewrite Hl, <-app_assoc. unfold new_dialogs in *. rewrite omap_app. cbn. rewrite Hc, app_nil_r.
  done.
Qed.
End Agent.

#[export] Hint Resolve grows_tm grows_stx grows_fresh grows_modify grows_dm_add grows_dm_remove grows_new_dialog : proc.
#[export] Hint Extern 1 (always (grows _) (add_call _)) => apply grows_call; reflexivity : proc.

Section Operations.
Context `{Sender} `{Entropy}.

Lemma grows_fresh_tag u0 : always (grows u0) fresh_tag.
Proof. apply grows_fresh. Qed.

Lemma grows_fresh_callid u0 : always (grows u0) fresh_callid.
Proof. apply grows_fresh. Qed.

Lemma grows_Request u0 req dst : always (grows u0) (tm_Request req dst).
Proof. unfold tm_Request, fresh_branch, fresh_callid. always_auto. Qed.

Lemma grows_get u0 p : always (grows u0) (get_dialog p).
Proof. apply always_asks. Qed.

Lemma grows_target u0 t : always (grows u0) (target_addr t).
Proof. unfold target_addr. destruct t as [u|]; [|apply always_panic]. destruct (TransportFor u) as [[n h] p]. apply always_ret. Qed.

Lemma grows_find u0 req : always (grows u0) (findDialog req).
Proof. unfold findDialog. always_auto. Qed.

Lemma DM_Add_next p dm : dm_next (DM_Add p dm) = dm_next dm.
Proof. unfold DM_Add. by destruct (_ !! _). Qed.

(** A dialog that is announced is new. *)
Lemma grows_invited u0 d req stx :
  always (grows u0) (p ← new_dialog d; add_dialog p;; add_call (CallInvite req stx p)).
Proof.
  intros u [] u' Hu [= <-]. destruct Hu as [Hn Hu Hd (l & Hl & Hnd & Hr) Hcb].
  split; cbn; rewrite ?DM_Add_next; cbn; [lia|done|done| |done].
  exists (l ++ [CallInvite req stx (dm_next (ua_dialogs u))]). rewrite Hl, <-app_assoc.
  unfold new_dialogs in *. rewrite omap_app. cbn. rewrite Forall_forall in Hr. split_and!; [done| |].
  - apply NoDup_app. split_and!; [done| |apply NoDup_singleton].
    intros p Hp ->%list_elem_of_singleton. apply Hr in Hp. lia.
  - apply Forall_app. rewrite Forall_singleton, Forall_forall. split; [|lia]. intros p Hp. apply Hr in Hp. lia.
Qed.

Lemma grows_handleInvite u0 req stx : always (grows u0) (handleInvite req stx).
Proof.
  unfold handleInvite. apply always_bind; [apply always_asks|]. intros cb. destruct (negb _); [always_auto|].
  apply always_bind; [apply grows_fresh_tag|]. intros tag. apply grows_invited.
Qed.

Lemma grows_handleBye u0 req src stx : always (grows u0) (handleBye req src stx).
Proof. unfold handleBye. always_auto; first [apply grows_find|apply grows_get]. Qed.

Lemma grows_handleRequest u0 req src stx : always (grows u0) (UA_handleRequest req src stx).
Proof.
  unfold UA_handleRequest.
  always_auto; first [apply grows_handleBye|apply grows_handleInvite|apply grows_find].
Qed.

(** A packet. *)
Lemma grows_packet u0 pkt : always (grows u0) (UA_handlePacket pkt).
Proof. unfold UA_handlePacket, on_effect. always_auto. apply grows_handleRequest. Qed.

(** ** Calls of the application *)

Lemma grows_UA_Respond u0 dlg stx status ct body : always (grows u0) (UA_Respond dlg stx status ct body).
Proof. unfold UA_Respond. always_auto; apply grows_get. Qed.

Lemma grows_Register u0 aor contact expires creds : always (grows u0) (UA_Register aor contact expires creds).
Proof. unfold UA_Register. always_auto; first [apply grows_fresh_tag|apply grows_fresh_callid|apply grows_Request]. Qed.

Lemma grows_Ack u0 i : always (grows u0) (Ack i).
Proof. unfold Ack. always_auto; first [apply grows_get|apply grows_target]. Qed.

Lemma grows_sendAndWait u0 req t ans : always (grows u0) (sendAndWait req t ans).
Proof. unfold sendAndWait. always_auto; first [apply grows_target|apply grows_Request]. Qed.

Lemma grows_Hangup u0 p answers : always (grows u0) (Hangup p answers).
Proof.
  unfold Hangup. generalize (None : option Response). generalize 3. intros n. revert answers.
  induction n as [|n IH]; intros answers last; cbn [hangup_attempts]; [apply always_ret|].
  always_auto; first [apply grows_get|apply grows_sendAndWait|apply IH].
Qed.

Lemma grows_new_session u0 s : always (grows u0) (new_session s).
Proof.
  intros u i u' Hu. unfold new_session. rewrite run_asks, run_update. intros [= <- <-].
  destruct Hu as [Hn Hu Hd Hc Hcb]. split; [done| | |done|done]; cbn.
  - intros j Hj. cbn in *. destruct (decide (j = next_session u)) as [->|Hne]; [lia|].
    rewrite lookup_insert_ne in Hj by done. apply Hu in Hj. lia.
  - intros j t Hj. destruct (Hd _ _ Hj) as (t' & Ht' & Et). exists t'. split; [|done].
    rewrite lookup_insert_ne; [done|]. intros <-. assert (next_session u < next_session u) by (apply Hu; by eexists). lia.
Qed.

(** An INVITE makes a session with a dialog of its own. *)
Lemma Invite_grows u0 target from ct body u r u' :
  grows u0 u → UA_Invite target from ct body u = Ret (r, u') →
  grows u0 u' ∧ ∀ i, r = Ok i → ∃ s, sessions u' !! i = Some s ∧
    dm_next (ua_dialogs u0) ≤ ss_dlg s < dm_next (ua_dialogs u').
Proof.
  intros Hu. unfold UA_Invite. rewrite !run_asks. intros (tag & u1 & E1 & E)%run_inv.
  apply grows_fresh_tag with (u0 := u0) in E1; [|done]. apply run_inv in E as (cid & u2 & E2 & E).
  apply grows_fresh_callid with (u0 := u0) in E2; [|done]. destruct (invite_request _ _ _ _ _ _ _ _ _) as [req|]; [|done].
  apply run_inv in E as (ctx & u3 & E3 & E). apply grows_Request with (u0 := u0) in E3; [|done].
  destruct ctx as [ctx|e]; [|by injection E as <- <-].
  apply run_inv in E as (p & u4 & E4 & E). pose proof E4 as E4'. apply grows_new_dialog with (u0 := u0) in E4'; [|done].
  injection E4 as <- <-. apply run_inv in E as ([] & u5 & E5 & E). pose proof E5 as E5'.
  apply grows_dm_add with (u0 := u0) in E5'; [|done]. apply run_inv in E as (i & u6 & E6 & E). injection E as <- <-.
  pose proof E6 as E6'. apply grows_new_session with (u0 := u0) in E6'; [|done]. split; [done|]. intros j [= <-].
  injection E6 as <- <-. eexists. cbn. rewrite lookup_insert_eq. split; [done|]. cbn.
  injection E5 as <-. cbn in *. pose proof (g_next _ _ E3). unfold DM_Add.
  match goal with |- context [match ?x with _ => _ end] => destruct x end; cbn; lia.
Qed.

(** ** The event pump *)

Lemma grows_pump_event u0 i s ev u u' :
  grows u0 u → sessions u !! i = Some s → pump_event i s ev u = Ret ((), u') → grows u0 u'.
Proof.
  intros Hu Hi. set (I u := grows u0 u ∧ sessions u !! i = Some s).
  assert (∀ f, always I (modify_dialog f (ss_dlg s))) as Hm.
  { intros f. apply always_update. intros v [Hv Hs]. split; [|done]. by eapply grows_modify. }
  assert (always I (remove_dialog (ss_dlg s))) as Hr.
  { apply always_update. intros v [Hv Hs]. split; [|done]. by eapply grows_dm_remove. }
  assert (∀ v s' v', ss_dlg s' = ss_dlg s → I v → put_session i s' v = Ret ((), v') → grows u0 v') as Hp.
  { intros v s' v' Es [Hv Hs] [= <-]. by eapply grows_put. }
  destruct ev as [resp|e]; cbn [pump_event]; [|by apply Hp].
  intros ([] & u1 & E1 & E)%run_inv. apply Hm in E1; [|done]. destruct (300 <=? _)%Z.
  - apply run_inv in E as ([] & u2 & E2 & E). apply Hm in E2; [|done].
    apply run_inv in E as ([] & u3 & E3 & E). apply Hr in E3; [|done]. eapply Hp; [|exact E3|exact E]; done.
  - destruct (200 <=? _)%Z; [|injection E as <-; by destruct E1].
    apply run_inv in E as ([] & u2 & E2 & E). apply Hm in E2; [|done]. eapply Hp; [|exact E2|exact E]; done.
Qed.

Lemma grows_pump u0 i : always (grows u0) (pump i).
Proof.
  intros u [] u' Hu. unfold pump. rewrite run_asks. destruct (sessions u !! i) as [s|] eqn:Hi; [|by intros [= <-]].
  destruct (Done s); [by intros [= <-]|]. set (I u := grows u0 u ∧ sessions u !! i = Some s).
  assert (∀ A (m : M A), always I (on_tm m)) as Hm.
  { intros A m. apply always_on. intros m' v [Hv Hs]. split; [|done]. by apply (grows_same u0 (with_tm m')). }
  intros (t & u1 & E1 & E)%run_inv. apply Hm in E1; [|done].
  destruct (head _) as [ev|]; [|injection E as <-; by destruct E1].
  apply run_inv in E as ([] & u2 & E2 & E). apply Hm in E2 as [? ?]; [|done]. by eapply grows_pump_event.
Qed.
End Operations.
