(* ===== verification/Proxy.v ===== *)
(** * [proxy.go]: the stateful forking proxy

    The proxy is the handler of a transaction manager's requests.  A fork group is
    the list of branches of one server transaction; the goroutines the proxy starts
    are kept as [ptask]s, each with a definition of what one wake-up of it does, so
    that a schedule is a sequence of packets and of such wake-ups.  The loop of
    [fork] is also given one iteration at a time, because a branch may be answered
    while the loop still runs.  A nil target or transaction that is dereferenced is
    a panic; loggers are left out. *)

From S2P Require Import Prelude GoStrings Params Uri Headers HeadersMap Message Net Transport Ids Transaction Proc Dialog Ua.

(** ** State *)

(** Without the logger. *)
Record ProxyConfig := mkProxyConfig { RecordRoute : bool; TimerC : Z; RelayRegister : bool }.

Record branchState := mkBranchState {
  bs_ctx : nat; bs_target : option Uri; bs_final : option Response; isFinal : bool
}.

Record proxyDialog := mkProxyDialog {
  pd_callID : str; callerAddr : Addr; remoteLeg : option Uri; pd_routeSet : list (option Uri); responseTag : str
}.

(** The goroutines: a branch being watched, the Timer C of a group, a request to be
    forwarded in its dialog, and the same waiting for its answer. *)
Inductive ptask :=
| PRun (groupKey : str) (bs : nat) (stx : nat)
| PTimerC (groupKey : str) (stx : nat)
| PForward (req : Request) (target : option Uri) (stx : nat)
| PCollect (ctx : nat) (stx : nat).

Record Proxy := mkProxy {
  px_tm : TxManager;
  px_Host : str;
  px_port : Z;
  px_cfg : ProxyConfig;
  branches : gmap str (list nat);
  px_dialogs : gmap str proxyDialog;
  cancelled : gmap str bool;
  bs_heap : gmap nat branchState;
  bs_next : nat;
  ResolveTargets : option (Request → result (list (option Uri)));
  px_tasks : list ptask;
  px_reads : nat
}.

Definition NewProxy (tm : TxManager) (host : str) (port : Z) (c : ProxyConfig) : Proxy :=
  mkProxy tm host port
    (mkProxyConfig (RecordRoute c) (if (TimerC c <=? 0)%Z then 180 * Second else TimerC c)%Z (RelayRegister c))
    ∅ ∅ ∅ ∅ 0 None [] 0.

Definition with_px_tm (m : TxManager) (p : Proxy) : Proxy :=
  mkProxy m (px_Host p) (px_port p) (px_cfg p) (branches p) (px_dialogs p) (cancelled p) (bs_heap p) (bs_next p)
    (ResolveTargets p) (px_tasks p) (px_reads p).
Definition with_px_cfg (c : ProxyConfig) (p : Proxy) : Proxy :=
  mkProxy (px_tm p) (px_Host p) (px_port p) c (branches p) (px_dialogs p) (cancelled p) (bs_heap p) (bs_next p)
    (ResolveTargets p) (px_tasks p) (px_reads p).
Definition with_groups (b : gmap str (list nat)) (c : gmap str bool) (p : Proxy) : Proxy :=
  mkProxy (px_tm p) (px_Host p) (px_port p) (px_cfg p) b (px_dialogs p) c (bs_heap p) (bs_next p)
    (ResolveTargets p) (px_tasks p) (px_reads p).
Definition with_px_dialogs (d : gmap str proxyDialog) (p : Proxy) : Proxy :=
  mkProxy (px_tm p) (px_Host p) (px_port p) (px_cfg p) (branches p) d (cancelled p) (bs_heap p) (bs_next p)
    (ResolveTargets p) (px_tasks p) (px_reads p).
Definition with_bs (h : gmap nat branchState) (n : nat) (p : Proxy) : Proxy :=
  mkProxy (px_tm p) (px_Host p) (px_port p) (px_cfg p) (branches p) (px_dialogs p) (cancelled p) h n
    (ResolveTargets p) (px_tasks p) (px_reads p).
Definition with_resolve (f : option (Request → result (list (option Uri)))) (p : Proxy) : Proxy :=
  mkProxy (px_tm p) (px_Host p) (px_port p) (px_cfg p) (branches p) (px_dialogs p) (cancelled p) (bs_heap p) (bs_next p)
    f (px_tasks p) (px_reads p).
Definition with_px_tasks (l : list ptask) (p : Proxy) : Proxy :=
  mkProxy (px_tm p) (px_Host p) (px_port p) (px_cfg p) (branches p) (px_dialogs p) (cancelled p) (bs_heap p) (bs_next p)
    (ResolveTargets p) l (px_reads p).
Definition with_px_reads (n : nat) (p : Proxy) : Proxy :=
  mkProxy (px_tm p) (px_Host p) (px_port p) (px_cfg p) (branches p) (px_dialogs p) (cancelled p) (bs_heap p) (bs_next p)
    (ResolveTargets p) (px_tasks p) n.

Definition SetRecordRoute (on : bool) (p : Proxy) : Proxy :=
  with_px_cfg (mkProxyConfig on (TimerC (px_cfg p)) (RelayRegister (px_cfg p))) p.
Definition SetResolveTargets (f : option (Request → result (list (option Uri)))) (p : Proxy) : Proxy := with_resolve f p.

Definition dialogKey (req : Request) : str := callid_of (Req_headers req).

(** ** Choosing a response *)

Definition rank_prefs : list Z := [491; 600; 603; 486; 404; 403; 401; 407; 415; 503; 500; 502; 504]%Z.

Fixpoint rank_among (prefs : list Z) (i code : Z) : Z :=
  match prefs with
  | [] => code
  | c :: prefs' => if c == code then (900 - i)%Z else rank_among prefs' (i + 1) code
  end.

Definition rank (code : Z) : Z :=
  if (200 <=? code)%Z && (code <? 300)%Z then 1000 else rank_among rank_prefs 0 code.

(** [pickBestResponse] on the final responses of the branches. *)
Definition better (best : option Response) (r : option Response) : option Response :=
  match r, best with
  | None, _ => best
  | Some r, Some b => if (rank (StatusCode b) <? rank (StatusCode r))%Z then Some r else best
  | Some r, None => Some r
  end.
Definition pickBestResponse (finals : list (option Response)) : option Response := fold_left better finals None.

(** ** Forwarded requests *)

(** Max-Forwards, when it was parsed: refused at zero, else one less. *)
Definition decrement (h : Headers) : result Headers :=
  match Headers_Get h "Max-Forwards" with
  | Some (HMaxForwards n) => if (n <=? 0)%Z then Err ErrMaxForwards else Ok (Headers_Set h (HMaxForwards (n - 1)))
  | _ => Ok h
  end.

Definition proxy_via (host : str) (port : Z) (branch : str) : Via :=
  SetBranch (mkVia "SIP/2.0/UDP" [] host port (Some NewParams)) branch.

Definition record_route (host : str) (port : Z) : Header :=
  NewHeader "Record-Route"
    (Address_String (mkAddress [] false (Some (mkUri "sip" [] [] host port (Some (Params_Set NewParams "lr" [])) None)) None)).

(** The copy that goes to a target: [branch] is the new branch, when there is one. *)
Definition branch_request (req : Request) (target : option Uri) (host : str) (port : Z) (rr : bool) (branch : option str)
  (h : Headers) : Request :=
  let h := match branch with Some b => Headers_Prepend h (HVia (proxy_via host port b)) | None => h end in
  let h := if rr then Headers_Add h (record_route host port) else h in
  let c := Request_Clone req in
  mkRequest (Req_Method c) target (Req_Proto c) h (Req_body c).

(** The destination of a target, a panic for nil. *)
Definition target_of (target : option Uri) : option Addr :=
  u ← target; let '(network, host, port) := TransportFor u in Some (mkAddr network host port).

(** [SetTag] on the To of a response, when it is an address header without a tag:
    the header is changed in place. *)
Definition tag_to (tag : str) (h : Header) : Header :=
  match h with
  | HNameAddr (mkNameAddrList n (a :: l) all_) => if Tag (Some a) == [] then HNameAddr (mkNameAddrList n (SetTag a tag :: l) all_) else h
  | HAddr a n => if Tag (Some a) == [] then HAddr (SetTag a tag) n else h
  | _ => h
  end.

Fixpoint map_first (name : str) (f : Header → Header) (h : Headers) : Headers :=
  match h with
  | [] => []
  | x :: h' => if cname x == CanonicalName name then f x :: h' else x :: map_first name f h'
  end.

(** The copy of a response that goes upstream. *)
Definition forwarded (resp : Response) : Response :=
  let c := Response_Clone resp in resp_with_headers c (Headers_Del (Resp_headers c) "Via").

(** [p.dialogSourceAllowed]. *)
Definition dialogSourceAllowed (dlg : option proxyDialog) (src : Addr) : bool :=
  match dlg with
  | None => false
  | Some d =>
    if (Addr_Host (callerAddr d) != []) && sameHost (Addr_Host src) (Addr_Host (callerAddr d)) then true
    else match remoteLeg d with Some u => sameHost (Addr_Host src) (Uri_Host u) | None => false end
  end.

Section Proxy.
Context `{Sender} `{Entropy}.

Definition on_px {A} (m : M A) : proc Proxy A := on px_tm with_px_tm m.

Definition px_fresh {A} (f : nat → A) : proc Proxy A := i ← asks px_reads; update (with_px_reads (S i));; mret (f i).
Definition px_branch : proc Proxy str := px_fresh (λ i, NewBranch (rand_read i 12) (clock i) pid (fallback i)).
Definition px_callid : proc Proxy str := px_fresh (λ i, NewCallID (rand_read i 10) (clock i)).
Definition px_tag : proc Proxy str := px_fresh (λ i, NewTag (rand_read i 8) (clock i)).

Definition px_Request (req : Request) (dst : Addr) : proc Proxy (result nat) :=
  b ← px_branch; c ← px_callid; on_px (TxManager_Request req dst b c).

(** [_ = stx.Respond(resp)] *)
Definition px_Respond (stx : option nat) (resp : Response) : proc Proxy () :=
  if (StatusCode resp <? 100)%Z || (699 <? StatusCode resp)%Z then mret ()
  else match stx with
       | None => panic
       | Some x => _ ← on_px (Respond x resp); mret ()
       end.

Definition go (t : ptask) : proc Proxy () := update (λ p, with_px_tasks (px_tasks p ++ [t]) p).

(** ** Branches *)

Definition get_bs (b : nat) : proc Proxy (option branchState) := asks (λ p, bs_heap p !! b).

Definition markFinal (b : nat) (resp : Response) : proc Proxy () :=
  update (λ p, with_bs (alter (λ s, mkBranchState (bs_ctx s) (bs_target s) (Some resp) true) b (bs_heap p)) (bs_next p) p).

Definition finals (p : Proxy) (key : str) : list branchState :=
  omap (λ b, bs_heap p !! b) (default [] (branches p !! key)).

Definition is_cancelled (p : Proxy) (key : str) : bool := default false (cancelled p !! key).

Definition cleanupGroup (key : str) : proc Proxy () :=
  update (λ p, with_groups (delete key (branches p)) (delete key (cancelled p)) p).

(** Cancel the branches of a list that are not final, except [winner]. *)
Definition cancel_others (winner : option nat) (l : list nat) : proc Proxy () :=
  each (λ b,
    s ← get_bs b;
    match s with
    | Some s => if (Some b == winner) || isFinal s then mret () else _ ← on_px (Cancel (bs_ctx s)); mret ()
    | None => mret ()
    end) l.

Definition prepareBranch (req : Request) (target : option Uri) (newBranch : bool) : proc Proxy (result Request) :=
  match decrement (Req_headers (Request_Clone req)) with
  | Err e => mret (Err e)
  | Ok h =>
    branch ← (if newBranch then b ← px_branch; mret (Some b) else mret None);
    p ← asks (λ p, p);
    mret (Ok (branch_request req target (px_Host p) (px_port p) (RecordRoute (px_cfg p)) branch h))
  end.

(** ** Forking *)

Definition fork_start (key : str) : proc Proxy () :=
  update (λ p, with_groups (<[key := []]> (branches p)) (<[key := false]> (cancelled p)) p).

(** One round of the loop; [false] when it returns from [fork]. *)
Definition fork_target (req : Request) (key : str) (stx : nat) (tgt : option Uri) : proc Proxy bool :=
  br ← prepareBranch req tgt true;
  match br with
  | Err e => if e == ErrMaxForwards then px_Respond (Some stx) (NewResponse 483 []);; mret false else mret true
  | Ok br =>
    match target_of tgt with
    | None => panic
    | Some dst =>
      r ← px_Request br dst;
      match r with
      | Err _ => mret true
      | Ok ctx =>
        b ← asks bs_next;
        update (λ p, with_bs (<[b := mkBranchState ctx tgt None false]> (bs_heap p)) (S b) p);;
        update (λ p, with_groups (<[key := default [] (branches p !! key) ++ [b]]> (branches p)) (cancelled p) p);;
        go (PRun key b stx);;
        mret true
      end
    end
  end.

Fixpoint fork_targets (req : Request) (key : str) (stx : nat) (targets : list (option Uri)) : proc Proxy bool :=
  match targets with
  | [] => mret true
  | tgt :: targets' => on ← fork_target req key stx tgt; if on : bool then fork_targets req key stx targets' else mret false
  end.

Definition fork (req : Request) (stx : option nat) (targets : list (option Uri)) : proc Proxy () :=
  match stx with
  | None => panic
  | Some x =>
    t ← on_px (get_server x);
    match t with
    | None => panic
    | Some t =>
      let key := s_key t in
      fork_start key;;
      done_ ← fork_targets req key x targets;
      whenp done_ (go (PTimerC key x))
    end
  end.

(** ** Final responses *)

Definition checkGroupDone (key : str) (stx : nat) : proc Proxy () :=
  p ← asks (λ p, p);
  if is_cancelled p key then mret ()
  else if negb (forallb isFinal (finals p key)) then mret ()
  else
    let best := default (NewResponse 500 []) (pickBestResponse (map bs_final (finals p key))) in
    px_Respond (Some stx) (forwarded best);;
    cleanupGroup key.

(** The dialog a 2xx leaves behind. *)
Definition new_proxyDialog (t : ServerTx) (resp : Response) (tag : str) : proxyDialog :=
  mkProxyDialog (callid_of (Req_headers (s_req t))) (s_src t)
    (match First (contact_of (Resp_headers resp)) with Some c => Address_Uri c | None => None end)
    (recordRouteSet (Resp_headers resp)) tag.

Definition tag_response (resp : Response) (tag : str) : Response :=
  resp_with_headers resp (map_first "To" (tag_to tag) (Resp_headers resp)).

Definition deliverFinal (key : str) (winner : nat) (stx : nat) (resp : Response) : proc Proxy () :=
  p ← asks (λ p, p);
  if is_cancelled p key then mret ()
  else
    update (λ p, with_groups (branches p) (<[key := true]> (cancelled p)) p);;
    cancel_others (Some winner) (default [] (branches p !! key));;
    resp ← (if (200 <=? StatusCode resp)%Z && (StatusCode resp <? 300)%Z then
              t ← on_px (get_server stx);
              match t with
              | None => panic
              | Some t =>
                tag ← px_tag;
                let d := new_proxyDialog t resp tag in
                update (λ p, with_px_dialogs (<[pd_callID d := d]> (px_dialogs p)) p);;
                let resp := tag_response resp tag in
                markFinal winner resp;;
                mret resp
              end
            else mret resp);
    px_Respond (Some stx) (forwarded resp);;
    cleanupGroup key.

(** What an event does to the goroutine of a branch; [true] when it goes on. *)
Definition runBranch_event (key : str) (b stx : nat) (ev : TxEvent) : proc Proxy bool :=
  match ev with
  | EvErr _ => markFinal b (NewResponse 504 []);; checkGroupDone key stx;; mret false
  | EvResponse resp =>
    if (StatusCode resp <? 200)%Z then mret true
    else
      markFinal b resp;;
      if (200 <=? StatusCode resp)%Z && (StatusCode resp <? 300)%Z then deliverFinal key b stx resp;; mret false
      else checkGroupDone key stx;; mret false
  end.

(** Its deadline, Timer C. *)
Definition runBranch_deadline (key : str) (b stx : nat) : proc Proxy () :=
  markFinal b (NewResponse 504 []);;
  s ← get_bs b;
  match s with Some s => _ ← on_px (Cancel (bs_ctx s)); mret () | None => mret () end;;
  checkGroupDone key stx.

(** Timer C of the group. *)
Definition timerC_fire (key : str) (stx : nat) : proc Proxy () :=
  p ← asks (λ p, p);
  if is_cancelled p key then mret ()
  else
    let pending := existsb (λ s, negb (isFinal s)) (finals p key) in
    cancel_others None (default [] (branches p !! key));;
    whenp pending (px_Respond (Some stx) (NewResponse 504 []);; cleanupGroup key).

(** ** CANCEL *)

(** The groups a CANCEL names. *)
Definition cancelled_groups (req : Request) : list str :=
  let b := viaBranch (Req_headers req) in
  [("S|" ++ b ++ "|INVITE" : str); "S|" ++ b ++ "|"%char :: Req_Method req].

Definition handleCancel (req : Request) (stx : option nat) : proc Proxy () :=
  keys ← asks (λ p, List.filter (λ k, bool_decide (is_Some (branches p !! k))) (remove_dups (cancelled_groups req)));
  each (λ key,
    update (λ p, with_groups (branches p) (<[key := true]> (cancelled p)) p);;
    l ← asks (λ p, default [] (branches p !! key));
    cancel_others None l) keys;;
  px_Respond stx (NewResponse 200 []).

(** ** Requests in a dialog *)

Definition handleAck (req : Request) (src : Addr) : proc Proxy () :=
  dlg ← asks (λ p, px_dialogs p !! dialogKey req);
  match dlg with
  | None => mret ()
  | Some d =>
    if negb (dialogSourceAllowed (Some d) src) then mret ()
    else
      ack ← prepareBranch req (remoteLeg d) false;
      match ack with
      | Err _ => mret ()
      | Ok ack =>
        match target_of (remoteLeg d) with
        | None => panic
        | Some a => _ ← on_px (tp_send (Network a) a (MReq ack)); mret ()
        end
      end
  end.

Definition handleInDialog (req : Request) (stx : option nat) : proc Proxy () :=
  dlg ← asks (λ p, px_dialogs p !! dialogKey req);
  match dlg ≫= remoteLeg with
  | None => px_Respond stx (NewResponse 481 [])
  | Some leg =>
    match stx with
    | None => panic
    | Some x =>
      t ← on_px (get_server x);
      match t with
      | None => panic
      | Some t =>
        if negb (dialogSourceAllowed dlg (s_src t)) then px_Respond stx (NewResponse 403 [])
        else
          fwd ← prepareBranch req (Some leg) true;
          match fwd with
          | Err e => px_Respond stx (NewResponse (if e == ErrMaxForwards then 483 else 500) [])
          | Ok fwd =>
            whenp (Req_Method req == BYE) (update (λ p, with_px_dialogs (delete (dialogKey req) (px_dialogs p)) p));;
            go (PForward fwd (Some leg) x)
          end
      end
    end
  end.

(** [forwardAndCollect] up to the wait. *)
Definition forward_send (fwd : Request) (target : option Uri) (stx : nat) : proc Proxy () :=
  match target_of target with
  | None => panic
  | Some dst =>
    r ← px_Request fwd dst;
    match r with
    | Err _ => px_Respond (Some stx) (NewResponse 500 [])
    | Ok ctx => go (PCollect ctx stx)
    end
  end.

(** Its end: the first event, or the timeout of a minute. *)
Definition forward_collect (stx : nat) (answer : option TxEvent) : proc Proxy () :=
  match answer with
  | Some (EvResponse resp) => px_Respond (Some stx) resp
  | _ => px_Respond (Some stx) (NewResponse 500 [])
  end.

(** ** The request handler *)

Definition handleInitial (req : Request) (stx : option nat) : proc Proxy () :=
  resolve ← asks ResolveTargets;
  match resolve with
  | None => px_Respond stx (NewResponse 500 [])
  | Some f =>
    match f req with
    | Ok (tgt :: targets) =>
      if Tag (to_of (Req_headers req)) != [] then handleInDialog req stx else fork req stx (tgt :: targets)
    | _ => px_Respond stx (NewResponse 500 [])
    end
  end.

Definition handleRegister (req : Request) (stx : option nat) : proc Proxy () :=
  c ← asks px_cfg; if RelayRegister c then handleInitial req stx else px_Respond stx (NewResponse 403 []).

Definition Proxy_handleRequest (req : Request) (src : Addr) (stx : option nat) : proc Proxy () :=
  let m := Req_Method req in
  if m == ACK then handleAck req src
  else if m == CANCEL then handleCancel req stx
  else if m == BYE then handleInDialog req stx
  else if bool_decide (m ∈ [INVITE; SUBSCRIBE; REFER]) then handleInitial req stx
  else if m == REGISTER then handleRegister req stx
  else if bool_decide (m ∈ [MESSAGE; OPTIONS; INFO; NOTIFY; UPDATE]) then handleInitial req stx;; handleInitial req stx
  else px_Respond stx (NewResponse 501 []).

(** ** Steps *)

Definition on_px_effect (e : effect) : proc Proxy () :=
  match e with EOnRequest req src stx => Proxy_handleRequest req src stx | EPanic => panic | _ => mret () end.

Definition Proxy_handlePacket (pkt : Packet) : proc Proxy () :=
  n ← asks (λ p, length (trace (px_tm p)));
  on_px (handlePacket pkt);;
  new ← asks (λ p, drop n (trace (px_tm p)));
  each on_px_effect new.

(** One wake-up of a goroutine; [late] says that its timer fires rather than an
    event arrives.  [true] when it goes on. *)
Definition wake (t : ptask) (late : bool) : proc Proxy bool :=
  match t with
  | PRun key b stx =>
    if late then runBranch_deadline key b stx;; mret false
    else
      s ← get_bs b;
      match s with
      | None => mret true
      | Some s =>
        c ← on_px (get_client (bs_ctx s));
        match head (default [] (c_events <$> c)) with
        | Some ev => on_px (consume (bs_ctx s));; runBranch_event key b stx ev
        | None => mret true
        end
      end
  | PTimerC key stx => if late then timerC_fire key stx;; mret false else mret true
  | PForward req target stx => forward_send req target stx;; mret false
  | PCollect ctx stx =>
    if late then forward_collect stx None;; mret false
    else
      c ← on_px (get_client ctx);
      match head (default [] (c_events <$> c)) with
      | Some ev => on_px (consume ctx);; forward_collect stx (Some ev);; mret false
      | None => mret true
      end
  end.

(** The [i]-th goroutine wakes up. *)
Definition wake_task (i : nat) (late : bool) : proc Proxy () :=
  l ← asks px_tasks;
  match l !! i with
  | None => mret ()
  | Some t =>
    on ← wake t late;
    whenp (negb on) (update (λ p, with_px_tasks (delete i (px_tasks p)) p))
  end.
End Proxy.
