(* ===== verification/ProxyTheorems.v ===== *)
(** * Theorems of the proxy

    What a forwarded request keeps, which failure goes upstream, which requests may
    end a dialog, and the schedules in which calls go wrong. *)

From S2P Require Import Prelude GoStrings Params Uri Headers HeadersMap Message Net Transport Ids Transaction Proc Dialog Ua UaTheorems Proxy.

(** ** Forwarded requests *)

Lemma clone_headers req : Req_headers (Request_Clone req) = Req_headers req.
Proof. unfold Request_Clone. cbn [Req_headers]. unfold Headers_Clone. apply map_id. Qed.

(** The headers a proxy may change. *)
Definition hop_names : list str := [lit "Via"; lit "Max-Forwards"; lit "Record-Route"].

(** A forwarded request against the one received. *)
Record forwards (p : Proxy) (branch : str) (target : option Uri) (req out : Request) : Prop := {
  fw_method : Req_Method out = Req_Method req;
  fw_target : Req_Uri out = target;
  fw_body : default [] (Req_body out) = default [] (Req_body req);
  fw_via : Headers_All (Req_headers out) "Via" =
           HVia (proxy_via (px_Host p) (px_port p) branch) :: Headers_All (Req_headers req) "Via";
  fw_hops : ∀ n, Headers_Get (Req_headers req) "Max-Forwards" = Some (HMaxForwards n) →
            (0 < n)%Z ∧ Headers_All (Req_headers out) "Max-Forwards" = [HMaxForwards (n - 1)];
  fw_route : Headers_All (Req_headers out) "Record-Route" =
             Headers_All (Req_headers req) "Record-Route" ++
             (if RecordRoute (px_cfg p) then [record_route (px_Host p) (px_port p)] else []);
  fw_rest : ∀ n, CanonicalName n ∉ hop_names → Headers_All (Req_headers out) n = Headers_All (Req_headers req) n
}.

Lemma decrement_spec h :
  (∃ n, Headers_Get h "Max-Forwards" = Some (HMaxForwards n) ∧ (n ≤ 0)%Z ∧ decrement h = Err ErrMaxForwards) ∨
  (∃ h', decrement h = Ok h' ∧
     (∀ n, Headers_Get h "Max-Forwards" = Some (HMaxForwards n) →
           (0 < n)%Z ∧ Headers_All h' "Max-Forwards" = [HMaxForwards (n - 1)]) ∧
     ∀ n, CanonicalName n ≠ lit "Max-Forwards" → Headers_All h' n = Headers_All h n).
Proof.
  unfold decrement. destruct (Headers_Get h "Max-Forwards") as [x|] eqn:E; [|right; by exists h].
  destruct x as [K V|v|q|l|m|l|t|a K|a K]; try (right; by exists h).
  destruct (Z.leb_spec m 0); [left; by exists m|]. right. eexists. split; [done|]. split.
  - intros n [= <-]. split; [done|]. by rewrite Headers_All_Set.
  - intros n Hn. rewrite Headers_All_Set. by rewrite bool_decide_false.
Qed.

Lemma branch_request_all req target host port rr branch h n :
  Headers_All (Req_headers (branch_request req target host port rr (Some branch) h)) n =
  (if bool_decide (lit "Via" = CanonicalName n) then [HVia (proxy_via host port branch)] else []) ++ Headers_All h n ++
  (if rr && bool_decide (lit "Record-Route" = CanonicalName n) then [record_route host port] else []).
Proof.
  unfold branch_request. cbn [Req_headers]. unfold Headers_Prepend, Headers_Add.
  assert (∀ x, Headers_All [x] n = if cname x == CanonicalName n then [x] else []) as Hone by done.
  destruct rr; rewrite ?Headers_All_app, !Hone, <-?app_assoc; cbn [andb]; by rewrite ?app_nil_r.
Qed.

Section Proxy.
Context `{Sender} `{Entropy}.

(** C37: the proxy refuses a request whose Max-Forwards is used up, and otherwise
    forwards it to the target with its own Via on top of the ones received,
    Max-Forwards one less, its Record-Route last when it records routes, and every
    other header, the method and the body as they came. *)
Theorem forwarded_request (req : Request) (target : option Uri) (p : Proxy) :
  (∃ n, Headers_Get (Req_headers req) "Max-Forwards" = Some (HMaxForwards n) ∧ (n ≤ 0)%Z ∧
        prepareBranch req target true p = Ret (Err ErrMaxForwards, p)) ∨
  (∃ branch out, prepareBranch req target true p = Ret (Ok out, with_px_reads (S (px_reads p)) p) ∧
                 forwards p branch target req out).
Proof.
  unfold prepareBranch. rewrite clone_headers.
  destruct (decrement_spec (Req_headers req)) as [(n & Hn & Hle & E)|(h & E & Hhops & Hrest)]; rewrite E.
  - left. by exists n.
  - right. set (b := NewBranch (rand_read (px_reads p) 12) (clock (px_reads p)) pid (fallback (px_reads p))).
    exists b, (branch_request req target (px_Host p) (px_port p) (RecordRoute (px_cfg p)) (Some b) h).
    split; [done|]. split; try done.
    + cbn. by destruct (Req_body req) as [[|c s]|].
    + rewrite branch_request_all, Hrest by done. cbn. by rewrite andb_false_r, app_nil_r.
    + intros n Hn. destruct (Hhops n Hn) as [Hpos Hall]. split; [done|]. rewrite branch_request_all, Hall. cbn.
      by rewrite andb_false_r.
    + rewrite branch_request_all, Hrest by done. cbn. by rewrite andb_true_r.
    + intros n Hn. unfold hop_names in Hn. rewrite branch_request_all, Hrest by set_solver.
      rewrite !bool_decide_false by set_solver. by rewrite andb_false_r, app_nil_r.
Qed.

(** ** Failed groups *)

(** [best] is the first response of the highest rank. *)
Definition best_of (l : list (option Response)) (best : Response) : Prop :=
  ∃ pre post, l = pre ++ Some best :: post ∧
    (∀ r, Some r ∈ pre → (rank (StatusCode r) < rank (StatusCode best))%Z) ∧
    (∀ r, Some r ∈ post → (rank (StatusCode r) ≤ rank (StatusCode best))%Z).

Lemma pick_from pre b post l :
  (∀ r, Some r ∈ pre → (rank (StatusCode r) < rank (StatusCode b))%Z) →
  (∀ r, Some r ∈ post → (rank (StatusCode r) ≤ rank (StatusCode b))%Z) →
  ∃ best, fold_left better l (Some b) = Some best ∧ best_of (pre ++ Some b :: post ++ l) best.
Proof.
  revert pre b post. induction l as [|x l IH]; intros pre b post Hpre Hpost; cbn [fold_left].
  - exists b. split; [done|]. exists pre, post. by rewrite app_nil_r.
  - destruct x as [r|]; cbn [better].
    + destruct (Z.ltb_spec (rank (StatusCode b)) (rank (StatusCode r))) as [Hlt|Hge].
      * destruct (IH (pre ++ Some b :: post) r []) as (best & Hb & Hbest).
        { intros r'. rewrite elem_of_app, elem_of_cons. intros [Hr|[[= ->]|Hr]]; [apply Hpre in Hr|done|apply Hpost in Hr]; lia. }
        { by intros r' ?%not_elem_of_nil. }
        exists best. split; [done|]. by rewrite <-app_assoc in Hbest.
      * destruct (IH pre b (post ++ [Some r])) as (best & Hb & Hbest); [done| |].
        { intros r'. rewrite elem_of_app, list_elem_of_singleton. intros [Hr|[= ->]]; [by apply Hpost|done]. }
        exists best. split; [done|]. by rewrite <-app_assoc in Hbest.
    + destruct (IH pre b (post ++ [None])) as (best & Hb & Hbest); [done| |].
      { intros r'. rewrite elem_of_app, list_elem_of_singleton. intros [Hr|?]; [by apply Hpost|done]. }
      exists best. split; [done|]. by rewrite <-app_assoc in Hbest.
Qed.

Lemma pickBestResponse_spec l :
  (pickBestResponse l = None ∧ ∀ r, Some r ∉ l) ∨ ∃ best, pickBestResponse l = Some best ∧ best_of l best.
Proof.
  unfold pickBestResponse.
  assert (∀ nones, (∀ r, Some r ∉ nones) →
    (fold_left better l None = None ∧ ∀ r, Some r ∉ nones ++ l) ∨
    ∃ best, fold_left better l None = Some best ∧ best_of (nones ++ l) best) as Hgo; [|apply (Hgo []); set_solver].
  induction l as [|x l IH]; intros nones Hn; cbn [fold_left]; [left; by rewrite app_nil_r|].
  destruct x as [r|]; cbn [better].
  - right. destruct (pick_from nones r [] l) as (best & Hb & Hbest); [|by intros ? ?%not_elem_of_nil|by exists best].
    intros r' Hr. by apply Hn in Hr.
  - destruct (IH (nones ++ [None])) as [[Hf Hno]|(best & Hf & Hbest)].
    + intros r. rewrite elem_of_app, list_elem_of_singleton. intros [Hr|?]; [by eapply Hn|done].
    + left. split; [done|]. by rewrite <-app_assoc in Hno.
    + right. exists best. split; [done|]. by rewrite <-app_assoc in Hbest.
Qed.

Lemma forallb_pending l : forallb isFinal l = false → ∃ s, s ∈ l ∧ isFinal s = false.
Proof.
  induction l as [|s l IH]; [done|]. cbn [forallb]. destruct (isFinal s) eqn:E; [|intros _; exists s; set_solver].
  intros Hl. destruct (IH Hl) as (t & Ht & Hf). exists t. set_solver.
Qed.

Lemma forallb_final l : forallb isFinal l = true → Forall (λ s, isFinal s = true) l.
Proof. intros Hf. apply Is_true_true, Forall_forallb in Hf. eapply Forall_impl; [exact Hf|]. intros s. apply Is_true_true. Qed.

Lemma existsb_pending l : existsb (λ s, negb (isFinal s)) l = negb (forallb isFinal l).
Proof. induction l as [|s l IH]; [done|]. cbn [existsb forallb]. by rewrite IH, negb_andb. Qed.

Lemma no_pending l : forallb isFinal l = true → List.filter (λ s, negb (isFinal s)) l = [].
Proof. induction l as [|s l IH]; [done|]. cbn [forallb List.filter]. intros [-> Hl]%andb_true_iff. by apply IH. Qed.

(** Cancelling branches leaves their records alone, so it cancels those that were
    pending at the start. *)
Definition cancel_each (l : list branchState) : proc Proxy () := each (λ s, _ ← on_px (Cancel (bs_ctx s)); mret ()) l.

Lemma cancel_others_pending l p :
  cancel_others None l p = cancel_each (List.filter (λ s, negb (isFinal s)) (omap (λ b, bs_heap p !! b) l)) p.
Proof.
  remember (bs_heap p) as h eqn:Eh. revert p Eh. induction l as [|b l IH]; intros p Eh; [done|].
  unfold cancel_others. cbn [each omap list_omap]. fold (cancel_others None l).
  unfold get_bs. unfold mbind at 1, proc_bind at 1. rewrite run_asks, <-Eh.
  destruct (h !! b) as [s|]; [|by apply IH]. cbn [List.filter].
  rewrite (bool_decide_false (Some b = None)) by done. cbn [orb].
  destruct (isFinal s); cbn [negb]; [by apply IH|].
  unfold cancel_each. cbn [each]. unfold mbind at 1 2 3 4, proc_bind at 1 2 3 4. unfold on_px, on.
  destruct (Cancel (bs_ctx s) (px_tm p)) as [r m]. cbn. by apply IH.
Qed.

(** What a failure of a branch is: an error of its transaction, or a final response
    that is no 2xx. *)
Definition failed_with (ev : TxEvent) : option Response :=
  match ev with
  | EvErr _ => Some (NewResponse 504 [])
  | EvResponse r => if (StatusCode r <? 300)%Z then None else Some r
  end.

(** C38: how a failing group answers.  The failure of a branch is recorded and the
    group is looked at: while a branch is pending, or after the group was cancelled,
    nothing is sent upstream; once every branch started so far is final the first
    response of the highest rank goes upstream, without its Vias, or a 500 when no
    branch has a response, and the group is forgotten.  Only Timer C answers with
    branches pending: unless the group was cancelled or every branch is final, it
    cancels the pending branches, sends a 504 and forgets the group. *)
Theorem group_failure (key : str) (stx : nat) (p : Proxy) :
  let branches := finals p key in
  (∀ b ev r, failed_with ev = Some r →
     runBranch_event key b stx ev p = (markFinal b r;; checkGroupDone key stx;; mret false) p) ∧
  (((is_cancelled p key = true ∨ ∃ s, s ∈ branches ∧ isFinal s = false) ∧ checkGroupDone key stx p = Ret ((), p)) ∨
   (is_cancelled p key = false ∧ Forall (λ s, isFinal s = true) branches ∧
    ∃ best, ((∀ r, Some r ∉ map bs_final branches) ∧ best = NewResponse 500 [] ∨ best_of (map bs_final branches) best) ∧
      checkGroupDone key stx p = (px_Respond (Some stx) (forwarded best);; cleanupGroup key) p)) ∧
  (((is_cancelled p key = true ∨ Forall (λ s, isFinal s = true) branches) ∧ timerC_fire key stx p = Ret ((), p)) ∨
   (is_cancelled p key = false ∧ (∃ s, s ∈ branches ∧ isFinal s = false) ∧
    timerC_fire key stx p =
      (cancel_each (List.filter (λ s, negb (isFinal s)) branches);;
       px_Respond (Some stx) (NewResponse 504 []);; cleanupGroup key) p)).
Proof.
  intros bl. split; [|split].
  - intros b [r|e] x; cbn [failed_with]; [|by intros [= <-]].
    destruct (Z.ltb_spec (StatusCode r) 300); [done|]. intros [= <-]. unfold runBranch_event.
    destruct (Z.ltb_spec (StatusCode r) 200); [lia|]. destruct (Z.leb_spec 200 (StatusCode r)); [|lia].
    by destruct (Z.ltb_spec (StatusCode r) 300); [lia|].
  - unfold checkGroupDone. rewrite run_asks. fold bl.
    destruct (is_cancelled p key) eqn:Hc; [left; split; [by left|done]|].
    destruct (forallb isFinal bl) eqn:Hf; cbn [negb].
    + right. split; [done|]. split; [by apply forallb_final|].
      destruct (pickBestResponse_spec (map bs_final bl)) as [[-> Hno]|(best & -> & Hb)].
      * exists (NewResponse 500 []). split; [by left|done].
      * exists best. split; [by right|done].
    + left. split; [|done]. right. by apply forallb_pending.
  - unfold timerC_fire. rewrite run_asks. fold bl.
    destruct (is_cancelled p key) eqn:Hc; [left; split; [by left|done]|].
    destruct (forallb isFinal bl) eqn:Hf.
    + left. split; [right; by apply forallb_final|]. unfold mbind at 1, proc_bind at 1.
      rewrite cancel_others_pending. change (omap _ _) with bl. rewrite no_pending by done. cbn.
      by rewrite existsb_pending, Hf.
    + right. split; [done|]. split; [by apply forallb_pending|]. unfold mbind at 1 3, proc_bind at 1 3.
      rewrite cancel_others_pending. change (omap _ _) with bl. destruct (cancel_each _ p) as [[[] p1]|]; [|done].
      by rewrite existsb_pending, Hf.
Qed.

(** ** Requests in a dialog *)

Lemma px_Respond_frame x resp p p' :
  px_Respond (Some x) resp p = Ret ((), p') → px_dialogs p' = px_dialogs p ∧ px_tasks p' = px_tasks p.
Proof.
  unfold px_Respond. destruct (_ || _); [by intros [= <-]|]. intros (r & p1 & E & [= <-])%run_inv.
  unfold on_px, on in E. destruct (Respond x resp (px_tm p)) as [a m]. by injection E as <- <-.
Qed.

(** The BYEs the proxy forwards: of a dialog it knows, from one of its legs. *)
Definition bye_allowed (p : Proxy) (req : Request) (x : nat) (d : proxyDialog) (leg : Uri) : Prop :=
  px_dialogs p !! dialogKey req = Some d ∧ remoteLeg d = Some leg ∧
  ∃ t, heap (px_tm p) !! x = Some (STx t) ∧ dialogSourceAllowed (Some d) (s_src t) = true.

(** A BYE, whatever the dialogs are. *)
Lemma proxy_bye_cases (req : Request) (src : Addr) (x : nat) (p p' : Proxy) :
  Req_Method req = BYE → Proxy_handleRequest req src (Some x) p = Ret ((), p') →
  (∃ d leg branch fwd, bye_allowed p req x d leg ∧ forwards p branch (Some leg) req fwd ∧
     px_dialogs p' = delete (dialogKey req) (px_dialogs p) ∧ px_tasks p' = px_tasks p ++ [PForward fwd (Some leg) x]) ∨
  (((∀ d leg, ¬ bye_allowed p req x d leg) ∨
    ∃ n, Headers_Get (Req_headers req) "Max-Forwards" = Some (HMaxForwards n) ∧ (n ≤ 0)%Z) ∧
   px_dialogs p' = px_dialogs p ∧ px_tasks p' = px_tasks p).
Proof.
  intros Hm. unfold Proxy_handleRequest. rewrite Hm. change (handleInDialog req (Some x) p = Ret ((), p') →
    (∃ d leg branch fwd, bye_allowed p req x d leg ∧ forwards p branch (Some leg) req fwd ∧
       px_dialogs p' = delete (dialogKey req) (px_dialogs p) ∧ px_tasks p' = px_tasks p ++ [PForward fwd (Some leg) x]) ∨
    (((∀ d leg, ¬ bye_allowed p req x d leg) ∨
      ∃ n, Headers_Get (Req_headers req) "Max-Forwards" = Some (HMaxForwards n) ∧ (n ≤ 0)%Z) ∧
     px_dialogs p' = px_dialogs p ∧ px_tasks p' = px_tasks p)).
  unfold handleInDialog. rewrite run_asks.
  destruct (px_dialogs p !! dialogKey req ≫= remoteLeg) as [leg|] eqn:Hleg.
  2: { intros Hr%px_Respond_frame. right. split; [|done]. left. intros d leg (Hd & Hl & _). rewrite Hd in Hleg. cbn in Hleg. congruence. }
  destruct (px_dialogs p !! dialogKey req) as [d|] eqn:Hd; [|done]. cbn [mbind option_bind] in Hleg.
  assert (on_px (get_server x) p = Ret (match heap (px_tm p) !! x with Some (STx t) => Some t | _ => None end, p)) as Hget
    by (destruct p; done).
  unfold mbind at 1, proc_bind at 1. rewrite Hget. destruct (heap (px_tm p) !! x) as [[c|t]|] eqn:Ht; [done| |done].
  destruct (dialogSourceAllowed (Some d) (s_src t)) eqn:Ha; cbn [negb].
  2: { intros Hr%px_Respond_frame. right. split; [|done]. left. intros d' leg' (Hd' & _ & t' & Ht' & Ha').
       rewrite Hd in Hd'. rewrite Ht in Ht'. injection Hd' as <-. injection Ht' as <-. congruence. }
  unfold mbind at 1, proc_bind at 1.
  destruct (forwarded_request req (Some leg) p) as [(n & Hn & Hle & ->)|(branch & out & -> & Hf)].
  - intros Hr%px_Respond_frame. right. split; [|done]. right. by exists n.
  - rewrite Hm. cbn. intros [= <-]. left. exists d, leg, branch, out.
    split; [by split_and!; [done|done|exists t]|]. by split_and!.
Qed.
End Proxy.

(** ** Concrete proxies *)

Definition ex_proxy : Proxy :=
  SetResolveTargets (Some (λ _, Ok [Some (ua_ex_uri "bob" "10.0.0.2"); Some (ua_ex_uri "bob" "10.0.0.3")]))
    (NewProxy (NewTxManager "10.0.0.9" 5060) "10.0.0.9" 5060 (mkProxyConfig false 0 false)).

Definition px_run (f : proc Proxy ()) (p : outcome Proxy) : outcome Proxy :=
  match p with Ret p => match f p with Ret (_, p') => Ret p' | Panic => Panic end | Panic => Panic end.
Definition px_packet (host : str) (m : Message) : outcome Proxy → outcome Proxy :=
  px_run (Proxy_handlePacket (H := ok_sender_ua) (H0 := ex_entropy) (mkPacket m (mkAddr "udp" host 5060))).
Definition px_wake (i : nat) (late : bool) : outcome Proxy → outcome Proxy :=
  px_run (wake_task (H := ok_sender_ua) (H0 := ex_entropy) i late).

(** The requests the proxy has sent, each with its destination. *)
Definition px_sent (p : outcome Proxy) : list (Request * str) :=
  match p with
  | Ret p => omap (λ e, match e with ESend (MReq r) a _ => Some (r, Addr_Host a) | _ => None end) (trace (px_tm p))
  | Panic => []
  end.
Definition px_sent_to (p : outcome Proxy) : list (Method * str) := map (λ x, (Req_Method x.1, x.2)) (px_sent p).
Definition px_statuses (p : outcome Proxy) : list Z :=
  match p with
  | Ret p => omap (λ e, match e with ESend (MResp r) _ _ => Some (StatusCode r) | _ => None end) (trace (px_tm p))
  | Panic => []
  end.
Definition px_legs (p : outcome Proxy) : list (option str) :=
  match p with Ret p => map (λ x, Uri_Host <$> remoteLeg x.2) (map_to_list (px_dialogs p)) | Panic => [] end.

(** The answer of the host to the [i]-th request sent, with a Contact there. *)
Definition px_answer (i : nat) (code : Z) (contact : bool) (p : outcome Proxy) : outcome Proxy :=
  match px_sent p !! i with
  | Some (r, host) =>
    px_packet host (MResp (resp_with_headers (NewResponse code [])
      (Headers_Set (Req_headers r) (HAddr (SetTag (ua_ex_address "bob" host) "b") "To") ++
       (if contact then [HNameAddr (mkNameAddrList "Contact" [ua_ex_address "bob" host] false)] else [])))) p
  | None => p
  end.

Definition ex_forked : outcome Proxy :=
  px_packet "10.0.0.1" (MReq (ex_inbound INVITE INVITE "z9hG4bK1" "a" [])) (Ret ex_proxy).

(** A call through the proxy: the first branch rings, the second is taken. *)
Definition ex_call (contact : bool) : outcome Proxy := px_wake 1 false (px_answer 1 200 contact ex_forked).

Example ex_call_ok :
  px_sent_to ex_forked = [(INVITE, lit "10.0.0.2"); (INVITE, lit "10.0.0.3")] ∧
  px_statuses (ex_call true) = [200%Z] ∧ px_legs (ex_call true) = [Some (lit "10.0.0.3")].
Proof. by vm_compute. Qed.

Definition px_state (o : outcome Proxy) : Proxy := match o with Ret p => p | Panic => ex_proxy end.

Definition running (o : outcome Proxy) : bool := match o with Ret _ => true | Panic => false end.

Lemma px_run_state f p : running (px_run f (Ret p)) = true → f p = Ret ((), px_state (px_run f (Ret p))).
Proof. unfold px_run. by destruct (f p) as [[[] p']|]. Qed.

(** ** Calls that go wrong *)

(** The proxy runs its handler twice on a MESSAGE, and forwards it twice. *)
Lemma message_forked_twice :
  px_sent_to (px_packet "10.0.0.1" (MReq (ex_inbound MESSAGE MESSAGE "z9hG4bK1" "a" [])) (Ret ex_proxy)) =
  [(MESSAGE, lit "10.0.0.2"); (MESSAGE, lit "10.0.0.3"); (MESSAGE, lit "10.0.0.2"); (MESSAGE, lit "10.0.0.3")].
Proof. by vm_compute. Qed.

(** A cancelled INVITE never gets a final response: once the branches have answered
    487 and Timer C has fired, the only response sent is the 200 to the CANCEL. *)
Lemma cancelled_invite_unanswered :
  px_statuses (px_wake 0 true (px_wake 0 false (px_wake 0 false (px_answer 1 487 false (px_answer 0 487 false
    (px_packet "10.0.0.1" (MReq (ex_inbound CANCEL CANCEL "z9hG4bK1" "a" [])) ex_forked)))))) = [200%Z].
Proof. by vm_compute. Qed.

(** A second 2xx replaces the dialog of the first, whose answer the caller has. *)
Lemma second_answer_takes_dialog :
  px_legs (px_wake 0 false (px_answer 0 200 true (ex_call true))) = [Some (lit "10.0.0.2")] ∧
  px_statuses (px_wake 0 false (px_answer 0 200 true (ex_call true))) = [200%Z].
Proof. by vm_compute. Qed.

(** Requests of the callee are sent back to the callee. *)
Lemma callee_bye_reflected :
  let p := ex_call true in
  let n := length (px_sent p) in
  drop n (px_sent_to (px_wake 2 false (px_packet "10.0.0.3" (MReq (ex_inbound BYE BYE "z9hG4bK5" "b" "a")) p))) =
  [(BYE, lit "10.0.0.3")].
Proof. by vm_compute. Qed.

(** The ACK of a call whose 2xx had no Contact crashes the proxy. *)
Lemma ack_without_contact_panics :
  px_packet "10.0.0.1" (MReq (ex_inbound ACK ACK "z9hG4bK6" "a" "b")) (ex_call false) = Panic.
Proof. by vm_compute. Qed.

(** A BYE whose CSeq says ACK crashes the proxy. *)
Lemma proxy_bye_panics : px_packet "6.6.6.6" (MReq (ex_inbound BYE ACK "z9hG4bKx" "a" "b")) (Ret ex_proxy) = Panic.
Proof. by vm_compute. Qed.

(** A branch that fails before the loop of [fork] has started the next one ends the
    whole group: the caller is told 486 while the second branch is still to come. *)
Definition fork_by_steps (code : Z) : outcome Proxy :=
  let req := ex_inbound INVITE INVITE "z9hG4bK1" "a" [] in
  let round tgt := px_run (_ ← fork_target (H := ok_sender_ua) (H0 := ex_entropy) req (serverTxKey req) 0 tgt; mret ()) in
  let p := px_run (on_px (handlePacket (H := ok_sender_ua) (mkPacket (MReq req) (mkAddr "udp" "10.0.0.1" 5060)));;
                   fork_start (serverTxKey req)) (Ret ex_proxy) in
  let p := px_wake 0 false (px_answer 0 code false (round (Some (ua_ex_uri "bob" "10.0.0.2")) p)) in
  px_wake 0 false (px_answer 2 200 true (round (Some (ua_ex_uri "bob" "10.0.0.3")) p)).

Lemma early_failure_ends_group :
  px_statuses (fork_by_steps 486) = [486%Z] ∧
  px_sent_to (fork_by_steps 486) = [(INVITE, lit "10.0.0.2"); (ACK, lit "10.0.0.2"); (INVITE, lit "10.0.0.3"); (ACK, lit "10.0.0.3")].
Proof. by vm_compute. Qed.

(** A response carries one Via however many the request had, so only the last hop
    can route it. *)
Lemma response_loses_vias :
  let via b := HVia (proxy_via "p" 5060 b) in
  let req := req_with_headers (NewRequest OPTIONS None) [via "1"; via "2"; HCSeq (mkCSeq 1 OPTIONS)] in
  length (Headers_All (Resp_headers (fill_response req (NewResponse 200 []))) "Via") = 1.
Proof. by vm_compute. Qed.
