(* ===== verification/ProxySteps.v ===== *)
(** * The proxy as a state machine

    Every move of the proxy is a [px_step]: a packet, the handler of a request, a
    round of [fork] on its own, a wake-up of a goroutine, a step of the transaction
    layer, a change of its configuration.  By induction on the steps every dialog
    of the proxy comes from a call: a request it has a server transaction for, and
    a 2xx delivered to one of its branches. *)

From S2P Require Import Prelude GoStrings Params Uri Headers HeadersMap Message Net Transport Ids Transaction TxMachines TxGrowth Proc Dialog Ua UaTheorems Proxy ProxyTheorems.

(** ** Steps *)

Section Steps.
Context `{Sender} `{Entropy}.

Inductive px_step (p : Proxy) : Proxy → Prop :=
| PxPacket pkt p' : Proxy_handlePacket pkt p = Ret ((), p') → px_step p p'
| PxHandle req src stx p' : Proxy_handleRequest req src stx p = Ret ((), p') → px_step p p'
| PxForkStart key p' : fork_start key p = Ret ((), p') → px_step p p'
| PxForkTarget req key stx tgt on p' : fork_target req key stx tgt p = Ret (on, p') → px_step p p'
| PxWake i late p' : wake_task i late p = Ret ((), p') → px_step p p'
| PxTx l p' : on_px (step l) p = Ret ((), p') → px_step p p'
| PxRecordRoute on : px_step p (SetRecordRoute on p)
| PxResolve f : px_step p (SetResolveTargets f p).

(** A proxy made over a new manager, with its transport's address. *)
Definition px_reachable (p : Proxy) : Prop :=
  ∃ vh vp host port c, rtc px_step (NewProxy (NewTxManager vh vp) host port c) p.
End Steps.

(** ** Where dialogs come from *)

Definition contact_leg (resp : Response) : option Uri :=
  match First (contact_of (Resp_headers resp)) with Some c => Address_Uri c | None => None end.

(** [d] is the dialog of a call: [x] is the transaction of the caller's request,
    [resp] the 2xx that reached the branch [c]. *)
Definition from_call (m : TxManager) (k : str) (d : proxyDialog) : Prop :=
  ∃ x t c resp, heap m !! x = Some (STx t) ∧ callid_of (Req_headers (s_req t)) = k ∧ callerAddr d = s_src t ∧
    EDeliver c (EvResponse resp) ∈ deliveries m ∧ (200 ≤ StatusCode resp < 300)%Z ∧ remoteLeg d = contact_leg resp.

Record px_inv (p : Proxy) : Prop := mkPxInv {
  pi_tx : tx_sound (px_tm p);
  pi_dialogs : ∀ k d, px_dialogs p !! k = Some d → from_call (px_tm p) k d
}.

Lemma from_call_grows m m' k d : tx_grows m m' → from_call m k d → from_call m' k d.
Proof.
  intros [_ Hs Hd] (x & t & c & resp & Hx & Hk & Ha & He & Hr & Hl).
  destruct (Hs x t Hx) as (t' & Hx' & Hreq & Hsrc). exists x, t', c, resp. rewrite Hreq, Hsrc. auto 7.
Qed.

(** A change that touches neither the dialogs nor the transactions. *)
Lemma px_inv_same (p p' : Proxy) : px_tm p' = px_tm p → px_dialogs p' = px_dialogs p → px_inv p → px_inv p'.
Proof. intros E1 E2 [? ?]. by split; rewrite ?E1, ?E2. Qed.

(** Also that an event was delivered. *)
Definition px_told (c : nat) (ev : TxEvent) (p : Proxy) : Prop := px_inv p ∧ EDeliver c ev ∈ deliveries (px_tm p).

Section Invariant.
Context `{Sender} `{Entropy}.

(** [I] holds of every later proxy of the kind described by [px_inv]. *)
Record px_stable (I : Proxy → Prop) : Prop := mkStable {
  st_same p p' : px_tm p' = px_tm p → px_dialogs p' = px_dialogs p → I p → I p';
  st_fewer p k : I p → I (with_px_dialogs (delete k (px_dialogs p)) p);
  st_tx p m : tx_grows (px_tm p) m → I p → I (with_px_tm m p);
  st_inv p : I p → px_inv p
}.

Lemma px_inv_stable : px_stable px_inv.
Proof.
  split.
  - apply px_inv_same.
  - intros p k [Ht Hd]. split; [done|]. cbn. intros j d [_ Hj]%lookup_delete_Some. by apply Hd.
  - intros p m Hm [Ht Hd]. split; [apply Hm|]. intros k d Hk. eapply from_call_grows; [exact Hm|]. by apply Hd.
  - done.
Qed.

Lemma px_told_stable c ev : px_stable (px_told c ev).
Proof.
  destruct px_inv_stable as [H1 H2 H3 _]. split.
  - intros p p' E1 E2 [Hp He]. split; [by eapply H1|by rewrite E1].
  - intros p k [Hp He]. split; [by apply H2|done].
  - intros p m Hm [Hp He]. split; [by apply H3|]. by apply Hm.
  - by intros p [? _].
Qed.

Section Stable.
Context (I : Proxy → Prop) (HI : px_stable I).

Lemma px_tx {A} (m : M A) : (∀ m0, keeps (tx_grows m0) m) → always I (on_px m).
Proof.
  intros Hm p a p' Hp. unfold on_px, on. destruct (m (px_tm p)) as [b t] eqn:E. intros [= <- <-].
  apply (st_tx _ HI); [|done]. pose proof (Hm (px_tm p) (px_tm p)) as Hg. rewrite E in Hg. apply Hg, tx_grows_refl.
  apply (st_inv _ HI p Hp).
Qed.

Lemma px_update (f : Proxy → Proxy) :
  (∀ p, px_tm (f p) = px_tm p ∧ px_dialogs (f p) = px_dialogs p) → always I (update f).
Proof. intros Hf. apply always_update. intros p. destruct (Hf p). by apply (st_same _ HI). Qed.

Lemma px_reads_tx {A} (f : TxManager → A) : always I (on_px (gets f)).
Proof. apply px_tx. intros m0. apply keeps_gets. Qed.

Hint Extern 1 (always I (on_px (Respond _ _))) => apply px_tx; intros ?; apply (quiet_Respond _ (tx_grows_quiet _)) : proc.
Hint Extern 1 (always I (on_px (Cancel _))) => apply px_tx; intros ?; apply (quiet_Cancel _ (tx_grows_quiet _)) : proc.
Hint Extern 1 (always I (on_px (consume _))) => apply px_tx; intros ?; apply (quiet_consume _ (tx_grows_quiet _)) : proc.
Hint Extern 1 (always I (on_px (TxManager_Request _ _ _ _))) => apply px_tx; intros ?; apply grows_tx_request : proc.
Hint Extern 1 (always I (on_px (get_server _))) => apply px_reads_tx : proc.
Hint Extern 1 (always I (on_px (get_client _))) => apply px_reads_tx : proc.
Hint Extern 1 (always I (update _)) => by apply px_update : proc.
Hint Extern 1 (always I (go _)) => by apply px_update : proc.
Hint Extern 1 (always I (markFinal _ _)) => by apply px_update : proc.
Hint Extern 1 (always I (cleanupGroup _)) => by apply px_update : proc.
Hint Extern 1 (always I (fork_start _)) => by apply px_update : proc.
Hint Extern 1 (always I (get_bs _)) => apply always_asks : proc.

Lemma st_Respond stx resp : always I (px_Respond stx resp).
Proof. unfold px_Respond. always_auto. Qed.
Hint Resolve st_Respond : proc.

Lemma st_fresh {A} (f : nat → A) : always I (px_fresh f).
Proof. unfold px_fresh. always_auto. Qed.

Lemma st_Request req dst : always I (px_Request req dst).
Proof. unfold px_Request, px_branch, px_callid. always_auto; apply st_fresh. Qed.
Hint Resolve st_Request : proc.

Lemma st_prepare req target new : always I (prepareBranch req target new).
Proof. unfold prepareBranch, px_branch. always_auto; apply st_fresh. Qed.
Hint Resolve st_prepare : proc.

Lemma st_cancel_others w l : always I (cancel_others w l).
Proof. unfold cancel_others. always_auto. Qed.
Hint Resolve st_cancel_others : proc.

Lemma st_fork_target req key stx tgt : always I (fork_target req key stx tgt).
Proof. unfold fork_target. always_auto. Qed.
Hint Resolve st_fork_target : proc.

Lemma st_fork_targets req key stx l : always I (fork_targets req key stx l).
Proof. induction l as [|tgt l IH]; cbn [fork_targets]; always_auto. Qed.
Hint Resolve st_fork_targets : proc.

Lemma st_fork req stx l : always I (fork req stx l).
Proof. unfold fork. always_auto. Qed.

Lemma st_checkGroupDone key stx : always I (checkGroupDone key stx).
Proof. unfold checkGroupDone. always_auto. Qed.

Lemma st_timerC key stx : always I (timerC_fire key stx).
Proof. unfold timerC_fire. always_auto. Qed.

Lemma st_handleCancel req stx : always I (handleCancel req stx).
Proof. unfold handleCancel. always_auto. Qed.

Lemma st_tp_send n a msg : always I (on_px (tp_send n a msg)).
Proof.
  apply px_tx. intros m0. unfold tp_send. keeps_auto. apply (quiet_emit _ (tx_grows_quiet m0)). done.
Qed.

Lemma st_handleAck req src : always I (handleAck req src).
Proof. unfold handleAck. always_auto. apply st_tp_send. Qed.

Lemma st_handleInDialog req stx : always I (handleInDialog req stx).
Proof. unfold handleInDialog. always_auto. apply always_update. intros p. by apply (st_fewer _ HI). Qed.

Lemma st_handleInitial req stx : always I (handleInitial req stx).
Proof. unfold handleInitial. always_auto; first [apply st_handleInDialog|apply st_fork]. Qed.

Lemma st_handleRequest req src stx : always I (Proxy_handleRequest req src stx).
Proof.
  unfold Proxy_handleRequest, handleRegister.
  always_auto; first [apply st_handleAck|apply st_handleCancel|apply st_handleInDialog|apply st_handleInitial].
Qed.

Lemma st_tx_step l : always I (on_px (step l)).
Proof. apply px_tx. intros m0. apply grows_tx_step. Qed.

Lemma st_handlePacket pkt : always I (Proxy_handlePacket pkt).
Proof.
  unfold Proxy_handlePacket, on_px_effect. always_auto; [apply (st_tx_step (LPacket pkt))|apply st_handleRequest].
Qed.

Lemma st_forward_send req target stx : always I (forward_send req target stx).
Proof. unfold forward_send. always_auto. Qed.

Lemma st_forward_collect stx ev : always I (forward_collect stx ev).
Proof. unfold forward_collect. always_auto. Qed.

Lemma st_deadline key b stx : always I (runBranch_deadline key b stx).
Proof. unfold runBranch_deadline. always_auto. apply st_checkGroupDone. Qed.
End Stable.

(** Also that [x] is the server transaction of [t]'s request. *)
Definition px_served (c : nat) (ev : TxEvent) (x : nat) (t : ServerTx) (p : Proxy) : Prop :=
  px_told c ev p ∧ ∃ t', heap (px_tm p) !! x = Some (STx t') ∧ s_req t' = s_req t ∧ s_src t' = s_src t.

Lemma px_served_stable c ev x t : px_stable (px_served c ev x t).
Proof.
  destruct (px_told_stable c ev) as [H1 H2 H3 H4]. split.
  - intros p p' E1 E2 [Hp Ht]. split; [by eapply H1|by rewrite E1].
  - intros p k [Hp Ht]. split; [by apply H2|done].
  - intros p m Hm [Hp (t' & Ht & Hr & Hs)]. split; [by apply H3|].
    destruct (tg_server _ _ Hm x t' Ht) as (t2 & Ht2 & Hr2 & Hs2). exists t2. split; [done|]. by rewrite Hr2, Hs2.
  - by intros p [[? _] _].
Qed.

(** The dialog of a 2xx. *)
Lemma served_dialog c resp x t tag :
  (200 ≤ StatusCode resp < 300)%Z →
  let d := new_proxyDialog t resp tag in
  always (px_served c (EvResponse resp) x t) (update (λ p, with_px_dialogs (<[pd_callID d := d]> (px_dialogs p)) p)).
Proof.
  intros Hr d. apply always_update. intros p [[[Htx Hd] He] (t' & Ht' & Hreq & Hsrc)].
  split; [split; [split; [done|]|done]|by exists t']. cbn [px_dialogs with_px_dialogs px_tm]. intros k d'.
  rewrite lookup_insert_Some. intros [[<- <-]|[_ Hk]]; [|by apply Hd].
  exists x, t', c, resp. rewrite Hreq, Hsrc. split_and!; first [done|lia].
Qed.

Lemma st_deliverFinal c key b x resp :
  (200 ≤ StatusCode resp < 300)%Z → always (px_told c (EvResponse resp)) (deliverFinal key b x resp).
Proof.
  intros Hr. pose proof (px_told_stable c (EvResponse resp)) as HI. unfold deliverFinal.
  apply always_bind; [apply always_asks|]. intros p0. destruct (is_cancelled p0 key); [apply always_ret|].
  apply always_bind; [by apply px_update|]. intros _. apply always_bind; [by apply st_cancel_others|]. intros _.
  apply always_bind; [|intros r; apply always_bind; [by apply st_Respond|intros _; by apply px_update]].
  destruct (_ && _); [|apply always_ret]. intros p r p' Hp. unfold mbind at 1, proc_bind at 1.
  unfold on_px, on, get_server, gets. cbn beta iota. replace (with_px_tm (px_tm p) p) with p by by destruct p.
  destruct (heap (px_tm p) !! x) as [[u|t]|] eqn:Hx; [done| |done]. intros E.
  assert (px_served c (EvResponse resp) x t p) as Hs by (split; [done|by exists t]).
  pose proof (px_served_stable c (EvResponse resp) x t) as HS.
  assert (px_served c (EvResponse resp) x t p') as [Hq _]; [|exact Hq].
  refine ((_ : always (px_served c (EvResponse resp) x t) _) p r p' Hs E). unfold px_tag. apply always_bind; [by apply st_fresh|]. intros tag.
  apply always_bind; [by apply served_dialog|]. intros _. apply always_bind; [by apply px_update|]. intros _. apply always_ret.
Qed.

Lemma told_inv {A} c ev (m : proc Proxy A) p a p' :
  always (px_told c ev) m → px_told c ev p → m p = Ret (a, p') → px_inv p'.
Proof. intros Hm Hp E. by destruct (Hm _ _ _ Hp E). Qed.

Lemma told_runBranch c key b x ev : always (px_told c ev) (runBranch_event key b x ev).
Proof.
  pose proof (px_told_stable c ev) as HI. destruct ev as [resp|e]; cbn [runBranch_event].
  - destruct (StatusCode resp <? 200)%Z eqn:Hlo; [apply always_ret|]. apply always_bind; [by apply px_update|]. intros _.
    destruct (_ && _) eqn:Hr; apply always_bind; try (intros; apply always_ret); [|by apply st_checkGroupDone].
    apply st_deliverFinal. lia.
  - apply always_bind; [by apply px_update|]. intros _. apply always_bind; [by apply st_checkGroupDone|intros; apply always_ret].
Qed.

(** The event a goroutine takes from a channel was delivered there. *)
Lemma take_event {A} x (f : TxEvent → proc Proxy A) (g : proc Proxy A) :
  (∀ ev, always (px_told x ev) (f ev)) → always px_inv g →
  always px_inv (c ← on_px (get_client x); match head (default [] (c_events <$> c)) with Some ev => f ev | None => g end).
Proof.
  intros Hf Hg p a p' Hp. unfold mbind at 1, proc_bind at 1. unfold on_px, on, get_client, gets. cbn beta iota.
  replace (with_px_tm (px_tm p) p) with p by by destruct p.
  destruct (heap (px_tm p) !! x) as [[t|t]|] eqn:Hx; cbn [fmap option_fmap option_map default]; [|by apply Hg..].
  destruct (c_events t) as [|ev l] eqn:He; cbn [head]; [by apply Hg|]. apply told_inv with (c := x) (ev := ev); [apply Hf|].
  split; [done|]. eapply (sd_events _ (pi_tx _ Hp)); [exact Hx|]. rewrite He. by constructor.
Qed.

Lemma px_consume I x : px_stable I → always I (on_px (consume x)).
Proof. intros HI. apply px_tx; [done|]. intros m0. apply (quiet_consume _ (tx_grows_quiet m0)). Qed.

Lemma inv_px_wake t late : always px_inv (wake t late).
Proof.
  pose proof px_inv_stable as HI. destruct t as [key b stx|key stx|req target stx|c stx]; cbn [wake].
  - destruct late; [apply always_bind; [by apply st_deadline|intros; apply always_ret]|].
    apply always_bind; [apply always_asks|]. intros [s|]; [|apply always_ret].
    apply take_event; [|apply always_ret]. intros ev.
    apply always_bind; [apply px_consume, px_told_stable|intros _; apply told_runBranch].
  - destruct late; [apply always_bind; [by apply st_timerC|intros; apply always_ret]|apply always_ret].
  - apply always_bind; [by apply st_forward_send|intros; apply always_ret].
  - destruct late; [apply always_bind; [by apply st_forward_collect|intros; apply always_ret]|].
    apply take_event; [|apply always_ret]. intros ev. pose proof (px_told_stable c ev) as HT.
    apply always_bind; [by apply px_consume|intros _]. apply always_bind; [by apply st_forward_collect|intros; apply always_ret].
Qed.

Lemma inv_wake_task i late : always px_inv (wake_task i late).
Proof.
  unfold wake_task. apply always_bind; [apply always_asks|]. intros l. destruct (l !! i) as [t|]; [|apply always_ret].
  apply always_bind; [apply inv_px_wake|]. intros on. apply always_whenp. apply px_update; [apply px_inv_stable|done].
Qed.

Lemma inv_px_step p p' : px_step p p' → px_inv p → px_inv p'.
Proof.
  pose proof px_inv_stable as HI. intros Hs Hp. destruct Hs.
  - by eapply st_handlePacket.
  - by eapply st_handleRequest.
  - assert (always px_inv (fork_start key)) as Hf by by apply px_update. by eapply Hf.
  - by eapply st_fork_target.
  - by eapply inv_wake_task.
  - by eapply st_tx_step.
  - by apply (px_inv_same p).
  - by apply (px_inv_same p).
Qed.

Lemma px_reachable_inv p : px_reachable p → px_inv p.
Proof.
  intros (vh & vp & host & port & c & Hr).
  assert (px_inv (NewProxy (NewTxManager vh vp) host port c)) as Hi.
  { split; [apply tx_sound_init|]. cbn. intros k d. by rewrite lookup_empty. }
  induction Hr as [|p1 p2 p3 Hs Hr IH]; [done|]. apply IH. by eapply inv_px_step.
Qed.

(** C39: whatever the schedule, a BYE ends a dialog of the proxy, and is forwarded
    to its remote leg, only when the dialog is known, the BYE came from one of its
    two legs and its Max-Forwards is not used up; any other leaves every dialog as
    it was and forwards nothing.  The dialog is one of a call: its caller is the
    source of a request with the same Call-ID that the proxy serves, and its remote
    leg the Contact of a 2xx delivered to a branch. *)
Theorem proxy_bye_authorised (req : Request) (src : Addr) (x : nat) (p p' : Proxy) :
  px_reachable p → Req_Method req = BYE → Proxy_handleRequest req src (Some x) p = Ret ((), p') →
  (∃ d leg branch fwd, bye_allowed p req x d leg ∧ from_call (px_tm p) (dialogKey req) d ∧
     forwards p branch (Some leg) req fwd ∧
     px_dialogs p' = delete (dialogKey req) (px_dialogs p) ∧ px_tasks p' = px_tasks p ++ [PForward fwd (Some leg) x]) ∨
  (((∀ d leg, ¬ bye_allowed p req x d leg) ∨
    ∃ n, Headers_Get (Req_headers req) "Max-Forwards" = Some (HMaxForwards n) ∧ (n ≤ 0)%Z) ∧
   px_dialogs p' = px_dialogs p ∧ px_tasks p' = px_tasks p).
Proof.
  intros Hr Hm E. destruct (proxy_bye_cases req src x p p' Hm E) as [(d & leg & branch & fwd & Ha & Hf)|Hno]; [left|by right].
  exists d, leg, branch, fwd. split_and!; try apply Hf; [done|]. apply (pi_dialogs _ (px_reachable_inv _ Hr)). apply Ha.
Qed.
End Invariant.

(** ** A call through a proxy *)

Abbreviation ex_reachable := (px_reachable (H := ok_sender_ua) (H0 := ex_entropy)).

Lemma reach_run (f : proc Proxy ()) o p' :
  (∀ q q', f q = Ret ((), q') → px_step (H := ok_sender_ua) (H0 := ex_entropy) q q') →
  (∀ q, o = Ret q → ex_reachable q) → px_run f o = Ret p' → ex_reachable p'.
Proof.
  intros Hf Ho. destruct o as [q|]; [|done]. cbn. destruct (f q) as [[[] q']|] eqn:E; [|done]. intros [= <-].
  destruct (Ho q eq_refl) as (vh & vp & host & port & c & Hq). exists vh, vp, host, port, c.
  eapply rtc_r; [exact Hq|]. by apply Hf.
Qed.

Lemma reach_packet host m o p' : (∀ q, o = Ret q → ex_reachable q) → px_packet host m o = Ret p' → ex_reachable p'.
Proof. apply reach_run. intros q q'. apply PxPacket. Qed.

Lemma reach_wake i late o p' : (∀ q, o = Ret q → ex_reachable q) → px_wake i late o = Ret p' → ex_reachable p'.
Proof. apply reach_run. intros q q'. apply PxWake. Qed.

Lemma reach_answer i code contact o p' :
  (∀ q, o = Ret q → ex_reachable q) → px_answer i code contact o = Ret p' → ex_reachable p'.
Proof. intros Ho. unfold px_answer. destruct (px_sent o !! i) as [[r host]|]; [by apply reach_packet|by apply Ho]. Qed.

Lemma ex_call_reachable contact p : ex_call contact = Ret p → ex_reachable p.
Proof.
  unfold ex_call. intros E. refine (reach_wake 1 false _ p _ E). clear. intros q E.
  refine (reach_answer 1 200 contact ex_forked q _ E). clear. intros q E. unfold ex_forked in E.
  refine (reach_packet _ _ _ q _ E). clear. intros q [= <-]. exists (lit "10.0.0.9"), 5060%Z, (lit "10.0.0.9"), 5060%Z, (mkProxyConfig false 0 false).
  apply rtc_once. exact (PxResolve _ _).
Qed.

Lemma px_state_eq o : running o = true → o = Ret (px_state o).
Proof. by destruct o. Qed.

Lemma proxy_bye_authorised_witness :
  let req := ex_inbound BYE BYE "z9hG4bK2" "a" "b" in
  let handle := Proxy_handleRequest (H := ok_sender_ua) (H0 := ex_entropy) req (mkAddr "udp" "10.0.0.1" 5060) (Some 0) in
  let p := px_state (ex_call true) in
  let p' := px_state (px_run handle (Ret p)) in
  handle p = Ret ((), p') ∧ px_dialogs p' = delete (dialogKey req) (px_dialogs p) ∧
  ∃ d, from_call (px_tm p) (dialogKey req) d.
Proof.
  intros req handle p p'. assert (handle p = Ret ((), p')) as E by (apply px_run_state; vm_compute; reflexivity). split; [exact E|].
  assert (ex_reachable p) as Hr.
  { apply (ex_call_reachable true), px_state_eq. vm_compute. reflexivity. }
  destruct (proxy_bye_authorised (H := ok_sender_ua) (H0 := ex_entropy) req (mkAddr "udp" "10.0.0.1" 5060) 0 p p' Hr eq_refl E)
    as [(d & leg & b & fwd & _ & Hd & _ & Hdel & _)|[_ [_ Ht]]]; [split; [exact Hdel|by exists d]|].
  apply (f_equal length) in Ht. vm_compute in Ht. discriminate Ht.
Defined.

(** Dialogs are filed under the Call-ID alone, by the 2xx of any request: a
    SUBSCRIBE of a stranger with the Call-ID of a call takes the place of its dialog
    once it is answered.  The caller's BYE is then refused, the stranger's goes to
    the callee. *)
Definition ex_hijacked : outcome Proxy :=
  px_wake 3 false (px_answer 5 200 true
    (px_packet "6.6.6.6" (MReq (ex_inbound SUBSCRIBE SUBSCRIBE "z9hG4bK7" "m" [])) (ex_call true))).

Lemma stranger_takes_dialog :
  let bye host := px_packet host (MReq (ex_inbound BYE BYE "z9hG4bK8" "a" "b")) in
  px_statuses (bye "10.0.0.1" (ex_call true)) = [200%Z] ∧
  px_statuses (bye "10.0.0.1" ex_hijacked) = [200%Z; 200%Z; 403%Z] ∧
  drop 6 (px_sent_to (px_wake 4 false (bye "6.6.6.6" ex_hijacked))) = [(BYE, lit "10.0.0.3")].
Proof. split_and!; by vm_compute. Qed.
