(* ===== verification/B2bua.v ===== *)
(** * [b2bua.go]: the back-to-back user agent

    Two user agents, the ingress and the egress, with a table of bridged sessions.
    The goroutine that waits for the egress leg is a [b2b_task] with a definition of
    its wake-up.  The media relay is an interface of the source; its calls and those
    of the session hooks are recorded.  A dialog pointer belongs to one of the two
    agents, so a leg is a pointer with its side.  [answers] are the answers the
    BYEs of [Hangup] get. *)

From S2P Require Import Prelude GoStrings Params Uri Headers HeadersMap Message Net Transport Ids Transaction Proc Dialog Ua UaTheorems.

(** ** State *)

Inductive leg := ALegOf (p : nat) | BLegOf (p : nat).

#[export] Instance leg_eq_dec : EqDecision leg.
Proof. solve_decision. Defined.

Record B2BSession := mkB2BSession { ses_ID : str; ALeg : nat; BLeg : nat; ASession : nat }.

#[export] Instance B2BSession_eq_dec : EqDecision B2BSession.
Proof. solve_decision. Defined.

(** The calls of the media relay and of the two hooks. *)
Inductive b2b_call :=
| RelayStart (a b : option Uri)
| RelayStop
| SessionStart (s : B2BSession)
| SessionEnd (s : B2BSession).

Inductive b2b_task := BWait (req : Request) (stx : option nat) (aDlg : nat) (sess : nat) (ct : str).

Record B2BUA := mkB2BUA {
  ingress : UA;
  egress : UA;
  b_sessions : gmap str B2BSession;
  RouteTarget : option (Request → result (option Uri));
  b_calls : list b2b_call;
  b_tasks : list b2b_task
}.

Definition with_ingress (u : UA) (b : B2BUA) : B2BUA :=
  mkB2BUA u (egress b) (b_sessions b) (RouteTarget b) (b_calls b) (b_tasks b).
Definition with_egress (u : UA) (b : B2BUA) : B2BUA :=
  mkB2BUA (ingress b) u (b_sessions b) (RouteTarget b) (b_calls b) (b_tasks b).
Definition with_b_sessions (s : gmap str B2BSession) (b : B2BUA) : B2BUA :=
  mkB2BUA (ingress b) (egress b) s (RouteTarget b) (b_calls b) (b_tasks b).
Definition with_b_calls (l : list b2b_call) (b : B2BUA) : B2BUA :=
  mkB2BUA (ingress b) (egress b) (b_sessions b) (RouteTarget b) l (b_tasks b).
Definition with_b_tasks (l : list b2b_task) (b : B2BUA) : B2BUA :=
  mkB2BUA (ingress b) (egress b) (b_sessions b) (RouteTarget b) (b_calls b) l.

Definition SetRouteTarget (f : option (Request → result (option Uri))) (b : B2BUA) : B2BUA :=
  mkB2BUA (ingress b) (egress b) (b_sessions b) f (b_calls b) (b_tasks b).

(** [mergeCallbacks]: the callbacks of [a] with the OnBye of [b]. *)
Definition mergeCallbacks (a b : UACallbacks) : UACallbacks :=
  mkUACallbacks (OnInvite a) (OnRegister a) (OnBye b) (OnMessage a) (OnInfo a) (OnNotify a) (OnSubscribe a).

Definition only_invite : UACallbacks := mkUACallbacks true false false false false false false.
Definition only_bye : UACallbacks := mkUACallbacks false false true false false false false.

Definition set_callbacks (cb : UACallbacks) (u : UA) : UA := with_cb (merge_cb (ua_cb u) cb) u.

Definition NewB2BUA (i e : UA) : B2BUA :=
  let i := set_callbacks only_invite i in
  let e := set_callbacks only_bye e in
  mkB2BUA (set_callbacks (mergeCallbacks (ua_cb i) only_bye) i) e ∅ None [] [].

Definition Sessions (b : B2BUA) : nat := size (b_sessions b).

(** ** The legs of a session *)

Definition session_legs (s : B2BSession) : list leg := [ALegOf (ALeg s); BLegOf (BLeg s)].

(** The last session of the table that has the leg. *)
Definition find_session (l : leg) (b : B2BUA) : option B2BSession :=
  last (List.filter (λ s, bool_decide (l ∈ session_legs s)) (map_to_list (b_sessions b)).*2).

Section B2BUA.
Context `{Sender} `{Entropy}.

Definition on_in {A} (m : proc UA A) : proc B2BUA A := onp ingress with_ingress m.
Definition on_eg {A} (m : proc UA A) : proc B2BUA A := onp egress with_egress m.
Definition b_call (c : b2b_call) : proc B2BUA () := update (λ b, with_b_calls (b_calls b ++ [c]) b).

Definition respond_leg (aDlg : nat) (stx : option nat) (status : Z) (ct : str) (body : option str) : proc B2BUA (result unit) :=
  on_in (UA_Respond (Some aDlg) stx status ct body).

(** ** A new call *)

Definition content_type (req : Request) : str := headerValue (Headers_Get (Req_headers req) "Content-Type").

Definition handleIngressInvite (req : Request) (stx : option nat) (aDlg : nat) : proc B2BUA () :=
  route ← asks RouteTarget;
  match route with
  | None => _ ← respond_leg aDlg stx 501 [] None; mret ()
  | Some f =>
    match f req with
    | Err _ => _ ← respond_leg aDlg stx 500 [] None; mret ()
    | Ok target =>
      let ct := content_type req in
      match from_of (Req_headers req), target with
      | Some from, Some target =>
        r ← on_eg (UA_Invite target (mkAddress [] false (Address_Uri from) None) ct (Some (default [] (Req_body req))));
        match r with
        | Err _ => _ ← respond_leg aDlg stx 503 [] None; mret ()
        | Ok sess => update (λ b, with_b_tasks (b_tasks b ++ [BWait req stx aDlg sess ct]) b)
        end
      | _, _ => panic
      end
    end
  end.

(** What the goroutine does with the response and the error of [WaitResponse]. *)
Definition bridge (req : Request) (stx : option nat) (aDlg sess : nat) (ct : str)
  (resp : option Response) (err : option GoError) : proc B2BUA () :=
  match err, resp with
  | None, None => panic
  | Some _, _ =>
    _ ← respond_leg aDlg stx (match resp with Some r => StatusCode r | None => 503%Z end) [] None; mret ()
  | None, Some r =>
    if (300 <=? StatusCode r)%Z then _ ← respond_leg aDlg stx (StatusCode r) [] None; mret ()
    else
      whenp (StatusCode r == 200%Z) (_ ← on_eg (Ack sess); mret ());;
      let body := if 0 <? length (default [] (Resp_body r)) then Resp_body r else None in
      ok ← respond_leg aDlg stx 200 ct body;
      match ok with
      | Err _ => mret ()
      | Ok _ =>
        s ← on_eg (asks (λ u, sessions u !! sess));
        match s with
        | None => panic
        | Some s =>
          a ← on_in (get_dialog aDlg); c ← on_eg (get_dialog (ss_dlg s));
          let session := mkB2BSession (callid_of (Req_headers req)) aDlg (ss_dlg s) sess in
          b_call (RelayStart (a ≫= RemoteTarget) (c ≫= RemoteTarget));;
          update (λ b, with_b_sessions (<[ses_ID session := session]> (b_sessions b)) b);;
          b_call (SessionStart session)
        end
      end
  end.

(** One wake-up of it: the session is done, or the minute is over; [true] when it
    goes on waiting. *)
Definition b2b_wake (t : b2b_task) (late : bool) : proc B2BUA bool :=
  let 'BWait req stx aDlg sess ct := t in
  s ← on_eg (asks (λ u, sessions u !! sess));
  match s with
  | None => mret true
  | Some s =>
    match WaitResponse s late with
    | Some (resp, err) => bridge req stx aDlg sess ct resp err;; mret false
    | None => mret true
    end
  end.

Definition b2b_wake_task (i : nat) (late : bool) : proc B2BUA () :=
  l ← asks b_tasks;
  match l !! i with
  | None => mret ()
  | Some t =>
    on ← b2b_wake t late;
    whenp (negb on) (update (λ b, with_b_tasks (delete i (b_tasks b)) b))
  end.

(** ** The end of a call *)

(** [Hangup] of the other leg, unless it is over. *)
Definition hangup_leg (l : leg) (answers : list (result Response)) : proc B2BUA () :=
  let hang (on : ∀ A, proc UA A → proc B2BUA A) (p : nat) :=
    d ← on _ (get_dialog p);
    match d with
    | None => mret ()
    | Some d => if d_State d == DialogTerminated then mret () else _ ← on _ (Hangup p answers); mret ()
    end in
  match l with
  | ALegOf p => hang (@on_in) p
  | BLegOf p => hang (@on_eg) p
  end.

Definition peer_leg (l : leg) (s : B2BSession) : leg :=
  if l == ALegOf (ALeg s) then BLegOf (BLeg s) else ALegOf (ALeg s).

Definition handleLegBye (l : leg) (answers : list (result Response)) : proc B2BUA () :=
  found ← asks (find_session l);
  match found with
  | None => mret ()
  | Some s =>
    update (λ b, with_b_sessions (delete (ses_ID s) (b_sessions b)) b);;
    b_call RelayStop;;
    hangup_leg (peer_leg l s) answers;;
    b_call (SessionEnd s)
  end.

(** ** Packets *)

Definition on_ingress_call (answers : list (result Response)) (c : call) : proc B2BUA () :=
  match c with
  | CallInvite req stx dlg => handleIngressInvite req stx dlg
  | CallBye _ dlg _ => handleLegBye (ALegOf dlg) answers
  | _ => mret ()
  end.

Definition on_egress_call (answers : list (result Response)) (c : call) : proc B2BUA () :=
  match c with
  | CallBye _ dlg _ => handleLegBye (BLegOf dlg) answers
  | _ => mret ()
  end.

Definition ingress_packet (pkt : Packet) (answers : list (result Response)) : proc B2BUA () :=
  n ← asks (λ b, length (calls (ingress b)));
  on_in (UA_handlePacket pkt);;
  new ← asks (λ b, drop n (calls (ingress b)));
  each (on_ingress_call answers) new.

Definition egress_packet (pkt : Packet) (answers : list (result Response)) : proc B2BUA () :=
  n ← asks (λ b, length (calls (egress b)));
  on_eg (UA_handlePacket pkt);;
  new ← asks (λ b, drop n (calls (egress b)));
  each (on_egress_call answers) new.
End B2BUA.

(** ** The end of a call: what it changes *)

(** The sessions are filed under their identifiers and share no leg. *)
Definition sessions_ok (m : gmap str B2BSession) : Prop :=
  (∀ k s, m !! k = Some s → ses_ID s = k) ∧
  ∀ k k' s s' l, m !! k = Some s → m !! k' = Some s' → l ∈ session_legs s → l ∈ session_legs s' → k = k'.

Lemma find_session_Some l b s k :
  sessions_ok (b_sessions b) → b_sessions b !! k = Some s → l ∈ session_legs s → find_session l b = Some s.
Proof.
  intros [Hid Hun] Hk Hl. unfold find_session.
  set (ss := List.filter _ _).
  assert (s ∈ ss) as Hin.
  { unfold ss. apply list_elem_of_In, filter_In. split; [|by apply Is_true_true, bool_decide_pack].
    apply list_elem_of_In, list_elem_of_fmap. exists (k, s). split; [done|]. by apply elem_of_map_to_list. }
  assert (∀ t, t ∈ ss → t = s) as Hall.
  { intros t Ht. unfold ss in Ht. apply list_elem_of_In, filter_In in Ht as [Ht Hlt].
    apply bool_decide_eq_true in Hlt. apply list_elem_of_In, list_elem_of_fmap in Ht as ([k' t'] & -> & Ht).
    apply elem_of_map_to_list in Ht. cbn in *. assert (k' = k) as -> by by eapply Hun. congruence. }
  destruct (last ss) as [t|] eqn:E.
  - f_equal. apply Hall. apply last_Some in E as [ss' ->]. set_solver.
  - apply last_None in E. rewrite E in Hin. by apply not_elem_of_nil in Hin.
Qed.

Lemma find_session_None l b :
  (∀ k s, b_sessions b !! k = Some s → l ∉ session_legs s) → find_session l b = None.
Proof.
  intros Hno. unfold find_session. apply last_None. set (ss := List.filter _ _).
  destruct ss as [|t ss'] eqn:E; [done|]. exfalso. assert (t ∈ ss) as Ht by (rewrite E; set_solver). unfold ss in Ht.
  apply list_elem_of_In, filter_In in Ht as [Ht Hlt]. apply bool_decide_eq_true in Hlt.
  apply list_elem_of_In, list_elem_of_fmap in Ht as ([k' t'] & -> & Ht). apply elem_of_map_to_list in Ht.
  by apply (Hno k' t').
Qed.

Section Bye.
Context `{Sender} `{Entropy}.

(** The other leg's agent after the BYE of one leg. *)
Definition hung_up (u : UA) (p : nat) (answers : list (result Response)) (u' : UA) : Prop :=
  match dm_heap (ua_dialogs u) !! p with
  | Some d => if d_State d == DialogTerminated then u' = u else ∃ r, Hangup p answers u = Ret (r, u')
  | None => u' = u
  end.

Lemma hangup_leg_A p answers b b' :
  hangup_leg (ALegOf p) answers b = Ret ((), b') →
  ∃ u, b' = with_ingress u b ∧ hung_up (ingress b) p answers u.
Proof.
  unfold hangup_leg, hung_up. unfold mbind at 1, proc_bind at 1. unfold on_in at 1, onp at 1, get_dialog, asks at 1.
  replace (with_ingress (ingress b) b) with b by by destruct b.
  destruct (dm_heap (ua_dialogs (ingress b)) !! p) as [d|]; [|intros [= <-]; exists (ingress b); by destruct b].
  case_test; [intros [= <-]; exists (ingress b); by destruct b|]. intros (r & b1 & E & [= <-])%run_inv.
  unfold on_in, onp in E. destruct (Hangup p answers (ingress b)) as [[r' u]|] eqn:Eh; [|done]. injection E as <- <-.
  exists u. split; [done|by exists r'].
Qed.

Lemma hangup_leg_B p answers b b' :
  hangup_leg (BLegOf p) answers b = Ret ((), b') →
  ∃ u, b' = with_egress u b ∧ hung_up (egress b) p answers u.
Proof.
  unfold hangup_leg, hung_up. unfold mbind at 1, proc_bind at 1. unfold on_eg at 1, onp at 1, get_dialog, asks at 1.
  replace (with_egress (egress b) b) with b by by destruct b.
  destruct (dm_heap (ua_dialogs (egress b)) !! p) as [d|]; [|intros [= <-]; exists (egress b); by destruct b].
  case_test; [intros [= <-]; exists (egress b); by destruct b|]. intros (r & b1 & E & [= <-])%run_inv.
  unfold on_eg, onp in E. destruct (Hangup p answers (egress b)) as [[r' u]|] eqn:Eh; [|done]. injection E as <- <-.
  exists u. split; [done|by exists r'].
Qed.

Lemma sessions_ok_delete k m : sessions_ok m → sessions_ok (delete k m).
Proof.
  intros [Hid Hun]. split.
  - intros i s [_ Hs]%lookup_delete_Some. by apply Hid.
  - intros i j s s' l [_ Hi]%lookup_delete_Some [_ Hj]%lookup_delete_Some. by eapply Hun.
Qed.

(** The BYE of one leg, when no two sessions share one. *)
Lemma leg_bye_exact (l : leg) (answers : list (result Response)) (b b' : B2BUA) :
  sessions_ok (b_sessions b) → handleLegBye l answers b = Ret ((), b') →
  (∃ k s, b_sessions b !! k = Some s ∧ l ∈ session_legs s ∧
     b_sessions b' = delete k (b_sessions b) ∧ sessions_ok (b_sessions b') ∧
     b_calls b' = b_calls b ++ [RelayStop; SessionEnd s] ∧
     match l with
     | ALegOf _ => ingress b' = ingress b ∧ hung_up (egress b) (BLeg s) answers (egress b')
     | BLegOf _ => egress b' = egress b ∧ hung_up (ingress b) (ALeg s) answers (ingress b')
     end) ∨
  ((∀ k s, b_sessions b !! k = Some s → l ∉ session_legs s) ∧ b' = b).
Proof.
  intros Hok. unfold handleLegBye. rewrite run_asks.
  destruct (decide (map_Exists (λ _ s, l ∈ session_legs s) (b_sessions b))) as [(k & s & Hk & Hl)|Hno].
  2: { assert (∀ k s, b_sessions b !! k = Some s → l ∉ session_legs s) as Hn
         by (intros k s Hk Hl; apply Hno; by exists k, s).
       rewrite find_session_None by done. intros [= <-]. by right. }
  rewrite (find_session_Some l b s k) by done. unfold b_call. rewrite !run_update.
  intros ([] & b1 & E & [= <-])%run_inv. left. exists k, s.
  pose proof (proj1 Hok k s Hk) as Hid. pose proof (sessions_ok_delete k _ Hok) as Hok'.
  unfold peer_leg in E. unfold session_legs in Hl. rewrite elem_of_cons, list_elem_of_singleton in Hl.
  destruct Hl as [->| ->].
  - rewrite bool_decide_true in E by done. apply hangup_leg_B in E as (u & -> & Hu).
    cbn. rewrite Hid, <-app_assoc. split_and!; try done. set_solver.
  - rewrite bool_decide_false in E by done. apply hangup_leg_A in E as (u & -> & Hu).
    cbn. rewrite Hid, <-app_assoc. split_and!; try done. set_solver.
Qed.
End Bye.

(** ** A bridged call *)

Definition b_run (f : proc B2BUA ()) (b : outcome B2BUA) : outcome B2BUA :=
  match b with Ret b => match f b with Ret (_, b') => Ret b' | Panic => Panic end | Panic => Panic end.

Definition ex_b2bua : B2BUA :=
  SetRouteTarget (Some (λ _, Ok (Some (ua_ex_uri "bob" "10.0.0.9"))))
    (NewB2BUA (NewUA "10.0.0.2" 5060) (NewUA "10.0.0.3" 5060)).

Definition b_in (host : str) (req : Request) : outcome B2BUA → outcome B2BUA :=
  b_run (ingress_packet (H := ok_sender_ua) (H0 := ex_entropy) (mkPacket (MReq req) (mkAddr "udp" host 5060)) []).

Definition b_out (resp : Response) : outcome B2BUA → outcome B2BUA :=
  b_run (egress_packet (H := ok_sender_ua) (H0 := ex_entropy) (mkPacket (MResp resp) (mkAddr "udp" "10.0.0.9" 5060)) []).

Definition egress_of (b : outcome B2BUA) : outcome UA := match b with Ret b => Ret (egress b) | Panic => Panic end.
Definition ingress_of (b : outcome B2BUA) : outcome UA := match b with Ret b => Ret (ingress b) | Panic => Panic end.
Definition b_state (b : outcome B2BUA) : B2BUA := match b with Ret b => b | Panic => ex_b2bua end.

(** A call answered 200 by the egress side. *)
Definition ex_bridged : outcome B2BUA :=
  let b := b_in "10.0.0.1" (ex_inbound INVITE INVITE "z9hG4bK1" "a" []) (Ret ex_b2bua) in
  let b := b_out (ex_answer 200 (ex_sent_request (egress_of b))) b in
  b_run (b2b_wake_task (H := ok_sender_ua) 0 false) (b_run (on_eg (pump 0)) b).

Example ex_bridged_ok :
  Sessions (b_state ex_bridged) = 1 ∧ statuses (ingress_of ex_bridged) = [200%Z].
Proof. by vm_compute. Qed.

Definition b_running (o : outcome B2BUA) : bool := match o with Ret _ => true | Panic => false end.

Lemma b_run_state f b : b_running (b_run f (Ret b)) = true → f b = Ret ((), b_state (b_run f (Ret b))).
Proof. unfold b_run. by destruct (f b) as [[[] b']|]. Qed.

(** An INVITE whose From is no address crashes the back-to-back agent. *)
Lemma b2bua_from_panics :
  b_in "6.6.6.6" (mkRequest INVITE (Some (ua_ex_uri "bob" "10.0.0.2")) SipVersion
    [HVia (SetBranch (mkVia "SIP/2.0/UDP" "UDP" "10.0.0.1" 5060 None) "z9hG4bK1"); HGeneric "From" "<";
     HAddr (ua_ex_address "bob" "10.0.0.2") "To"; HGeneric "Call-ID" "c1"; HCSeq (mkCSeq 1 INVITE)] None)
    (Ret ex_b2bua) = Panic.
Proof. by vm_compute. Qed.

(** The caller's BYE is refused, and the bridged session stays. *)
Lemma b2bua_caller_bye_refused :
  let b := b_in "10.0.0.1" (ex_inbound BYE BYE "z9hG4bK2" "a" ex_tag) ex_bridged in
  statuses (ingress_of b) = [200; 403]%Z ∧ Sessions (b_state b) = 1.
Proof. by vm_compute. Qed.
