(* ===== verification/B2buaSteps.v ===== *)
(** * The back-to-back agent as a state machine

    Every move of the two agents and of the bridge is a [b2b_step]: a packet taken
    by an agent, a callback of a request it reported, a wake-up of the goroutine of
    a call, a step of a transaction, the pump of a session, a call of the
    application.  Callbacks that wait are kept in [at_in] and [at_eg], so packets
    and callbacks may interleave.  By induction on the steps no dialog is the leg of
    two calls. *)

From S2P Require Import Prelude GoStrings Params Uri Headers HeadersMap Message Net Transport Ids Transaction Proc Dialog Ua UaTheorems UaGrowth B2bua.

(** ** Steps *)

(** What moves an agent besides its packets. *)
Inductive ua_act :=
| ActTx (m : M ())
| ActPump (i : nat)
| ActRegister (aor : Uri) (contact : option Uri) (expires : Z) (creds : option Digest.Credentials)
| ActInvite (target : Uri) (from : Address) (ct : str) (body : option str)
| ActAck (i : nat)
| ActHangup (p : nat) (answers : list (result Response))
| ActRespond (dlg stx : option nat) (status : Z) (ct : str) (body : option str).

Record b2b_conf := mkConf { at_in : list call; at_eg : list call; at_b : B2BUA }.

Section Steps.
Context `{Sender} `{Entropy}.

Definition ua_do (a : ua_act) : proc UA () :=
  match a with
  | ActTx m => on_tm m
  | ActPump i => pump i
  | ActRegister aor contact expires creds => _ ← UA_Register aor contact expires creds; mret ()
  | ActInvite target from ct body => _ ← UA_Invite target from ct body; mret ()
  | ActAck i => _ ← Ack i; mret ()
  | ActHangup p answers => _ ← Hangup p answers; mret ()
  | ActRespond dlg stx status ct body => _ ← UA_Respond dlg stx status ct body; mret ()
  end.

(** The calls a step of an agent added. *)
Definition reported (u u' : UA) : list call := drop (length (calls u)) (calls u').

Inductive b2b_step : b2b_conf → b2b_conf → Prop :=
| BIngressPacket pi pe b pkt u :
    UA_handlePacket pkt (ingress b) = Ret ((), u) →
    b2b_step (mkConf pi pe b) (mkConf (pi ++ reported (ingress b) u) pe (with_ingress u b))
| BEgressPacket pi pe b pkt u :
    UA_handlePacket pkt (egress b) = Ret ((), u) →
    b2b_step (mkConf pi pe b) (mkConf pi (pe ++ reported (egress b) u) (with_egress u b))
| BIngressCall pi c pi' pe b answers b' :
    on_ingress_call answers c b = Ret ((), b') →
    b2b_step (mkConf (pi ++ c :: pi') pe b) (mkConf (pi ++ pi') pe b')
| BEgressCall pi pe c pe' b answers b' :
    on_egress_call answers c b = Ret ((), b') →
    b2b_step (mkConf pi (pe ++ c :: pe') b) (mkConf pi (pe ++ pe') b')
| BWake pi pe b i late b' :
    b2b_wake_task i late b = Ret ((), b') → b2b_step (mkConf pi pe b) (mkConf pi pe b')
| BIngressAct pi pe b a u :
    ua_do a (ingress b) = Ret ((), u) → b2b_step (mkConf pi pe b) (mkConf pi pe (with_ingress u b))
| BEgressAct pi pe b a u :
    ua_do a (egress b) = Ret ((), u) → b2b_step (mkConf pi pe b) (mkConf pi pe (with_egress u b))
| BRoute pi pe b f : b2b_step (mkConf pi pe b) (mkConf pi pe (SetRouteTarget f b)).

(** A bridge made over two agents, with its own or without calls before. *)
Definition b2b_reachable (c : b2b_conf) : Prop :=
  ∃ i e, used i ∧ used e ∧ rtc b2b_step (mkConf [] [] (NewB2BUA i e)) c.

(** A packet with all its callbacks is a sequence of steps. *)
Lemma ingress_calls_steps answers l pe b b' :
  each (on_ingress_call answers) l b = Ret ((), b') → rtc b2b_step (mkConf l pe b) (mkConf [] pe b').
Proof.
  revert b. induction l as [|c l IH]; intros b; cbn [each]; [by intros [= <-]|].
  intros ([] & b1 & E & Hl)%run_inv. eapply rtc_l; [|by apply IH].
  by apply (BIngressCall [] c l pe b answers b1).
Qed.

Lemma egress_calls_steps answers l pi b b' :
  each (on_egress_call answers) l b = Ret ((), b') → rtc b2b_step (mkConf pi l b) (mkConf pi [] b').
Proof.
  revert b. induction l as [|c l IH]; intros b; cbn [each]; [by intros [= <-]|].
  intros ([] & b1 & E & Hl)%run_inv. eapply rtc_l; [|by apply IH].
  by apply (BEgressCall pi [] c l b answers b1).
Qed.

Lemma ingress_packet_steps pkt answers b b' :
  ingress_packet pkt answers b = Ret ((), b') → rtc b2b_step (mkConf [] [] b) (mkConf [] [] b').
Proof.
  unfold ingress_packet. rewrite run_asks. intros ([] & b1 & E & Hr)%run_inv. rewrite run_asks in Hr.
  unfold on_in, onp in E. destruct (UA_handlePacket pkt (ingress b)) as [[[] u]|] eqn:Eu; [|done]. injection E as <-.
  eapply rtc_l; [by apply (BIngressPacket [] [] b pkt u)|]. by eapply ingress_calls_steps.
Qed.

Lemma egress_packet_steps pkt answers b b' :
  egress_packet pkt answers b = Ret ((), b') → rtc b2b_step (mkConf [] [] b) (mkConf [] [] b').
Proof.
  unfold egress_packet. rewrite run_asks. intros ([] & b1 & E & Hr)%run_inv. rewrite run_asks in Hr.
  unfold on_eg, onp in E. destruct (UA_handlePacket pkt (egress b)) as [[[] u]|] eqn:Eu; [|done]. injection E as <-.
  eapply rtc_l; [by apply (BEgressPacket [] [] b pkt u)|]. by eapply egress_calls_steps.
Qed.

Lemma grows_do u0 a : always (grows u0) (ua_do a).
Proof.
  destruct a; cbn [ua_do]; try (apply always_bind; [|intros ?; apply always_ret]).
  - apply grows_tm.
  - apply grows_pump.
  - apply grows_Register.
  - intros u r u' Hu E. by eapply Invite_grows.
  - apply grows_Ack.
  - apply grows_Hangup.
  - apply grows_UA_Respond.
Qed.
End Steps.

(** ** Legs without sharing *)

(** The calls' legs [L] and the announced dialogs [P], below the next pointers. *)
Record fresh_legs (L : list (nat * nat)) (P : list nat) (na nb : nat) : Prop := mkFresh {
  f_A : NoDup (L.*1 ++ P);
  f_Alt : Forall (λ p, p < na) (L.*1 ++ P);
  f_B : NoDup L.*2;
  f_Blt : Forall (λ q, q < nb) L.*2
}.

Lemma NoDup_submseteq_r (l k : list nat) : l ⊆+ k → NoDup k → NoDup l.
Proof. intros [k' ->]%submseteq_Permutation [? _]%NoDup_app. done. Qed.

Lemma Forall_submseteq (Q : nat → Prop) l k : l ⊆+ k → Forall Q k → Forall Q l.
Proof. intros [k' ->]%submseteq_Permutation [? _]%Forall_app. done. Qed.

Lemma fresh_legs_sub L P na nb L' P' na' nb' :
  L' ⊆+ L → P' ⊆+ P → na ≤ na' → nb ≤ nb' → fresh_legs L P na nb → fresh_legs L' P' na' nb'.
Proof.
  intros HL HP Ha Hb [HA HAlt HB HBlt].
  assert (L'.*1 ++ P' ⊆+ L.*1 ++ P) as H1 by (apply submseteq_app; [by apply fmap_submseteq|done]).
  assert (L'.*2 ⊆+ L.*2) as H2 by by apply fmap_submseteq.
  split; [by eapply NoDup_submseteq_r| |by eapply NoDup_submseteq_r|].
  - eapply Forall_impl; [by eapply Forall_submseteq|]. cbn. lia.
  - eapply Forall_impl; [by eapply Forall_submseteq|]. cbn. lia.
Qed.

Lemma fresh_legs_announce L P na nb na' ps :
  NoDup ps → Forall (λ p, na ≤ p < na') ps → na ≤ na' → fresh_legs L P na nb → fresh_legs L (P ++ ps) na' nb.
Proof.
  intros Hps Hr Hn [HA HAlt HB HBlt]. rewrite Forall_forall in *. split; [| |done|by apply Forall_forall].
  - rewrite app_assoc. apply NoDup_app. split_and!; [done| |done]. intros p Hp Hp'.
    apply HAlt in Hp. apply Hr in Hp'. lia.
  - rewrite Forall_forall. intros p. rewrite app_assoc, elem_of_app. intros [Hp|Hp]; [apply HAlt in Hp|apply Hr in Hp]; lia.
Qed.

Lemma fresh_legs_call L P P' p q na nb nb' :
  nb ≤ q < nb' → fresh_legs L (P ++ p :: P') na nb → fresh_legs (L ++ [(p, q)]) (P ++ P') na nb'.
Proof.
  intros Hq [HA HAlt HB HBlt].
  assert (L.*1 ++ P ++ p :: P' ≡ₚ (L.*1 ++ [p]) ++ P ++ P') as Ep by (rewrite <-app_assoc; cbn; solve_Permutation).
  split; rewrite ?fmap_app; cbn.
  - by rewrite <-Ep.
  - by rewrite <-Ep.
  - apply NoDup_app. split_and!; [done| |apply NoDup_singleton]. rewrite Forall_forall in HBlt.
    intros x Hx ->%list_elem_of_singleton. apply HBlt in Hx. lia.
  - apply Forall_app. rewrite Forall_singleton. split; [|lia]. eapply Forall_impl; [exact HBlt|]. cbn. lia.
Qed.

(** ** The calls of a bridge *)

(** The legs a waiting goroutine will bridge. *)
Definition task_legs (e : UA) (t : b2b_task) : option (nat * nat) :=
  let 'BWait _ _ a i _ := t in (λ s, (a, ss_dlg s)) <$> sessions e !! i.

Definition entry_legs (e : str * B2BSession) : nat * nat := (ALeg (snd e), BLeg (snd e)).

Definition legs (e : UA) (m : gmap str B2BSession) (tasks : list b2b_task) : list (nat * nat) :=
  map entry_legs (map_to_list m) ++ omap (task_legs e) tasks.

Record b2b_inv (c : b2b_conf) : Prop := mkInv {
  v_ids : ∀ k s, b_sessions (at_b c) !! k = Some s → ses_ID s = k;
  v_used : used (ingress (at_b c)) ∧ used (egress (at_b c));
  v_tasks : Forall (λ t, is_Some (task_legs (egress (at_b c)) t)) (b_tasks (at_b c));
  v_legs : fresh_legs (legs (egress (at_b c)) (b_sessions (at_b c)) (b_tasks (at_b c))) (new_dialogs (at_in c))
             (dm_next (ua_dialogs (ingress (at_b c)))) (dm_next (ua_dialogs (egress (at_b c))));
  v_bye : OnBye (ua_cb (ingress (at_b c))) = true ∧ OnBye (ua_cb (egress (at_b c))) = true
}.

Lemma task_legs_grows e e' t : grows e e' → is_Some (task_legs e t) → task_legs e' t = task_legs e t.
Proof.
  intros Hg. destruct t as [req stx a i ct]. cbn. destruct (sessions e !! i) as [s|] eqn:Hs; [|by intros []].
  destruct (g_dlg _ _ Hg _ _ Hs) as (s' & -> & Hd). cbn. by rewrite Hd.
Qed.

Lemma tasks_grow e e' l :
  grows e e' → Forall (λ t, is_Some (task_legs e t)) l →
  omap (task_legs e') l = omap (task_legs e) l ∧ Forall (λ t, is_Some (task_legs e' t)) l.
Proof.
  intros Hg Hl. induction Hl as [|t l Ht Hl [IH IHl]]; [done|]. cbn. rewrite (task_legs_grows e e' t) by done.
  rewrite IH. split; [done|]. constructor; [by rewrite (task_legs_grows e e' t)|done].
Qed.

Lemma delete_entries (k : str) (m : gmap str B2BSession) : map_to_list (delete k m) ⊆+ map_to_list m.
Proof. apply map_to_list_submseteq, delete_subseteq. Qed.

Lemma insert_entries (k : str) (s : B2BSession) (m : gmap str B2BSession) : map_to_list (<[k := s]> m) ⊆+ (k, s) :: map_to_list m.
Proof.
  rewrite <-insert_delete_eq, map_to_list_insert by by rewrite lookup_delete_eq.
  by apply submseteq_skip, delete_entries.
Qed.

(** The agents move; the calls stay. *)
Lemma inv_agents pi ps pe pe' b b' :
  grows (ingress b) (ingress b') → grows (egress b) (egress b') →
  b_sessions b' = b_sessions b → b_tasks b' = b_tasks b →
  NoDup (new_dialogs ps) →
  Forall (λ p, dm_next (ua_dialogs (ingress b)) ≤ p < dm_next (ua_dialogs (ingress b'))) (new_dialogs ps) →
  b2b_inv (mkConf pi pe b) → b2b_inv (mkConf (pi ++ ps) pe' b').
Proof.
  intros Hi He Hs Ht Hnd Hr [Hid Hu Htk Hl Hcb]. cbn in *.
  destruct (tasks_grow _ _ _ He Htk) as [Eo Htk']. split; cbn; rewrite ?Hs, ?Ht; [done| |done| |].
  - split; [apply Hi|apply He].
  - unfold legs. rewrite Eo. unfold new_dialogs. rewrite omap_app. apply fresh_legs_announce with (na := dm_next (ua_dialogs (ingress b)));
      [done|done|apply Hi|]. eapply fresh_legs_sub; [done|done|done|apply He|exact Hl].
  - by rewrite (g_cb _ _ Hi), (g_cb _ _ He).
Qed.

Lemma inv_quiet pi pe b b' :
  grows (ingress b) (ingress b') → grows (egress b) (egress b') →
  b_sessions b' = b_sessions b → b_tasks b' = b_tasks b →
  b2b_inv (mkConf pi pe b) → b2b_inv (mkConf pi pe b').
Proof.
  intros Hi He Hs Ht Hv. rewrite <-(app_nil_r pi). by eapply (inv_agents pi [] pe pe b b'); try apply NoDup_nil.
Qed.

(** A session ends. *)
Lemma inv_delete pi pe b b' (k : str) :
  grows (ingress b) (ingress b') → grows (egress b) (egress b') →
  b_sessions b' = delete k (b_sessions b) → b_tasks b' = b_tasks b →
  b2b_inv (mkConf pi pe b) → b2b_inv (mkConf pi pe b').
Proof.
  intros Hi He Hs Ht Hv.
  apply (inv_quiet pi pe (with_b_sessions (delete k (b_sessions b)) b)); [done..|].
  destruct Hv as [Hid Hu Htk Hl Hcb]. cbn in *. split; cbn; [|done|done| |done].
  - intros j s [_ Hj]%lookup_delete_Some. by apply Hid.
  - eapply fresh_legs_sub; [|done|done|done|exact Hl]. apply submseteq_app; [|done].
    by apply fmap_submseteq, delete_entries.
Qed.

(** A callback that was taken from the queue. *)
Lemma inv_taken pi c pi' pe pe' b : b2b_inv (mkConf (pi ++ c :: pi') pe b) → b2b_inv (mkConf (pi ++ pi') pe' b).
Proof.
  intros [Hid Hu Htk Hl Hcb]. split; try done. cbn in *. eapply fresh_legs_sub; [done| |done|done|exact Hl].
  unfold new_dialogs. rewrite !omap_app. cbn. apply submseteq_app; [done|].
  destruct (invited c); [by apply submseteq_cons|done].
Qed.

(** ** Handlers *)

Record b_moves (b0 b : B2BUA) : Prop := mkMoves {
  m_in : grows (ingress b0) (ingress b);
  m_eg : grows (egress b0) (egress b);
  m_sessions : b_sessions b = b_sessions b0;
  m_tasks : b_tasks b = b_tasks b0
}.

Section Handlers.
Context `{Sender} `{Entropy}.

Lemma b_moves_refl b : used (ingress b) → used (egress b) → b_moves b b.
Proof. split; [by apply grows_refl..|done|done]. Qed.

Lemma moves_in {A} b0 (m : proc UA A) : always (grows (ingress b0)) m → always (b_moves b0) (on_in m).
Proof.
  intros Hm b a b' [Hi He Hs Ht]. unfold on_in, onp. destruct (m (ingress b)) as [[r u]|] eqn:E; [|done].
  intros [= <- <-]. split; [by eapply Hm|done..].
Qed.

Lemma moves_eg {A} b0 (m : proc UA A) : always (grows (egress b0)) m → always (b_moves b0) (on_eg m).
Proof.
  intros Hm b a b' [Hi He Hs Ht]. unfold on_eg, onp. destruct (m (egress b)) as [[r u]|] eqn:E; [|done].
  intros [= <- <-]. split; [done|by eapply Hm|done..].
Qed.

Lemma moves_respond b0 a stx status ct body : always (b_moves b0) (respond_leg a stx status ct body).
Proof. apply moves_in, grows_UA_Respond. Qed.

Lemma moves_call b0 c : always (b_moves b0) (b_call c).
Proof. apply always_update. by intros b [Hi He Hs Ht]. Qed.

Lemma moves_hangup b0 l answers : always (b_moves b0) (hangup_leg l answers).
Proof.
  destruct l as [p|p]; cbn; (apply always_bind; [first [apply moves_in|apply moves_eg]; apply grows_get|]);
    intros [d|]; [|apply always_ret| |apply always_ret]; (destruct (bool_decide _); [apply always_ret|]);
    (apply always_bind; [|intros; apply always_ret]);
    first [apply moves_in|apply moves_eg]; apply grows_Hangup.
Qed.

(** The session the goroutine of a call adds, if any. *)
Definition bridged (a sess : nat) (b b' : B2BUA) : Prop :=
  b_sessions b' = b_sessions b ∨
  ∃ id s, sessions (egress b') !! sess = Some s ∧
    b_sessions b' = <[id := mkB2BSession id a (ss_dlg s) sess]> (b_sessions b).

Lemma bridge_moves req stx a sess ct resp err b b' :
  used (ingress b) → used (egress b) →
  bridge req stx a sess ct resp err b = Ret ((), b') →
  grows (ingress b) (ingress b') ∧ grows (egress b) (egress b') ∧ b_tasks b' = b_tasks b ∧ bridged a sess b b'.
Proof.
  intros Hi He. assert (∀ b1, b_moves b b1 → grows (ingress b) (ingress b1) ∧ grows (egress b) (egress b1) ∧
    b_tasks b1 = b_tasks b ∧ bridged a sess b b1) as Hq by by (intros b1 [? ? Es ?]; split_and!; [..|left]).
  pose proof (b_moves_refl b Hi He) as Hb. unfold bridge. destruct err as [e|].
  { intros (r & b1 & E & [= <-])%run_inv. apply Hq. by eapply moves_respond. }
  destruct resp as [r|]; [|done]. destruct (300 <=? _)%Z.
  { intros (x & b1 & E & [= <-])%run_inv. apply Hq. by eapply moves_respond. }
  intros ([] & b1 & E1 & E)%run_inv.
  assert (b_moves b b1) as Hb1.
  { destruct (_ == _); cbn [whenp] in E1; [|by injection E1 as <-].
    apply run_inv in E1 as (x & b2 & E1 & [= <-]). eapply moves_eg; [apply grows_Ack|exact Hb|exact E1]. }
  apply run_inv in E as (ok & b2 & E2 & E). apply moves_respond with (b0 := b) in E2; [|done].
  destruct ok as [[]|e]; [|injection E as <-; by apply Hq].
  apply run_inv in E as (o & b3 & E3 & E). unfold on_eg, onp, asks in E3. injection E3 as <- <-.
  replace (with_egress (egress b2) b2) with b2 in E by by destruct b2.
  destruct (sessions (egress b2) !! sess) as [s|] eqn:Hs; [|done].
  apply run_inv in E as (da & b4 & E4 & E). unfold on_in, onp, get_dialog, asks in E4. injection E4 as <- <-.
  apply run_inv in E as (dc & b5 & E5 & E). unfold on_eg, onp, get_dialog, asks in E5. injection E5 as <- <-.
  unfold b_call in E. rewrite !run_update in E. injection E as <-.
  destruct E2 as [H1 H2 H3 H4]. split_and!; [done..|]. right. eexists _, s. cbn. rewrite <-H3. done.
Qed.
End Handlers.

(** ** The invariant *)

Lemma task_split e l i t p :
  l !! i = Some t → task_legs e t = Some p → omap (task_legs e) l ≡ₚ p :: omap (task_legs e) (delete i l).
Proof. intros Ht Hp. rewrite (delete_Permutation l i t) at 1 by done. cbn. by rewrite Hp. Qed.

(** The goroutine of a call ends: its legs become a session, or are forgotten. *)
Lemma inv_bridged pi pe b b' i req stx a sess ct :
  b_tasks b !! i = Some (BWait req stx a sess ct) →
  grows (ingress b) (ingress b') → grows (egress b) (egress b') →
  b_tasks b' = delete i (b_tasks b) → bridged a sess b b' →
  b2b_inv (mkConf pi pe b) → b2b_inv (mkConf pi pe b').
Proof.
  intros Hi Hin Heg Ht Hb Hv.
  apply (inv_quiet pi pe b (with_b_tasks (b_tasks b) (with_b_sessions (b_sessions b) b'))) in Hv; [|done..].
  destruct Hv as [Hid Hu Htk Hl Hcb]. cbn in *. set (e := egress b') in *.
  assert (is_Some (task_legs e (BWait req stx a sess ct))) as [p Hp].
  { rewrite Forall_forall in Htk. apply Htk. by eapply list_elem_of_lookup_2. }
  pose proof (task_split e _ i _ p Hi Hp) as Ho. split; cbn.
  - destruct Hb as [->|(id & s & Hs & ->)]; [done|]. intros k t.
    rewrite lookup_insert_Some. intros [[<- <-]|[_ Hk]]; [done|by apply Hid].
  - done.
  - rewrite Ht. fold e. rewrite (delete_Permutation _ i _ Hi) in Htk. by apply Forall_cons in Htk as [_ Htk].
  - fold e. rewrite Ht. eapply fresh_legs_sub; [|done|done|done|exact Hl].
    unfold legs. destruct Hb as [->|(id & s & Hs & ->)].
    + apply submseteq_app; [done|]. rewrite Ho. by apply submseteq_cons.
    + cbn in Hp. fold e in Hs. rewrite Hs in Hp. injection Hp as <-. rewrite Ho, <-Permutation_middle.
      change ((a, ss_dlg s) :: map entry_legs (map_to_list (b_sessions b)) ++ omap (task_legs e) (delete i (b_tasks b)))
        with (map entry_legs ((id, mkB2BSession id a (ss_dlg s) sess) :: map_to_list (b_sessions b)) ++
              omap (task_legs e) (delete i (b_tasks b))).
      apply submseteq_app; [|done]. apply fmap_submseteq, insert_entries.
  - done.
Qed.

Section Invariant.
Context `{Sender} `{Entropy}.

Lemma inv_wake pi pe i late b b' :
  b2b_wake_task i late b = Ret ((), b') → b2b_inv (mkConf pi pe b) → b2b_inv (mkConf pi pe b').
Proof.
  intros E Hv. unfold b2b_wake_task in E. rewrite run_asks in E.
  destruct (b_tasks b !! i) as [[req stx a sess ct]|] eqn:Ht; [|by injection E as <-].
  destruct (v_used _ Hv) as [Hi He]. cbn in Hi, He.
  apply run_inv in E as (w & b1 & E1 & E). unfold b2b_wake in E1.
  apply run_inv in E1 as (o & b2 & E2 & E1). unfold on_eg, onp, asks in E2. injection E2 as <- <-.
  replace (with_egress (egress b) b) with b in E1 by by destruct b.
  assert (∀ resp err, (bridge req stx a sess ct resp err;; mret false) b = Ret (w, b1) → b2b_inv (mkConf pi pe b')) as Hbr.
  { intros resp err ([] & b3 & E3 & [= <- <-])%run_inv. injection E as <-.
    destruct (bridge_moves _ _ _ _ _ _ _ _ _ Hi He E3) as (Hg & Hg' & Htk & Hb).
    eapply (inv_bridged pi pe b); [exact Ht|done|done|by cbn; rewrite Htk|exact Hb|exact Hv]. }
  destruct (sessions (egress b) !! sess) as [s|]; [|by injection E1 as <- <-; injection E as <-].
  destruct (WaitResponse s late) as [[resp err]|]; [by eapply Hbr|]. injection E1 as <- <-. by injection E as <-.
Qed.

Lemma inv_invite pi req stx p pi' pe b b' :
  handleIngressInvite req stx p b = Ret ((), b') →
  b2b_inv (mkConf (pi ++ CallInvite req stx p :: pi') pe b) → b2b_inv (mkConf (pi ++ pi') pe b').
Proof.
  intros E Hv. destruct (v_used _ Hv) as [Hi He]. cbn in Hi, He. pose proof (b_moves_refl b Hi He) as Hm.
  assert (∀ b1, b_moves b b1 → b2b_inv (mkConf (pi ++ pi') pe b1)) as Hq.
  { intros b1 [? ? ? ?]. eapply (inv_quiet (pi ++ pi') pe b); [done..|]. by eapply inv_taken. }
  assert (∀ b0 k status body, b_moves b b0 → (_ ← respond_leg p stx status k body; mret ()) b0 = Ret ((), b') →
    b2b_inv (mkConf (pi ++ pi') pe b')) as Hr.
  { intros b0 k status body Hb0 (x & b1 & E1 & [= <-])%run_inv. apply Hq. by eapply moves_respond. }
  unfold handleIngressInvite in E. rewrite run_asks in E. destruct (RouteTarget b) as [f|]; [|by eapply Hr].
  destruct (f req) as [target|e]; [|by eapply Hr]. destruct (from_of _) as [from|]; [|done].
  destruct target as [target|]; [|done]. apply run_inv in E as (r & b1 & E1 & E).
  unfold on_eg, onp in E1. destruct (UA_Invite _ _ _ _ (egress b)) as [[r' u]|] eqn:Eu; [|done]. injection E1 as -> <-.
  destruct (Invite_grows (egress b) _ _ _ _ _ _ _ (grows_refl _ He) Eu) as [Hg Hok].
  assert (b_moves b (with_egress u b)) as Hm1 by by destruct Hm.
  destruct r as [sess|e]; [|by eapply Hr]. injection E as <-.
  destruct (Hok sess eq_refl) as (s & Hs & Hd). destruct Hv as [Hid Hu Htk Hl Hcb]. cbn in *.
  destruct (tasks_grow _ _ _ Hg Htk) as [Eo Htk']. split; cbn; [done|split; [done|apply Hg]| | |by rewrite (g_cb _ _ Hg)].
  - apply Forall_app. rewrite Forall_singleton. split; [done|]. cbn. rewrite Hs. by eexists.
  - unfold legs. rewrite omap_app, app_assoc, Eo. cbn. rewrite Hs. cbn.
    unfold new_dialogs in *. rewrite omap_app in *. by apply fresh_legs_call with (nb := dm_next (ua_dialogs (egress b))).
Qed.

Lemma leg_bye_moves l answers b b' :
  used (ingress b) → used (egress b) → handleLegBye l answers b = Ret ((), b') →
  grows (ingress b) (ingress b') ∧ grows (egress b) (egress b') ∧ b_tasks b' = b_tasks b ∧
  (b_sessions b' = b_sessions b ∨ ∃ k, b_sessions b' = delete k (b_sessions b)).
Proof.
  intros Hi He. unfold handleLegBye. rewrite run_asks. destruct (find_session l b) as [s|].
  2: { intros [= <-]. split_and!; [by apply grows_refl..|done|by left]. }
  unfold b_call. rewrite !run_update. set (b1 := with_b_calls _ _). intros ([] & b2 & E & [= <-])%run_inv.
  apply moves_hangup with (b0 := b1) in E as [? ? Es ?]; [|by apply b_moves_refl]. cbn. split_and!; [done..|].
  right. by exists (ses_ID s).
Qed.

Lemma inv_bye l answers pi pe b b' :
  handleLegBye l answers b = Ret ((), b') → b2b_inv (mkConf pi pe b) → b2b_inv (mkConf pi pe b').
Proof.
  intros E Hv. destruct (v_used _ Hv) as [Hi He].
  destruct (leg_bye_moves _ _ _ _ Hi He E) as (Hg & Hg' & Ht & [Hs|[k Hs]]); [by eapply inv_quiet|by eapply inv_delete].
Qed.

Lemma reported_calls u u' : grows u u' →
  NoDup (new_dialogs (reported u u')) ∧
  Forall (λ p, dm_next (ua_dialogs u) ≤ p < dm_next (ua_dialogs u')) (new_dialogs (reported u u')).
Proof. intros [_ _ _ (l & Hl & Hnd & Hr) _]. unfold reported. by rewrite Hl, drop_app_length. Qed.

Lemma inv_step c c' : b2b_step c c' → b2b_inv c → b2b_inv c'.
Proof.
  intros Hs Hv. destruct (v_used _ Hv) as [Hi He]. destruct Hs; cbn in Hi, He.
  - assert (grows (ingress b) u) as Hg by (eapply grows_packet; [by apply grows_refl|done]).
    destruct (reported_calls _ _ Hg). eapply (inv_agents pi _ pe pe b); try done. by apply grows_refl.
  - assert (grows (egress b) u) as Hg by (eapply grows_packet; [by apply grows_refl|done]).
    rewrite <-(app_nil_r pi). eapply (inv_agents pi [] pe _ b); try done; [by apply grows_refl|apply NoDup_nil_2].
  - destruct c; cbn in *; try (injection H1 as <-; by eapply inv_taken).
    + by eapply inv_invite.
    + eapply inv_bye; [done|by eapply inv_taken].
  - destruct Hv. assert (b2b_inv (mkConf pi (pe ++ pe') b)) as Hv by done.
    destruct c; cbn in *; try (injection H1 as <-; done). by eapply inv_bye.
  - by eapply inv_wake.
  - assert (grows (ingress b) u) as Hg by (eapply grows_do; [by apply grows_refl|done]).
    eapply (inv_quiet pi pe b); try done. by apply grows_refl.
  - assert (grows (egress b) u) as Hg by (eapply grows_do; [by apply grows_refl|done]).
    eapply (inv_quiet pi pe b); try done. by apply grows_refl.
  - by destruct Hv.
Qed.

Lemma bridge_reachable_inv c : b2b_reachable c → b2b_inv c.
Proof.
  intros (i & e & Hi & He & Hc).
  assert (b2b_inv (mkConf [] [] (NewB2BUA i e))) as H0'.
  { split; cbn; [by intros k s ?%lookup_empty_Some|done|done| |by split].
    unfold legs. rewrite map_to_list_empty. by split; cbn; try apply NoDup_nil_2; apply Forall_nil_2. }
  induction Hc as [|c1 c2 c3 Hs Hc IH]; [done|]. apply IH. by eapply inv_step.
Qed.
End Invariant.

(** ** The end of a call *)

Lemma NoDup_map_inj {A B} (f : A → B) l x y : NoDup (map f l) → x ∈ l → y ∈ l → f x = f y → x = y.
Proof.
  intros Hl [i Hi]%list_elem_of_lookup [j Hj]%list_elem_of_lookup Hxy.
  assert (i = j) as ->; [|congruence].
  apply (NoDup_lookup (map f l) i j (f x)); [done|by rewrite list_lookup_fmap, Hi|by rewrite list_lookup_fmap, Hj, Hxy].
Qed.

(** In every reachable state no dialog is the leg of two sessions. *)
Lemma inv_sessions_ok c : b2b_inv c → sessions_ok (b_sessions (at_b c)).
Proof.
  intros [Hid _ _ [HA _ HB _] _]. split; [done|]. intros k k' s s' l Hk Hk' Hl Hl'.
  unfold legs in HA, HB. rewrite fmap_app, <-app_assoc in HA. rewrite fmap_app in HB.
  apply NoDup_app in HA as [HA _], HB as [HB _]. change (map ?f ?l) with (f <$> l) in HA, HB.
  rewrite <-list_fmap_compose in HA, HB. apply elem_of_map_to_list in Hk, Hk'.
  unfold session_legs in Hl, Hl'. rewrite elem_of_cons, list_elem_of_singleton in Hl, Hl'.
  assert ((k, s) = (k', s')) as [= <- _]; [|done].
  destruct Hl as [->| ->], Hl' as [El|El]; try done; injection El as El.
  - by apply (NoDup_map_inj _ _ _ _ HA).
  - by apply (NoDup_map_inj _ _ _ _ HB).
Qed.

Section Bye.
Context `{Sender} `{Entropy}.

(** *** A BYE that arrives

    The manager reports a request it has not seen, and the agent then looks at it. *)

(** Effects that leave the agent alone. *)
Definition silent (e : effect) : bool := match e with EOnRequest _ _ _ | EPanic => false | _ => true end.

Definition quieter (m0 m : TxManager) : Prop := ∃ l, trace m = trace m0 ++ l ∧ forallb silent l.

Lemma quieter_emit m0 e : silent e → keeps (quieter m0) (emit e).
Proof.
  intros He. apply keeps_modify. intros m (l & Hl & Hs). exists (l ++ [e]). cbn. rewrite Hl, <-app_assoc. split; [done|].
  rewrite forallb_app. apply andb_True. split; [done|]. cbn. by rewrite (Is_true_true_1 _ He).
Qed.

Lemma quieter_same m0 f : (∀ m, trace (f m) = trace m) → keeps (quieter m0) (modify f).
Proof. intros Hf. apply keeps_modify. intros m (l & Hl & Hs). exists l. by rewrite Hf. Qed.

Lemma quieter_ack m0 p : keeps (quieter m0) (receiveACK p).
Proof.
  unfold receiveACK, put_server, put_tx, schedule, add_task, get_server.
  repeat first [apply quieter_same; done|keeps_step].
Qed.

Lemma quieter_again m0 p : keeps (quieter m0) (receiveRetransmission p).
Proof. unfold receiveRetransmission, get_server, send. repeat first [by apply quieter_emit|keeps_step]. Qed.

(** The report of a packet, if any. *)
Definition reports (pkt : Packet) (u : UA) (req : Request) (stx : option nat) : Prop :=
  trace (snd (handlePacket pkt (ua_tm u))) = trace (ua_tm u) ++ [EInc "packets_received"; EOnRequest req (Src pkt) stx].

Lemma bind_known {A B} (x : M A) (k : A → M B) m b m' : x m = (b, m') → (x ≫= k) m = k b m'.
Proof. unfold mbind, state_bind. by intros ->. Qed.

Lemma handleRequest_reports req src m :
  (∃ stx, trace (snd (handleRequest req src m)) = trace m ++ [EOnRequest req src stx]) ∨
  quieter m (snd (handleRequest req src m)).
Proof.
  assert (quieter m m) as H0' by (exists []; by rewrite app_nil_r).
  unfold handleRequest. destruct (_ == ACK).
  { unfold lookup_server. rewrite run_gets. destruct (txs m !! _ ≫= _) as [p|]; [right; by apply quieter_ack|left; by eexists]. }
  match goal with |- context [(?x ≫= _) m] => assert (∃ b, x m = (b, m)) as [b Hb] end.
  { destruct (_ == CANCEL); [|by eexists]. unfold lookup_server. rewrite run_gets.
    destruct (txs m !! _ ≫= _) as [p|]; [|by eexists]. unfold get_server. rewrite run_gets. by eexists. }
  rewrite (bind_known _ _ _ _ _ Hb). clear Hb.
  destruct b; [right; by apply quieter_emit|]. unfold lookup_server. rewrite !run_gets.
  destruct (txs m !! serverTxKey req ≫= _) as [p|]; [right; by apply quieter_again|].
  destruct (serverTxKey req == []); [by right|]. left. by eexists.
Qed.

Lemma packet_reports pkt req u :
  Msg pkt = MReq req → (∃ stx, reports pkt u req stx) ∨ quieter (ua_tm u) (snd (handlePacket pkt (ua_tm u))).
Proof.
  intros Hm. unfold reports. set (m1 := with_trace (trace (ua_tm u) ++ [EInc "packets_received"]) (ua_tm u)).
  change (handlePacket pkt (ua_tm u)) with (match Msg pkt with
    MReq r => handleRequest r (Src pkt) | MResp r => handleResponse r (Src pkt) end m1).
  rewrite Hm. destruct (handleRequest_reports req (Src pkt) m1) as [[stx E]|(l & Hl & Hs)].
  - left. exists stx. rewrite E. unfold m1. cbn. by rewrite <-app_assoc.
  - right. exists (EInc "packets_received" :: l). rewrite Hl. unfold m1. cbn. by rewrite <-app_assoc.
Qed.

Lemma each_silent l (u : UA) : forallb silent l → each on_effect l u = Ret ((), u).
Proof.
  induction l as [|e l IH]; [done|]. cbn [forallb]. intros [He Hl]%andb_True. cbn [each]. unfold mbind, proc_bind.
  destruct e; try done; by apply IH.
Qed.

(** A BYE without a transaction is answered through nil. *)
Lemma handleBye_none req src u : handleBye req src None u = Panic.
Proof.
  unfold handleBye. unfold mbind at 1, proc_bind at 1. rewrite findDialog_spec. destruct (named u req) as [p|]; [|done].
  unfold get_dialog. rewrite run_asks. destruct (negb _); [done|].
  destruct (match cseq_of _ with Some _ => _ | None => _ end); [done|].
  unfold modify_dialog, remove_dialog. by rewrite !run_update.
Qed.

(** What the agent makes of it. *)
Lemma bye_packet pkt req u u' :
  Msg pkt = MReq req → Req_Method req = BYE → OnBye (ua_cb u) = true → UA_handlePacket pkt u = Ret ((), u') →
  (∃ q e x, reports pkt u req (Some x) ∧ bye_accepted u req (Src pkt) q e ∧ calls u' = calls u ++ [CallBye req q (Some x)]) ∨
  (((∀ q e, ¬ bye_accepted u req (Src pkt) q e) ∨ ∀ stx, ¬ reports pkt u req stx) ∧ calls u' = calls u).
Proof.
  intros Hm Hb Hcb Hr. unfold UA_handlePacket in Hr. rewrite run_asks in Hr. apply run_inv in Hr as ([] & u1 & E & Hr).
  rewrite run_asks in Hr. pose proof (packet_reports pkt req u Hm) as Hrep. unfold on_tm, on in E.
  unfold reports in *. destruct (handlePacket pkt (ua_tm u)) as [[] m] eqn:Em. injection E as <-. cbn [ua_tm with_tm snd] in *.
  destruct Hrep as [[stx Ht]|(l & Ht & Hs)]; rewrite Ht, drop_app_length in Hr.
  - cbn [each on_effect] in Hr. rewrite run_ret in Hr. apply run_inv in Hr as ([] & u2 & E2 & [= <-]).
    unfold UA_handleRequest in E2. rewrite run_asks in E2. cbv zeta in E2. rewrite Hb in E2.
    change (handleBye req (Src pkt) stx (with_tm m u) = Ret ((), u2)) in E2.
    destruct stx as [x|]; [|by rewrite handleBye_none in E2].
    apply handleBye_spec in E2 as [(q & e & Ha & _ & _ & Hc)|[Hno (m' & ->)]].
    + left. exists q, e, x. split; [done|]. split; [exact Ha|]. cbn in Hc. by rewrite Hcb in Hc.
    + right. split; [left; exact Hno|]. unfold noticed. by destruct (named _ _).
  - rewrite each_silent in Hr by done. injection Hr as <-. right. split; [right|done].
    intros stx E. rewrite Ht in E. apply app_inv_head in E as ->. done.
Qed.

(** ** The two sides *)

Inductive side := Ingress | Egress.

Definition agent (s : side) (b : B2BUA) : UA := match s with Ingress => ingress b | Egress => egress b end.
Definition with_agent (s : side) (u : UA) (b : B2BUA) : B2BUA :=
  match s with Ingress => with_ingress u b | Egress => with_egress u b end.
Definition other (s : side) : side := match s with Ingress => Egress | Egress => Ingress end.
Definition leg_at (s : side) (q : nat) : leg := match s with Ingress => ALegOf q | Egress => BLegOf q end.
Definition dialog_at (s : side) (ses : B2BSession) : nat := match s with Ingress => ALeg ses | Egress => BLeg ses end.
Definition side_packet (s : side) (pkt : Packet) (answers : list (result Response)) : proc B2BUA () :=
  match s with Ingress => ingress_packet pkt answers | Egress => egress_packet pkt answers end.

(** The session with the dialog [q] of the side [s] is torn down, and its other leg
    is hung up unless it is over; a dialog that is no leg changes nothing. *)
Definition torn_down (s : side) (q : nat) (answers : list (result Response)) (b b' : B2BUA) : Prop :=
  (∃ k ses, b_sessions b !! k = Some ses ∧ dialog_at s ses = q ∧
     (∀ k' ses', b_sessions b !! k' = Some ses' → dialog_at s ses' = q → k' = k) ∧
     b_sessions b' = delete k (b_sessions b) ∧ b_calls b' = b_calls b ++ [RelayStop; SessionEnd ses] ∧
     agent s b' = agent s b ∧
     hung_up (agent (other s) b) (dialog_at (other s) ses) answers (agent (other s) b')) ∨
  ((∀ k ses, b_sessions b !! k = Some ses → dialog_at s ses ≠ q) ∧ b' = b).

Lemma leg_at_dialog s q ses : leg_at s q ∈ session_legs ses ↔ dialog_at s ses = q.
Proof.
  unfold session_legs. rewrite elem_of_cons, list_elem_of_singleton. destruct s; cbn; split.
  - by intros [[= ->]|?].
  - intros ->. by left.
  - by intros [?|[= ->]].
  - intros ->. by right.
Qed.

Lemma leg_bye_torn s q answers b b' :
  sessions_ok (b_sessions b) → handleLegBye (leg_at s q) answers b = Ret ((), b') → torn_down s q answers b b'.
Proof.
  intros Hok E. destruct (leg_bye_exact (leg_at s q) answers b b' Hok E) as [(k & ses & Hk & Hl & Hd & _ & Hcs & Hu)|[Hno ->]].
  - left. exists k, ses. apply leg_at_dialog in Hl as Hq. split; [done|]. split; [done|]. split.
    { intros k' ses' Hk' Hq'. apply (proj2 Hok k' k ses' ses (leg_at s q)); [done..|by apply leg_at_dialog|done]. }
    split; [done|]. split; [done|]. by destruct s.
  - right. split; [|done]. intros k ses Hk Hq. apply (Hno k ses Hk). by apply leg_at_dialog.
Qed.

Lemma side_packet_run s pkt answers b b' l u :
  UA_handlePacket pkt (agent s b) = Ret ((), u) → calls u = calls (agent s b) ++ l →
  side_packet s pkt answers b = Ret ((), b') →
  match l with
  | [] => b' = with_agent s u b
  | [CallBye _ q _] => handleLegBye (leg_at s q) answers (with_agent s u b) = Ret ((), b')
  | _ => True
  end.
Proof.
  intros Hu Hl. destruct s; cbn [side_packet agent with_agent leg_at] in *; unfold ingress_packet, egress_packet;
    rewrite run_asks; intros ([] & b1 & E & Hr)%run_inv; rewrite run_asks in Hr;
    (unfold on_in, onp in E || unfold on_eg, onp in E); rewrite Hu in E; injection E as <-;
    cbn [ingress egress with_ingress with_egress] in Hr; rewrite Hl, drop_app_length in Hr;
    (destruct l as [|c [|? ?]]; [by injection Hr as <-| |by destruct c]); destruct c; try done;
    cbn [each on_ingress_call on_egress_call] in Hr; by apply run_inv in Hr as ([] & b2 & E2 & [= <-]).
Qed.

(** C40: a BYE that arrives at either side of the bridge, in every reachable state.
    When the manager reports it and the agent accepts it for a dialog (it names it,
    comes from its remote host and is not old), exactly the one session that has the
    dialog as its leg on that side is torn down: it leaves the table, the relay
    stops, the hook runs, and the other leg, and only that one, is hung up unless it
    is over.  An accepted BYE of a dialog that is no leg, and any BYE the agent does
    not accept or the manager does not report, changes no session and nothing on the
    other side ([b2bua_caller_bye_refused] shows a caller's BYE that is refused). *)
Theorem b2bua_bye (s : side) (pi pe : list call) (b b' : B2BUA) (pkt : Packet) (req : Request) (answers : list (result Response)) :
  b2b_reachable (mkConf pi pe b) → Msg pkt = MReq req → Req_Method req = BYE →
  side_packet s pkt answers b = Ret ((), b') →
  ∃ u, UA_handlePacket pkt (agent s b) = Ret ((), u) ∧
  ((∃ q e x, reports pkt (agent s b) req (Some x) ∧ bye_accepted (agent s b) req (Src pkt) q e ∧
      torn_down s q answers (with_agent s u b) b') ∨
   (((∀ q e, ¬ bye_accepted (agent s b) req (Src pkt) q e) ∨ ∀ stx, ¬ reports pkt (agent s b) req stx) ∧
    b' = with_agent s u b)).
Proof.
  intros Hc Hm Hb Hr. pose proof (bridge_reachable_inv _ Hc) as Hv.
  assert (∃ u, UA_handlePacket pkt (agent s b) = Ret ((), u)) as [u Hu].
  { destruct s; cbn [side_packet agent] in *; unfold ingress_packet, egress_packet in Hr; rewrite run_asks in Hr;
      apply run_inv in Hr as ([] & b1 & E & _); (unfold on_in, onp in E || unfold on_eg, onp in E);
      (destruct (UA_handlePacket pkt _) as [[[] u]|]; [by exists u|done]). }
  exists u. split; [exact Hu|].
  assert (OnBye (ua_cb (agent s b)) = true) as Hcb by (destruct (v_bye _ Hv), s; done).
  destruct (bye_packet pkt req _ u Hm Hb Hcb Hu) as [(q & e & x & Hrep & Hacc & Hl)|[Hno Hl]].
  - left. exists q, e, x. split; [exact Hrep|]. split; [exact Hacc|]. apply leg_bye_torn.
    + pose proof (inv_sessions_ok _ Hv). by destruct s.
    + exact (side_packet_run s pkt answers b b' [CallBye req q (Some x)] u Hu Hl Hr).
  - right. split; [exact Hno|]. apply (side_packet_run s pkt answers b b' [] u Hu); [by rewrite app_nil_r|exact Hr].
Qed.
End Bye.

(** ** A bridged call *)

Definition ex_bye : proc B2BUA () := handleLegBye (H := ok_sender_ua) (H0 := ex_entropy) (ALegOf 0) [Ok (NewResponse 200 [])].

Lemma b_run_next f o b :
  o = Ret b → b_running (b_run f o) = true →
  f b = Ret ((), b_state (b_run f o)) ∧ b_run f o = Ret (b_state (b_run f o)).
Proof. intros -> Hr. cbn in *. by destruct (f b) as [[[] b']|]. Qed.

Lemma on_eg_step f b b' : on_eg f b = Ret ((), b') → ∃ u, f (egress b) = Ret ((), u) ∧ b' = with_egress u b.
Proof. unfold on_eg, onp. destruct (f (egress b)) as [[[] u]|]; [|done]. intros [= <-]. by exists u. Qed.

Lemma used_NewUA host port : used (NewUA host port).
Proof. intros i [s Hs]. cbn in Hs. by rewrite lookup_empty in Hs. Qed.

Lemma ex_bridged_reachable : b2b_reachable (H := ok_sender_ua) (H0 := ex_entropy) (mkConf [] [] (b_state ex_bridged)).
Proof.
  exists (NewUA "10.0.0.2" 5060), (NewUA "10.0.0.3" 5060). split_and!; [apply used_NewUA..|].
  eapply rtc_l; [apply (BRoute _ _ _ (Some (λ _, Ok (Some (ua_ex_uri "bob" "10.0.0.9")))))|].
  change (SetRouteTarget _ _) with ex_b2bua. unfold ex_bridged.
  set (o1 := b_in _ _ _). destruct (b_run_next _ _ _ eq_refl : b_running o1 = true → _) as [S1 E1]; [vm_compute; reflexivity|].
  set (o2 := b_out _ _). destruct (b_run_next _ _ _ E1 : b_running o2 = true → _) as [S2 E2]; [vm_compute; reflexivity|].
  set (o3 := b_run (on_eg _) _). destruct (b_run_next _ _ _ E2 : b_running o3 = true → _) as [S3 E3]; [vm_compute; reflexivity|].
  set (o4 := b_run _ _). destruct (b_run_next _ _ _ E3 : b_running o4 = true → _) as [S4 E4]; [vm_compute; reflexivity|].
  etrans; [by eapply ingress_packet_steps|]. etrans; [by eapply egress_packet_steps|].
  apply on_eg_step in S3 as (u & Su & Eu). fold o3 in Eu. eapply rtc_l; [by eapply (BEgressAct _ _ _ (ActPump 0))|].
  fold o2 in Eu. rewrite <-Eu. eapply rtc_l; [by eapply BWake|]. apply rtc_refl.
Qed.

(** A BYE of the caller's leg that comes from the host the dialog has for its peer. *)
Definition ex_bye_packet : Packet := mkPacket (MReq (ex_inbound BYE BYE "z9hG4bK2" "a" ex_tag)) (mkAddr "udp" "10.0.0.2" 5060).
Definition ex_bye_taken : proc B2BUA () :=
  side_packet (H := ok_sender_ua) (H0 := ex_entropy) Ingress ex_bye_packet [Ok (NewResponse 200 [])].
Definition ex_ended : B2BUA := b_state (b_run ex_bye_taken (Ret (b_state ex_bridged))).

Lemma ex_ended_run : ex_bye_taken (b_state ex_bridged) = Ret ((), ex_ended).
Proof. apply b_run_state. vm_compute. reflexivity. Qed.

Lemma ex_ended_sessions :
  b_sessions (b_state ex_bridged) = {[lit "c1" := mkB2BSession "c1" 0 0 0]} ∧ b_sessions ex_ended = ∅.
Proof. split; vm_compute; reflexivity. Qed.

Lemma b2bua_bye_witness :
  ∃ ses, b_sessions (b_state ex_bridged) = {[lit "c1" := ses]} ∧ b_sessions ex_ended = ∅ ∧
    b_calls ex_ended = b_calls (b_state ex_bridged) ++ [RelayStop; SessionEnd ses].
Proof.
  pose proof ex_bridged_reachable as Hr. pose proof ex_ended_run as E. destruct ex_ended_sessions as [Es Es'].
  generalize dependent ex_ended. generalize dependent (b_state ex_bridged). intros b Hr Es b' E Es'.
  exists (mkB2BSession "c1" 0 0 0). split; [exact Es|]. split; [exact Es'|].
  destruct (b2bua_bye (H := ok_sender_ua) (H0 := ex_entropy) Ingress [] [] b b' ex_bye_packet
    (ex_inbound BYE BYE "z9hG4bK2" "a" ex_tag) [Ok (NewResponse 200 [])] Hr eq_refl eq_refl E)
    as (u & _ & [(q & e & x & _ & _ & [(k & t & Hk & _ & _ & _ & Hc & _)|[_ Hb]])|[_ Hb]]).
  - cbn [with_agent b_sessions with_ingress] in Hk. rewrite Es in Hk. apply lookup_singleton_Some in Hk as [_ <-]. exact Hc.
  - exfalso. subst b'. cbn [with_agent b_sessions with_ingress] in Es'. rewrite Es in Es'. by apply map_non_empty_singleton in Es'.
  - exfalso. subst b'. cbn [with_agent b_sessions with_ingress] in Es'. rewrite Es in Es'. by apply map_non_empty_singleton in Es'.
Defined.

(** The INVITE an agent sent last. *)
Definition last_invite (u : outcome UA) : Request :=
  match u with
  | Ret u => default (NewRequest [] None) (last (omap (λ e, match e with
               | ESend (MReq r) _ _ => if Req_Method r == INVITE then Some r else None
               | _ => None
               end) (trace (ua_tm u))))
  | Panic => NewRequest [] None
  end.

(** A second caller that uses the Call-ID of the first, answered too. *)
Definition ex_bridged_twice : outcome B2BUA :=
  let b := b_in "10.0.0.7" (ex_inbound INVITE INVITE "z9hG4bK7" "mallory" []) ex_bridged in
  let b := b_out (ex_answer 200 (last_invite (egress_of b))) b in
  b_run (b2b_wake_task (H := ok_sender_ua) 0 false) (b_run (on_eg (pump 1)) b).

(** Sessions are filed under the caller's Call-ID: a caller that repeats the one of
    another call takes its place, and the BYE of the first call ends nothing. *)
Lemma same_call_id_replaces :
  b_sessions (b_state ex_bridged_twice) = {[lit "c1" := mkB2BSession "c1" 1 1 1]} ∧
  length (b_calls (b_state ex_bridged_twice)) = 4 ∧
  b_run ex_bye ex_bridged_twice = ex_bridged_twice.
Proof. split_and!; vm_compute; reflexivity. Qed.
