(* ===== verification/Platform.v ===== *)
(** * [gb28181/platform.go]: the platform

    The platform is the application of a user agent: a packet goes to the agent,
    and the agent's callbacks to the platform, in their order.  Device records are
    kept by identifier; the channel map, the events of [OnDevice] and the INVITEs
    handed to [OnInvite] are part of the state.  The wait for the answer of a
    MESSAGE takes the answer as an argument. *)

From S2P Require Import Prelude GoStrings Params Uri Headers HeadersMap Message Net Transport Ids Transaction Proc Dialog Digest Sdp Utf8 XmlToken Xml Ua.

(** ** State *)

Record PlatformConfig := mkPlatformConfig {
  p_ServerID : str;
  p_ServerHost : str;
  ListenPort : Z;
  p_Realm : str;
  p_Password : option (str → option str);   (* nil, or the password when there is one *)
  Expires : Z
}.

(** [NewPlatform]'s defaults. *)
Definition platform_defaults (c : PlatformConfig) : result PlatformConfig :=
  if p_ServerID c == [] then Err ErrOther
  else Ok (mkPlatformConfig (p_ServerID c) (p_ServerHost c) (if ListenPort c == 0%Z then 5060 else ListenPort c)
             (if p_Realm c == [] then p_ServerID c else p_Realm c) (p_Password c)
             (if Expires c == 0%Z then 3600 else Expires c)).

(** [LastSeen] is [None] for the zero time. *)
Record DeviceStatus := mkDeviceStatus {
  ds_ID : str; LastSeen : option Z; Registered : bool; ds_Nonce : str; lastReg : option Request
}.

Record DeviceEvent := mkDeviceEvent { ev_DeviceID : str; ev_Type : str; ev_Envelope : option Envelope }.

Record Platform := mkPlatform {
  p_cfg : PlatformConfig;
  p_ua : UA;
  devices : gmap str DeviceStatus;
  p_sn : Z;
  channelOf : gmap str str;
  p_now : Z;
  p_events : list DeviceEvent;
  p_invites : list call
}.

Definition with_ua (u : UA) (p : Platform) : Platform :=
  mkPlatform (p_cfg p) u (devices p) (p_sn p) (channelOf p) (p_now p) (p_events p) (p_invites p).
Definition with_devices (d : gmap str DeviceStatus) (p : Platform) : Platform :=
  mkPlatform (p_cfg p) (p_ua p) d (p_sn p) (channelOf p) (p_now p) (p_events p) (p_invites p).
Definition with_sn (n : Z) (p : Platform) : Platform :=
  mkPlatform (p_cfg p) (p_ua p) (devices p) n (channelOf p) (p_now p) (p_events p) (p_invites p).
Definition with_channels (c : gmap str str) (p : Platform) : Platform :=
  mkPlatform (p_cfg p) (p_ua p) (devices p) (p_sn p) c (p_now p) (p_events p) (p_invites p).
Definition with_time (t : Z) (p : Platform) : Platform :=
  mkPlatform (p_cfg p) (p_ua p) (devices p) (p_sn p) (channelOf p) t (p_events p) (p_invites p).
Definition with_events (l : list DeviceEvent) (p : Platform) : Platform :=
  mkPlatform (p_cfg p) (p_ua p) (devices p) (p_sn p) (channelOf p) (p_now p) l (p_invites p).
Definition with_invites (l : list call) (p : Platform) : Platform :=
  mkPlatform (p_cfg p) (p_ua p) (devices p) (p_sn p) (channelOf p) (p_now p) (p_events p) l.

(** The agent [Run] makes, with its three callbacks. *)
Definition platform_agent (c : PlatformConfig) : UA :=
  with_cb (mkUACallbacks true true false true false false false) (NewUA (p_ServerHost c) (ListenPort c)).

Definition new_platform (c : PlatformConfig) (now : Z) : Platform :=
  mkPlatform c (platform_agent c) ∅ 0 ∅ now [] [].

(** ** Devices *)

(** [p.device]: the record of a device, made when it is missing, and a change to it. *)
Definition device (p : Platform) (id : str) : DeviceStatus :=
  default (mkDeviceStatus id None false [] None) (devices p !! id).

Definition change_device (id : str) (f : DeviceStatus → DeviceStatus) (p : Platform) : Platform :=
  with_devices (<[id := f (device p id)]> (devices p)) p.

Definition set_challenge (nonce : str) (req : Request) (d : DeviceStatus) : DeviceStatus :=
  mkDeviceStatus (ds_ID d) (LastSeen d) (Registered d) nonce (Some req).
Definition set_registered (now : Z) (d : DeviceStatus) : DeviceStatus :=
  mkDeviceStatus (ds_ID d) (Some now) true (ds_Nonce d) (lastReg d).
Definition set_seen (now : Z) (d : DeviceStatus) : DeviceStatus :=
  mkDeviceStatus (ds_ID d) (Some now) (Registered d) (ds_Nonce d) (lastReg d).

Definition Devices (p : Platform) : list DeviceStatus := (map_to_list (devices p)).*2.

Definition IsOnline (p : Platform) (id : str) : bool :=
  match devices p !! id with
  | Some d => Registered d && match LastSeen d with
                              | Some t => (p_now p - t <? Expires (p_cfg p) * Second)%Z
                              | None => false
                              end
  | None => false
  end.

Definition p_nextSN : proc Platform Z := n ← asks p_sn; update (with_sn (n + 1));; mret (n + 1)%Z.

(** ** Registration *)

(** The verb [%q] on ASCII text. *)
Definition quote_byte (c : ascii) : str :=
  if c == DQUOTE then [BSLASH; DQUOTE]
  else if c == BSLASH then [BSLASH; BSLASH]
  else if c == LF then [BSLASH; "n"%char]
  else if c == CR then [BSLASH; "r"%char]
  else if c == TAB then [BSLASH; "t"%char]
  else if c == byte 7 then [BSLASH; "a"%char]
  else if c == byte 8 then [BSLASH; "b"%char]
  else if c == byte 11 then [BSLASH; "v"%char]
  else if c == byte 12 then [BSLASH; "f"%char]
  else if is_ctl c then [BSLASH; "x"%char] ++ pad_hex 2 (code c)
  else [c].
Definition Quote (s : str) : str := [DQUOTE] ++ flat_map quote_byte s ++ [DQUOTE].

Definition authValue (h : option Header) : str := headerValue h.

Definition challenge_value (realm nonce : str) : str := "Digest realm=" ++ Quote realm ++ " nonce=" ++ Quote nonce.

Definition challenge_response (c : PlatformConfig) (nonce : str) : Response :=
  resp_with_headers (NewResponse 401 []) [NewHeader "WWW-Authenticate" (challenge_value (p_Realm c) nonce)].

(** The digest [onRegister] expects. *)
Definition expected_response (cfg : PlatformConfig) (auth : Auth) (password : str) : str :=
  let realm := if Realm auth == [] then p_Realm cfg else Realm auth in
  let ha1 := MD5Hex [Username auth ++ ":" ++ realm ++ ":" ++ password] in
  let ha2 := MD5Hex [REGISTER ++ ":" ++ URI auth] in
  MD5Hex [ha1 ++ ":" ++ Nonce auth ++ ":" ++ ha2].

(** [req.From().Uri.User], a panic when the From or its URI is missing. *)
Definition from_user (req : Request) : option str :=
  Uri_User <$> (from_of (Req_headers req) ≫= Address_Uri).

Section Platform.
Context `{Sender} `{Entropy} `{XmlNames}.

Definition on_ua {A} (m : proc UA A) : proc Platform A := onp p_ua with_ua m.

Definition respond_status (stx : option nat) (status : Z) : proc Platform () :=
  _ ← on_ua (stx_Respond stx (NewResponse status [])); mret ().

Definition on_device (ev : DeviceEvent) : proc Platform () := update (λ p, with_events (p_events p ++ [ev]) p).

Definition onRegister (req : Request) (stx : option nat) : proc Platform () :=
  match from_user req with
  | None => panic
  | Some deviceID =>
    cfg ← asks p_cfg;
    let auth := ParseAuth (authValue (Headers_Get (Req_headers req) "Authorization")) in
    if (Auth_Scheme auth == []) || (Response_ auth == []) then
      nonce ← on_ua fresh_callid;
      update (change_device deviceID (set_challenge nonce req));;
      _ ← on_ua (stx_Respond stx (challenge_response cfg nonce)); mret ()
    else
      match p_Password cfg ≫= λ f, f deviceID with
      | None => respond_status stx 403
      | Some password =>
        if negb (expected_response cfg auth password == Response_ auth) then respond_status stx 401
        else
          now ← asks p_now;
          update (change_device deviceID (set_registered now));;
          respond_status stx 200;;
          on_device (mkDeviceEvent deviceID "registered" None)
      end
  end.

(** ** Messages of devices *)

Definition learn_channels (deviceID : str) (l : DeviceList) (p : Platform) : Platform :=
  with_channels (foldl (λ m it, <[it_DeviceID it := deviceID]> m) (channelOf p) (dl_Items l)) p.

Definition onMessage (req : Request) (stx : option nat) : proc Platform () :=
  match xml_Parse (default [] (Req_body req)) with
  | Err _ => _ ← on_ua (UA_Respond None stx 400 [] None); mret ()
  | Ok e =>
    _ ← on_ua (UA_Respond None stx 200 [] None);
    match from_user req with
    | None => panic
    | Some deviceID =>
      now ← asks p_now;
      update (change_device deviceID (set_seen now));;
      match (if e_CmdType e == CmdCatalog then e_DeviceList e else None) with
      | Some l => update (learn_channels deviceID l)
      | None => mret ()
      end;;
      on_device (mkDeviceEvent deviceID "message" (Some e))
    end
  end.

(** ** Packets *)

Definition on_call (c : call) : proc Platform () :=
  match c with
  | CallRegister req stx => onRegister req stx
  | CallMessage req stx => onMessage req stx
  | CallInvite _ _ _ => update (λ p, with_invites (p_invites p ++ [c]) p)
  | _ => mret ()
  end.

Definition Platform_handlePacket (pkt : Packet) : proc Platform () :=
  n ← asks (λ p, length (calls (p_ua p)));
  on_ua (UA_handlePacket pkt);;
  new ← asks (λ p, drop n (calls (p_ua p)));
  each on_call new.

(** ** Finding a device *)

Definition registered_ids (p : Platform) : list str :=
  (map_to_list (filter (λ kd, Registered kd.2 = true) (devices p))).*1.

Definition is_registered (p : Platform) (id : str) : bool :=
  match devices p !! id with Some d => Registered d | None => false end.

Definition resolveDevice (p : Platform) (id : str) : option str :=
  if is_registered p id then Some id
  else
    match channelOf p !! id with
    | Some dev => if is_registered p dev then Some dev
                  else match registered_ids p with [x] => Some x | _ => None end
    | None => match registered_ids p with [x] => Some x | _ => None end
    end.

Definition lastRegisterOf (p : Platform) (id : str) : option Request := devices p !! id ≫= lastReg.

Definition deviceAddr (p : Platform) (id : str) : option Addr :=
  let id := default id (resolveDevice p id) in
  req ← lastRegisterOf p id;
  via ← via_of (Req_headers req);
  if Via_Host via == [] then None
  else Some (mkAddr "udp" (Via_Host via) (if Via_Port via == 0%Z then 5060 else Via_Port via)).

(** ** Requests to devices *)

(** The headers both endpoints give a MESSAGE. *)
Definition message_headers (from to tag callid : str) : Headers :=
  let h := Headers_Set [] (NewHeader "From" from) in
  let h := Headers_Set h (NewHeader "To" to) in
  let h := Headers_Set h (NewHeader "Call-ID" callid) in
  let h := Headers_Set h (HCSeq (mkCSeq 1 MESSAGE)) in
  Headers_Set h (HMaxForwards 70).

Definition device_uri (id : str) (dst : Addr) : Uri := mkUri "sip" id [] (Addr_Host dst) (Addr_Port dst) None None.
Definition platform_from (c : PlatformConfig) (params : option Params) : Address :=
  mkAddress [] false (Some (mkUri "sip" (p_ServerID c) [] (p_ServerHost c) 0 None None)) params.

Definition p_newMessage (c : PlatformConfig) (id : str) (dst : Addr) (tag callid body : str) : Request :=
  let to := device_uri id dst in
  let from := platform_from c (Some (Params_Set NewParams "tag" tag)) in
  Request_SetBody
    (req_with_headers (NewRequest MESSAGE (Some to))
       (message_headers (Address_String from) (Address_String (mkAddress [] false (Some to) None)) tag callid))
    "application/MANSCDP+xml" (Some body).

(** [answer] is the first event of the transaction, or [ErrTimeout]. *)
Definition p_sendMessage (id body : str) (answer : result Response) : proc Platform (result unit) :=
  p ← asks (λ p, p);
  match deviceAddr p id with
  | None => mret (Err ErrOther)
  | Some dst =>
    tag ← on_ua fresh_tag; callid ← on_ua fresh_callid;
    r ← on_ua (tm_Request (p_newMessage (p_cfg p) id dst tag callid body) dst);
    match r with
    | Err e => mret (Err e)
    | Ok _ => mret (match answer with Ok _ => Ok () | Err e => Err e end)
    end
  end.

Definition QueryCatalog (id : str) (answer : result Response) : proc Platform (result unit) :=
  sn ← p_nextSN; p_sendMessage id (BuildQuery (new_Envelope CmdCatalog sn id)) answer.
Definition QueryDeviceInfo (id : str) (answer : result Response) : proc Platform (result unit) :=
  sn ← p_nextSN; p_sendMessage id (BuildQuery (new_Envelope CmdDeviceInfo sn id)) answer.
Definition PTZControl (id cmd : str) (answer : result Response) : proc Platform (result unit) :=
  sn ← p_nextSN; p_sendMessage id (BuildControl (with_PTZCmd cmd (new_Envelope CmdPTZCmd sn id))) answer.

Definition p_invite (id : str) (s : StreamSDP) : proc Platform (result nat) :=
  p ← asks (λ p, p);
  match deviceAddr p id with
  | None => mret (Err ErrOther)
  | Some dst => on_ua (UA_Invite (device_uri id dst) (platform_from (p_cfg p) None) "application/sdp" (Some (Build s)))
  end.

Definition InviteLive (id mediaIP : str) (mediaPort ssrc : Z) : proc Platform (result nat) :=
  c ← asks p_cfg;
  p_invite id (mkStreamSDP (p_ServerID c) mediaIP ssrc true mediaPort 0 [] [] []).

Definition InvitePlayback (id mediaIP : str) (mediaPort ssrc : Z) (start end_ : str) : proc Platform (result nat) :=
  c ← asks p_cfg;
  p_invite id (mkStreamSDP (p_ServerID c) mediaIP ssrc true mediaPort 0 "PlayBack" start end_).
End Platform.
