(* ===== verification/Device.v ===== *)
(** * [gb28181/device.go]: the device

    Registration with digest authentication, keepalives, the answers to queries
    and to streaming INVITEs.  The waits take the answer they yield as an argument;
    the main loop [run] is a step function of its local state. *)

From S2P Require Import Prelude GoStrings Params Uri Headers HeadersMap Message Net Transport Ids Transaction Proc Dialog Digest Sdp Utf8 XmlToken Xml Ua Platform.

(** ** State *)

Record DeviceInfoT := mkDeviceInfo { di_Name : str; di_Manufacturer : str; di_Model : str; di_Firmware : str }.

Record DeviceConfig := mkDeviceConfig {
  dc_DeviceID : str; dc_Password : str; dc_ServerID : str; dc_ServerHost : str; dc_ServerPort : Z;
  dc_LocalHost : str; dc_LocalPort : Z; KeepaliveInterval : Z; RegisterTimeout : Z;
  Channels : list Item; DeviceInfo : DeviceInfoT
}.

Definition device_defaults (c : DeviceConfig) : result DeviceConfig :=
  if (dc_DeviceID c == []) || (dc_ServerID c == []) || (dc_ServerHost c == []) then Err ErrOther
  else Ok (mkDeviceConfig (dc_DeviceID c) (dc_Password c) (dc_ServerID c) (dc_ServerHost c) (dc_ServerPort c)
             (dc_LocalHost c) (if dc_LocalPort c == 0%Z then 5060 else dc_LocalPort c)
             (if KeepaliveInterval c == 0%Z then 60 * Second else KeepaliveInterval c)%Z
             (if RegisterTimeout c == 0%Z then 10 * Second else RegisterTimeout c)%Z (Channels c) (DeviceInfo c)).

Record Stream := mkStream { st_Dialog : nat; st_SSRC : Z; st_SDP : SDP }.

Record Device := mkDevice {
  d_cfg : DeviceConfig;
  d_ua : UA;
  d_sn : Z;
  d_nonce : str;
  regOk : bool;
  streams : gmap str Stream;
  controls : list Envelope;       (* the calls of [OnControl] *)
  has_OnControl : bool
}.

Definition with_d_ua (u : UA) (d : Device) : Device :=
  mkDevice (d_cfg d) u (d_sn d) (d_nonce d) (regOk d) (streams d) (controls d) (has_OnControl d).
Definition with_d_sn (n : Z) (d : Device) : Device :=
  mkDevice (d_cfg d) (d_ua d) n (d_nonce d) (regOk d) (streams d) (controls d) (has_OnControl d).
Definition with_nonce (n : str) (d : Device) : Device :=
  mkDevice (d_cfg d) (d_ua d) (d_sn d) n (regOk d) (streams d) (controls d) (has_OnControl d).
Definition with_regOk (b : bool) (d : Device) : Device :=
  mkDevice (d_cfg d) (d_ua d) (d_sn d) (d_nonce d) b (streams d) (controls d) (has_OnControl d).
Definition with_streams (s : gmap str Stream) (d : Device) : Device :=
  mkDevice (d_cfg d) (d_ua d) (d_sn d) (d_nonce d) (regOk d) s (controls d) (has_OnControl d).
Definition with_controls (l : list Envelope) (d : Device) : Device :=
  mkDevice (d_cfg d) (d_ua d) (d_sn d) (d_nonce d) (regOk d) (streams d) l (has_OnControl d).

(** The agent [Start] makes, with its three callbacks. *)
Definition device_agent (c : DeviceConfig) : UA :=
  with_cb (mkUACallbacks true false true true false false false) (NewUA (dc_LocalHost c) (dc_LocalPort c)).

Definition new_device (c : DeviceConfig) (onControl : bool) : Device :=
  mkDevice c (device_agent c) 0 [] false ∅ [] onControl.

Definition serverUri (c : DeviceConfig) : Uri :=
  mkUri "sip" (dc_ServerID c) [] (dc_ServerHost c) (dc_ServerPort c) None None.
Definition selfUri (c : DeviceConfig) : Uri :=
  mkUri "sip" (dc_DeviceID c) [] (dc_LocalHost c) (dc_LocalPort c) None None.
Definition server_addr (c : DeviceConfig) : Addr := mkAddr "udp" (dc_ServerHost c) (dc_ServerPort c).

(** ** Registration *)

Definition lastChallenge (c : DeviceConfig) (nonce : str) : option Auth :=
  if nonce == [] then None
  else Some (mkAuth "Digest" [] (dc_ServerID c) nonce [] [] [] [] [] [] [] None).

Definition auth_q (k v : str) : str := " " ++ k ++ "=" ++ quoted v.

Definition authHeaderString (a : Auth) : str :=
  "Digest" ++ auth_q "username" (Username a) ++ auth_q "realm" (Realm a) ++ auth_q "nonce" (Nonce a) ++
  auth_q "uri" (URI a) ++
  (if Response_ a != [] then auth_q "response" (Response_ a) else []) ++
  (if Algorithm a != [] then auth_q "algorithm" (Algorithm a) else []) ++
  (if Cnonce a != [] then auth_q "cnonce" (Cnonce a) ++ " nc=" ++ Nc a ++ " qop=" ++ Qop a else []) ++
  (if Opaque_ a != [] then auth_q "opaque" (Opaque_ a) else []).

(** The From of the device, as text. *)
Definition device_from (c : DeviceConfig) (tag : str) : Address :=
  mkAddress [] false (Some (mkUri "sip" (dc_DeviceID c) [] (dc_ServerHost c) 0 None None))
    (Some (Params_Set NewParams "tag" tag)).

Definition newRegister (c : DeviceConfig) (callID : str) (cseq : Z) (tag : str) (auth : option Auth) : Request :=
  let to := serverUri c in
  let h := Headers_Set [] (NewHeader "To" (Address_String (mkAddress [] false (Some to) None))) in
  let h := Headers_Set h (NewHeader "From" (Address_String (device_from c tag))) in
  let h := Headers_Set h (NewHeader "Call-ID" callID) in
  let h := Headers_Set h (HCSeq (mkCSeq (cseq mod 2 ^ 32) REGISTER)) in
  let h := Headers_Set h (HMaxForwards 70) in
  let contact := mkUri "sip" (dc_DeviceID c) [] (dc_LocalHost c) (dc_LocalPort c) None None in
  let h := Headers_Set h (NewHeader "Contact" (uri_String contact)) in
  let h := Headers_Set h (NewHeader "Expires" "3600") in
  let h := Headers_Set h (NewHeader "User-Agent" "go-sip-gb28181") in
  let h := match auth with Some a => Headers_Set h (NewHeader "Authorization" (authHeaderString a)) | None => h end in
  req_with_headers (NewRequest REGISTER (Some to)) h.

Definition register_uri (c : DeviceConfig) : str := "sip:" ++ dc_ServerID c ++ "@" ++ dc_ServerHost c.

(** The credentials for a challenge with this nonce. *)
Definition register_auth (c : DeviceConfig) (challenge : Auth) : Auth :=
  DigestResponse challenge REGISTER (register_uri c) (dc_DeviceID c) (dc_Password c) [] [].

(** The nonce a 401 brings, when it brings one. *)
Definition challenge_nonce (resp : Response) : option str :=
  match Headers_Get (Resp_headers resp) "WWW-Authenticate" with
  | Some www => let a := ParseAuth (Header_Value www) in if Nonce a != [] then Some (Nonce a) else None
  | None => None
  end.

Section Device.
Context `{Sender} `{Entropy} `{XmlNames}.

Definition on_d_ua {A} (m : proc UA A) : proc Device A := onp d_ua with_d_ua m.

(** The closure [send] of [register]: [answer] is the first event of the
    transaction, or [ErrTimeout]. *)
Definition register_send (callID : str) (cseq : Z) (auth : option Auth) (answer : result Response) :
  proc Device (result Response) :=
  c ← asks d_cfg; tag ← on_d_ua fresh_tag;
  r ← on_d_ua (tm_Request (newRegister c callID cseq tag auth) (server_addr c));
  match r with Err e => mret (Err e) | Ok _ => mret answer end.

Definition register (answer1 answer2 : result Response) : proc Device (result bool) :=
  callID ← on_d_ua fresh_callid;
  r ← register_send callID 1 None answer1;
  match r with
  | Err e => mret (Err e)
  | Ok resp =>
    if StatusCode resp == 200%Z then mret (Ok true)
    else if StatusCode resp != 401%Z then mret (Err ErrOther)
    else
      match challenge_nonce resp with Some n => update (with_nonce n) | None => mret () end;;
      c ← asks d_cfg; nonce ← asks d_nonce;
      match lastChallenge c nonce with
      | None => mret (Err ErrOther)
      | Some challenge =>
        r ← register_send callID 2 (Some (register_auth c challenge)) answer2;
        match r with
        | Err e => mret (Err e)
        | Ok resp => mret (if StatusCode resp == 200%Z then Ok true else Err ErrOther)
        end
      end
  end.

(** ** The main loop *)

(** Its local variables, and what it does next. *)
Record run_state := mkRunState { registered : bool; registerBackoff : Z }.
Inductive run_next := Sleep (d : Z) | WaitTick.

(** ** Messages to the platform *)

Definition d_newMessage (c : DeviceConfig) (tag callid body : str) : Request :=
  Request_SetBody
    (req_with_headers (NewRequest MESSAGE (Some (serverUri c)))
       (message_headers (Address_String (device_from c tag)) (uri_String (serverUri c)) tag callid))
    "application/MANSCDP+xml" (Some body).

Definition d_SendMessage (body : str) : proc Device (result unit) :=
  c ← asks d_cfg; tag ← on_d_ua fresh_tag; callid ← on_d_ua fresh_callid;
  r ← on_d_ua (tm_Request (d_newMessage c tag callid body) (server_addr c));
  mret (match r with Ok _ => Ok () | Err e => Err e end).

Definition d_nextSN : proc Device Z := n ← asks d_sn; update (with_d_sn (n + 1));; mret (n + 1)%Z.

Definition Keepalive : proc Device (result unit) :=
  sn ← d_nextSN; c ← asks d_cfg;
  d_SendMessage (BuildNotify (with_SeqNum 1 (new_Envelope CmdKeepalive sn (dc_DeviceID c)))).

(** One attempt to register, when it is needed, with the backoff that follows a
    failure. *)
Definition run_register (answer1 answer2 : result Response) (s : run_state) : proc Device (run_state * run_next) :=
  if registered s then mret (s, WaitTick)
  else
    r ← register answer1 answer2;
    match r with
    | Ok true => update (with_regOk true);; mret (mkRunState true (500 * Millisecond), WaitTick)
    | _ => mret (mkRunState false (if (registerBackoff s <? 8 * Second)%Z then registerBackoff s * 2 else registerBackoff s)%Z,
                 Sleep (registerBackoff s))
    end.

(** A tick: a failed keepalive asks for a new registration, when [OnError] is set. *)
Definition run_tick (onError : bool) (s : run_state) : proc Device run_state :=
  r ← Keepalive;
  mret (match r with
        | Err _ => if onError then mkRunState false (registerBackoff s) else s
        | Ok _ => s
        end).

(** The answer to a query, when the command asks for one. *)
Definition catalog_response (c : DeviceConfig) (sn : Z) : Envelope :=
  let n := Z.of_nat (length (Channels c)) in
  with_list n (mkDeviceList (Itoa n) (Channels c)) (new_Envelope CmdCatalog sn (dc_DeviceID c)).
Definition info_response (c : DeviceConfig) (sn : Z) : Envelope :=
  let i := DeviceInfo c in
  with_info (di_Name i) (di_Manufacturer i) (di_Model i) (di_Firmware i) "OK"
    (new_Envelope CmdDeviceInfo sn (dc_DeviceID c)).
Definition status_response (c : DeviceConfig) (sn : Z) : Envelope :=
  with_status "ONLINE" "OK" (new_Envelope CmdDeviceStatus sn (dc_DeviceID c)).

Definition control_commands : list str := [CmdPTZCmd; CmdTeleBoot; CmdDeviceConfig; CmdConfigDownload; CmdPresetQuery].

Definition d_onMessage (req : Request) (stx : option nat) : proc Device () :=
  match xml_Parse (default [] (Req_body req)) with
  | Err _ => _ ← on_d_ua (UA_Respond None stx 400 [] None); mret ()
  | Ok e =>
    _ ← on_d_ua (UA_Respond None stx 200 [] None);
    c ← asks d_cfg;
    if e_CmdType e == CmdCatalog then
      _ ← d_SendMessage (BuildResponse (catalog_response c (e_SN e))); mret ()
    else if e_CmdType e == CmdDeviceInfo then
      _ ← d_SendMessage (BuildResponse (info_response c (e_SN e))); mret ()
    else if e_CmdType e == CmdDeviceStatus then
      _ ← d_SendMessage (BuildResponse (status_response c (e_SN e))); mret ()
    else if bool_decide (e_CmdType e ∈ control_commands) then
      on ← asks has_OnControl;
      whenp on (update (λ d, with_controls (controls d ++ [e]) d))
    else mret ()
  end.

(** ** Streams *)

Definition answer_sdp (c : DeviceConfig) (remote : SDP) : StreamSDP :=
  mkStreamSDP (dc_DeviceID c) (dc_LocalHost c) (Sdp_SSRC remote) false (Sdp_VideoPort remote) (Sdp_AudioPort remote)
    (Sdp_SessionName remote) (Sdp_StartTime remote) (Sdp_EndTime remote).

Definition invite_answer (c : DeviceConfig) (req : Request) (tag : str) (remote : SDP) : Response :=
  let h : Headers := match to_of (Req_headers req) with
                     | Some to => [NewHeader "To" (Address_String (SetTag to tag))]
                     | None => []
                     end in
  let h := Headers_Set h (NewHeader "Contact" (Address_String (mkAddress [] false (Some (selfUri c)) None))) in
  Response_SetBody (resp_with_headers (NewResponse 200 []) h) "application/sdp" (Some (Build (answer_sdp c remote))).

Definition d_onInvite (req : Request) (stx : option nat) (dlg : nat) : proc Device () :=
  match ParseSDP (default [] (Req_body req)) with
  | Err _ => _ ← on_d_ua (UA_Respond None stx 400 [] None); mret ()
  | Ok remote =>
    c ← asks d_cfg;
    tag ← (match to_of (Req_headers req) with Some _ => on_d_ua fresh_tag | None => mret [] end);
    r ← on_d_ua (stx_Respond stx (invite_answer c req tag remote));
    match r with
    | Err _ => mret ()
    | Ok _ =>
      update (λ d, with_streams (<[callid_of (Req_headers req) := mkStream dlg (Sdp_SSRC remote) remote]> (streams d)) d)
    end
  end.

(** The callback of BYE that [Start] sets. *)
Definition d_onBye (req : Request) : proc Device () :=
  update (λ d, with_streams (delete (callid_of (Req_headers req)) (streams d)) d).

Definition d_on_call (c : call) : proc Device () :=
  match c with
  | CallMessage req stx => d_onMessage req stx
  | CallInvite req stx dlg => d_onInvite req stx dlg
  | CallBye req _ _ => d_onBye req
  | _ => mret ()
  end.

Definition Device_handlePacket (pkt : Packet) : proc Device () :=
  n ← asks (λ d, length (calls (d_ua d)));
  on_d_ua (UA_handlePacket pkt);;
  new ← asks (λ d, drop n (calls (d_ua d)));
  each d_on_call new.
End Device.
