(* ===== verification/Listen.v ===== *)
(** * [transport.go]: sockets, goroutines and their life

    What [NewTransport] and [NewTLSTransport] open and start, on every path, what
    [Close] ends, and how a stream connection is dialled.  The operating system answers
    each listen with the port it bound or an error.  Beside the [Transport] of the code,
    the state holds what exists in the process: the open sockets and the goroutines. *)

From S2P Require Import Prelude GoStrings Uri Net Transport Resolver Dialog Transaction Ua Sdp Utf8 XmlToken Xml Platform Device.

(** The two fields of a [tls.Config] that the code reads. *)
Record TLSConfig := mkTLSConfig { MinVersion : Z; ServerName : str }.

Inductive socket := SockUDP | SockTCP | SockTLS.

(** The goroutines of a transport, and the loop of [TxManager.Run] over its packets. *)
Inductive routine := RJanitor | RReadUDP | RAccept (s : socket) | RManager.

#[export] Instance socket_eq_dec : EqDecision socket.
Proof. solve_decision. Defined.
#[export] Instance routine_eq_dec : EqDecision routine.
Proof. solve_decision. Defined.

Record Sockets := mkSockets {
  tlsCfg : option TLSConfig;
  sk_udp : option Z;          (* [udpConn], with its local port *)
  sk_tcp : option Z;          (* [tcpListener] *)
  sk_tls : option Z;          (* [tlsListener] *)
  sk_done : bool;
  sk_open : list socket;
  sk_started : list routine
}.

(** Listening on an address: the local IP, [None] for all of them, and the port asked
    for; the answer is the port bound. *)
Class Listener := mkListener { os_listen : socket → option IP → Z → result Z }.

Definition no_sockets : Sockets := mkSockets None None None None false [] [].

Definition sk_go (r : routine) (t : Sockets) : Sockets :=
  mkSockets (tlsCfg t) (sk_udp t) (sk_tcp t) (sk_tls t) (sk_done t) (sk_open t) (sk_started t ++ [r]).

(** A socket that was bound, kept in its field. *)
Definition sk_bind (s : socket) (port : Z) (t : Sockets) : Sockets :=
  let at_ s' old := if s == s' then Some port else old in
  mkSockets (tlsCfg t) (at_ SockUDP (sk_udp t)) (at_ SockTCP (sk_tcp t)) (at_ SockTLS (sk_tls t)) (sk_done t)
    (sk_open t ++ [s]) (sk_started t).

Definition with_tlsCfg (c : option TLSConfig) (t : Sockets) : Sockets :=
  mkSockets c (sk_udp t) (sk_tcp t) (sk_tls t) (sk_done t) (sk_open t) (sk_started t).

(** The sockets the fields of [t] hold. *)
Definition held (t : Sockets) : list socket :=
  (if sk_udp t is Some _ then [SockUDP] else []) ++ (if sk_tcp t is Some _ then [SockTCP] else []) ++
  (if sk_tls t is Some _ then [SockTLS] else []).

(** [Close], as far as sockets go; the pool's part is [Transport.Close]. *)
Definition sk_Close (t : Sockets) : Sockets :=
  if sk_done t then t
  else mkSockets (tlsCfg t) (sk_udp t) (sk_tcp t) (sk_tls t) true
         (filter (λ s, s ∉ held t) (sk_open t)) (sk_started t).

(** A goroutine of the transport runs until [done] is closed; the manager's loop until
    [packets] is, which nothing closes. *)
Definition sk_running (t : Sockets) : list routine :=
  if sk_done t then filter (λ r, r = RManager) (sk_started t) else sk_started t.

Section listen.
Context `{Listener}.

(** One of the listens of the constructors: a negative port asks for none. *)
Definition listen_on (s : socket) (host : str) (port : Z) (r : routine) (t : Sockets) : result Sockets :=
  if (port <? 0)%Z then Ok t
  else p ← os_listen s (ParseIP host) port; Ok (sk_go r (sk_bind s p t)).

(** What exists when the constructor returns, and its error.  Without a UDP socket it
    returns at once; without a TCP one it closes the transport first. *)
Definition NewTransport (host : str) (udpPort tcpPort : Z) : Sockets * option GoError :=
  let t := sk_go RJanitor no_sockets in
  match listen_on SockUDP host udpPort RReadUDP t with
  | Err _ => (t, Some ErrOther)
  | Ok t =>
    match listen_on SockTCP host tcpPort (RAccept SockTCP) t with
    | Err _ => (sk_Close t, Some ErrOther)
    | Ok t => (t, None)
    end
  end.

Definition NewTLSTransport (host : str) (udpPort tcpPort tlsPort : Z) (cfg : option TLSConfig) :
    Sockets * option GoError :=
  match NewTransport host udpPort tcpPort with
  | (t, Some e) => (t, Some e)
  | (t, None) =>
    match cfg with
    | None => (t, Some ErrOther)
    | Some _ =>
      let t := with_tlsCfg cfg t in
      match listen_on SockTLS host tlsPort (RAccept SockTLS) t with
      | Err _ => (sk_Close t, Some ErrOther)
      | Ok t => (sk_go RJanitor t, None)
      end
    end
  end.

Definition UDPPort (t : Sockets) : Z := default 0%Z (sk_udp t).
Definition TCPPort (t : Sockets) : Z := default 0%Z (sk_tcp t).
Definition TLSPort (t : Sockets) : Z := default 0%Z (sk_tls t).

(** ** Dialling *)

(** What is dialled: the address, and for TLS the configuration. *)
Record dial_call := mkDial { d_target : str; d_tls : option TLSConfig }.

(** [tls.VersionTLS12] *)
Definition VersionTLS12 : Z := 771.

(** A nil configuration is cloned to nil, whose fields are then read. *)
Definition dial (t : Sockets) (network : str) (dst : Addr) : outcome dial_call :=
  if network == "tls" then
    match tlsCfg t with
    | None => Panic
    | Some cfg =>
      Ret (mkDial (formatHostPort (mkHostPort (Addr_Host dst) (Addr_Port dst)))
             (Some (mkTLSConfig (if (MinVersion cfg =? 0)%Z then VersionTLS12 else MinVersion cfg)
                                (if ServerName cfg == [] then Addr_Host dst else ServerName cfg))))
    end
  else Ret (mkDial (JoinHostPort (Addr_Host dst) (Itoa (Addr_Port dst))) None).

(** ** The endpoints over a transport *)

(** [NewUA]: a manager with the UDP port in its Via headers, and its loop. *)
Definition agent_on (host : str) (t : Sockets) : UA * Sockets := (NewUA host (UDPPort t), sk_go RManager t).

(** [Platform.Run] up to its wait for the end of the context. *)
Definition Platform_Run (c : PlatformConfig) : Sockets * option UA :=
  match NewTransport "0.0.0.0" (ListenPort c) (ListenPort c) with
  | (t, Some _) => (t, None)
  | (t, None) =>
    let '(ua, t) := agent_on (p_ServerHost c) t in
    (t, Some (with_cb (mkUACallbacks true true false true false false false) ua))
  end.

(** After it. *)
Definition platform_stop (t : Sockets) : Sockets := sk_Close t.

(** [Device.Start] up to the main loop. *)
Definition Device_Start (c : DeviceConfig) : Sockets * option UA :=
  match NewTransport "0.0.0.0" (dc_LocalPort c) (dc_LocalPort c) with
  | (t, Some _) => (t, None)
  | (t, None) =>
    let '(ua, t) := agent_on (dc_LocalHost c) t in
    (t, Some (with_cb (mkUACallbacks true false true true false false false) ua))
  end.

(** The main loop when its context ends, at the wait it is in. *)
Definition device_stop (next : run_next) (t : Sockets) : Sockets :=
  match next with Sleep _ => t | WaitTick => sk_Close t end.

(** ** Sockets are accounted for *)

(** The open sockets are those the fields hold. *)
Definition accounted (t : Sockets) : Prop := sk_done t = false ∧ ∀ s, s ∈ sk_open t ↔ s ∈ held t.

Lemma held_bind s p t x : x ∈ held (sk_bind s p t) ↔ x = s ∨ x ∈ held t.
Proof.
  unfold held, sk_bind. cbn [sk_udp sk_tcp sk_tls].
  destruct s, (sk_udp t), (sk_tcp t), (sk_tls t); destruct x; cbn; set_solver.
Qed.

Lemma listen_accounted s host port r t t' : listen_on s host port r t = Ok t' → accounted t → accounted t'.
Proof.
  unfold listen_on. destruct (port <? 0)%Z; [by intros [= <-]|]. intros Hl [Hd Ho].
  apply result_bind_inv in Hl as (p & _ & [= <-]). split; [done|]. intros x.
  change (sk_open (sk_go r (sk_bind s p t))) with (sk_open t ++ [s]).
  change (held (sk_go r (sk_bind s p t))) with (held (sk_bind s p t)). rewrite held_bind. specialize (Ho x). set_solver.
Qed.

(** [Close] leaves no socket of an accounted transport. *)
Lemma Close_releases t : accounted t → sk_open (sk_Close t) = [].
Proof.
  intros [Hd Ho]. unfold sk_Close. rewrite Hd. cbn [sk_open].
  assert (∀ l, (∀ s, s ∈ l → s ∈ held t) → filter (λ s, s ∉ held t) l = []) as Hl; [|apply Hl; intros s; apply Ho].
  induction l as [|s l IH]; intros Hl; [done|]. rewrite filter_cons_False by (intros Hn; apply Hn, Hl; left).
  apply IH. intros x Hx. apply Hl. by right.
Qed.

(** The sockets that ports ask for, and their readers. *)
Definition wanted (udpPort tcpPort : Z) : list socket :=
  (if (udpPort <? 0)%Z then [] else [SockUDP]) ++ (if (tcpPort <? 0)%Z then [] else [SockTCP]).
Definition readers (l : list socket) : list routine :=
  map (λ s, match s with SockUDP => RReadUDP | _ => RAccept s end) l.

(** A transport has exactly the sockets it was asked for, each with its reader, or an
    error and no socket at all. *)
Lemma NewTransport_spec host u tc t e :
  NewTransport host u tc = (t, e) →
  match e with
  | None => accounted t ∧ sk_open t = wanted u tc ∧ sk_running t = RJanitor :: readers (wanted u tc) ∧ tlsCfg t = None
  | Some _ => sk_open t = []
  end.
Proof.
  unfold NewTransport. set (t0 := sk_go RJanitor no_sockets).
  assert (accounted t0) as H0 by (split; [done|]; intros s; cbn; set_solver).
  destruct (listen_on SockUDP host u RReadUDP t0) as [t1|] eqn:E1; [|by intros [= <- <-]].
  pose proof (listen_accounted _ _ _ _ _ _ E1 H0) as H1.
  destruct (listen_on SockTCP host tc (RAccept SockTCP) t1) as [t2|] eqn:E2; intros [= <- <-]; [|by apply Close_releases].
  pose proof (listen_accounted _ _ _ _ _ _ E2 H1) as H2. split; [done|].
  unfold listen_on in E1, E2. unfold wanted.
  destruct (u <? 0)%Z, (tc <? 0)%Z; repeat match goal with
    | E : (_ ≫= _) = Ok _ |- _ => apply result_bind_inv in E as (? & ? & E)
    | E : Ok _ = Ok _ |- _ => injection E as <-
    end; done.
Qed.

(** With a configuration the TLS listener is one socket more, and the janitor runs twice. *)
Lemma NewTLSTransport_spec host u tc tl cfg t e :
  NewTLSTransport host u tc tl (Some cfg) = (t, e) →
  match e with
  | None => accounted t ∧ sk_open t = wanted u tc ++ (if (tl <? 0)%Z then [] else [SockTLS]) ∧
            sk_running t = RJanitor :: readers (sk_open t) ++ [RJanitor] ∧ tlsCfg t = Some cfg
  | Some _ => sk_open t = []
  end.
Proof.
  unfold NewTLSTransport. destruct (NewTransport host u tc) as [t0 [e0|]] eqn:E0; apply NewTransport_spec in E0.
  { by intros [= <- <-]. }
  destruct E0 as (Ha & Ho & Hr & Hc). assert (accounted (with_tlsCfg (Some cfg) t0)) as Ha' by exact Ha.
  destruct (listen_on SockTLS host tl (RAccept SockTLS) (with_tlsCfg (Some cfg) t0)) as [t1|] eqn:E1; intros [= <- <-];
    [|by apply Close_releases].
  pose proof (listen_accounted _ _ _ _ _ _ E1 Ha') as H1. split; [done|].
  pose proof Ha as [Hd _]. unfold sk_running in *. rewrite Hd in Hr. unfold readers in *.
  unfold listen_on in E1. destruct (tl <? 0)%Z.
  - injection E1 as <-. cbn [sk_go sk_done sk_open sk_started tlsCfg with_tlsCfg]. by rewrite Hd, Ho, Hr, app_nil_r.
  - apply result_bind_inv in E1 as (p & _ & [= <-]). cbn [sk_go sk_bind sk_done sk_open sk_started tlsCfg with_tlsCfg].
    rewrite Hd, Ho, Hr, map_app. cbn [map app]. by rewrite <-app_assoc.
Qed.

(** The agent of a started platform has the bound port in its Via headers; when the
    platform stops no socket is left, and only the manager's loop runs on. *)
Lemma Platform_Run_spec c t ua :
  (∀ s ip port p, os_listen s ip port = Ok p → (0 < port)%Z → p = port) → (0 < ListenPort c)%Z →
  Platform_Run c = (t, Some ua) →
  ua = platform_agent c ∧ sk_open t = [SockUDP; SockTCP] ∧
  sk_open (platform_stop t) = [] ∧ sk_running (platform_stop t) = [RManager].
Proof.
  intros Hport Hc. unfold Platform_Run. destruct (NewTransport "0.0.0.0" (ListenPort c) (ListenPort c)) as [t0 [e|]] eqn:E0; [done|].
  assert (UDPPort t0 = ListenPort c) as Hu.
  { revert E0. unfold NewTransport, listen_on. rewrite (proj2 (Z.ltb_ge (ListenPort c) 0)) by lia.
    destruct (os_listen SockUDP _ _) as [p|] eqn:Ep; [|done]. apply Hport in Ep; [subst|done]. rewrite result_bind_Ok.
    destruct (os_listen SockTCP _ _) as [p|]; [|done]. rewrite result_bind_Ok. by intros [= <-]. }
  apply NewTransport_spec in E0 as (Ha & Ho & Hr & _). unfold wanted in Ho, Hr.
  rewrite (proj2 (Z.ltb_ge (ListenPort c) 0)) in Ho, Hr by lia. cbn [agent_on]. intros [= <- <-]. unfold agent_on. rewrite Hu.
  split; [done|]. split; [exact Ho|]. split; [by apply Close_releases|].
  pose proof Ha as [Hd _]. unfold sk_running in Hr. rewrite Hd in Hr. unfold platform_stop, sk_Close, sk_go, sk_running.
  cbn [sk_done sk_started]. rewrite Hd. cbn [sk_done sk_started]. rewrite Hr. done.
Qed.

(** A TLS dial with a configuration asks for TLS 1.2 at least, unless it says
    otherwise, and for a certificate of the host dialled. *)
Lemma dial_tls t cfg dst :
  tlsCfg t = Some cfg → MinVersion cfg = 0%Z → ServerName cfg = [] →
  dial t "tls" dst = Ret (mkDial (JoinHostPort (Addr_Host dst) (Itoa (Addr_Port dst))) (Some (mkTLSConfig VersionTLS12 (Addr_Host dst)))).
Proof. intros Ht Hm Hs. unfold dial. rewrite Ht, Hm, Hs. done. Qed.

(** ** What goes wrong *)

(** Without a configuration the sockets of the plain transport stay open behind the
    error, with their goroutines. *)
Lemma tls_without_config_leaks host u tc tl t :
  NewTransport host u tc = (t, None) →
  NewTLSTransport host u tc tl None = (t, Some ErrOther) ∧ sk_open t = wanted u tc ∧
  sk_running t = RJanitor :: readers (wanted u tc).
Proof. intros E. unfold NewTLSTransport. rewrite E. by apply NewTransport_spec in E as (_ & ? & ? & _). Qed.

(** When the UDP port cannot be bound the janitor of the dropped transport runs on. *)
Lemma udp_failure_keeps_janitor host u tc e :
  (0 ≤ u)%Z → os_listen SockUDP (ParseIP host) u = Err e →
  ∃ t, NewTransport host u tc = (t, Some ErrOther) ∧ sk_running t = [RJanitor].
Proof.
  intros Hu He. unfold NewTransport, listen_on at 1. rewrite (proj2 (Z.ltb_ge u 0)) by lia. rewrite He. by eexists.
Qed.

(** A device whose context ends while it waits to register again keeps its sockets. *)
Lemma device_cancel_leaks c t ua d :
  (0 ≤ dc_LocalPort c)%Z → Device_Start c = (t, Some ua) → sk_open (device_stop (Sleep d) t) = [SockUDP; SockTCP].
Proof.
  intros Hc. unfold Device_Start. destruct (NewTransport _ _ _) as [t0 [e|]] eqn:E0; [done|]. intros [= <- _].
  apply NewTransport_spec in E0 as (_ & Ho & _). unfold wanted in Ho. rewrite (proj2 (Z.ltb_ge (dc_LocalPort c) 0)) in Ho by lia.
  exact Ho.
Qed.

(** A transport without TLS crashes when it is to reach a [sips:] URI, and one with TLS
    sends in the clear to a network written in capitals, which [Send] accepts. *)
Lemma dial_without_config_panics host u tc t dst :
  NewTransport host u tc = (t, None) → dial t "tls" dst = Panic.
Proof. intros E. apply NewTransport_spec in E as (_ & _ & _ & Hc). unfold dial. by rewrite Hc. Qed.

Lemma dial_capitals_clear t dst :
  ToLower "TLS" = "tls" ∧ dial t "TLS" dst = Ret (mkDial (JoinHostPort (Addr_Host dst) (Itoa (Addr_Port dst))) None).
Proof. by vm_compute. Qed.
End listen.
