(* ===== verification/Commands.v ===== *)
(** * [cmd/]: the two commands

    What [sipserv] and [gb28181serv] make of their flags and put into the callbacks.
    The goroutines they start are lists of work that is left; what they print is text.
    Parsing the command line and waiting for a signal are the runtime's. *)

From S2P Require Import Prelude GoStrings Uri Headers Message Net Transport Ids Transaction Proc Dialog Sdp Utf8 XmlToken Xml XmlRead XmlRoundTrip Ua UaTheorems Platform Device Listen.

(** ** [cmd/sipserv]: a server that accepts everything *)

(** A goroutine of [OnInvite]: the transaction, the dialog, and the answers left. *)
Definition answering : Type := option nat * nat * list (Z * str * option str).

Record SipServ := mkSipServ { srv_ua : UA; srv_calls : list answering }.

Definition with_srv_ua (u : UA) (s : SipServ) : SipServ := mkSipServ u (srv_calls s).
Definition with_srv_calls (l : list answering) (s : SipServ) : SipServ := mkSipServ (srv_ua s) l.

(** All seven callbacks are set. *)
Definition sipserv_callbacks : UACallbacks := mkUACallbacks true true true true true true true.

Definition new_sipserv (host : str) (port : Z) : SipServ := mkSipServ (with_cb sipserv_callbacks (NewUA host port)) [].

Definition sipserv_sdp : str :=
  "v=0" ++ CRLF ++ "o=- 0 0 IN IP4 127.0.0.1" ++ CRLF ++ "s=sip" ++ CRLF ++ "t=0 0" ++ CRLF.

(** What the goroutine of a call sends. *)
Definition sipserv_answers : list (Z * str * option str) :=
  [(180%Z, [], None); (200%Z, lit "application/sdp", Some sipserv_sdp)].

Section Sipserv.
Context `{Sender} `{Entropy}.

Definition on_srv {A} (m : proc UA A) : proc SipServ A := onp srv_ua with_srv_ua m.

Definition sipserv_on_call (c : call) : proc SipServ () :=
  match c with
  | CallRegister _ stx | CallMessage _ stx | CallNotify _ stx | CallSubscribe _ stx =>
    _ ← on_srv (UA_Respond None stx 200 [] None); mret ()
  | CallInfo _ stx dlg => _ ← on_srv (UA_Respond (Some dlg) stx 200 [] None); mret ()
  | CallInvite _ stx dlg => update (λ s, with_srv_calls (srv_calls s ++ [(stx, dlg, sipserv_answers)]) s)
  | CallBye _ _ _ => mret ()
  end.

Definition sipserv_handlePacket (pkt : Packet) : proc SipServ () :=
  n ← asks (λ s, length (calls (srv_ua s)));
  on_srv (UA_handlePacket pkt);;
  new ← asks (λ s, drop n (calls (srv_ua s)));
  each sipserv_on_call new.

(** The next answer of the [i]-th goroutine. *)
Definition sipserv_wake (i : nat) : proc SipServ () :=
  l ← asks srv_calls;
  match l !! i with
  | Some (stx, dlg, (status, ct, body) :: rest) =>
    update (with_srv_calls (<[i := (stx, dlg, rest)]> l));;
    _ ← on_srv (UA_Respond (Some dlg) stx status ct body); mret ()
  | _ => mret ()
  end.

(** A call is answered ringing and then with the session, in this order, by the
    goroutine that was started for it, whatever happens to the other calls. *)
Lemma sipserv_call req stx dlg s :
  ∃ s', sipserv_on_call (CallInvite req stx dlg) s = Ret ((), s') ∧
    srv_ua s' = srv_ua s ∧ srv_calls s' = srv_calls s ++ [(stx, dlg, sipserv_answers)].
Proof. by eexists. Qed.

Lemma sipserv_wake_next i stx dlg status ct body rest s :
  srv_calls s !! i = Some (stx, dlg, (status, ct, body) :: rest) →
  sipserv_wake i s =
  (_ ← on_srv (UA_Respond (Some dlg) stx status ct body); mret ())
    (with_srv_calls (<[i := (stx, dlg, rest)]> (srv_calls s)) s).
Proof. intros Hi. unfold sipserv_wake. rewrite run_asks, Hi. by rewrite run_update. Qed.
End Sipserv.

(** ** [cmd/gb28181serv] *)

Record Flags := mkFlags {
  fl_mode : str; fl_server_id : str; fl_server_host : str; fl_server_port : Z;
  fl_device_id : str; fl_password : str; fl_port : Z; fl_channels : Z
}.

Definition default_flags : Flags :=
  mkFlags "platform" "34020000002000000001" "127.0.0.1" 5060 "34020000001320000001" "12345678" 5060 1.

(** *** Platform mode *)

Definition platform_config (f : Flags) : PlatformConfig :=
  mkPlatformConfig (fl_server_id f) "127.0.0.1" (fl_port f) [] (Some (λ _, Some (fl_password f))) 0.

(** The line [OnDevice] prints. *)
Definition event_line (ev : DeviceEvent) : str :=
  match ev_Envelope ev with
  | Some e => "EVENT type=" ++ ev_Type ev ++ " device=" ++ ev_DeviceID ev ++ " cmd=" ++ e_CmdType e ++
              " sn=" ++ Itoa (e_SN e) ++ [LF]
  | None => "EVENT type=" ++ ev_Type ev ++ " device=" ++ ev_DeviceID ev ++ [LF]
  end.

(** The device [OnDevice] starts a goroutine for. *)
Definition to_query (ev : DeviceEvent) : option str :=
  if ev_Type ev == "registered" then Some (ev_DeviceID ev) else None.

(** That goroutine, 200 ms later. *)
Definition query_device `{Sender} `{Entropy} (id : str) (answer1 answer2 : result Response) : proc Platform () :=
  _ ← QueryCatalog id answer1; _ ← QueryDeviceInfo id answer2; mret ().

(** *** Device mode *)

(** [%02d] *)
Definition pad2 (i : Z) : str := if (0 <=? i)%Z && (i <? 10)%Z then "0"%char :: Itoa i else Itoa i.

Definition channel_item (device_id : str) (i : Z) : Item :=
  mkItem (take (length device_id - 2) device_id ++ pad2 i) ("cam" ++ Itoa i) [] [] [] [] [] [] [] [] [] [] [] [] []
    "ON" [] [].

(** A negative number of channels, and an identifier of less than two bytes, panic. *)
Definition channel_items (device_id : str) (n : Z) : outcome (list Item) :=
  if (n <? 0)%Z then Panic
  else if (0 <? n)%Z && (length device_id <? 2) then Panic
  else Ret (map (λ i, channel_item device_id (Z.of_nat i)) (seq 1 (Z.to_nat n))).

Definition device_config (f : Flags) : outcome DeviceConfig :=
  chs ← channel_items (fl_device_id f) (fl_channels f);
  Ret (mkDeviceConfig (fl_device_id f) (fl_password f) (fl_server_id f) (fl_server_host f) (fl_server_port f)
         "127.0.0.1" (fl_port f) (5 * Second) 0 chs (mkDeviceInfo "pytest-device" "go-sip" "sim" "1.0")).

(** *** [main]: what is started; a refused configuration ends the process *)
Inductive started := StartPlatform (c : PlatformConfig) | StartDevice (c : DeviceConfig) | Fatal | NoMode.

Definition gb28181serv (f : Flags) : outcome started :=
  if fl_mode f == "platform" then
    Ret (match platform_defaults (platform_config f) with Ok c => StartPlatform c | Err _ => Fatal end)
  else if fl_mode f == "device" then
    c ← device_config f; Ret (match device_defaults c with Ok c => StartDevice c | Err _ => Fatal end)
  else Ret NoMode.

(** ** The simulated channels *)

Lemma Itoa_inj a b : in_int a → in_int b → Itoa a = Itoa b → a = b.
Proof. intros Ha Hb E. apply Atoi_Itoa in Ha, Hb. rewrite E in Ha. congruence. Qed.

Lemma Itoa_digit i : (0 ≤ i < 10)%Z → Itoa i = [byte (48 + Z.to_N i)].
Proof.
  intros Hi. assert (i = 0 ∨ i = 1 ∨ i = 2 ∨ i = 3 ∨ i = 4 ∨ i = 5 ∨ i = 6 ∨ i = 7 ∨ i = 8 ∨ i = 9)%Z as H by lia.
  by repeat destruct H as [->|H]; [..|rewrite H].
Qed.

(** The first byte of a number that is not zero is no zero. *)
Lemma pad2_inj a b : (0 < a)%Z → (0 < b)%Z → in_int a → in_int b → pad2 a = pad2 b → a = b.
Proof.
  intros Ha Hb Ia Ib. assert (∀ z, (0 < z)%Z → in_int z → Atoi (pad2 z) = Ok z) as Hp.
  { clear. intros z Hz Iz. unfold pad2. destruct (_ && _) eqn:E; [|by apply Atoi_Itoa].
    apply andb_true_iff in E as [_ E%Z.ltb_lt].
    assert (z = 1 ∨ z = 2 ∨ z = 3 ∨ z = 4 ∨ z = 5 ∨ z = 6 ∨ z = 7 ∨ z = 8 ∨ z = 9)%Z as H by lia.
    by repeat destruct H as [->|H]; [..|rewrite H]. }
  intros E. assert (Ok a = Ok b) as [=]; [|done]. rewrite <-(Hp a), <-(Hp b), E by done. done.
Qed.

(** The simulated channels have identifiers of their own. *)
Lemma channel_ids_differ id n l :
  (n ≤ max_int)%Z → channel_items id n = Ret l → NoDup (map it_DeviceID l) ∧ Z.of_nat (length l) = Z.max 0 n.
Proof.
  intros Hn. unfold channel_items. destruct (n <? 0)%Z eqn:En; [done|]. destruct (_ && _); [done|]. intros [= <-].
  apply Z.ltb_ge in En. rewrite length_map, length_seq, map_map. split; [|lia].
  apply NoDup_ListNoDup, NoDup_map_NoDup_ForallPairs; [|apply seq_NoDup].
  intros a b Ha Hb. apply in_seq in Ha, Hb. cbn [it_DeviceID channel_item]. intros E%app_inv_head.
  assert (∀ x, x < 1 + Z.to_nat n → in_int (Z.of_nat x)) as Hx.
  { intros x Hx. unfold in_int, min_int, max_int in *. apply andb_True. rewrite !Is_true_true, !Z.leb_le. lia. }
  apply pad2_inj in E; [lia|lia|lia|apply Hx; lia|apply Hx; lia].
Qed.

Lemma printable_app s t : all printable s → all printable t → all printable (s ++ t).
Proof. intros Hs Ht. rewrite all_app. by apply andb_True. Qed.

Lemma printable_Itoa z : all printable (Itoa z).
Proof. eapply all_impl; [apply Itoa_bytes|]. intros c. all_bytes c; done. Qed.

(** The catalog of a simulated device can be sent as XML. *)
Lemma simulated_catalog_ok f c sn :
  all printable (fl_device_id f) → (fl_channels f ≤ max_int)%Z → in_int sn → device_config f = Ret c →
  envelope_ok (catalog_response c sn).
Proof.
  intros Hid Hn Hsn. unfold device_config. destruct (channel_items _ _) as [l|] eqn:El; [|done]. intros [= <-].
  pose proof (channel_ids_differ _ _ _ Hn El) as [_ Hlen].
  assert (forallb item_ok l) as Hl.
  { unfold channel_items in El. destruct (_ <? 0)%Z; [done|]. destruct (_ && _); [done|]. injection El as <-.
    apply Forall_forallb, Forall_forall. intros i (k & -> & _)%list_elem_of_fmap.
    assert (text_ok (it_DeviceID (channel_item (fl_device_id f) (Z.of_nat k)))) as H1.
    { apply printable_text_ok. cbn [it_DeviceID channel_item]. apply printable_app.
      - eapply all_sub; [exact Hid|]. intros x Hx. apply list_elem_of_In in Hx. apply list_elem_of_In.
        rewrite <-(take_drop (length (fl_device_id f) - 2) (fl_device_id f)). apply in_or_app. by left.
      - unfold pad2. case_match; [|apply printable_Itoa]. rewrite all_cons. apply andb_True. split; [done|apply printable_Itoa]. }
    assert (text_ok (it_Name (channel_item (fl_device_id f) (Z.of_nat k)))) as H2.
    { apply printable_text_ok. cbn [it_Name channel_item]. apply printable_app; [done|apply printable_Itoa]. }
    unfold item_ok, item_fields, text_field_ok. cbn [forallb snd]. rewrite !andb_True. split_and!; try done. }
  assert (in_int (Z.of_nat (length l))) as Hc.
  { unfold in_int, min_int, max_int in *. apply andb_True. rewrite !Is_true_true, !Z.leb_le. lia. }
  unfold envelope_ok, envelope_fields, text_field_ok, catalog_response, list_ok. cbn.
  rewrite !andb_True. split_and!; try done; [by apply printable_text_ok|apply text_ok_Itoa].
Qed.

(** ** What goes wrong *)

(** A simulated device with a short identifier, or a negative number of channels,
    crashes before it starts. *)
Lemma short_device_id_panics :
  gb28181serv (mkFlags "device" "p" "127.0.0.1" 5060 "1" "x" 5060 1) = Panic ∧
  gb28181serv (mkFlags "device" "p" "127.0.0.1" 5060 "34020000001320000001" "x" 5060 (-1)) = Panic.
Proof. by vm_compute. Qed.

(** With the defaults the first channel has the identifier of the device itself. *)
Lemma first_channel_is_device :
  it_DeviceID (channel_item (fl_device_id default_flags) 1) = fl_device_id default_flags.
Proof. by vm_compute. Qed.

(** ** A call of [sipserv], step by step *)

Definition srv_step (m : proc SipServ ()) (s : outcome SipServ) : outcome SipServ :=
  match s with Ret s => match m s with Ret (_, s') => Ret s' | Panic => Panic end | Panic => Panic end.

Definition srv_receive (req : Request) : outcome SipServ → outcome SipServ :=
  srv_step (sipserv_handlePacket (H := ok_sender_ua) (H0 := ex_entropy) (mkPacket (MReq req) (mkAddr "udp" "10.0.0.1" 5060))).

Definition srv_wake (i : nat) : outcome SipServ → outcome SipServ :=
  srv_step (sipserv_wake (H := ok_sender_ua) i).

Definition srv_statuses (s : outcome SipServ) : list Z :=
  statuses (match s with Ret s => Ret (srv_ua s) | Panic => Panic end).

(** The caller hears 180 and then 200, and a MESSAGE in between is answered at once. *)
Lemma sipserv_rings_and_answers :
  let called := srv_receive (ex_inbound INVITE INVITE "z9hG4bK1" "a" []) (Ret (new_sipserv "10.0.0.2" 5060)) in
  srv_statuses called = [] ∧
  srv_statuses (srv_wake 0 (srv_receive (ex_inbound MESSAGE MESSAGE "z9hG4bK2" "b" []) (srv_wake 0 called))) = [180; 200; 200]%Z.
Proof. by vm_compute. Qed.
