(* ===== verification/GbTheorems.v ===== *)
(** * Theorems of the GB28181 endpoints

    The registration handshake of a device with the platform through the parser,
    what a registered device has proved, and the session descriptions both ends
    exchange. *)

From S2P Require Import Prelude GoStrings Params Uri Headers HeadersMap Message Parser Net Transport Ids Transaction Proc Dialog Hash Digest Sdp Utf8 XmlToken Xml XmlRead XmlRoundTrip Ua UaTheorems Platform Device.

(** ** Session descriptions *)

(** C35: the description one end builds, whatever the ports, the direction and the
    time range, is parsed by the other end to the same session: names, address,
    ports, SSRC, direction and times. *)
Theorem sdp_round_trip (s : StreamSDP) : wf_sdp s → ParseSDP (Build s) = Ok (SDP_of s).
Proof. apply ParseSDP_Build. Qed.

Definition ex_sdp : StreamSDP :=
  mkStreamSDP "34020000002000000001" "192.168.1.9" 100000001 true 6000 0 "PlayBack" "20240101T000000" "20240101T010000".

Lemma sdp_round_trip_witness : wf_sdp ex_sdp = true ∧ ParseSDP (Build ex_sdp) = Ok (SDP_of ex_sdp).
Proof. split; [by vm_compute|]. apply (sdp_round_trip ex_sdp). by vm_compute. Defined.

(** ** Authentication values with blanks between the parameters *)

Lemma splitAuthParams_space cur s :
  cur ≠ [] →
  splitAuthParams_go false false cur (" " ++ s) = TrimSpace cur :: splitAuthParams_go false false [] s.
Proof. intros H. simpl. by rewrite bool_decide_false. Qed.

Lemma splitAuthParams_spaced e l :
  wf_auth_entry e → Forall (λ e, Is_true (wf_auth_entry e)) l →
  splitAuthParams_go false false [] (auth_part e ++ concat (map (λ e, " " ++ auth_part e) l)) =
  map auth_part (e :: l).
Proof.
  revert e. induction l as [|e' l IH]; intros e He Hl; destruct (auth_part_trimmed e He) as [Hne Ht];
    rewrite (neutral_auth_part e He); cbn [map concat app].
  - simpl. by rewrite Ht.
  - apply List.Forall_cons_iff in Hl as [He' Hl]. rewrite <-app_assoc, splitAuthParams_space, Ht by done.
    f_equal. by apply IH.
Qed.

Lemma ParseAuth_spaced scheme l :
  scheme ≠ [] → all bare_byte scheme → l ≠ [] → Forall (λ e, Is_true (wf_auth_entry e)) l →
  ParseAuth (scheme ++ concat (map (λ e, " " ++ auth_part e) l)) =
  foldl (λ a e, set_auth_param a e.1.1 e.1.2) (new_Auth scheme (Some NewParams)) l.
Proof.
  intros Hne Hs Hl Hall. unfold ParseAuth. rewrite TrimSpace_trimmed.
  2: { rewrite <-(map_map auth_part (λ y, " " ++ y)), <-Join_cons. apply trimmed_Join.
       apply List.Forall_cons_iff. split.
       - split; [done|]. apply trimmed_nospace. eapply all_impl; [exact Hs|]; class.
       - apply Forall_map. eapply Forall_impl; [exact Hall|].
         intros x Hx. destruct (auth_part_trimmed x Hx) as [? E]. split; [done|]. rewrite <-E. apply TrimSpace_is_trimmed. }
  destruct l as [|e l]; [done|]. apply List.Forall_cons_iff in Hall as [He Hall]. cbn [map concat].
  change ((" " ++ ?x) ++ ?y) with (" "%char :: x ++ y).
  rewrite IndexAny_app by (done || (eapply all_impl; [exact Hs|]; class)).
  rewrite take_len_app, Nat.add_1_r, drop_S_len_app. unfold splitAuthParams.
  rewrite splitAuthParams_spaced by done.
  assert (∀ a l, Forall (λ e, Is_true (wf_auth_entry e)) l →
    parse_auth_params a (map auth_part l) = foldl (λ a e, set_auth_param a e.1.1 e.1.2) a l) as Hp.
  { clear. intros a l H. revert a. induction H as [|e l He Hl IH]; intros a; [done|]. cbn [map foldl].
    by rewrite parse_auth_part. }
  apply Hp. by constructor.
Qed.

(** ** The registration handshake *)

Definition word_byte (c : ascii) : bool := is_alnum c || mem c ".-@".
Definition word_text (s : str) : bool := (s != []) && all word_byte s.
Definition plain (s : str) : bool := (s != []) && all is_alnum s.
Definition host_name (s : str) : bool := (s != []) && all (λ c, is_alnum c || mem c ".-") s.

(** The identifiers of the two ends are plain, and the platform has the device's
    password. *)
Definition config_ok (c : DeviceConfig) (cfg : PlatformConfig) : bool :=
  plain (dc_DeviceID c) && plain (dc_ServerID c) && host_name (dc_ServerHost c) && plain (p_Realm cfg)
  && ((p_Password cfg ≫= λ f, f (dc_DeviceID c)) == Some (dc_Password c)).

Lemma le_bytes_bytes n x : forallb is_byte (le_bytes n x).
Proof.
  revert x. induction n as [|n IH]; intros x; [done|]. cbn [le_bytes forallb]. apply andb_True. split; [|apply IH].
  apply Is_true_true, N.ltb_lt. by apply N.mod_lt.
Qed.

Lemma md5_bytes b : forallb is_byte (md5 b) ∧ md5 b ≠ [].
Proof.
  unfold md5. destruct (fold_left _ _ _) as [[[x1 x2] x3] x4]. cbn [flat_map]. split; [|done].
  rewrite !forallb_app, !andb_True. split_and!; try apply le_bytes_bytes. done.
Qed.

Lemma md5_hex_plain s : plain (md5_hex s).
Proof.
  unfold md5_hex, plain. destruct (md5_bytes (bytes_of s)) as [Hb Hn].
  apply andb_True. split; [|by apply EncodeToString_alnum]. by destruct (md5 _).
Qed.

(** The parameters of the device's credentials. *)
Definition credentials (id realm nonce uri resp : str) : Auth :=
  mkAuth "Digest" id realm nonce uri resp [] [] [] [] [] (Some []).

(** The Authorization a device writes, as the platform reads it. *)
Lemma credentials_received id realm nonce uri resp :
  plain id → plain realm → word_text nonce → uri ≠ [] → all bare_byte uri → all quoted_byte uri → plain resp →
  let value := "Digest" ++ auth_q "username" id ++ auth_q "realm" realm ++ auth_q "nonce" nonce ++
               auth_q "uri" uri ++ auth_q "response" resp in
  ParseAuth (Header_Value (newTypedHeader "Authorization" value)) = credentials id realm nonce uri resp.
Proof.
  intros Hid Hr Hn Hu Hub Huq Hp value. unfold plain, word_text in *. bool_hyps.
  assert (value = "Digest" ++ concat (map (λ e, " " ++ auth_part e)
    [(lit "username", id, true); (lit "realm", realm, true); (lit "nonce", nonce, true); (lit "uri", uri, true);
     (lit "response", resp, true)])) as ->.
  { unfold value. cbn [map concat]. by rewrite app_nil_r. }
  rewrite auth_typed by by apply (bool_decide_unpack _); vm_compute.
  rewrite ParseAuth_spaced; [|done|done|done|].
  2: { apply Forall_forallb. cbn [forallb]. unfold wf_auth_entry. rewrite !andb_True. split_and!; try done; solve_class. }
  cbn [foldl fst snd Header_Value]. unfold set_auth_param, new_Auth.
  change (ParseAuth (Auth_Value (credentials id realm nonce uri resp)) = credentials id realm nonce uri resp).
  apply ParseAuth_Value. unfold wf_auth, credentials, auth_entries.
  cbn [Auth_Scheme Username Realm Nonce URI Response_ Cnonce Nc Qop Algorithm Opaque_ Other].
  rewrite !andb_True. split_and!; try done.
  - unfold nonempty_entries. cbn [List.filter fst snd]. by rewrite (bool_decide_false (id = [])).
  - cbn [forallb]. unfold wf_auth_entry. rewrite !andb_True. split_and!; try done; solve_class.
Qed.

(** The nonce of a challenge, as the device reads it. *)
Lemma challenge_received realm nonce :
  plain realm → word_text nonce →
  Nonce (ParseAuth (Header_Value (newTypedHeader "WWW-Authenticate" (challenge_value realm nonce)))) = nonce.
Proof.
  unfold plain, word_text. intros Hr Hn. bool_hyps.
  assert (∀ s, all word_byte s → Quote s = [DQUOTE] ++ s ++ [DQUOTE]) as Hq.
  { clear. intros s Hs. unfold Quote. do 2 f_equal. induction s as [|c s IH]; [done|]. split_all. cbn [flat_map].
    rewrite IH by done. assert (quote_byte c = [c]) as ->; [|done].
    match goal with H : Is_true (word_byte c) |- _ => revert H end. all_bytes c; by vm_compute. }
  assert (challenge_value realm nonce = "Digest" ++ concat (map (λ e, " " ++ auth_part e)
    [(lit "realm", realm, true); (lit "nonce", nonce, true)])) as ->.
  { unfold challenge_value. rewrite !Hq by solve_class. cbn [map concat]. rewrite app_nil_r.
    unfold auth_part. cbn [lit String.list_ascii_of_string app]. by rewrite <-!app_assoc. }
  rewrite auth_typed by by apply (bool_decide_unpack _); vm_compute.
  rewrite ParseAuth_spaced; [|done|done|done|].
  2: { apply Forall_forallb. cbn [forallb]. unfold wf_auth_entry. rewrite !andb_True. split_and!; try done; solve_class. }
  cbn [foldl fst snd Header_Value]. unfold set_auth_param, new_Auth.
  pose (a := mkAuth "Digest" [] realm nonce [] [] [] [] [] [] [] (Some [])).
  change (Nonce (ParseAuth (Auth_Value a)) = nonce).
  assert (ParseAuth (Auth_Value a) = a) as E; [|by rewrite E].
  apply ParseAuth_Value. unfold wf_auth, auth_entries.
  cbn [a Auth_Scheme Username Realm Nonce URI Response_ Cnonce Nc Qop Algorithm Opaque_ Other].
  rewrite !andb_True. split_and!; try done.
  - unfold nonempty_entries. cbn [List.filter fst snd]. by rewrite (bool_decide_false (realm = [])).
  - cbn [forallb]. unfold wf_auth_entry. rewrite !andb_True. split_and!; try done; solve_class.
Qed.

(** The From a device writes, as the platform reads it. *)
Lemma from_received c tag :
  plain (dc_DeviceID c) → host_name (dc_ServerHost c) → plain tag →
  newTypedHeader "From" (Address_String (device_from c tag)) = HNameAddr (mkNameAddrList "From" [device_from c tag] false).
Proof.
  unfold plain, host_name. intros Hid Hh Ht. bool_hyps. set (h := HNameAddr _).
  change (Address_String (device_from c tag)) with (Header_Value h). change (lit "From") with (Header_Name h).
  apply newTypedHeader_Value. unfold h, wf_header_data. apply andb_True. split; [by apply (bool_decide_unpack _); vm_compute|].
  unfold wf_addr_list, wf_list_address, wf_address, device_from. cbn [Addresses forallb All Address_Uri Address_Params].
  rewrite !andb_True. split_and!; try done.
  - change (Params_Set NewParams "tag" tag) with [mkParam "tag" tag true].
    unfold wf_params_in, wf_params, wf_param_in, wf_param, value_ok. cbn [forallb Key Value HasValue].
    rewrite !andb_True. split_and!; try done; try solve_class;
      (destruct (ContainsAny _ _); [solve_class|apply trimmed_nospace; solve_class]).
  - unfold wf_uri. cbn [Uri_Scheme Uri_User Uri_Password Uri_Host Uri_Port Uri_Params Uri_Headers]. rewrite !andb_True.
    split_and!; try done; try solve_class.
    + by rewrite (bool_decide_false (dc_DeviceID c = [])).
    + unfold wf_host. rewrite (bool_decide_false (dc_ServerHost c = [])) by done. apply orb_True. left. cbn [negb andb]. solve_class.
  - unfold wf_list_uri. cbn [Uri_User Uri_Password Uri_Host Uri_Params Uri_Headers]. rewrite !andb_True.
    split_and!; try done; solve_class.
Qed.

Section Handshake.
Context `{Sender} `{Entropy}.

(** The REGISTER of a device as its manager sends it. *)
Definition sent_register (c : DeviceConfig) (callID : str) (cseq : Z) (tag branch fresh : str) (auth : option Auth) : Request :=
  prepare_request (newRegister c callID cseq tag auth) branch fresh (dc_LocalHost c) (dc_LocalPort c).

(** The manager fills in headers, and changes none that it does not. *)
Lemma prepare_get req b ci vh vp name :
  CanonicalName name ∉ [lit "Via"; lit "Max-Forwards"; lit "Call-ID"; lit "CSeq"] →
  Headers_Get (Req_headers (prepare_request req b ci vh vp)) name = Headers_Get (Req_headers req) name.
Proof.
  intros Hn. unfold prepare_request. cbn [Req_headers req_with_headers].
  assert (∀ (t : bool) h x, cname x ∈ [lit "Via"; lit "Max-Forwards"; lit "Call-ID"; lit "CSeq"] →
    Headers_Get (if t then Headers_Set h x else h) name = Headers_Get h name) as Hset.
  { intros [] h x Hx; [|done]. rewrite Headers_Get_Set. rewrite bool_decide_false; [done|congruence]. }
  rewrite !Hset by (apply (bool_decide_unpack _); by vm_compute). destruct (_ && _); [|done].
  rewrite Headers_Get_Add. destruct (Headers_Get _ name); [done|].
  rewrite bool_decide_false; [done|]. intros E. apply Hn. rewrite <-E. apply (bool_decide_unpack _). by vm_compute.
Qed.

Lemma received_get r name :
  Req_body r = None → Headers_Get (Req_headers (received_request r)) name = retype <$> Headers_Get (Req_headers r) name.
Proof.
  intros Hb. unfold received_request. cbn [Req_headers]. rewrite Headers_Get_retype, msg_headers_framed.
  unfold msg_body. by rewrite Hb.
Qed.

Lemma register_from c callID cseq tag b ci auth :
  plain (dc_DeviceID c) → host_name (dc_ServerHost c) → plain tag →
  from_user (received_request (sent_register c callID cseq tag b ci auth)) = Some (dc_DeviceID c).
Proof.
  intros Hid Hh Ht. unfold from_user, from_of. rewrite received_get by done. unfold sent_register.
  rewrite prepare_get by (apply (bool_decide_unpack _); by vm_compute).
  assert (Headers_Get (Req_headers (newRegister c callID cseq tag auth)) "From" =
          Some (HGeneric "From" (Address_String (device_from c tag)))) as ->.
  { unfold newRegister. cbn [Req_headers req_with_headers]. destruct auth; by rewrite !Headers_Get_Set. }
  cbn [fmap option_fmap option_map]. unfold retype. cbn [Header_Name Header_Value].
  by rewrite from_received.
Qed.

Lemma register_authorization c callID cseq tag b ci auth :
  authValue (Headers_Get (Req_headers (received_request (sent_register c callID cseq tag b ci auth))) "Authorization") =
  match auth with
  | Some a => Header_Value (newTypedHeader "Authorization" (authHeaderString a))
  | None => []
  end.
Proof.
  rewrite received_get by done. unfold sent_register.
  rewrite prepare_get by (apply (bool_decide_unpack _); by vm_compute).
  unfold newRegister. cbn [Req_headers req_with_headers]. destruct auth; by rewrite !Headers_Get_Set.
Qed.

(** The digest the device computes for a nonce. *)
Definition device_digest (c : DeviceConfig) (nonce : str) : str :=
  MD5Hex [MD5Hex [dc_DeviceID c ++ ":" ++ dc_ServerID c ++ ":" ++ dc_Password c] ++ ":" ++ nonce ++ ":" ++
          MD5Hex [REGISTER ++ ":" ++ register_uri c]].

Lemma register_auth_eq c nonce a :
  lastChallenge c nonce = Some a →
  register_auth c a =
  mkAuth "Digest" (dc_DeviceID c) (dc_ServerID c) nonce (register_uri c) (device_digest c nonce) [] [] [] [] [] None.
Proof. unfold lastChallenge. case_test; [done|]. intros [= <-]. reflexivity. Qed.

Lemma device_digest_plain c nonce : plain (device_digest c nonce).
Proof. apply md5_hex_plain. Qed.

#[local] Opaque device_digest.

Lemma register_credentials c nonce a :
  plain (dc_DeviceID c) → plain (dc_ServerID c) → host_name (dc_ServerHost c) → word_text nonce →
  lastChallenge c nonce = Some a →
  ParseAuth (Header_Value (newTypedHeader "Authorization" (authHeaderString (register_auth c a)))) =
  credentials (dc_DeviceID c) (dc_ServerID c) nonce (register_uri c) (device_digest c nonce).
Proof.
  intros Hid Hs Hh Hn Ha. rewrite (register_auth_eq c nonce a Ha).
  assert (plain (device_digest c nonce)) as Hd by apply device_digest_plain.
  rewrite <-credentials_received; try done.
  - do 3 f_equal. unfold authHeaderString. cbn [Username Realm Nonce URI Response_ Algorithm Cnonce Opaque_].
    unfold plain in Hd. bool_hyps. rewrite (bool_decide_false (device_digest c nonce = [])) by done.
    cbn [negb]. by rewrite app_nil_r.
  - unfold plain, host_name in *. bool_hyps. unfold register_uri. split_all; try done; solve_class.
  - unfold plain, host_name in *. bool_hyps. unfold register_uri. split_all; try done; solve_class.
Qed.

(** C33: a device and a platform that share a password complete the registration
    handshake through the parser: the platform answers the first REGISTER with a
    challenge, the device reads the nonce out of the 401 as it was given, and the
    second REGISTER makes the platform mark the device registered, answer 200 and
    report the event. *)
Theorem device_registers (c : DeviceConfig) (cfg : PlatformConfig) (callID tag1 tag2 b1 b2 f1 f2 nonce : str)
  (challenge : Auth) (stx : option nat) :
  let r1 := sent_register c callID 1 tag1 b1 f1 None in
  let a1 := fill_response (received_request r1) (challenge_response cfg nonce) in
  let r2 := sent_register c callID 2 tag2 b2 f2 (Some (register_auth c challenge)) in
  config_ok c cfg → plain tag1 → plain tag2 → word_text nonce → lastChallenge c nonce = Some challenge →
  text_message (MReq r1) → text_message (MResp a1) → text_message (MReq r2) →
  ∃ q1 a q2,
    ParseMessage (render (MReq r1)) = Ok (MReq q1) ∧
    (∀ p, p_cfg p = cfg → onRegister q1 stx p =
       (nonce ← on_ua fresh_callid; update (change_device (dc_DeviceID c) (set_challenge nonce q1));;
        _ ← on_ua (stx_Respond stx (challenge_response cfg nonce)); mret ()) p) ∧
    ParseMessage (render (MResp a1)) = Ok (MResp a) ∧ challenge_nonce a = Some nonce ∧
    ParseMessage (render (MReq r2)) = Ok (MReq q2) ∧
    (∀ p, p_cfg p = cfg → onRegister q2 stx p =
       (now ← asks p_now; update (change_device (dc_DeviceID c) (set_registered now));;
        respond_status stx 200;; on_device (mkDeviceEvent (dc_DeviceID c) "registered" None)) p).
Proof.
  intros r1 a1 r2 Hc Ht1 Ht2 Hn Hch Hr1 Ha1 Hr2. unfold config_ok in Hc. bool_hyps.
  exists (received_request r1), (received_response a1), (received_request r2).
  split_and!; [by apply (ParseMessage_text (MReq r1))| |by apply (ParseMessage_text (MResp a1))| |
               by apply (ParseMessage_text (MReq r2))|].
  - intros p Hp. unfold onRegister, r1. rewrite register_from by done. rewrite run_asks, Hp, register_authorization. done.
  - unfold challenge_nonce, received_response. cbn [Resp_headers]. rewrite Headers_Get_retype, msg_headers_framed.
    unfold msg_body. cbn [msg_headers]. change (Resp_body a1) with (@None str). cbn [default].
    unfold framed_headers, a1. cbn [Nat.ltb length Nat.leb].
    rewrite (fill_response_keeps _ _ _ (NewHeader "WWW-Authenticate" (challenge_value (p_Realm cfg) nonce)));
      [|apply (bool_decide_unpack _); by vm_compute|done].
    cbn [fmap option_fmap option_map]. unfold retype. cbn [Header_Name Header_Value NewHeader].
    rewrite challenge_received by done. unfold word_text in Hn. bool_hyps. by rewrite bool_decide_false.
  - intros p Hp. unfold onRegister, r2. rewrite register_from by done. rewrite run_asks, Hp, register_authorization.
    rewrite (register_credentials c nonce) by done. cbn [Auth_Scheme Response_ credentials].
    pose proof (device_digest_plain c nonce) as Hd. unfold plain in Hd. bool_hyps.
    rewrite (bool_decide_false (device_digest c nonce = [])) by done. cbn [bool_decide orb].
    match goal with H : p_Password cfg ≫= _ = _ |- _ => rewrite H end.
    rewrite (bool_decide_true (expected_response _ _ _ = _)); [done|].
    unfold expected_response. cbn [Realm Username URI Nonce].
    unfold plain in *. bool_hyps. by rewrite (bool_decide_false (dc_ServerID c = [])).
Qed.
End Handshake.

Definition ex_device : DeviceConfig :=
  mkDeviceConfig "34020000001320000001" "12345678" "34020000002000000001" "192.168.1.1" 5060 "192.168.1.2" 5060
    60 10 [] (mkDeviceInfo [] [] [] []).
Definition ex_platform : PlatformConfig :=
  mkPlatformConfig "34020000002000000001" "192.168.1.1" 5060 "3402000000" (Some (λ _, Some (lit "12345678"))) 3600.
Definition ex_nonce : str := "6f4a@localhost".
Definition ex_challenge : Auth := default (new_Auth [] None) (lastChallenge ex_device ex_nonce).

Lemma device_registers_witness :
  ∃ q1 a q2,
    ParseMessage (render (MReq (sent_register (H := ok_sender_ua) ex_device "c1" 1 "t1" "z9hG4bK1" [] None))) = Ok (MReq q1) ∧
    ParseMessage (render (MResp (fill_response q1 (challenge_response ex_platform ex_nonce)))) = Ok (MResp a) ∧
    challenge_nonce a = Some ex_nonce ∧
    ParseMessage (render (MReq (sent_register (H := ok_sender_ua) ex_device "c1" 2 "t2" "z9hG4bK2" []
                                  (Some (register_auth ex_device ex_challenge))))) = Ok (MReq q2).
Proof.
  pose proof (device_registers (H := ok_sender_ua) (H0 := ex_entropy) ex_device ex_platform "c1" "t1" "t2" "z9hG4bK1"
    "z9hG4bK2" [] [] ex_nonce ex_challenge (Some 0)) as Hw. cbv zeta in Hw.
  assert (ParseMessage (render (MReq (sent_register (H := ok_sender_ua) ex_device "c1" 1 "t1" "z9hG4bK1" [] None))) =
    Ok (MReq (received_request (sent_register (H := ok_sender_ua) ex_device "c1" 1 "t1" "z9hG4bK1" [] None)))) as E
    by by vm_compute.
  destruct Hw as (q1 & a & q2 & H1 & _ & H2 & H3 & H4 & _); [by vm_compute..|].
  rewrite E in H1. injection H1 as <-. eexists _, a, q2. split; [exact E|]. split; [exact H2|]. split; [exact H3|exact H4].
Defined.

(** ** Registered devices *)

(** The request carries the digest of the password of the device it names. *)
Definition authenticates (c : PlatformConfig) (id : str) (req : Request) : Prop :=
  from_user req = Some id ∧
  ∃ password, (p_Password c ≫= λ f, f id) = Some password ∧
    let auth := ParseAuth (authValue (Headers_Get (Req_headers req) "Authorization")) in
    Auth_Scheme auth ≠ [] ∧ Response_ auth ≠ [] ∧ expected_response c auth password = Response_ auth.

Section Registered.
Context `{Sender} `{Entropy} `{XmlNames}.

(** What happens to a platform: packets, the calls of its application, its agent's
    timers and other transactions, and time. *)
Inductive platform_step : option Packet → Platform → Platform → Prop :=
| step_packet pkt p p' : Platform_handlePacket pkt p = Ret ((), p') → platform_step (Some pkt) p p'
| step_catalog id a p r p' : QueryCatalog id a p = Ret (r, p') → platform_step None p p'
| step_info id a p r p' : QueryDeviceInfo id a p = Ret (r, p') → platform_step None p p'
| step_ptz id cmd a p r p' : PTZControl id cmd a p = Ret (r, p') → platform_step None p p'
| step_live id ip port ssrc p r p' : InviteLive id ip port ssrc p = Ret (r, p') → platform_step None p p'
| step_playback id ip port ssrc t1 t2 p r p' : InvitePlayback id ip port ssrc t1 t2 p = Ret (r, p') → platform_step None p p'
| step_agent u p : platform_step None p (with_ua u p)
| step_time t p : (p_now p ≤ t)%Z → platform_step None p (with_time t p).

(** A platform from its start, with the packets it received, oldest first. *)
Inductive platform_run (c : PlatformConfig) (now : Z) : list Packet → Platform → Prop :=
| run_new : platform_run c now [] (new_platform c now)
| run_step l p o p' : platform_run c now l p → platform_step o p p' →
    platform_run c now (l ++ match o with Some pkt => [pkt] | None => [] end) p'.

(** Every registered device is authenticated by some request of [got]. *)
Definition reg_ok (c : PlatformConfig) (got : Request → Prop) (p : Platform) : Prop :=
  p_cfg p = c ∧ ∀ id d, devices p !! id = Some d → Registered d = true → ∃ req, got req ∧ authenticates c id req.

Context (c : PlatformConfig) (got : Request → Prop).

Lemma always_onp {S T A} (I : S → Prop) (get : S → T) (put : T → S → S) (m : proc T A) :
  (∀ t s, I s → I (put t s)) → always I (onp get put m).
Proof. intros Hp s a s' Hs. unfold onp. destruct (m (get s)) as [[b t]|]; [|done]. intros [= _ <-]. by apply Hp. Qed.

Lemma reg_on_ua {A} (m : proc UA A) : always (reg_ok c got) (on_ua m).
Proof. by apply always_onp. Qed.

Lemma reg_update f :
  (∀ p, p_cfg (f p) = p_cfg p) → (∀ p, devices (f p) = devices p) → always (reg_ok c got) (update f).
Proof. intros Hc Hd. apply always_update. intros p [H2 H3]. split; [by rewrite Hc|by rewrite Hd]. Qed.

(** A record may change as long as registration is earned. *)
Lemma reg_change id f :
  (∀ d, Registered (f d) = true → Registered d = true ∨ ∃ req, got req ∧ authenticates c id req) →
  always (reg_ok c got) (update (change_device id f)).
Proof.
  intros Hf. apply always_update. intros p [Hcfg Hp]. split; [done|]. intros i d.
  unfold change_device. cbn [devices with_devices]. destruct (decide (id = i)) as [<-|Hne].
  - rewrite lookup_insert_eq. intros [= <-] Hr. destruct (Hf _ Hr) as [Hd|?]; [|done].
    unfold device in Hd. destruct (devices p !! id) as [d0|] eqn:E; [|done]. by eapply Hp.
  - rewrite lookup_insert_ne by done. apply Hp.
Qed.

Lemma reg_respond stx status : always (reg_ok c got) (respond_status stx status).
Proof. unfold respond_status. apply always_bind; [apply reg_on_ua|intros ?; apply always_ret]. Qed.

Lemma always_asks_known {S A B} (I : S → Prop) (f : S → A) (v : A) (k : A → proc S B) :
  (∀ s, I s → f s = v) → always I (k v) → always I (asks f ≫= k).
Proof. intros Hf Hk. apply always_asks_bind. intros s a s' Hs. rewrite (Hf s Hs). by apply Hk. Qed.

Lemma reg_onRegister req stx : got req → always (reg_ok c got) (onRegister req stx).
Proof.
  intros Hgot. unfold onRegister. destruct (from_user req) as [id|] eqn:Hid; [|apply always_panic].
  apply (always_asks_known _ _ c); [by intros p [? _]|]. cbv zeta. set (auth := ParseAuth _).
  destruct (_ || _) eqn:Hauth.
  - always_auto; try apply reg_on_ua. apply reg_change. intros d Hd. by left.
  - destruct (p_Password c ≫= _) as [password|] eqn:Hpw; [|apply reg_respond].
    destruct (bool_decide_reflect (expected_response c auth password = Response_ auth)) as [He|He];
      [|apply reg_respond]. cbn [negb].
    always_auto; try apply reg_respond; [|by apply reg_update]. apply reg_change. intros d _. right.
    exists req. split; [done|]. split; [done|]. exists password.
    apply orb_false_iff in Hauth as [Hs Hresp]. by apply bool_decide_eq_false in Hs, Hresp.
Qed.

Lemma reg_onMessage req stx : always (reg_ok c got) (onMessage req stx).
Proof.
  unfold onMessage. always_auto; try apply reg_on_ua; try by apply reg_update.
  apply reg_change. intros d Hd. by left.
Qed.

Lemma reg_on_call cl : got (call_request cl) → always (reg_ok c got) (on_call cl).
Proof.
  intros Hg. destruct cl; cbn [on_call call_request] in *;
    [by apply reg_update|by apply reg_onRegister|apply always_ret|apply reg_onMessage|apply always_ret..].
Qed.

Lemma reg_packet pkt : (∀ req, Msg pkt = MReq req → got req) → always (reg_ok c got) (Platform_handlePacket pkt).
Proof.
  intros Hgot p a p' Hp. unfold Platform_handlePacket. rewrite run_asks. intros Hr.
  apply run_inv in Hr as ([] & p1 & E & Hr). rewrite run_asks in Hr.
  assert (reg_ok c got p1) as Hp1 by by eapply reg_on_ua.
  unfold on_ua, onp in E. destruct (UA_handlePacket pkt (p_ua p)) as [[[] u]|] eqn:Eu; [|done]. injection E as <-.
  apply packet_calls in Eu as (l & Hl & Hok). cbn [p_ua with_ua] in Hr. rewrite Hl, drop_app_length in Hr.
  assert (always (reg_ok c got) (each on_call l)) as Ha; [|by eapply Ha].
  clear -Hok Hgot. induction Hok as [|cl l Hcl Hok IH]; [apply always_ret|]. cbn [each].
  apply always_bind; [by apply reg_on_call, Hgot|by intros _].
Qed.

Lemma reg_sendMessage id body a : always (reg_ok c got) (p_sendMessage id body a).
Proof. unfold p_sendMessage. always_auto; apply reg_on_ua. Qed.

Lemma reg_nextSN : always (reg_ok c got) p_nextSN.
Proof. unfold p_nextSN. always_auto. by apply reg_update. Qed.

Lemma reg_invite id s : always (reg_ok c got) (p_invite id s).
Proof. unfold p_invite. always_auto. apply reg_on_ua. Qed.

Lemma reg_step o p p' :
  (∀ pkt req, o = Some pkt → Msg pkt = MReq req → got req) → platform_step o p p' → reg_ok c got p → reg_ok c got p'.
Proof.
  intros Hgot Hs Hp. revert Hp.
  assert (∀ A (m : proc Platform A) p r p', always (reg_ok c got) m → m p = Ret (r, p') → reg_ok c got p → reg_ok c got p')
    as Hm by (intros A m q r q' Hm Er Hq; by eapply Hm).
  destruct Hs as [pkt p p' E|id a p r p' E|id a p r p' E|id cmd a p r p' E|id ip port ssrc p r p' E|
                  id ip port ssrc t1 t2 p r p' E|u p|t p Ht]; try (eapply Hm; [|exact E]).
  - apply reg_packet. intros req. by apply (Hgot pkt).
  - unfold QueryCatalog. always_auto; [apply reg_nextSN|apply reg_sendMessage].
  - unfold QueryDeviceInfo. always_auto; [apply reg_nextSN|apply reg_sendMessage].
  - unfold PTZControl. always_auto; [apply reg_nextSN|apply reg_sendMessage].
  - unfold InviteLive. always_auto. apply reg_invite.
  - unfold InvitePlayback. always_auto. apply reg_invite.
  - done.
  - done.
Qed.
End Registered.

Lemma reg_weaken c (got got' : Request → Prop) p : (∀ r, got r → got' r) → reg_ok c got p → reg_ok c got' p.
Proof. intros Hg [Hc Hp]. split; [done|]. intros id d Hd Hr. destruct (Hp id d Hd Hr) as (req & Hq & Ha). eauto. Qed.

(** C34: whatever a platform receives and does, a device it holds registered has
    sent, under its own identifier, a request with a digest made from its password. *)
Theorem registered_by_digest `{Sender} `{Entropy} `{XmlNames} (c : PlatformConfig) (now : Z) (l : list Packet)
  (p : Platform) (id : str) (d : DeviceStatus) :
  platform_run c now l p → devices p !! id = Some d → Registered d = true →
  ∃ pkt req, pkt ∈ l ∧ Msg pkt = MReq req ∧ authenticates c id req.
Proof.
  intros Hrun Hd Hr. assert (reg_ok c (λ req, ∃ pkt, pkt ∈ l ∧ Msg pkt = MReq req) p) as [_ Hp].
  { clear Hd Hr. induction Hrun as [|l p o p' Hrun IH Hs]; [by split|]. eapply reg_step; [|exact Hs|].
    - intros pkt req -> Hm. exists pkt. split; [set_solver|done].
    - eapply reg_weaken; [|exact IH]. intros req (pkt & Hin & Hm). exists pkt. split; [set_solver|done]. }
  destruct (Hp id d Hd Hr) as (req & (pkt & Hin & Hm) & Ha). by exists pkt, req.
Qed.

Definition ex_secret : Request :=
  received_request (sent_register (H := ok_sender_ua) ex_device "c1" 2 "t2" "z9hG4bK2" [] (Some (register_auth ex_device ex_challenge))).

Definition platform_receive (host : str) (req : Request) (p : outcome Platform) : outcome Platform :=
  match p with
  | Ret p => match Platform_handlePacket (H := ok_sender_ua) (H0 := ex_entropy) (H1 := ex_names)
                     (mkPacket (MReq req) (mkAddr "udp" host 5060)) p with
             | Ret (_, p') => Ret p'
             | Panic => Panic
             end
  | Panic => Panic
  end.

Definition registered_in (id : str) (p : outcome Platform) : bool :=
  match p with Ret p => is_registered p id | Panic => false end.

Lemma registered_by_digest_witness :
  ∃ p d, platform_run (H := ok_sender_ua) (H0 := ex_entropy) (H1 := ex_names) ex_platform 0
           [mkPacket (MReq ex_secret) (mkAddr "udp" "192.168.1.2" 5060)] p ∧
    devices p !! dc_DeviceID ex_device = Some d ∧ Registered d = true ∧
    ∃ req, authenticates ex_platform (dc_DeviceID ex_device) req.
Proof.
  set (pkt := mkPacket (MReq ex_secret) (mkAddr "udp" "192.168.1.2" 5060)).
  destruct (Platform_handlePacket (H := ok_sender_ua) (H0 := ex_entropy) (H1 := ex_names) pkt (new_platform ex_platform 0))
    as [[[] p]|] eqn:E; [|by vm_compute in E].
  assert (platform_run (H := ok_sender_ua) (H0 := ex_entropy) (H1 := ex_names) ex_platform 0 [pkt] p) as Hrun.
  { apply (run_step (H := ok_sender_ua) (H0 := ex_entropy) (H1 := ex_names) ex_platform 0 [] _ (Some pkt) p (run_new _ _)).
    by constructor. }
  destruct (devices p !! dc_DeviceID ex_device) as [d|] eqn:Hd; [|vm_compute in E; injection E as <-; by vm_compute in Hd].
  assert (Registered d = true) as Hr by (vm_compute in E; injection E as <-; vm_compute in Hd; by injection Hd as <-).
  exists p, d. split_and!; [exact Hrun|exact Hd|exact Hr|].
  destruct (registered_by_digest (H := ok_sender_ua) (H0 := ex_entropy) (H1 := ex_names) ex_platform 0 [pkt] p
    (dc_DeviceID ex_device) d Hrun Hd Hr) as (_ & req & _ & _ & Ha).
  exists req. exact Ha.
Defined.

(** ** What the endpoints get wrong *)

(** The nonce of an Authorization is never compared with the one issued: a platform
    that sent no challenge registers a device that answers one of its own. *)
Lemma platform_accepts_any_nonce :
  registered_in (dc_DeviceID ex_device)
    (platform_receive "6.6.6.6" ex_secret (Ret (new_platform ex_platform 0))) = true.
Proof. by vm_compute. Qed.

(** A REGISTER crashes the platform when its From is no address, or when its CSeq
    says ACK; both pass the parser. *)
Definition ex_register (from : Header) (cseq : Method) : Request :=
  mkRequest REGISTER (Some (ua_ex_uri "p" "192.168.1.1")) SipVersion
    [HVia (SetBranch (mkVia "SIP/2.0/UDP" "UDP" "10.0.0.1" 5060 None) "z9hG4bK1"); from;
     HGeneric "To" "<sip:p@192.168.1.1>"; HGeneric "Call-ID" "c1"; HCSeq (mkCSeq 1 cseq)] None.

Definition parsed_register (from : Header) (cseq : Method) (p : outcome Platform) : outcome Platform :=
  match ParseMessage (render (MReq (ex_register from cseq))) with
  | Ok (MReq r) => platform_receive "6.6.6.6" r p
  | _ => p
  end.

Lemma platform_register_panics :
  parsed_register (HGeneric "From" "<") REGISTER (Ret (new_platform ex_platform 0)) = Panic ∧
  parsed_register (HGeneric "From" "<sip:d@10.0.0.1>") ACK (Ret (new_platform ex_platform 0)) = Panic.
Proof. by vm_compute. Qed.

(** The device answers an INVITE with another To tag than its dialog has, so the
    platform's BYE of the call it set up is answered 481. *)
Definition device_receive (req : Request) (d : outcome Device) : outcome Device :=
  match d with
  | Ret d => match Device_handlePacket (H := ok_sender_ua) (H0 := ex_entropy) (H1 := ex_names)
                     (mkPacket (MReq req) (mkAddr "udp" "192.168.1.1" 5060)) d with
             | Ret (_, d') => Ret d'
             | Panic => Panic
             end
  | Panic => Panic
  end.

Definition ex_stream (method : Method) (branch : str) (seq : Z) (to_tag : str) (body : option str) : Request :=
  mkRequest method (Some (selfUri ex_device)) SipVersion
    [HVia (SetBranch (mkVia "SIP/2.0/UDP" "UDP" "192.168.1.1" 5060 None) branch);
     HAddr (SetTag (platform_from ex_platform None) "p1") "From";
     HAddr (let a := mkAddress [] false (Some (selfUri ex_device)) None in if to_tag == [] then a else SetTag a to_tag) "To";
     HGeneric "Call-ID" "c1"; HCSeq (mkCSeq seq method)] body.

Definition ex_streaming : outcome Device :=
  device_receive (ex_stream INVITE "z9hG4bK1" 1 [] (Some (Build ex_sdp))) (Ret (new_device ex_device false)).

Definition agent_of (d : outcome Device) : outcome UA := match d with Ret d => Ret (d_ua d) | Panic => Panic end.

(** The To tag of the last response the agent sent. *)
Definition answered_tag (u : outcome UA) : str :=
  match u with
  | Ret u => default [] (last (omap (λ e, match e with
                                          | ESend (MResp r) _ _ =>
                                            match retype <$> Headers_Get (Resp_headers r) "To" with
                                            | Some h => Some (Tag (addressOf (Some h)))
                                            | None => None
                                            end
                                          | _ => None end) (trace (ua_tm u))))
  | Panic => []
  end.

Lemma device_bye_unknown :
  statuses (agent_of ex_streaming) = [200%Z] ∧ answered_tag (agent_of ex_streaming) ≠ [] ∧
  statuses (agent_of (device_receive (ex_stream BYE "z9hG4bK2" 2 (answered_tag (agent_of ex_streaming)) None) ex_streaming)) =
  [200; 481]%Z.
Proof. by vm_compute. Qed.

(** A device whose keepalives fail stays registered in its own eyes unless an error
    callback is set. *)
Lemma lost_platform_unnoticed :
  let failing := mkSender true true false (λ _ _ _ _, Err ErrOther) in
  match run_tick (H := failing) (H0 := ex_entropy) false (mkRunState true 0) (new_device ex_device false) with
  | Ret (s, _) => registered s = true
  | Panic => False
  end.
Proof. by vm_compute. Qed.
