(* ===== verification/GbExchange.v ===== *)
(** * A catalog query and its answer

    The platform's query goes through the writer, the SIP parser and the XML decoder to
    the device, and the device's catalog the same way back: what the platform learns is
    what the device has. *)

From S2P Require Import Prelude GoStrings Params Uri Headers HeadersMap Message Parser Net Transport Ids Transaction Proc Dialog Utf8 XmlToken Xml XmlRead XmlRoundTrip Ua UaTheorems Platform Device GbTheorems.

(** The headers of a received request, those of its body apart. *)
Lemma received_header r name :
  CanonicalName name ≠ "Content-Length" →
  Headers_Get (Req_headers (received_request r)) name = retype <$> Headers_Get (Req_headers r) name.
Proof.
  intros Hn. unfold received_request. cbn [Req_headers]. rewrite Headers_Get_retype, msg_headers_framed. f_equal.
  unfold framed_headers. cbn [msg_headers]. destruct (0 <? _); [|done]. destruct (Headers_Get _ "Content-Length"); [done|].
  change (?h ++ [?x]) with (Headers_Add h x). rewrite Headers_Get_Add. destruct (Headers_Get _ name); [done|].
  by rewrite bool_decide_false.
Qed.

Section Exchange.
Context `{Sender} `{Entropy} `{XmlNames}.

(** The MESSAGE of an endpoint as its manager sends it. *)
Definition sent_query (c : PlatformConfig) (id : str) (dst : Addr) (tag callid branch fresh body : str) : Request :=
  prepare_request (p_newMessage c id dst tag callid body) branch fresh (p_ServerHost c) (ListenPort c).
Definition sent_answer (c : DeviceConfig) (tag callid branch fresh body : str) : Request :=
  prepare_request (d_newMessage c tag callid body) branch fresh (dc_LocalHost c) (dc_LocalPort c).

Lemma received_body r b : Req_body r = Some b → Req_body (received_request r) = clone_body (Some b).
Proof. intros Hb. unfold received_request. cbn [Req_body]. unfold msg_body. by rewrite Hb. Qed.

Lemma default_clone_body b : default [] (clone_body (Some b)) = b.
Proof. by destruct b. Qed.

Lemma answer_from c tag callid b ci body :
  plain (dc_DeviceID c) → host_name (dc_ServerHost c) → plain tag →
  from_user (received_request (sent_answer c tag callid b ci body)) = Some (dc_DeviceID c).
Proof.
  intros Hid Hh Ht. unfold from_user, from_of. rewrite received_header by (intros E; by vm_compute in E). unfold sent_answer.
  rewrite prepare_get by (apply (bool_decide_unpack _); by vm_compute).
  assert (Headers_Get (Req_headers (d_newMessage c tag callid body)) "From" =
          Some (HGeneric "From" (Address_String (device_from c tag)))) as ->.
  { unfold d_newMessage, Request_SetBody. cbn [Req_headers req_with_headers].
    rewrite set_body_get by (apply (bool_decide_unpack _); by vm_compute).
    unfold message_headers. by rewrite !Headers_Get_Set. }
  cbn [fmap option_fmap option_map]. unfold retype. cbn [Header_Name Header_Value].
  by rewrite from_received.
Qed.

(** Every channel of the list is known under the device afterwards. *)
Lemma learn_channels_all id l p it :
  it ∈ dl_Items l → channelOf (learn_channels id l p) !! it_DeviceID it = Some id.
Proof.
  unfold learn_channels. cbn [channelOf with_channels]. intros Hit.
  assert (it ∈ dl_Items l ∨ channelOf p !! it_DeviceID it = Some id) as Hk by by left.
  clear Hit. revert Hk. generalize (channelOf p). induction (dl_Items l) as [|x items IH]; intros m Hk.
  { by destruct Hk as [Hk%elem_of_nil|Hk]. }
  cbn [foldl]. apply IH. destruct (decide (it_DeviceID x = it_DeviceID it)) as [->|Hx].
  - right. apply lookup_insert_eq.
  - rewrite lookup_insert_ne by done. destruct Hk as [[->|Hk]%elem_of_cons|Hk]; [done|by left|by right].
Qed.

Lemma d_onMessage_parsed req stx e d :
  xml_Parse (default [] (Req_body req)) = Ok e → e_CmdType e = CmdCatalog →
  d_onMessage req stx d =
  (_ ← on_d_ua (UA_Respond None stx 200 [] None);
   _ ← d_SendMessage (BuildResponse (catalog_response (d_cfg d) (e_SN e))); mret ()) d.
Proof.
  intros Hp Hc. unfold d_onMessage. rewrite Hp. apply run_ext. intros a d' E. rewrite run_asks, Hc.
  assert (d_cfg d' = d_cfg d) as <-; [|by rewrite bool_decide_true].
  unfold on_d_ua, onp in E. destruct (UA_Respond _ _ _ _ _ _) as [[]|]; [by injection E as _ <-|done].
Qed.

(** C27: the platform's catalog query and the device's answer, each written, parsed as a
    SIP message and read as XML by the other end: the device answers 200 and sends its
    channels under the query's number, and the platform answers 200, marks the device
    seen, knows every channel of the device under it, and reports the very envelope the
    device sent. *)
Theorem catalog_exchange (c : DeviceConfig) (pc : PlatformConfig) (id : str) (sn : Z) (dst : Addr)
  (tag1 tag2 call1 call2 b1 b2 f1 f2 : str) (stx : option nat) :
  let answer := catalog_response c sn in
  let q := sent_query pc id dst tag1 call1 b1 f1 (BuildQuery (new_Envelope CmdCatalog sn id)) in
  let r := sent_answer c tag2 call2 b2 f2 (BuildResponse answer) in
  plain (dc_DeviceID c) → host_name (dc_ServerHost c) → plain tag2 → text_ok id → envelope_ok answer →
  text_message (MReq q) → text_message (MReq r) →
  ∃ q' r',
    ParseMessage (render (MReq q)) = Ok (MReq q') ∧
    (∀ d, d_cfg d = c → d_onMessage q' stx d =
       (_ ← on_d_ua (UA_Respond None stx 200 [] None); _ ← d_SendMessage (BuildResponse answer); mret ()) d) ∧
    ParseMessage (render (MReq r)) = Ok (MReq r') ∧
    (∀ p, onMessage r' stx p =
       (_ ← on_ua (UA_Respond None stx 200 [] None); now ← asks p_now;
        update (change_device (dc_DeviceID c) (set_seen now));;
        update (learn_channels (dc_DeviceID c) (mkDeviceList (Itoa (Z.of_nat (length (Channels c)))) (Channels c)));;
        on_device (mkDeviceEvent (dc_DeviceID c) "message" (Some (with_root "Response" answer)))) p) ∧
    (∀ p it, it ∈ Channels c → channelOf (learn_channels (dc_DeviceID c) (default (mkDeviceList [] []) (e_DeviceList answer)) p)
                                 !! it_DeviceID it = Some (dc_DeviceID c)).
Proof.
  intros answer q r Hid Hh Ht Hi Ha Hq Hr.
  assert (in_int sn) as Hsn.
  { unfold envelope_ok in Ha. apply andb_True in Ha as [Ha _]. apply Forall_forallb in Ha. rewrite Forall_forall in Ha.
    apply (Ha (lit "SN", FInt sn)). unfold answer, envelope_fields. cbn [e_SN catalog_response with_list new_Envelope].
    apply elem_of_cons; right; apply elem_of_cons; left. reflexivity. }
  exists (received_request q), (received_request r).
  split_and!; [by apply (ParseMessage_text (MReq q))| |by apply (ParseMessage_text (MReq r))| |].
  - intros d Hd. subst c.
    apply (d_onMessage_parsed _ _ (with_root "Query" (new_Envelope CmdCatalog sn id))); [|done].
    rewrite (received_body _ (BuildQuery (new_Envelope CmdCatalog sn id))) by done. rewrite default_clone_body.
    apply Parse_BuildQuery, query_ok; [by vm_compute|exact Hsn|exact Hi].
  - intros p. unfold onMessage. rewrite (received_body _ (BuildResponse answer)) by reflexivity.
    rewrite default_clone_body, (Parse_BuildResponse answer Ha). unfold r.
    rewrite (answer_from c tag2 call2 b2 f2 _ Hid Hh Ht). reflexivity.
  - intros p it Hit. by apply learn_channels_all.
Qed.
End Exchange.

Definition ex_camera : DeviceConfig :=
  mkDeviceConfig "34020000001320000001" "12345678" "34020000002000000001" "192.168.1.1" 5060 "192.168.1.2" 5060
    60 10 [ex_channel] (mkDeviceInfo [] [] [] []).

Definition ex_query : Request :=
  sent_query (H := ok_sender_ua) ex_platform "34020000001320000001" (mkAddr "udp" "192.168.1.2" 5060) "t1" "c1" "z9hG4bK1" []
    (BuildQuery (new_Envelope CmdCatalog 17 "34020000001320000001")).
Definition ex_answer : Request :=
  sent_answer (H := ok_sender_ua) ex_camera "t2" "c2" "z9hG4bK2" [] (BuildResponse (catalog_response ex_camera 17)).

Lemma catalog_exchange_witness :
  ∃ q' r', ParseMessage (render (MReq ex_query)) = Ok (MReq q') ∧ ParseMessage (render (MReq ex_answer)) = Ok (MReq r') ∧
    ∀ p, channelOf (learn_channels (dc_DeviceID ex_camera) (mkDeviceList "1" [ex_channel]) p) !! it_DeviceID ex_channel =
         Some (dc_DeviceID ex_camera).
Proof.
  pose proof (catalog_exchange (H := ok_sender_ua) (H0 := ex_entropy) (H1 := ex_names) ex_camera ex_platform
    "34020000001320000001" 17 (mkAddr "udp" "192.168.1.2" 5060) "t1" "t2" "c1" "c2" "z9hG4bK1" "z9hG4bK2" [] [] (Some 0)) as Hw.
  cbv zeta in Hw. fold ex_query ex_answer in Hw.
  destruct Hw as (q' & r' & Hq & _ & Hr & _ & Hc); [vm_compute; reflexivity || exact I..|].
  exists q', r'. split; [exact Hq|]. split; [exact Hr|]. intros p. exact (Hc p ex_channel (list_elem_of_here _ _)).
Defined.
