(* ===== verification/Registrar.v ===== *)
(** * What the platform promises: a registrar driven by authenticated requests

    The abstract registrar knows devices, when they last gave a sign of life and the
    channels they own; it moves by challenges, admissions and messages.  Two points
    are left to a [policy]: which name an event has, and which messages renew a
    device's time.  The comments of platform.go describe one policy ([documented]);
    the platform refines the registrar of another ([implemented]): whatever packets it
    gets and whatever its application and its timers do, its tables and the events it
    reported are those of a history of moves, each caused by the packet at its place,
    an admission only by a request with the device's digest.
    [registrar_not_documented] is a run on which the two policies part. *)

From S2P Require Import Prelude GoStrings Uri Headers HeadersMap Message Parser Net Transport Ids Transaction Proc Dialog Digest Sdp Utf8 XmlToken Xml XmlRead XmlRoundTrip Ua UaTheorems Platform Device GbTheorems GbExchange.

(** ** The specification *)

(** Whether a device is registered, when it was heard last, and whose each channel is. *)
Record registrar := mkRegistrar { r_known : gmap str (bool * option Z); r_channels : gmap str str }.

Inductive move :=
| Challenged (id : str)
| Accepted (id : str) (at_ : Z)
| Heard (id : str) (at_ : Z) (e : Envelope).

Definition new_registrar : registrar := mkRegistrar ∅ ∅.

Definition known (r : registrar) (id : str) : bool * option Z := default (false, None) (r_known r !! id).

(** The channels a message tells of. *)
Definition told_channels (e : Envelope) : list str :=
  if e_CmdType e == CmdCatalog then match e_DeviceList e with Some l => map it_DeviceID (dl_Items l) | None => [] end
  else [].

(** What is told of a message, and whether it renews the device's time. *)
Record policy := mkPolicy { event_type : Envelope → str; renews : Envelope → bool }.

(** The comments: the type of a [DeviceEvent] is registered, expired, keepalive or
    alarm, and [IsOnline] says whether the device registered recently, [Expires] being
    the lifetime of a registration. *)
Definition documented : policy :=
  mkPolicy (λ e, if e_CmdType e == CmdKeepalive then lit "keepalive" else if e_CmdType e == lit "Alarm" then lit "alarm" else lit "message")
    (λ _, false).

(** The code: the type of every message is "message", and every message counts. *)
Definition implemented : policy := mkPolicy (λ _, lit "message") (λ _, true).

Definition apply_move (pl : policy) (r : registrar) (m : move) : registrar :=
  match m with
  | Challenged id => mkRegistrar (<[id := known r id]> (r_known r)) (r_channels r)
  | Accepted id t => mkRegistrar (<[id := (true, Some t)]> (r_known r)) (r_channels r)
  | Heard id t e => mkRegistrar (<[id := ((known r id).1, if renews pl e then Some t else (known r id).2)]> (r_known r))
                      (foldl (λ c ch, <[ch := id]> c) (r_channels r) (told_channels e))
  end.

(** What the application is told of a move. *)
Definition move_event (pl : policy) (m : move) : list DeviceEvent :=
  match m with
  | Challenged _ => []
  | Accepted id _ => [mkDeviceEvent id "registered" None]
  | Heard id _ e => [mkDeviceEvent id (event_type pl e) (Some e)]
  end.

(** The time of a move, between two times. *)
Definition timed_within (t0 t1 : Z) (m : move) : Prop :=
  match m with Challenged _ => True | Accepted _ t | Heard _ t _ => (t0 ≤ t ≤ t1)%Z end.

(** A device is online while it is registered and its time was renewed less than
    [expires] seconds ago. *)
Definition r_online (expires now : Z) (r : registrar) (id : str) : bool :=
  match known r id with
  | (true, Some t) => (now - t <? expires * Second)%Z
  | _ => false
  end.

(** ** The refinement *)

Definition registrar_of (p : Platform) : registrar :=
  mkRegistrar ((λ d, (Registered d, LastSeen d)) <$> devices p) (channelOf p).

Section Refinement.
Context `{Sender} `{Entropy} `{XmlNames} (c : PlatformConfig).

(** The request that may cause a move. *)
Definition justifies (req : Request) (m : move) : Prop :=
  match m with
  | Challenged id => from_user req = Some id
  | Accepted id _ => authenticates c id req
  | Heard id _ e => from_user req = Some id ∧ xml_Parse (default [] (Req_body req)) = Ok e
  end.

Definition caused (pkt : Packet) (ms : list move) : Prop :=
  Forall (λ m, ∃ req, Msg pkt = MReq req ∧ justifies req m) ms.

(** [p] is where the moves [ms] lead from [p0], and has told of them. *)
Definition follows (p0 p : Platform) (ms : list move) : Prop :=
  p_cfg p = p_cfg p0 ∧ (p_now p0 ≤ p_now p)%Z ∧ Forall (timed_within (p_now p0) (p_now p)) ms ∧ registrar_of p = foldl (apply_move implemented) (registrar_of p0) ms ∧
  p_events p = p_events p0 ++ mbind (move_event implemented) ms.

Lemma follows_nil p : follows p p [].
Proof. split_and!; [done|lia|done|done|]. by rewrite app_nil_r. Qed.

Lemma follows_app p0 p1 p2 ms ms' : follows p0 p1 ms → follows p1 p2 ms' → follows p0 p2 (ms ++ ms').
Proof.
  intros (A1 & A2 & At & A3 & A4) (B1 & B2 & Bt & B3 & B4). split_and!; [congruence|lia| | |].
  - apply Forall_app. split; [eapply Forall_impl; [exact At|]|eapply Forall_impl; [exact Bt|]];
      intros []; cbn; lia || done.
  - by rewrite foldl_app, B3, A3.
  - by rewrite B4, A4, bind_app, app_assoc.
Qed.

(** A step of the agent moves nothing. *)
Lemma follows_ua p u : follows p (with_ua u p) [].
Proof. split_and!; [done|cbn; lia|done|done|]. cbn. by rewrite app_nil_r. Qed.

Lemma on_ua_inv {A} (m : proc UA A) p a p' : on_ua m p = Ret (a, p') → ∃ u, p' = with_ua u p.
Proof. unfold on_ua, onp. destruct (m (p_ua p)) as [[b u]|]; [|done]. intros [= _ <-]. by exists u. Qed.

Lemma registrar_change id f p :
  registrar_of (change_device id f p) =
  mkRegistrar (<[id := (Registered (f (device p id)), LastSeen (f (device p id)))]> (r_known (registrar_of p))) (channelOf p).
Proof. unfold registrar_of, change_device. cbn [devices channelOf with_devices r_known]. by rewrite fmap_insert. Qed.

Lemma known_device p id : known (registrar_of p) id = (Registered (device p id), LastSeen (device p id)).
Proof. unfold known, registrar_of, device. cbn [r_known]. rewrite lookup_fmap. by destruct (devices p !! id). Qed.

Lemma onRegister_follows req stx p p' :
  p_cfg p = c → onRegister req stx p = Ret ((), p') → ∃ ms, follows p p' ms ∧ Forall (justifies req) ms.
Proof.
  intros Hc. unfold onRegister. destruct (from_user req) as [id|] eqn:Hid; [|done]. rewrite run_asks, Hc. cbv zeta.
  set (auth := ParseAuth _). destruct (_ || _) eqn:Hauth.
  - intros (nonce & p1 & E1 & Hr)%run_inv. apply on_ua_inv in E1 as (u & ->). rewrite run_update in Hr.
    apply run_inv in Hr as (r & p2 & E2 & [= <-]). apply on_ua_inv in E2 as (u' & ->).
    exists [Challenged id]. split; [|by apply Forall_singleton]. split_and!; [done|cbn; lia|by apply Forall_singleton| |cbn; by rewrite app_nil_r].
    change (registrar_of (with_ua u' ?x)) with (registrar_of x). rewrite registrar_change.
    cbn [foldl apply_move]. by rewrite known_device.
  - destruct (p_Password c ≫= λ f, f id) as [password|] eqn:Hpw; [|].
    2: { intros (r & p1 & E & [= <-])%run_inv. apply on_ua_inv in E as (u & ->). exists []. split; [apply follows_ua|done]. }
    destruct (bool_decide_reflect (expected_response c auth password = Response_ auth)) as [He|He]; cbn [negb].
    2: { intros (r & p1 & E & [= <-])%run_inv. apply on_ua_inv in E as (u & ->). exists []. split; [apply follows_ua|done]. }
    rewrite run_asks, run_update. intros ([] & p1 & E & [= <-])%run_inv.
    apply run_inv in E as (r & p2 & E & [= <-]). apply on_ua_inv in E as (u & ->).
    exists [Accepted id (p_now p)]. split.
    + split_and!; [done|cbn; lia|apply Forall_singleton; cbn; lia| |done]. change (registrar_of (with_events ?l (with_ua u ?x))) with (registrar_of x).
      by rewrite registrar_change.
    + apply Forall_singleton. split; [done|]. exists password. split; [done|].
      apply orb_false_iff in Hauth as [Hs Hresp]. by apply bool_decide_eq_false in Hs, Hresp.
Qed.

Lemma onMessage_follows req stx p p' :
  onMessage req stx p = Ret ((), p') → ∃ ms, follows p p' ms ∧ Forall (justifies req) ms.
Proof.
  unfold onMessage. destruct (xml_Parse _) as [e|] eqn:He.
  2: { intros (r & p1 & E & [= <-])%run_inv. apply on_ua_inv in E as (u & ->). exists []. split; [apply follows_ua|done]. }
  intros (r & p1 & E & Hr)%run_inv. apply on_ua_inv in E as (u & ->).
  destruct (from_user req) as [id|] eqn:Hid; [|done]. rewrite run_asks, run_update in Hr.
  exists [Heard id (p_now p) e]. split; [|by apply Forall_singleton].
  assert (∀ q, registrar_of q = mkRegistrar (r_known (registrar_of q)) (channelOf q)) as Heta by done.
  destruct (if e_CmdType e == CmdCatalog then e_DeviceList e else None) as [l|] eqn:El; rewrite ?run_update in Hr.
  - injection Hr as <-. split_and!; [done|cbn; lia|apply Forall_singleton; cbn; lia| |done]. rewrite Heta. cbn [foldl apply_move].
    rewrite known_device. unfold told_channels. case_test; [|done]. rewrite El. f_equal.
    + cbn [registrar_of r_known devices with_events learn_channels with_channels change_device with_devices].
      by rewrite fmap_insert.
    + cbn. unfold learn_channels. cbn. generalize (channelOf p). induction (dl_Items l) as [|x items IH]; intros m; [done|]. cbn. apply IH.
  - injection Hr as <-. split_and!; [done|cbn; lia|apply Forall_singleton; cbn; lia| |done]. rewrite Heta. cbn [foldl apply_move].
    rewrite known_device. unfold told_channels.
    assert ((if e_CmdType e == CmdCatalog then match e_DeviceList e with Some l => map it_DeviceID (dl_Items l) | None => [] end else []) = [])
      as -> by (case_test; [by rewrite El|done]).
    f_equal. cbn. by rewrite fmap_insert.
Qed.

Lemma on_call_follows cl p p' :
  p_cfg p = c → on_call cl p = Ret ((), p') → ∃ ms, follows p p' ms ∧ Forall (justifies (call_request cl)) ms.
Proof.
  intros Hc. destruct cl; cbn [on_call call_request]; try (intros [= <-]; exists []; split; [apply follows_nil|done]).
  - intros [= <-]. exists []. split; [|done]. split_and!; [done|cbn; lia|done|done|]. cbn. by rewrite app_nil_r.
  - by apply onRegister_follows.
  - apply onMessage_follows.
Qed.

Lemma packet_follows pkt p p' :
  p_cfg p = c → Platform_handlePacket pkt p = Ret ((), p') → ∃ ms, follows p p' ms ∧ caused pkt ms.
Proof.
  intros Hc. unfold Platform_handlePacket. rewrite run_asks. intros ([] & p1 & E & Hr)%run_inv. rewrite run_asks in Hr.
  unfold on_ua, onp in E. destruct (UA_handlePacket pkt (p_ua p)) as [[[] u]|] eqn:Eu; [|done]. injection E as <-.
  apply packet_calls in Eu as (l & Hl & Hok). cbn [p_ua with_ua] in Hr. rewrite Hl, drop_app_length in Hr.
  assert (∀ q, p_cfg q = c → each on_call l q = Ret ((), p') → ∃ ms, follows q p' ms ∧ caused pkt ms) as Hgo.
  { clear -Hok. induction Hok as [|cl l Hcl Hok IH]; intros q Hq.
    - intros [= <-]. exists []. split; [apply follows_nil|apply Forall_nil_2].
    - cbn [each]. intros ([] & q1 & E & Hr)%run_inv. apply on_call_follows in E as (ms & Hf & Hj); [|done].
      destruct (IH q1) as (ms' & Hf' & Hj'); [by rewrite (proj1 Hf)|done|]. exists (ms ++ ms').
      split; [by eapply follows_app|]. apply Forall_app. split; [|done].
      eapply Forall_impl; [exact Hj|]. intros m Hm. by exists (call_request cl). }
  destruct (Hgo (with_ua u p) Hc Hr) as (ms & Hf & Hj). exists ms. split; [|done].
  exact (follows_app _ _ _ [] ms (follows_ua p u) Hf).
Qed.

(** The calls of the application and of the timers move nothing. *)
Lemma still_ua {A} p0 (m : proc UA A) : always (λ p, follows p0 p []) (on_ua m).
Proof.
  intros p a p' Hp Hr. apply on_ua_inv in Hr as (u & ->). exact (follows_app _ _ _ [] [] Hp (follows_ua p u)).
Qed.

Lemma still_sn p0 : always (λ p, follows p0 p []) p_nextSN.
Proof.
  unfold p_nextSN. always_auto. apply always_update. intros p Hp. exact Hp.
Qed.

Lemma still_send p0 id body a : always (λ p, follows p0 p []) (p_sendMessage id body a).
Proof. unfold p_sendMessage. always_auto; apply still_ua. Qed.

Lemma still_invite p0 id s : always (λ p, follows p0 p []) (p_invite id s).
Proof. unfold p_invite. always_auto. apply still_ua. Qed.

Lemma step_follows o p p' :
  p_cfg p = c → platform_step o p p' → ∃ ms, follows p p' ms ∧ match o with Some pkt => caused pkt ms | None => ms = [] end.
Proof.
  intros Hc Hs.
  assert (∀ A (m : proc Platform A) p r p', always (λ q, follows p q []) m → m p = Ret (r, p') →
            ∃ ms, follows p p' ms ∧ ms = []) as Hm.
  { intros A m q r q' Hm Er. exists []. split; [|done]. eapply Hm; [apply follows_nil|exact Er]. }
  destruct Hs as [pkt p p' E|id a p r p' E|id a p r p' E|id cmd a p r p' E|id ip port ssrc p r p' E|
                  id ip port ssrc t1 t2 p r p' E|u p|t p Ht]; [by apply packet_follows|eapply Hm; [|exact E]..| |].
  - unfold QueryCatalog. always_auto; [apply still_sn|apply still_send].
  - unfold QueryDeviceInfo. always_auto; [apply still_sn|apply still_send].
  - unfold PTZControl. always_auto; [apply still_sn|apply still_send].
  - unfold InviteLive. always_auto. apply still_invite.
  - unfold InvitePlayback. always_auto. apply still_invite.
  - exists []. split; [apply follows_ua|done].
  - exists []. split; [|done]. split_and!; [done|done|done|done|]. cbn. by rewrite app_nil_r.
Qed.

Lemma IsOnline_registrar p id : IsOnline p id = r_online (Expires (p_cfg p)) (p_now p) (registrar_of p) id.
Proof.
  unfold IsOnline, r_online, known, registrar_of. cbn [r_known]. rewrite lookup_fmap.
  destruct (devices p !! id) as [d|]; [|done]. cbn. by destruct (Registered d), (LastSeen d).
Qed.
End Refinement.

(** C28: a platform refines the registrar of the implemented policy, in which every
    message of a device renews its time and is told as "message".  After any run its
    tables are those of a history of moves from the empty registrar, each caused by the
    packet at its place and none by anything else; the application was told exactly
    what the history tells, in its order; and a device is online by its tables just
    when it is by the specification. *)
Theorem platform_refines_registrar `{Sender} `{Entropy} `{XmlNames} (c : PlatformConfig) (now : Z) (l : list Packet)
  (p : Platform) :
  platform_run c now l p →
  ∃ hs, Forall2 (caused c) l hs ∧ Forall (timed_within now (p_now p)) (concat hs) ∧
    registrar_of p = foldl (apply_move implemented) new_registrar (concat hs) ∧
    p_events p = mbind (move_event implemented) (concat hs) ∧
    ∀ id, IsOnline p id = r_online (Expires c) (p_now p) (foldl (apply_move implemented) new_registrar (concat hs)) id.
Proof.
  intros Hrun.
  assert (∃ hs, Forall2 (caused c) l hs ∧ follows (new_platform c now) p (concat hs)) as (hs & Hhs & Hf).
  { induction Hrun as [|l p o p' Hrun (hs & Hhs & Hf) Hs].
    - exists []. split; [constructor|apply follows_nil].
    - destruct (step_follows c o p p') as (ms & Hf' & Hms); [by rewrite (proj1 Hf)|done|].
      pose proof (follows_app _ _ _ _ _ Hf Hf') as Ha. destruct o as [pkt|].
      + exists (hs ++ [ms]). split; [by apply Forall2_app; [|constructor]|]. rewrite concat_app. cbn [concat]. by rewrite app_nil_r.
      + subst ms. exists hs. rewrite app_nil_r. split; [done|]. by rewrite app_nil_r in Ha. }
  exists hs. destruct Hf as (Hc & _ & Ht & Hr & He). split_and!; [done|exact Ht|exact Hr|exact He|].
  intros id. by rewrite IsOnline_registrar, Hr, Hc.
Qed.

Lemma platform_refines_registrar_witness :
  ∃ p hs, platform_run (H := ok_sender_ua) (H0 := ex_entropy) (H1 := ex_names) ex_platform 0
            [mkPacket (MReq ex_secret) (mkAddr "udp" "192.168.1.2" 5060)] p ∧
    registrar_of p = foldl (apply_move implemented) new_registrar (concat hs) ∧ p_events p = mbind (move_event implemented) (concat hs) ∧
    IsOnline p (dc_DeviceID ex_device) = true.
Proof.
  set (pkt := mkPacket (MReq ex_secret) (mkAddr "udp" "192.168.1.2" 5060)).
  destruct (Platform_handlePacket (H := ok_sender_ua) (H0 := ex_entropy) (H1 := ex_names) pkt (new_platform ex_platform 0))
    as [[[] p]|] eqn:E; [|by vm_compute in E].
  assert (platform_run (H := ok_sender_ua) (H0 := ex_entropy) (H1 := ex_names) ex_platform 0 [pkt] p) as Hrun.
  { apply (run_step (H := ok_sender_ua) (H0 := ex_entropy) (H1 := ex_names) ex_platform 0 [] _ (Some pkt) p (run_new _ _)).
    by constructor. }
  assert (IsOnline p (dc_DeviceID ex_device) = true) as Ho by (vm_compute in E; injection E as <-; vm_compute; reflexivity).
  destruct (platform_refines_registrar (H := ok_sender_ua) (H0 := ex_entropy) (H1 := ex_names) ex_platform 0 [pkt] p Hrun)
    as (hs & _ & _ & Hr & He & _).
  exists p, hs. split; [exact Hrun|]. split; [exact Hr|]. split; [exact He|exact Ho].
Defined.

(** A device registers at the start, sends one keepalive before its registration is
    over, and then nothing: past the lifetime of the registration the platform has it
    online, and its application was told of a message, where the comments say the
    device is offline and the event a keepalive. *)
Definition ex_keepalive : Request :=
  received_request (sent_answer (H := ok_sender_ua) ex_device "t3" "c3" "z9hG4bK3" []
    (BuildNotify (with_SeqNum 1 (new_Envelope CmdKeepalive 1 (dc_DeviceID ex_device))))).

Definition at_time (t : Z) (p : outcome Platform) : outcome Platform :=
  match p with Ret p => Ret (with_time t p) | Panic => Panic end.

Definition ex_hour : outcome Platform :=
  at_time (5000 * Second) (platform_receive "192.168.1.2" ex_keepalive
    (at_time (3000 * Second) (platform_receive "192.168.1.2" ex_secret (Ret (new_platform ex_platform 0))))).

Lemma registrar_not_documented :
  ∃ p e, ex_hour = Ret p ∧
    let h := [Accepted (dc_DeviceID ex_device) 0; Heard (dc_DeviceID ex_device) (3000 * Second) e] in
    registrar_of p = foldl (apply_move implemented) new_registrar h ∧ p_events p = mbind (move_event implemented) h ∧
    IsOnline p (dc_DeviceID ex_device) = true ∧
    r_online (Expires ex_platform) (p_now p) (foldl (apply_move documented) new_registrar h) (dc_DeviceID ex_device) = false ∧
    map ev_Type (p_events p) = [lit "registered"; lit "message"] ∧
    map ev_Type (mbind (move_event documented) h) = [lit "registered"; lit "keepalive"].
Proof.
  destruct ex_hour as [p|] eqn:E; [|by vm_compute in E].
  destruct (xml_Parse (H := ex_names) (default [] (Req_body ex_keepalive))) as [e|] eqn:Ee; [|by vm_compute in Ee].
  exists p, e. split; [done|]. vm_compute in E. injection E as <-. vm_compute in Ee. injection Ee as <-.
  split_and!; by vm_compute.
Qed.
