(* ===== verification/TextTheorems.v ===== *)
(** * Theorems of the text layer

    What parameters, URIs, headers, whole messages and TCP streams promise.  Each
    theorem is followed by a witness when it has hypotheses. *)

From S2P Require Import Prelude GoStrings Utf8 Params Uri Headers HeadersMap Message Parser Injection Stream Transport Reader.

(** ** Concrete values for the witnesses *)

Definition ex_uri : Uri := mkUri "sip" "34020000001320000001" [] "192.168.1.10" 5060 None None.

Definition ex_address (tag : str) : Address :=
  mkAddress "Cam 1" true (Some ex_uri) (if tag == [] then None else Some [mkParam "tag" tag true]).

Definition ex_via : Via :=
  mkVia "SIP/2.0/UDP" "UDP" "10.0.0.2" 5060 (Some [mkParam "branch" "z9hG4bK-7" true; mkParam "rport" [] false]).

Definition ex_auth : Auth :=
  mkAuth "Digest" "alice" "3402000000" "n0nce" "sip:34020000002000000001@3402000000" "d41d8cd9" [] [] [] "MD5" []
    (Some []).

Definition ex_headers : Headers :=
  [HVia ex_via; HMaxForwards 70;
   HNameAddr (mkNameAddrList "From" [ex_address "a1"] false);
   HNameAddr (mkNameAddrList "To" [ex_address ""] false);
   HGeneric "Call-ID" "call-1@10.0.0.2"; HCSeq (mkCSeq 20 "MESSAGE"); HAuth ex_auth "Authorization"].

Definition ex_body : str := "<?xml version='1.0'?>" ++ CRLF ++ "<Query/>" ++ CRLF.

Definition ex_request : Message := MReq (mkRequest MESSAGE (Some ex_uri) SipVersion ex_headers (Some ex_body)).
Definition ex_response : Message := MResp (mkResponse 200 "OK: fine" SipVersion ex_headers None).

(** ** Whole messages *)

(** C1: parsing what [render] writes gives the message back: the start line, every
    header in its order and its type, and the body; [framed] adds the
    Content-Length that [render] writes when the message has none.  Well-formed
    messages are those whose parts the grammar can carry, within the limits. *)
Theorem message_round_trip (m : Message) : wf_message m → ParseMessage (render m) = Ok (framed m).
Proof. apply ParseMessage_render. Qed.

Lemma message_round_trip_witness :
  wf_message ex_request = true ∧ ParseMessage (render ex_request) = Ok (framed ex_request).
Proof. split; [by vm_compute|]. apply message_round_trip. by vm_compute. Defined.

(** C2: messages rendered one after the other on a connection, read in pieces of
    any size (empty reads included), are handed over by the connection's read loop
    one by one, each parsed to what was sent and under the address of the peer,
    while the connection stays registered and is read on. *)
Theorem stream_reassembly (fuel B : nat) (p : Pool) (c : nat) (conn : Conn) (now : Z) (chunks : list str) (ms : list Message) :
  forallb wf_message ms → Forall (λ m, length (render m) ≤ B) ms →
  Forall (λ c, (Z.of_nat (B + length c) ≤ MaxMessageSize)%Z) chunks → length ms < fuel →
  concat chunks = concat (map render ms) →
  readTCP fuel (λ _, true) p c conn now (map (λ c, (c, false)) chunks) =
  Some (Ret (map (λ m, mkPacket (framed m) (conn_src conn)) ms, register p c now)).
Proof.
  intros Hms HB Hch Hf H. unfold readTCP. rewrite (read_loop_frames fuel B 0 _ _ (map render ms) []).
  - by rewrite packets_of_render.
  - apply Forall_forallb in Hms. apply Forall_map. eapply Forall_impl; [exact Hms|]. apply frame_render.
  - by apply Forall_map.
  - done.
  - simpl. lia.
  - done.
  - by rewrite length_map.
  - by rewrite app_nil_r.
Qed.

(** The stream of a request and a response, cut inside a line, a header name and
    the body. *)
Definition ex_stream : str := render ex_request ++ render ex_response.
Definition ex_chunks : list str :=
  [take 30 ex_stream; []; take 400 (drop 30 ex_stream); drop 430 ex_stream].

Definition ex_stream_conn : Conn := mkConn "192.168.1.64" 5060 false false.

Lemma stream_reassembly_witness :
  let p := new_pool 0 0 {[1 := ex_stream_conn]} in
  readTCP 3 (λ _, true) p 1 ex_stream_conn 0 (map (λ c, (c, false)) ex_chunks) =
  Some (Ret (map (λ m, mkPacket (framed m) (conn_src ex_stream_conn)) [ex_request; ex_response], register p 1 0)).
Proof.
  intros p. apply (stream_reassembly 3 1000); [by vm_compute| | |simpl; lia|by vm_compute].
  - repeat match goal with |- Forall _ _ => constructor end; apply Nat.leb_le; by vm_compute.
  - repeat match goal with |- Forall _ _ => constructor end; apply Z.leb_le; by vm_compute.
Defined.

(** C3: whatever bytes came in, a parsed message renders each of its headers on
    one line under its canonical name, and its start line holds no line feed (and
    no carriage return either, for a request): relaying a message cannot inject
    headers. *)
Theorem parsed_message_injects_nothing (data : str) (m : Message) :
  ParseMessage data = Ok m → Forall parsed_header (msg_headers m) ∧ start_line_ok m.
Proof. intros H. apply ParseMessage_ok in H as (_ & (Hh & _) & Hs). done. Qed.

Lemma parsed_message_injects_nothing_witness :
  ∃ m, ParseMessage ex_register = Ok m ∧ Forall parsed_header (msg_headers m) ∧ start_line_ok m.
Proof.
  eexists. split; [vm_compute; reflexivity|]. apply (parsed_message_injects_nothing ex_register). by vm_compute.
Defined.

(** C4: a parsed message passes [Validate] (the five mandatory headers, a method
    and a host, or a status from 100 to 699), has at most 128 headers, and its body
    is exactly as long as its last Content-Length says, at most 64 KiB. *)
Theorem parsed_message_limits (data : str) (m : Message) :
  ParseMessage data = Ok m →
  msg_valid m ∧ length (msg_headers m) ≤ maxHeaderLines ∧
  Z.of_nat (length (msg_body m)) = Z.max 0 (last_length (-1) (msg_headers m)) ∧
  (Z.of_nat (length (msg_body m)) ≤ MaxBodySize)%Z.
Proof.
  intros H. apply ParseMessage_ok in H as (Hv & (_ & Hn & Hl & Hb) & _).
  by destruct m; split_and!.
Qed.

Lemma parsed_message_limits_witness :
  ∃ m, ParseMessage ex_register = Ok m ∧ Z.of_nat (length (msg_body m)) = 3%Z ∧ msg_valid m.
Proof.
  eexists. split; [vm_compute; reflexivity|].
  pose proof (parsed_message_limits ex_register _ ltac:(vm_compute; reflexivity)) as (Hv & _ & Hl & _).
  split; [exact Hl|exact Hv].
Defined.

(** C5: the header loop returns for every input, within one round more than the
    limit on header lines. *)
Theorem header_loop_returns (reader : str) :
  ∃ r, header_loop header_fuel (mkBlock reader [] (-1) 0) = Some r.
Proof. apply header_loop_total. Qed.

(** C6: [Feed] returns within one round per buffered byte, except when a message
    of no bytes is cut off its buffer (which takes a negative Content-Length). *)
Theorem feed_returns (fuel : nat) (buf : str) (out : list str) :
  length buf < fuel → feed_loop fuel buf out = None →
  ∃ a b, buf = a ++ b ∧ splitOne b = Ret (Ok (Some ([], b))).
Proof. apply feed_loop_stuck. Qed.

Lemma feed_returns_witness :
  ∃ a b, lit "l: -9" ++ CRLF2 = a ++ b ∧ splitOne b = Ret (Ok (Some ([], b))).
Proof. apply (feed_returns 10 _ []); [by vm_compute; lia|by vm_compute]. Defined.

(** C7: the reads that bring a byte stream do not matter.  Whatever bytes a peer
    sends, when they split without error as one buffer and every message holds its
    whole head (no negative Content-Length), every way to cut them into reads
    hands over the same packets: the parsed messages, in order. *)
Theorem segmentation_invisible (fuel whole B : nat) (p : Pool) (c : nat) (conn : Conn) (now : Z)
    (chunks out : list str) (rest : str) :
  feed_loop whole (concat chunks) [] = Some (Ret (mkFed rest out None)) →
  Forall (λ m, Index m CRLF2 ≠ None) out → Forall (λ m, length m ≤ B) (rest :: out) →
  Forall (λ c, (Z.of_nat (B + length c) ≤ MaxMessageSize)%Z) chunks → length out < fuel →
  readTCP fuel (λ _, true) p c conn now (map (λ c, (c, false)) chunks) =
  Some (Ret (packets_of (conn_src conn) out, register p c now)).
Proof.
  intros (ms & -> & Hs & Hq & Hfr)%feed_loop_out Hh [HqB HB]%Forall_cons Hch Hf. cbn [app] in *.
  unfold readTCP. by rewrite (read_loop_frames fuel B 0 _ _ ms rest) by auto.
Qed.

(** A keepalive, a request, a head that is no message, and the start of another. *)
Lemma segmentation_invisible_witness :
  let s := CRLF2 ++ render ex_request ++ "GET / HTTP/1.0" ++ CRLF2 ++ "SIP/2.0 200" in
  let p := new_pool 0 0 {[1 := ex_stream_conn]} in
  readTCP 4 (λ _, true) p 1 ex_stream_conn 0 (map (λ c, (c, false)) [take 3 s; drop 3 s]) =
  Some (Ret ([mkPacket (framed ex_request) (conn_src ex_stream_conn)], register p 1 0)).
Proof.
  intros s p. rewrite (segmentation_invisible 4 4 1000 p 1 ex_stream_conn 0 [take 3 s; drop 3 s]
    [CRLF2; render ex_request; lit "GET / HTTP/1.0" ++ CRLF2] "SIP/2.0 200").
  - vm_compute. reflexivity.
  - vm_compute. reflexivity.
  - repeat constructor; by vm_compute.
  - repeat match goal with |- Forall _ _ => constructor end; apply Nat.leb_le; by vm_compute.
  - repeat match goal with |- Forall _ _ => constructor end; apply Z.leb_le; by vm_compute.
  - simpl. lia.
Defined.

(** ** URIs and parameters *)

(** A parameter list reads back from its rendering, quoted values included. *)
Theorem params_round_trip (p : Params) : wf_params p → ParseParams (Params_String (Some p)) = Ok p.
Proof. apply ParseParams_String. Qed.

Lemma params_round_trip_witness :
  let p := [mkParam "branch" "z9hG4bK 1; x,y" true; mkParam "lr" [] false] in
  ParseParams (Params_String (Some p)) = Ok p.
Proof. apply params_round_trip. by vm_compute. Defined.

(** C8: a URI reads back from its rendering: scheme, user information, host (an
    IPv6 literal in brackets included), port, parameters and headers. *)
Theorem uri_round_trip (u : Uri) : wf_uri u → ParseUri (uri_String u) = Ok u.
Proof. apply ParseUri_uri_String. Qed.

Lemma uri_round_trip_witness : ParseUri (uri_String u_ex) = Ok u_ex.
Proof. apply uri_round_trip. by vm_compute. Defined.

(** C9: every URI the parser returns is valid: a known scheme, a host that is not
    empty, trimmed, and holds a colon only in brackets, a port in the range of
    [int], and parameter names that are lower case and distinct. *)
Theorem parsed_uri_valid (s : str) (u : Uri) : ParseUri s = Ok u → uri_valid u.
Proof. apply ParseUri_inv. Qed.

Lemma parsed_uri_valid_witness :
  uri_valid (mkUri "sip" "bob" [] "[::1]" 5070 (Some [mkParam "transport" "TCP" true]) None).
Proof. apply (parsed_uri_valid " SIP:bob@[::1]:5070;Transport=TCP"). by vm_compute. Defined.

(** User and host are text of ASCII, on which folding case is folding bytes. *)
Definition uri_ascii (u : Uri) : bool := all is_ascii (Uri_User u) && all is_ascii (Uri_Host u).

(** C10: [Equal] compares canonical URIs, for users and hosts in ASCII: each URI is
    equal to its canonical form, which has the scheme and the port, the user and the
    host in lower case, the six compared parameters with their values, and nothing
    else; and two URIs are equal exactly when their canonical forms are the same.  So
    it is an equivalence that looks at all of these and at nothing else. *)
Theorem uri_equal_canonical (u o : Uri) :
  uri_ascii u → uri_ascii o →
  Uri_Equal (Some u) (Some (uri_canonical u)) ∧
  (Uri_Equal (Some u) (Some o) ↔ uri_canonical u = uri_canonical o).
Proof.
  intros _ _. rewrite !Uri_Equal_key, canonical_key. split; [by apply bool_decide_pack|].
  rewrite <-canonical_iff. by rewrite bool_decide_spec.
Qed.

(** The same but for case, password and headers, another transport parameter, and
    another host. *)
Definition u_like (host transport : str) : Uri :=
  mkUri "sip" "Alice" "x" host 5080 (Some [mkParam "maddr" "10.0.0.1" true; mkParam "transport" transport true]) None.
Definition u_base : Uri :=
  mkUri "sip" "alice" [] "example.com" 5080 (Some [mkParam "transport" "tcp" true; mkParam "maddr" "10.0.0.1" true]) None.

Lemma uri_equal_canonical_witness :
  Uri_Equal (Some u_base) (Some (u_like "Example.COM" "tcp")) ∧
  ¬ Uri_Equal (Some u_base) (Some (u_like "Example.COM" "udp")) ∧
  ¬ Uri_Equal (Some u_base) (Some (u_like "example.org" "tcp")).
Proof.
  split_and!.
  - apply (uri_equal_canonical u_base (u_like "Example.COM" "tcp")); by vm_compute.
  - intros E. apply (uri_equal_canonical u_base (u_like "Example.COM" "udp")) in E; [|by vm_compute..]. by vm_compute in E.
  - intros E. apply (uri_equal_canonical u_base (u_like "example.org" "tcp")) in E; [|by vm_compute..]. by vm_compute in E.
Defined.

(** The flag [lr] is in the list, but [Get] reports a flag like a parameter that is
    not there. *)
Lemma equal_misses_flag :
  ∃ u o, ParseUri "sip:example.com;lr" = Ok u ∧ ParseUri "sip:example.com" = Ok o ∧ Uri_Equal (Some u) (Some o) ∧
         Params_Has (Uri_Params u) "lr" = true ∧ Params_Has (Uri_Params o) "lr" = false.
Proof. eexists _, _. split_and!; [vm_compute; reflexivity..|by vm_compute|by vm_compute|by vm_compute]. Qed.

(** C11: rendering a URI never writes a carriage return, a line feed or a NUL, so
    no component of it can break out of its line. *)
Theorem uri_renders_safe (u : Uri) : all safe_byte (uri_String u).
Proof. apply uri_String_safe. Qed.

(** ** Headers *)

(** C12: a typed header reads back from its name and value, for every kind of
    header the parser builds: Via, CSeq, Content-Length, Max-Forwards, the
    address lists, the authentication headers and the generic ones. *)
Theorem typed_header_round_trip (h : Header) :
  wf_header_data h → newTypedHeader (Header_Name h) (Header_Value h) = h.
Proof. apply newTypedHeader_Value. Qed.

Lemma typed_header_round_trip_witness :
  Forall (λ h, newTypedHeader (Header_Name h) (Header_Value h) = h) ex_headers.
Proof.
  unfold ex_headers.
  repeat (apply List.Forall_cons; [apply typed_header_round_trip; by vm_compute|]). apply List.Forall_nil.
Defined.

(** C13: canonical names of ASCII text are a normal form, blind to case and outer
    blanks, so a header is found under every spelling of its name, short forms
    included. *)
Theorem canonical_names (name : str) :
  all is_ascii name →
  CanonicalName (CanonicalName name) = CanonicalName name ∧
  CanonicalName (ToLower name) = CanonicalName name ∧
  CanonicalName (TrimSpace name) = CanonicalName name ∧
  ∀ h : Headers, Headers_Get h (ToLower name) = Headers_Get h name.
Proof.
  intros _. split_and!; [apply CanonicalName_idem|apply CanonicalName_lower|apply CanonicalName_trim|].
  intros h. apply Headers_Get_proper; [done|]. apply ToLower_idem.
Qed.

Lemma canonical_names_witness :
  CanonicalName (CanonicalName " x-gb-Ver ") = lit "X-Gb-Ver" ∧ CanonicalName "L" = lit "Content-Length" ∧
  ∀ h : Headers, Headers_Get h "content-type" = Headers_Get h "Content-Type".
Proof.
  split_and!.
  - transitivity (CanonicalName " x-gb-Ver "); [|by vm_compute]. by apply (canonical_names " x-gb-Ver ").
  - by vm_compute.
  - by apply (canonical_names "Content-Type").
Defined.

(** C14: [Set], with its loop that deletes while it walks the list, replaces the
    first header of the name in place, removes the later ones, and leaves the
    headers of other names as they were; an absent name goes to the end. *)
Theorem headers_set (h : Headers) (hdr : Header) :
  (∀ name, Headers_All (Headers_Set h hdr) name =
           if CanonicalName name == cname hdr then [hdr] else Headers_All h name) ∧
  ((Headers_Get h (Header_Name hdr) = None ∧ Headers_Set h hdr = h ++ [hdr]) ∨
   ∃ a x b, h = a ++ x :: b ∧ cname x = cname hdr ∧ Forall (λ y, cname y ≠ cname hdr) a ∧
            Headers_Set h hdr = a ++ hdr :: List.filter (λ y, cname y != cname hdr) b).
Proof. split; [intros name; apply Headers_All_Set|apply Headers_Set_split]. Qed.

(** C15: [SetBody] keeps the Content-Length and the Content-Type in step with the
    body: with a body the only Content-Length is its length, and the only
    Content-Type the one given (the old ones stay when none is given); without one
    there is neither; and no other header changes. *)
Theorem set_body_headers_spec (r : Request) (ct : str) (body : option str) (name : str) :
  let r' := Request_SetBody r ct body in
  let h := Req_headers r' in
  Req_body r' = body ∧
  Headers_All h "Content-Length" =
    match body with Some b => [HContentLength (Z.of_nat (length b) mod 2 ^ 32)] | None => [] end ∧
  Headers_All h "Content-Type" =
    match body with
    | Some _ => if ct == [] then Headers_All (Req_headers r) "Content-Type" else [HGeneric "Content-Type" ct]
    | None => []
    end ∧
  (CanonicalName name ∉ [lit "Content-Length"; lit "Content-Type"] →
   Headers_All h name = Headers_All (Req_headers r) name).
Proof.
  cbv zeta. cbn [Req_headers Req_body Request_SetBody]. split; [done|]. split; [|split; [|apply set_body_all]];
    unfold set_body_headers, content_length_of; (destruct body as [b|]; [destruct (decide (ct = [])) as [->|Hct]|]);
    rewrite ?(bool_decide_false (ct = [])), ?(bool_decide_true (@nil ascii = [])) by done; cbn [negb];
    autorewrite with headers; reflexivity.
Qed.

Lemma set_body_headers_spec_witness :
  let r := mkRequest MESSAGE (Some ex_uri) SipVersion ex_headers None in
  Headers_All (Req_headers (Request_SetBody r "text/plain" (Some ex_body))) "f" = Headers_All ex_headers "From".
Proof.
  intros r. apply (set_body_headers_spec r "text/plain" (Some ex_body) "f").
  apply (bool_decide_unpack _). by vm_compute.
Defined.

(** ** Where a round trip fails *)

(** A value that ends in a backslash and needs quotes: the closing quote is read
    as escaped, and the next parameter becomes part of the value. *)
Definition ex_backslash : Params := [mkParam "a" ("x;" ++ [BSLASH]) true; mkParam "b" "y" true].

(** [escapeParam] does not escape the backslash that [splitParamList] reads as an
    escape: two parameters are rendered, one is read back. *)
Lemma params_backslash_lost :
  ∃ p, ParseParams (Params_String (Some ex_backslash)) = Ok p ∧ length p = 1.
Proof. eexists. split; [by vm_compute|done]. Qed.

(** The wildcard contact renders as nothing. *)
Lemma wildcard_contact_lost :
  ∃ l, ParseNameAddrList "*" = Ok l ∧ All l = true ∧ NameAddrList_Value l = [].
Proof. eexists. split; [by vm_compute|done]. Qed.

(** A negative Content-Length in the stream: [Feed] never returns, or panics. *)
Lemma feed_negative_length fuel : Feed fuel [] ("l: -9" ++ CRLF2) = None ∧ Feed 1 [] ("l: -11" ++ CRLF2) = Some Panic.
Proof. split; [apply feed_negative|by vm_compute]. Qed.

(** The splitter and the parser read a signed Content-Length differently: five
    bytes are framed as body that the parser does not count. *)
Lemma framing_disagrees :
  ∃ m, splitOne ("l: +5" ++ CRLF2 ++ "hello") = Ret (Ok (Some (m, []))) ∧
       newTypedHeader "Content-Length" "+5" = HGeneric "Content-Length" "+5".
Proof. eexists. split; by vm_compute. Qed.

(** A reason phrase keeps a bare carriage return, which a header line may not. *)
Lemma reason_keeps_cr :
  ∃ m, ParseMessage ("SIP/2.0 200 O" ++ [CR] ++ "K" ++ CRLF ++ "v: SIP/2.0/UDP h" ++ CRLF ++ "f: <sip:a@b>" ++ CRLF ++
                     "t: <sip:a@b>" ++ CRLF ++ "i: 1" ++ CRLF ++ "CSeq: 1 BYE" ++ CRLF2) = Ok m ∧
       CR ∈ StartLine m.
Proof. eexists. split; [vm_compute; reflexivity|]. apply (bool_decide_unpack _). by vm_compute. Qed.
