(* ===== verification/TxTheorems.v ===== *)
(** * Theorems of the transport and transaction layers

    Invariants and refinement of the transaction manager, what it does on
    retransmissions, forged CANCELs and repeated responses, the end of the
    retransmission timers, and the schedules in which it goes wrong. *)

From S2P Require Import Prelude GoStrings Params Uri Headers HeadersMap Message Net Transport Ids Transaction TxMachines TxInvariants TxOnce TxTimers TxRefinement TxLiveness TxSchedule.

(** ** Concrete values for the witnesses *)

(** A transport whose sends all succeed, and one whose sends all fail. *)
Definition ok_sender : Sender := mkSender true true false (λ _ _ _ _, Ok ()).
Definition bad_sender : Sender := mkSender true true false (λ _ _ _ _, Err ErrOther).

Definition tx_uri : Uri := mkUri "sip" "bob" [] "10.0.0.9" 5060 None None.
Definition tx_addr (host : str) : Addr := mkAddr "udp" host 5060.

Definition tx_headers (method : Method) (branch : str) : Headers :=
  [HVia (SetBranch (mkVia "SIP/2.0/UDP" "UDP" "10.0.0.1" 5060 None) branch);
   HGeneric "From" "<sip:alice@a>;tag=1"; HGeneric "To" "<sip:bob@b>"; HGeneric "Call-ID" "c1";
   HCSeq (mkCSeq 1 method)].

Definition tx_request (method : Method) : Request :=
  mkRequest method (Some tx_uri) SipVersion (tx_headers method "z9hG4bK1") None.

Definition tx_response (code : Z) (method : Method) : Response :=
  resp_with_headers (NewResponse code []) (tx_headers method "z9hG4bK1").

Definition tx_pkt (method : Method) : label := LPacket (mkPacket (MReq (tx_request method)) (tx_addr "10.0.0.1")).
Definition tx_answer (code : Z) (method : Method) : label :=
  LPacket (mkPacket (MResp (tx_response code method)) (tx_addr "10.0.0.9")).
Definition tx_call (method : Method) : label := LRequest (tx_request method) (tx_addr "10.0.0.9") [] [].

Definition tx_start : TxManager := NewTxManager "10.0.0.1" 5060.
Definition tx_run (ls : list label) : TxManager := run (H := ok_sender) tx_start ls.

Definition client_state (m : TxManager) (p : nat) : option TxState :=
  match heap m !! p with Some (CTx t) => Some (c_state t) | _ => None end.

Lemma run_reachable (S : Sender) vh vp ls : reachable (H := S) vh vp (run (H := S) (NewTxManager vh vp) ls).
Proof.
  unfold run. assert (∀ m, reachable (H := S) vh vp m → reachable (H := S) vh vp (fold_left (exec (H := S)) ls m)) as E.
  { induction ls as [|l ls IH]; intros m Hm; [done|]. apply IH. by constructor. }
  apply E. constructor.
Qed.

(** ** Invariants *)

(** C16: in every reachable state the table and the store of transactions agree
    (an entry names an object with that key), every client and server is in a
    state its kind has, a server is Completed or Confirmed exactly when it has a
    final response, only an INVITE is Confirmed, the event channel is within its
    capacity, and no transaction is ever Terminated. *)
Theorem reachable_consistent (S : Sender) (vh : str) (vp : Z) (m : TxManager) :
  reachable (H := S) vh vp m →
  tx_inv m ∧ ∀ p t, heap m !! p = Some t → Tx_State t ≠ TxStateTerminated.
Proof.
  intros Hm. apply reachable_inv in Hm. split; [done|]. intros p t Hp. apply Hm in Hp as [_ Hok].
  destruct t as [t|t]; simpl in *.
  - destruct Hok as (_ & Hs & _). intros E. rewrite E in Hs. revert Hs. apply (bool_decide_unpack _). by vm_compute.
  - destruct Hok as (_ & _ & Hs). by destruct (s_state t).
Qed.

Lemma reachable_consistent_witness : tx_inv (tx_run [tx_pkt INVITE; LRespond 0 (tx_response 486 INVITE); tx_pkt ACK]).
Proof. apply (reachable_consistent ok_sender "10.0.0.1" 5060). apply run_reachable. Defined.



(** C18: a server transaction never goes back: over any schedule it keeps its
    request, key and source, its state only advances (Proceeding, Completed,
    Confirmed), and its final response is never replaced. *)
Theorem server_never_goes_back (S : Sender) (vh : str) (vp : Z) (m : TxManager) (ls : list label) (p : nat) (t : ServerTx) :
  reachable (H := S) vh vp m → heap m !! p = Some (STx t) →
  ∃ t', heap (run (H := S) m ls) !! p = Some (STx t') ∧ server_le t t'.
Proof.
  intros Hm Hp. apply reachable_inv in Hm. destruct (run_server m ls p t Hm Hp) as (t' & ? & _ & ?). by exists t'.
Qed.

Lemma server_never_goes_back_witness :
  ∃ t t', heap (tx_run [tx_pkt INVITE]) !! 0 = Some (STx t) ∧
          heap (tx_run [tx_pkt INVITE; LRespond 0 (tx_response 486 INVITE); tx_pkt ACK]) !! 0 = Some (STx t') ∧
          server_le t t'.
Proof.
  destruct (heap (tx_run [tx_pkt INVITE]) !! 0) as [[t|t]|] eqn:E; [by vm_compute in E| |by vm_compute in E].
  destruct (server_never_goes_back ok_sender "10.0.0.1" 5060 (tx_run [tx_pkt INVITE])
              [LRespond 0 (tx_response 486 INVITE); tx_pkt ACK] 0 t (run_reachable _ _ _ _) E) as (t' & Ht' & Hle).
  exists t, t'. split_and!; [done|exact Ht'|exact Hle].
Defined.


(** An INVITE answered 180, then 486 twice. *)
Definition tx_busy : list label :=
  [tx_call INVITE; tx_answer 180 INVITE; tx_answer 486 INVITE; tx_answer 486 INVITE].


Example tx_busy_outcomes : outcomes 0 (tx_run tx_busy) = 1.
Proof. by vm_compute. Qed.

(** The schedules left out.  An INVITE whose time is over passes the test of
    [timeout]; before it goes on, the 200 is handled and delivered; then the timeout
    is delivered too, and the transaction, which was to linger for late responses, is
    finished. *)
Definition tx_overdue : list label :=
  [LConfig (mkTxConfig Second Second Second Second Second); tx_call INVITE; LTick Second].

Lemma late_timeout_two_outcomes :
  outcomes 0 (tx_run (tx_overdue ++ [LExpire 0; tx_answer 200 INVITE; LTimedOut 0])) = 2 ∧
  outcomes 0 (tx_run (tx_overdue ++ [LFire 0; tx_answer 200 INVITE])) = 1.
Proof. split; by vm_compute. Qed.

(** ** Requests in an existing transaction *)

(** What resending the final response adds to the trace. *)
Definition resent (S : Sender) (t : ServerTx) (m : TxManager) : list effect :=
  match s_final t with
  | Some f => if ((s_state t == TxStateCompleted) || (s_state t == TxStateConfirmed)) && tp_set then
                let a := route (MResp f) (s_src t) in
                [ESend (MResp f) a (is_ok (tp_Send (length (trace m)) (Network a) a (MResp f)))]
              else []
  | None => []
  end.

Lemma with_trace_nil m : with_trace (trace m ++ []) m = m.
Proof. rewrite app_nil_r. by destruct m. Qed.

(** C20: a retransmitted request is absorbed: no callback runs, no transaction
    or timer is made; the final response is sent again when there is one. *)
Theorem retransmission_absorbed (S : Sender) (m : TxManager) (req : Request) (src : Addr) (p : nat) (t : ServerTx) :
  cseq_method (Req_headers req) ∉ [ACK; CANCEL] →
  txs m !! serverTxKey req = Some p → heap m !! p = Some (STx t) →
  snd (handleRequest (H := S) req src m) = with_trace (trace m ++ resent S t m) m.
Proof.
  intros Hm Hk Hp. unfold handleRequest. rewrite !bool_decide_false by set_solver.
  unfold lookup_server. unfold mbind at 1, state_bind at 1. cbn [mret state_ret].
  rewrite run_gets. rewrite Hk. simpl. rewrite Hp. unfold receiveRetransmission, get_server. rewrite run_gets, Hp.
  unfold resent. destruct (s_final t) as [f|]; [|by rewrite with_trace_nil].
  destruct (_ || _); [|by rewrite with_trace_nil]. unfold send.
  destruct tp_set; [done|by rewrite with_trace_nil].
Qed.

Lemma retransmission_absorbed_witness :
  let m := tx_run [tx_pkt MESSAGE; LRespond 0 (tx_response 200 MESSAGE)] in
  ∃ t, snd (handleRequest (H := ok_sender) (tx_request MESSAGE) (tx_addr "10.0.0.1") m)
       = with_trace (trace m ++ resent ok_sender t m) m.
Proof.
  intros m. destruct (heap m !! 0) as [[t|t]|] eqn:E; [by vm_compute in E| |by vm_compute in E]. exists t.
  apply (retransmission_absorbed ok_sender m _ _ 0 t); [|by vm_compute|exact E].
  apply (bool_decide_unpack _). by vm_compute.
Defined.

(** C21: a CANCEL from another address than the INVITE it names changes nothing:
    it is reported as an error and neither reaches the INVITE nor the handler. *)
Theorem forged_cancel_dropped (S : Sender) (m : TxManager) (req : Request) (src : Addr) (p : nat) (t : ServerTx) :
  cseq_method (Req_headers req) = CANCEL →
  txs m !! inviteKey req = Some p → heap m !! p = Some (STx t) → sameAddr src (s_src t) = false →
  snd (handleRequest (H := S) req src m) = with_trace (trace m ++ [EOnError ErrTxNotFound src]) m.
Proof.
  intros Hc Hk Hp Hs. unfold handleRequest. rewrite Hc.
  rewrite (bool_decide_false (CANCEL = ACK)), (bool_decide_true (CANCEL = CANCEL)) by done.
  unfold lookup_server, get_server. unfold mbind at 1, state_bind at 1. rewrite run_gets, Hk. simpl.
  by rewrite Hp, run_gets, Hp, Hs.
Qed.

Lemma forged_cancel_dropped_witness :
  let m := tx_run [tx_pkt INVITE] in
  snd (handleRequest (H := ok_sender) (tx_request CANCEL) (tx_addr "10.6.6.6") m)
  = with_trace (trace m ++ [EOnError ErrTxNotFound (tx_addr "10.6.6.6")]) m.
Proof.
  intros m. destruct (heap m !! 0) as [[t|t]|] eqn:E; [by vm_compute in E| |by vm_compute in E].
  apply (forged_cancel_dropped ok_sender m _ _ 0 t); [by vm_compute..|exact E|].
  vm_compute in E. injection E as <-. by vm_compute.
Defined.

(** Once a server transaction has its final response, [Respond] sends nothing
    more and changes nothing: a status out of range is refused, a provisional
    response fails, another final one is silently dropped. *)
Theorem respond_after_final (S : Sender) (vh : str) (vp : Z) (m : TxManager) (p : nat) (t : ServerTx) (f r : Response) :
  reachable (H := S) vh vp m → heap m !! p = Some (STx t) → s_final t = Some f →
  Respond (H := S) p r m =
    (if (StatusCode r <? 100)%Z || (699 <? StatusCode r)%Z then Err ErrInvalidResponse
     else if (StatusCode r <? 200)%Z then Err ErrTxTerminated else Ok (), m).
Proof.
  intros Hm Hp Hf. apply reachable_inv in Hm. pose proof (inv_heap _ Hm p _ Hp) as [_ (_ & _ & Hs)]. rewrite Hf in Hs.
  unfold Respond, get_server. rewrite run_gets, Hp, run_gets. cbv zeta. rewrite fill_response_status.
  destruct (_ || _); [done|]. destruct (_ <? 200)%Z; [|by rewrite Hf].
  by destruct (s_state t).
Qed.

Lemma respond_after_final_witness :
  let m := tx_run [tx_pkt INVITE; LRespond 0 (tx_response 486 INVITE)] in
  Respond (H := ok_sender) 0 (tx_response 180 INVITE) m = (Err ErrTxTerminated, m).
Proof.
  intros m. destruct (heap m !! 0) as [[t|t]|] eqn:E; [by vm_compute in E| |by vm_compute in E].
  destruct (s_final t) as [f|] eqn:Ef; [|vm_compute in E; injection E as <-; by vm_compute in Ef].
  exact (respond_after_final ok_sender "10.0.0.1" 5060 m 0 t f (tx_response 180 INVITE) (run_reachable _ _ _ _) E Ef).
Defined.

(** The headers every ACK and CANCEL gets leave the Via and set the CSeq. *)
Lemma set_common_get src me dst :
  Headers_Get (set_common src me dst) "Via" = Headers_Get dst "Via" ∧
  ∀ c, cseq_of src = Some c → cseq_of (set_common src me dst) = Some (mkCSeq (Seq c) me).
Proof.
  unfold set_common. split.
  - rewrite Headers_Get_Set. change (CanonicalName "Via" == cname (HMaxForwards 70)) with false. cbv iota.
    destruct (cseq_of src) as [c|]; rewrite ?Headers_Get_Set; done.
  - intros c ->. unfold cseq_of. by rewrite !Headers_Get_Set.
Qed.

(** Copying headers keeps the ones found before. *)
Lemma copy_get n src h k x :
  Headers_Get h k = Some x → Headers_Get (copy_first n src h) k = Some x ∧ Headers_Get (copy_all n src h) k = Some x.
Proof.
  intros E. unfold copy_first, copy_all, Headers_Add.
  split; [destruct (Headers_Get src n)|]; by rewrite ?Headers_Get_app, E.
Qed.

(** C23: the ACK and the CANCEL a client builds for an INVITE carry its branch and
    sequence number, so they find the INVITE's server transaction. *)
Theorem ack_and_cancel_match (req : Request) (resp : Response) (v : Via) (c : CSeq) (ack : Request) :
  via_of (Req_headers req) = Some v → cseq_of (Req_headers req) = Some c → CSeq_Method c = INVITE →
  build_ack req resp = Some ack →
  inviteKey ack = serverTxKey req ∧ cseq_of (Req_headers ack) = Some (mkCSeq (Seq c) ACK) ∧
  inviteKey (build_cancel req) = serverTxKey req ∧
  cseq_of (Req_headers (build_cancel req)) = Some (mkCSeq (Seq c) CANCEL).
Proof.
  intros Hv Hc Hi Ha. unfold build_ack in Ha. rewrite Hv in Ha. injection Ha as <-.
  unfold inviteKey, serverTxKey, tx_key, viaBranch, cseq_method, build_cancel. rewrite Hv, Hc, Hi.
  unfold req_with_headers, via_of. cbn [Req_headers].
  rewrite !(proj1 (set_common_get _ _ _)), !(proj2 (set_common_get _ _ _) c Hc).
  assert (Headers_Get (Headers_Add [] (HVia v)) "Via" = Some (HVia v)) as E by done.
  pose proof (λ n src h E, proj1 (copy_get n src h "Via" (HVia v) E)) as E1.
  pose proof (λ n src h E, proj2 (copy_get n src h "Via" (HVia v) E)) as E2.
  rewrite !E1 by auto. done.
Qed.

Lemma ack_and_cancel_match_witness :
  ∃ ack, build_ack (tx_request INVITE) (tx_response 486 INVITE) = Some ack ∧
         inviteKey ack = serverTxKey (tx_request INVITE) ∧
         inviteKey (build_cancel (tx_request INVITE)) = serverTxKey (tx_request INVITE).
Proof.
  destruct (build_ack (tx_request INVITE) (tx_response 486 INVITE)) as [ack|] eqn:E; [|by vm_compute in E].
  exists ack. split; [done|].
  destruct (via_of (tx_headers INVITE "z9hG4bK1")) as [v|] eqn:Hv; [|by vm_compute in Hv].
  destruct (ack_and_cancel_match (tx_request INVITE) (tx_response 486 INVITE) v (mkCSeq 1 INVITE) ack Hv)
    as (H1 & _ & H2 & _); [by vm_compute|done|exact E|]. split; [exact H1|exact H2].
Defined.



(** ** Timers *)

Lemma run_step {A B} (x : M A) (k : A → M B) m : (x ≫= k) m = k (fst (x m)) (snd (x m)).
Proof. unfold mbind, state_bind. by destruct (x m). Qed.

(** A timeout arms no timer. *)
Lemma timeout_tasks p m : tasks (snd (timeout p m)) = tasks m.
Proof.
  assert (keeps (λ s, tasks s = tasks m) (timeout p)) as Hk; [|by apply Hk].
  assert (∀ (f : TxManager → TxManager), (∀ s, tasks (f s) = tasks s) → keeps (λ s, tasks s = tasks m) (modify f)) as Hmod.
  { intros f Hf. apply keeps_modify. intros s Hs. by rewrite Hf. }
  unfold timeout, deliver, finish, remove, put_tx, emit, get_client.
  repeat first [apply Hmod; done | keeps_step].
Qed.

(** The interval and the elapsed time of a client's retransmission goroutine,
    from one firing to the next: doubled up to the cap, until TimerF. *)
Inductive rearm (F cap : Z) : Z * Z → Z * Z → Prop :=
| rearm_next i e : (e + i < F)%Z → rearm F cap (i, e) (Z.min (i * 2) cap, (e + i)%Z).

(** A client's retransmissions are bounded.  A firing either arms nothing more or
    arms the next one as [rearm] says, and from a positive interval no chain of
    firings is longer than the time left to TimerF. *)
Theorem retransmission_ends (S : Sender) (m : TxManager) (p : nat) (i cap e : Z) :
  (tasks (snd (fire_retransmit (H := S) p i cap e m)) = tasks m ∨
   ∃ i' e', rearm (TimerF (cfg m)) cap (i, e) (i', e') ∧
            tasks (snd (fire_retransmit (H := S) p i cap e m)) = tasks m ++ [((now m + i')%Z, TRetransmit p i' cap e')]) ∧
  ∀ n F q, (0 < i)%Z → (0 < cap)%Z → nsteps (rearm F cap) n (i, e) q → n ≤ Z.to_nat (F - e).
Proof.
  split.
  - unfold fire_retransmit, retransmit_round, get_client. rewrite run_gets. destruct (heap m !! p) as [[t|t]|] eqn:Hp; [|by left..].
    destruct (c_stop t); [by left|]. destruct (over (c_state t)) eqn:Ho; [by left|].
    destruct (_ && _); [by left|]. rewrite (run_step (send (H := S) (MReq (c_req t)) (c_dst t))).
    assert (let m1 := snd (send (H := S) (MReq (c_req t)) (c_dst t) m) in
            heap m1 = heap m ∧ tasks m1 = tasks m ∧ cfg m1 = cfg m ∧ now m1 = now m) as (Hh & Ht & Hcfg & Hnow).
    { unfold send. by destruct (negb tp_set). }
    destruct (send (H := S) _ _ m) as [r m1]. cbn [fst snd] in *. rewrite run_gets, Hcfg.
    destruct (TimerF (cfg m) <=? e + i)%Z eqn:HF.
    + left. rewrite <-Ht. apply (timeout_tasks p m1).
    + right. exists (Z.min (i * 2) cap), (e + i)%Z. split; [constructor; lia|].
      unfold add_task, modify. cbn [snd with_tasks tasks]. by rewrite Ht, Hnow.
  - intros n F q. revert i e. induction n as [|n IH]; intros i e Hi Hc Hn; [lia|].
    inversion Hn as [|? ? [i' e'] ? Hr Hrest]; subst. inversion Hr; subst.
    apply IH in Hrest; lia.
Qed.

(** C24: no transaction waits for ever.  Whatever happened before, as long as the
    configured intervals are positive and each [Request] ran undisturbed, a client
    that is being sent again, a completed client and a server that has answered (an
    INVITE that was acknowledged) end when only time passes, in whichever order
    timers due together go off: the transaction is stopped, its key has left the
    table, and a client that was never answered has been told of the timeout. *)
Theorem waiting_transactions_end (S : Sender) (vh : str) (vp : Z) (ls : list label) (p : nat) (t : Tx) :
  forallb sane_label ls → heap (run (H := S) (NewTxManager vh vp) ls) !! p = Some t → unfinished t →
  inevitably (H := S) (ended p t) (run (H := S) (NewTxManager vh vp) ls).
Proof. intros Hls. by apply unfinished_ends_run. Qed.

Lemma waiting_transactions_end_witness :
  ∃ t, heap (tx_run [tx_pkt MESSAGE; tx_call INVITE]) !! 1 = Some t ∧
       inevitably (H := ok_sender) (ended 1 t) (tx_run [tx_pkt MESSAGE; tx_call INVITE]).
Proof.
  destruct (heap (tx_run [tx_pkt MESSAGE; tx_call INVITE]) !! 1) as [t|] eqn:E; [|by vm_compute in E].
  exists t. split; [done|].
  apply (waiting_transactions_end ok_sender "10.0.0.1" 5060 [tx_pkt MESSAGE; tx_call INVITE] 1 t); [by vm_compute|exact E|].
  vm_compute in E. injection E as <-. by vm_compute.
Defined.

(** C25: the schedule of an unanswered request, to the nanosecond.  After a
    [Request] at time [t0], whatever the manager held before, as long as only time
    passes: at every time of [resend_times] that is over the transaction's timer went
    off and the request was passed to the transport again, addressed to its
    destination; its timer sends it at no other time, the one timer it has is set to
    the next time of the list, and at the last time, which is TimerF or less than
    one capped interval later, the client is told of the timeout and leaves the
    table, not before. *)
Theorem unanswered_request_schedule (S : Sender) (vh : str) (vp : Z) (ls : list label)
    (req : Request) (dst : Addr) (b c : str) (p : nat) (m1 m' : TxManager) :
  let m := run (H := S) (NewTxManager vh vp) ls in
  forallb sane_label ls → (T1 (cfg m) ≤ T2 (cfg m))%Z →
  TxManager_Request (H := S) req dst b c m = (Ok p, m1) → rtc (elapse (H := S)) m1 m' →
  ∃ t D, heap m1 !! p = Some (CTx t) ∧
    let T := resend_times (cfg m) (c_req t) in let cap := retransmit_cap (cfg m) (c_req t) in
    last T = Some D ∧ (TimerF (cfg m) ≤ D)%Z ∧ (0 < TimerF (cfg m) → D < TimerF (cfg m) + cap)%Z ∧
    (∀ o, o ∈ T → (now m + o < now m')%Z → resent_at (H := S) m1 m' p t (now m + o)) ∧
    (∀ a s τ, rtc (elapse (H := S)) m1 a → sent_again (H := S) p t τ a s → ∃ o, o ∈ T ∧ τ = (now m + o)%Z) ∧
    ((now m' < now m + D)%Z → heap m' !! p = Some (CTx t) ∧
       ∃ o, o ∈ T ∧ (now m' ≤ now m + o)%Z ∧
            (∀ o', o' ∈ T → (o' < o)%Z → passed (H := S) m1 p t (now m) m' o') ∧
            (∃ i e, ((now m + o)%Z, TRetransmit p i cap e) ∈ tasks m') ∧
            ∀ d k, (d, k) ∈ tasks m' → task_ptr k = p → d = (now m + o)%Z) ∧
    ((now m + D < now m')%Z → gave_up p t m').
Proof.
  intros m Hls Hcap Hreq Hel.
  assert (timed_inv m) as Hm by (apply timed_run; [split; [apply tx_inv_init|apply timed_init]|done]).
  assert (timed_inv m1) as Hm1.
  { replace m1 with (exec (H := S) m (LRequest req dst b c)); [by apply (timed_run m [LRequest req dst b c])|].
    unfold exec. cbn [step]. unfold mbind, state_bind. by rewrite Hreq. }
  pose proof (Request_sent_tp _ _ _ _ _ _ _ Hreq) as Htp.
  destruct (Request_started_state req dst b c m p m1 Hreq) as (Hp & Hcfg & Hnow & t & Ht & Hst & Hr & Hts).
  pose proof (td_sane _ _ (proj2 Hm)) as Hsane. unfold sane in Hsane. num_hyps.
  set (cap := retransmit_cap (cfg m) (c_req t)) in *.
  assert (T1 (cfg m) ≤ cap)%Z as Hi by (unfold cap, retransmit_cap; case_match; lia).
  assert (0 < T1 (cfg m) ≤ T1 (cfg m))%Z as Hu by lia. pose proof (enough_all (TimerF (cfg m)) _ (proj1 Hu)) as Hn.
  destruct (times_from_last _ _ cap _ _ _ Hu Hi Hn) as (D & HD & HF & _ & Hlt). exists t, D. split; [done|]. cbv zeta. fold cap.
  assert (∀ s, rtc (elapse (H := S)) m1 s →
    on_schedule (passed m1 p t (now m) s) (resend_times (cfg m) (c_req t)) (now m) (TimerF (cfg m)) cap (T1 (cfg m)) p t s) as Hs.
  { intros s Hs. apply (elapses_schedule m1 _ _ _ _ _ _ _ m1); [done|apply rtc_refl|done|done|by rewrite Hcfg|done|done|].
    apply (waits _ _ _ _ _ _ _ _ _ [] (Datatypes.S (Z.to_nat (TimerF (cfg m) / T1 (cfg m)))) (T1 (cfg m)) 0 (tasks m)); try done; [lia| |].
    - rewrite Hts, Permutation_app_comm. cbn. done.
    - apply Forall_forall. intros [d k] Hin. apply (known_run vh vp ls) in Hin as [u Hx]. fold m in Hx.
      apply (proj1 Hm) in Hx as [Hlt' _]. cbn. lia. }
  split_and!; [done|done|done|..].
  - intros o Ho Hpast. by apply (schedule_passed _ _ _ _ _ _ _ _ _ o (Hs m' Hel)).
  - intros a s τ Ha Hsent. by eapply schedule_only; [apply Hs|].
  - intros Hb. by eapply schedule_waiting; [..|apply Hs].
  - intros Ha. by eapply schedule_over; [..|apply Hs].
Qed.

(** The one timer of a manager goes off. *)
Definition next_round (m : TxManager) : TxManager :=
  match tasks m with [(d, _)] => run (H := ok_sender) m [LTick (d - now m); LFire 0] | _ => m end.

Lemma next_round_elapse m : length (tasks m) = 1 → elapse (H := ok_sender) m (next_round m).
Proof.
  unfold next_round. destruct (tasks m) as [|[d k] [|]] eqn:E; try done. intros _.
  apply (elapse_task m 0 d k); [by rewrite E|]. intros d' k'. rewrite E, list_elem_of_singleton. intros [= -> _]. done.
Qed.

Lemma unanswered_request_schedule_witness :
  let m := tx_run [] in
  let m1 := snd (TxManager_Request (H := ok_sender) (tx_request INVITE) (tx_addr "10.0.0.9") [] [] m) in
  ∃ t, heap m1 !! 0 = Some (CTx t) ∧ last (resend_times (cfg m) (c_req t)) = Some (32500 * Millisecond)%Z ∧
       resent_at (H := ok_sender) m1 (next_round (next_round m1)) 0 t (500 * Millisecond).
Proof.
  intros m m1.
  destruct (unanswered_request_schedule ok_sender "10.0.0.1" 5060 [] (tx_request INVITE) (tx_addr "10.0.0.9") [] [] 0 m1
    (next_round (next_round m1))) as (t & D & Ht & HD & _ & _ & Hsent & _).
  - by vm_compute.
  - apply Z.leb_le. by vm_compute.
  - vm_compute. reflexivity.
  - eapply rtc_l; [|apply rtc_once]; apply next_round_elapse; by vm_compute.
  - exists t. split; [exact Ht|]. clear HD. vm_compute in Ht. injection Ht as <-. split; [by vm_compute|].
    apply (Hsent (500 * Millisecond)%Z); [apply (bool_decide_unpack _); by vm_compute|apply Z.ltb_lt; by vm_compute].
Defined.

(** An INVITE that got a provisional response waits for no timer of its
    transaction: ending it is left to the caller. *)
Lemma proceeding_invite_waits :
  let m := tx_run [tx_call INVITE; tx_answer 180 INVITE; LTick (500 * Millisecond); LFire 0] in
  tasks m = [] ∧ size (txs m) = 1 ∧ client_state m 0 = Some TxStateProceeding.
Proof. split_and!; by vm_compute. Qed.

(** ** Source addresses *)

Lemma sameHost_spec a b :
  sameHost a b = true ↔ eq_fold a b ∨ ∃ ip, ParseIP a = Some ip ∧ ParseIP b = Some ip.
Proof.
  unfold sameHost. destruct (EqualFold a b) eqn:E.
  - apply EqualFold_true in E. split; [by left|done].
  - apply EqualFold_false in E. split.
    + destruct (ParseIP a) as [x|], (ParseIP b) as [y|]; try done. intros Hxy. apply bool_decide_eq_true in Hxy as ->.
      right. by exists y.
    + intros [?|(ip & -> & ->)]; [done|]. by apply bool_decide_eq_true.
Qed.

(** [sameAddr], which decides whether a CANCEL comes from the sender of the
    INVITE, is an equivalence, although it compares hosts as text without case or
    as IP addresses in any of their notations. *)
Theorem sameAddr_equivalence : Equivalence (λ a b, sameAddr a b = true).
Proof.
  assert (∀ a b, sameAddr a b = true ↔ Addr_Port a = Addr_Port b ∧ sameHost (Addr_Host a) (Addr_Host b) = true) as E.
  { intros a b. unfold sameAddr. case_test.
    - subst. split; [|done]. intros _. split; [done|]. by apply sameHost_spec; left.
    - by rewrite andb_true_iff, bool_decide_eq_true. }
  split; repeat intro; rewrite ?E, ?sameHost_spec in *.
  - split; [done|by left].
  - destruct H as [H1 [H2|(ip & ? & ?)]]; (split; [done|]); [by left|right; by exists ip].
  - destruct H as [H1 H2], H0 as [H3 H4]. split; [congruence|].
    destruct H2 as [H2|(ip & H5 & H6)], H4 as [H4|(ip' & H7 & H8)].
    + left. by transitivity (Addr_Host y).
    + right. exists ip'. by rewrite H2.
    + right. exists ip. by rewrite <-H4.
    + right. exists ip. split; congruence.
Qed.

(** ** Outgoing requests *)

(** The header [x] named [n], for a message that has none of that name. *)
Definition absent (h : Headers) (n : str) (x : Header) : Headers := if bool_decide (Headers_Get h n = None) then [x] else [].

(** Setting a header whose name is missing appends it. *)
Lemma set_missing h hdr n :
  n = Header_Name hdr →
  (if bool_decide (Headers_Get h n = None) then Headers_Set h hdr else h) = h ++ absent h n hdr.
Proof.
  intros ->. unfold absent. case_test; [|by rewrite app_nil_r].
  destruct (Headers_Set_split h hdr) as [[_ ->]|(a & x & b & -> & Hx & _ & _)]; [done|]. exfalso.
  rewrite Headers_Get_app in Heq. destruct (Headers_Get a _); [done|]. simpl in Heq. by rewrite bool_decide_true in Heq.
Qed.

(** Headers of other names do not count, one of the name does. *)
Definition none_of (k : str) (l : Headers) : Prop := Headers_Get l k = None.

Lemma none_of_absent h n x k : (cname x == CanonicalName k) = false → none_of k (absent h n x).
Proof. unfold none_of, absent. intros E. destruct (Headers_Get h n); [done|]. cbn. by rewrite E. Qed.

Lemma none_of_app k l1 l2 : none_of k l1 → none_of k l2 → none_of k (l1 ++ l2).
Proof. unfold none_of. intros E1 E2. by rewrite Headers_Get_app, E1. Qed.

Lemma absent_app h l n x : none_of n l → absent (h ++ l) n x = absent h n x.
Proof. unfold none_of, absent. intros E. rewrite Headers_Get_app, E. by destruct (Headers_Get h n). Qed.

Lemma absent_found h n x l1 l2 :
  (cname x == CanonicalName n) = true → is_Some (Headers_Get (h ++ l1 ++ absent h n x ++ l2) n).
Proof.
  intros E. rewrite !Headers_Get_app. destruct (Headers_Get h n) as [y|] eqn:Hy; [by eexists|].
  destruct (Headers_Get l1 n); [by eexists|]. unfold absent. rewrite Hy. cbn. rewrite E. by eexists.
Qed.

(** C26: [Request] completes a message before sending it: behind the headers that are
    there, which stay as they are, it adds exactly the missing ones among a Via (of
    the manager's address and the transport's protocol, with the new branch), a
    Max-Forwards of 70, a Call-ID (the new one) and a CSeq (number 1, the request's
    method), in that order. *)
Theorem prepared_request_complete (S : Sender) (req : Request) (branch callid vh : str) (vp : Z) :
  let h0 := Req_headers req in
  let via := mkVia ("SIP/2.0/" ++ defaultTransport (H := S)) [] vh vp (Some [mkParam "branch" branch true]) in
  let h := h0 ++ absent h0 "Via" (HVia via) ++ absent h0 "Max-Forwards" (HMaxForwards 70) ++
           absent h0 "Call-ID" (HGeneric "Call-ID" callid) ++ absent h0 "CSeq" (HCSeq (mkCSeq 1 (Req_Method req))) in
  prepare_request (H := S) req branch callid vh vp = req_with_headers req h ∧
  (∀ n, n ∈ [lit "Via"; lit "Max-Forwards"; lit "Call-ID"; lit "CSeq"] → is_Some (Headers_Get h n)).
Proof.
  intros h0 via h. split.
  - unfold prepare_request. fold h0. cbv zeta.
    assert (bool_decide (via_of h0 = None) && bool_decide (Headers_Get h0 "Via" = None) = bool_decide (Headers_Get h0 "Via" = None)) as ->.
    { unfold via_of. destruct (Headers_Get h0 "Via"); [by rewrite andb_comm|done]. }
    change (Headers_Add h0 _) with (h0 ++ [HVia via]).
    assert ((if bool_decide (Headers_Get h0 "Via" = None) then h0 ++ [HVia via] else h0) = h0 ++ absent h0 "Via" (HVia via)) as ->.
    { unfold absent. destruct (bool_decide _); [done|by rewrite app_nil_r]. }
    rewrite (set_missing _ (HMaxForwards 70)), (set_missing _ (NewHeader "Call-ID" callid)), (set_missing _ (HCSeq _)) by done.
    rewrite <-!app_assoc, !absent_app by (repeat apply none_of_app; by apply none_of_absent). done.
  - intros n Hn. rewrite !elem_of_cons in Hn. destruct Hn as [->|[->|[->|[->|?%not_elem_of_nil]]]]; [..|done]; unfold h.
    + by apply (absent_found h0 "Via" _ []).
    + by apply absent_found.
    + rewrite (app_assoc (absent h0 "Via" _)). by apply absent_found.
    + rewrite (app_assoc (absent h0 "Via" _)), (app_assoc (_ ++ _)), <-(app_nil_r (absent h0 "CSeq" _)). by apply absent_found.
Qed.

(** ** The connection pool *)

(** After a tick of the janitor every pooled connection was used within the
    idle timeout, for any sequence of pool operations before: connections that
    stay idle are closed and forgotten. *)
Theorem janitor_leaves_no_idle (p0 p : Pool) (now : Z) (keys : list str) (k : str) (c : nat) :
  tracked p0 → pool_reachable p0 p → (∀ k, is_Some (connLastUse p !! k) → k ∈ keys) →
  tcpConns (janitor_tick now keys p) !! k = Some c →
  ∃ last, connLastUse (janitor_tick now keys p) !! k = Some last ∧ (now - last ≤ idleTimeout p)%Z.
Proof. intros H0 Hp. apply janitor_evicts. by eapply pool_tracked. Qed.

Definition pool_ex : Pool := fst (getStreamConn_start (getStreamConn_finish (new_pool 5 0 ∅) "k" (Ok 1) 3) "k" 0).

Lemma janitor_leaves_no_idle_witness :
  ∃ last, connLastUse (janitor_tick 8 [lit "k"] pool_ex) !! lit "k" = Some last ∧ (8 - last ≤ idleTimeout pool_ex)%Z.
Proof.
  apply (janitor_leaves_no_idle (new_pool 5 0 ∅) pool_ex 8 [lit "k"] "k" 1).
  - apply new_pool_tracked.
  - apply (pool_next _ _ (OStart "k" 0)). apply (pool_next _ _ (OFinish "k" (Ok 1) 3)). constructor.
  - intros k [z Hz]. change (connLastUse pool_ex) with (<[lit "k" := 3%Z]> (∅ : gmap str Z)) in Hz.
    destruct (decide (lit "k" = k)) as [<-|Hne]; [by left|]. by rewrite lookup_insert_ne in Hz.
  - by vm_compute.
Defined.

(** A datagram leaves only for an address of the socket's family: the literal
    destination itself (or its 4-byte form on an unspecified IPv6 socket), else
    the first resolved address; nothing else is sent, and without a UDP socket
    the send fails. *)
Theorem udp_send_target (o : net_ops) (dst : Addr) (msg : Message) (ip : option IP) (port : Z) (data : str) (n : str) :
  Send o n dst msg = Ok (Datagram ip port data) →
  ToLower n = lit "udp" ∧ data = render msg ∧ port = Addr_Port dst ∧ drop_hook o msg dst = false ∧
  ∃ local, udpConn o = Some local ∧
    (ip = pickAddrFamily (Some local) (ParseIP (Addr_Host dst)) ∧ is_Some ip ∨
     pickAddrFamily (Some local) (ParseIP (Addr_Host dst)) = None ∧
     ∃ a rest, LookupIP o (Addr_Host dst) = Ok (a :: rest) ∧ ip = pickAddrFamily (Some local) (Some a)).
Proof.
  unfold Send. case_test; [|case_match; [|done]; by destruct (StreamWrite _ _ _ _)].
  destruct (udpConn o) as [local|]; [|done]. destruct (drop_hook o msg dst) eqn:Hd; [done|].
  destruct (pickAddrFamily (Some local) (ParseIP (Addr_Host dst))) as [a|] eqn:Hp.
  - cbn [mbind result_bind]. destruct (WriteToUDP _ _ _ _); [|done]. intros [= <- <- <-].
    split_and!; try done. exists local. split; [done|]. left. rewrite Hp. by split; [|eexists].
  - destruct (LookupIP o (Addr_Host dst)) as [[|a rest]|] eqn:Hl; try done. cbn [mbind result_bind].
    destruct (WriteToUDP _ _ _ _); [|done]. intros [= <- <- <-]. split_and!; try done.
    exists local. split; [done|]. right. split; [done|]. by exists a, rest.
Qed.

Definition ex_net : net_ops :=
  mkNetOps (Some (Some (replicate 16 0%N))) (λ _ _, false) (λ _, Err ErrOther) (λ _ _ _, Ok ()) (λ _ _ _, Ok ()).

Lemma udp_send_target_witness :
  drop_hook ex_net (MReq (tx_request INVITE)) (tx_addr "10.0.0.9") = false.
Proof.
  refine (proj1 (proj2 (proj2 (proj2 (udp_send_target ex_net (tx_addr "10.0.0.9") (MReq (tx_request INVITE))
    (Some [10; 0; 0; 9]%N) 5060 (render (MReq (tx_request INVITE))) "UDP" _))))). by vm_compute.
Defined.

(** ** Schedules in which the manager goes wrong

    Runs of the model, evaluated. *)

(** The methods of the requests sent so far. *)
Definition sent_methods (m : TxManager) : list Method :=
  omap (λ e, match e with ESend (MReq r) _ _ => Some (Req_Method r) | _ => None end) (trace m).

Definition callbacks (m : TxManager) : nat :=
  length (List.filter (λ e, match e with EOnRequest _ _ _ => true | _ => false end) (trace m)).

(** The final response is handled between the send and the end of [Request]: the
    assignment of Calling undoes Completed, the INVITE is sent again after its
    final response, and a second final response is delivered. *)
Lemma early_response_lost :
  let m := tx_run [LSend (tx_request INVITE) (tx_addr "10.0.0.9") [] []; tx_answer 486 INVITE; LStarted 0;
                   LTick (500 * Millisecond); LFire 1; tx_answer 486 INVITE] in
  sent_methods m = [INVITE; ACK; INVITE; ACK] ∧ outcomes 0 m = 2.
Proof. split; by vm_compute. Qed.

(** The INVITE transaction 0 is confirmed and finishes; the INVITE comes again and
    makes transaction 1; TimerJ of transaction 0 then takes transaction 1 out of
    the table, so that the next retransmission reaches the handler again. *)
Lemma stale_timer_removes_other :
  let m := tx_run [tx_pkt INVITE; LRespond 0 (tx_response 486 INVITE); tx_pkt ACK; LTick (2 * Second); LFire 2;
                   tx_pkt INVITE; LTick (30 * Second); LFire 1] in
  txs m = ∅ ∧ (match heap m !! 1 with Some (STx t) => negb (s_stop t) | _ => false end) = true ∧
  callbacks (exec (H := ok_sender) m (tx_pkt INVITE)) = 3.
Proof. split_and!; by vm_compute. Qed.

(** A failure response to a request that is no INVITE is acknowledged. *)
Lemma non_invite_acked :
  sent_methods (tx_run [tx_call MESSAGE; tx_answer 404 MESSAGE]) = [MESSAGE; ACK].
Proof. by vm_compute. Qed.

(** A 2xx after another final response is delivered when the request is no INVITE. *)
Lemma non_invite_two_outcomes :
  outcomes 0 (tx_run [tx_call MESSAGE; tx_answer 404 MESSAGE; tx_answer 200 MESSAGE]) = 2.
Proof. by vm_compute. Qed.

(** When the final response to an INVITE cannot be sent no timer is armed: the
    transaction stays in the table for good. *)
Lemma failed_final_leaks :
  let m := run (H := bad_sender) tx_start [tx_pkt INVITE; LRespond 0 (tx_response 486 INVITE)] in
  tasks m = [] ∧ size (txs m) = 1.
Proof. split; by vm_compute. Qed.
